(** * Restaurant inventory and ordering: a shallow embedding of [database.py]
    and of the CSV export of [app.py].

    The SQLite store is a record of five tables (lists of rows, in rowid
    order) and of the AUTOINCREMENT counters.  A [sqlite3] connection is a
    pair of the committed store and the working store of the open
    transaction; the Python functions are written in a small monad over the
    connection with three ways of leaving a block: a value, a [return], or an
    exception.  REAL columns and Python floats are binary64 numbers
    ([PrimFloat.float]); Python's [round(x, 2)] is the correctly rounded
    decimal rounding of CPython. *)

From Stdlib Require Import ZArith List String Ascii Bool Floats Lia Permutation.
From Stdlib Require Uint63.
Import ListNotations.
Open Scope string_scope.
Open Scope list_scope.
Open Scope Z_scope.

Set Implicit Arguments.
Set Warnings "-inexact-float".

(* ================================================================== *)
(** * Python numbers *)
(* ================================================================== *)

Module PyFloat.

(** [num / den] rounded to the nearest integer, ties to the even one. *)
Definition round_half_even (num den : Z) : Z :=
  let q := num / den in
  let r := num mod den in
  match (2 * r ?= den) with
  | Lt => q
  | Gt => q + 1
  | Eq => if Z.even q then q else q + 1
  end.

(** The number of hundredths nearest to [m * 2^e] (exact arithmetic). *)
Definition hundredths (m : positive) (e : Z) : Z :=
  match e with
  | Zneg p => round_half_even (100 * Zpos m) (Z.pow_pos 2 p)
  | _ => 100 * Zpos m * 2 ^ e
  end.

Definition SF_of_Z (s : bool) (n : Z) : spec_float :=
  match n with
  | Z0 => S754_zero s
  | Zpos p => S754_finite s p 0
  | Zneg p => S754_finite s p 0
  end.

(** [round(x, 2)]: CPython prints the exact value of [x] with two
    decimals (round-half-even) and reads the decimal back as the nearest
    binary64; NaN, infinities and zeros are returned as they are. *)
Definition round2 (x : float) : float :=
  match Prim2SF x with
  | S754_finite s m e =>
      SF2Prim (SFdiv prec emax (SF_of_Z s (hundredths m e))
                     (S754_finite false 100 0))
  | _ => x
  end.

(** The binary64 nearest to the integer [n]. *)
Definition to_float (n : Z) : float :=
  SF2Prim (binary_normalize prec emax n 0 false).

(** [float(n)] for a Python int: the nearest binary64, [OverflowError]
    (here [None]) when it is out of range. *)
Definition of_int (n : Z) : option float :=
  match binary_normalize prec emax n 0 false with
  | S754_infinity _ => None
  | _ => Some (to_float n)
  end.

(** [0 <= x] as Python evaluates it (false on NaN). *)
Definition nonneg (x : float) : bool := (0 <=? x)%float.

End PyFloat.

(** [vatRate = 0.21] *)
Definition vatRate : float := 0.21%float.

(** [allowed_units = {"g", "pc", "ml"}] *)
Definition allowed_units : list string := ["g"; "pc"; "ml"].

(* ================================================================== *)
(** * The tables of [init_db] *)
(* ================================================================== *)

(** [stock_inventory]: [quantity_in_stock REAL DEFAULT 0] is the one
    nullable number of the schema ([None] is NULL). *)
Record stock_row := mk_stock {
  stock_id : Z;
  ingredient_name : string;
  quantity_in_stock : option float;
  stock_unit : string
}.

(** [menu_inventory] *)
Record menu_row := mk_menu {
  menu_row_id : Z;
  dish_name : string;
  dish_price : float
}.

(** [dish_ingredients] *)
Record recipe_row := mk_recipe {
  recipe_id : Z;
  menu_id : Z;
  ingredient_id : Z;
  quantity_needed : float
}.

(** [orders]; [order_date] is the text written by CURRENT_TIMESTAMP. *)
Record order_row := mk_order {
  order_row_id : Z;
  order_date : string;
  subtotal : float;
  vat_rate : float;
  vat_amount : float;
  total : float
}.

(** [order_items] *)
Record item_row := mk_item {
  item_id : Z;
  order_id : Z;
  dish_id : Z;
  quantity : Z;
  line_price : float
}.

(** The AUTOINCREMENT counters of [sqlite_sequence], one per table. *)
Record sequences := mk_seq {
  seq_stock : Z;
  seq_menu : Z;
  seq_recipe : Z;
  seq_orders : Z;
  seq_items : Z
}.

Record database := mk_db {
  stock_inventory : list stock_row;
  menu_inventory : list menu_row;
  dish_ingredients : list recipe_row;
  orders : list order_row;
  order_items : list item_row;
  sqlite_sequence : sequences
}.

Definition empty_db : database :=
  mk_db [] [] [] [] [] (mk_seq 0 0 0 0 0).

(* ================================================================== *)
(** * Messages and exceptions *)
(* ================================================================== *)

(** The exceptions raised by [sqlite3] and by the interpreter. *)
Inductive exn_kind :=
| IntegrityError        (* UNIQUE, NOT NULL or FOREIGN KEY constraint failed *)
| ProgrammingError      (* Cannot operate on a closed database. *)
| OperationalError      (* storage failure *)
| OverflowError         (* Python int too large for SQLite INTEGER or float *)
| TypeError             (* '<' not supported between 'NoneType' and 'float' *)
| KeyError.

(** The second component of the pairs the functions return: one constructor
    per string literal or f-string of the source, with the f-string's
    arguments. *)
Inductive message :=
| Quantity_must_be_greater_than_0
| Unit_must_be_one_of_allowed
| Ingredient_added
| Ingredient_already_exists
| Ingredient_updated
| Ingredient_not_found
| Ingredient_deleted
| Ingredient_id_not_found (ingredient_id : Z)
| Price_must_be_greater_than_0
| Dish_created (name : string)
| Dish_already_exists
| Invalid_unit_for (name : string)
| Quantity_needed_must_be_greater_than_0_for (name : string)
| Unit_mismatch (name existing given : string)
| Dish_id_not_found_update (dish_id : Z)     (* "Dish {dish_id} not found" *)
| Dish_updated
| Dish_deleted
| Dish_not_found
| Quantity_must_be_ge_1
| Dish_id_not_found (dish_id : Z)            (* "Dish id {dish_id} not found" *)
| Dish_has_no_ingredients (name : string)
| Not_enough (name : string) (needed : float) (unit : string)
             (have : option float)
| Order_id (id : Z)                          (* [return True, order_id] *)
| Exception_text (k : exn_kind).             (* [str(e)] *)

Inductive exn :=
| Raised (k : exn_kind)
| ValueError (m : message).

(** [str(e)] *)
Definition str (e : exn) : message :=
  match e with
  | Raised k => Exception_text k
  | ValueError m => m
  end.

(* ================================================================== *)
(** * Connections and the control monad *)
(* ================================================================== *)

(** A Python int is bound as a 64-bit SQLite INTEGER or the call raises
    [OverflowError]. *)
Definition sql_int (n : Z) : bool :=
  (- 2 ^ 63 <=? n) && (n <? 2 ^ 63).

(** A connection: the committed store, the store as the open transaction
    sees it, whether [close()] was called, and the number of write
    statements the storage still accepts before it fails ([None]: it never
    fails). *)
Record connection := mk_conn {
  disk : database;
  work : database;
  closed : bool;
  writes_left : option nat
}.

(** How a block ends: it falls through with a value, it executes [return],
    or it raises. *)
Inductive ctl (R A : Type) :=
| Val (a : A)
| Ret (r : R)
| Exc (e : exn).
Arguments Val {R A} a.
Arguments Ret {R A} r.
Arguments Exc {R A} e.

Definition M (R A : Type) : Type := connection -> ctl R A * connection.

Definition ret {R A} (a : A) : M R A := fun c => (Val a, c).
Definition return_ {R A} (r : R) : M R A := fun c => (Ret r, c).
Definition raise {R A} (e : exn) : M R A := fun c => (Exc e, c).

Definition bind {R A B} (m : M R A) (k : A -> M R B) : M R B :=
  fun c =>
    match m c with
    | (Val a, c') => k a c'
    | (Ret r, c') => (Ret r, c')
    | (Exc e, c') => (Exc e, c')
    end.

Declare Scope py_scope.
Delimit Scope py_scope with py.
Notation "x <- m ;; k" := (bind m (fun x => k))
  (at level 61, m at next level, right associativity) : py_scope.
Notation "m ;;; k" := (bind m (fun _ => k))
  (at level 61, right associativity) : py_scope.
Open Scope py_scope.

(** [get_connection()] *)
Definition get_connection (faults : option nat) (db : database) : connection :=
  mk_conn db db false faults.

(** [conn.close()]: the pending transaction is rolled back. *)
Definition close {R} : M R unit :=
  fun c => (Val tt, mk_conn (disk c) (disk c) true (writes_left c)).

Definition commit {R} : M R unit :=
  fun c =>
    if closed c then (Exc (Raised ProgrammingError), c)
    else (Val tt, mk_conn (work c) (work c) false (writes_left c)).

Definition rollback {R} : M R unit :=
  fun c =>
    if closed c then (Exc (Raised ProgrammingError), c)
    else (Val tt, mk_conn (disk c) (disk c) false (writes_left c)).

(** [with conn: body]: commit when the block ends without an exception
    (also by [return]), roll back and re-raise otherwise. *)
Definition with_conn {R A} (body : M R A) : M R A :=
  fun c =>
    match body c with
    | (Exc e, c') =>
        match rollback (R := R) c' with
        | (Exc e', c'') => (Exc e', c'')
        | (_, c'') => (Exc e, c'')
        end
    | (r, c') =>
        match commit (R := R) c' with
        | (Exc e', c'') => (Exc e', c'')
        | (_, c'') => (r, c'')
        end
    end.

(** [try: body except ...: handler] *)
Definition try_except {R A} (body : M R A) (handler : exn -> M R A) : M R A :=
  fun c =>
    match body c with
    | (Exc e, c') => handler e c'
    | rc => rc
    end.

(** [try: body finally: fin] *)
Definition try_finally {R A} (body : M R A) (fin : M R unit) : M R A :=
  fun c =>
    let (r, c') := body c in
    match fin c' with
    | (Exc e, c'') => (Exc e, c'')
    | (_, c'') => (r, c'')
    end.

(** A SELECT: it reads the working store. *)
Definition query {R A} (q : database -> A) : M R A :=
  fun c =>
    if closed c then (Exc (Raised ProgrammingError), c)
    else (Val (q (work c)), c).

(** A SELECT with int parameters: binding an int outside the 64-bit range
    raises [OverflowError]. *)
Definition query_int {R A} (n : Z) (q : Z -> database -> A) : M R A :=
  fun c =>
    if closed c then (Exc (Raised ProgrammingError), c)
    else if sql_int n then (Val (q n (work c)), c)
    else (Exc (Raised OverflowError), c).

(** An INSERT, UPDATE or DELETE: it changes the working store or raises,
    in which case the statement has no effect. *)
Definition execute {R A} (stmt : database -> exn + A * database) : M R A :=
  fun c =>
    if closed c then (Exc (Raised ProgrammingError), c)
    else
      match writes_left c with
      | Some O => (Exc (Raised OperationalError), c)
      | w =>
          let w' := match w with Some (S n) => Some n | _ => w end in
          match stmt (work c) with
          | inl e => (Exc e, mk_conn (disk c) (work c) false w')
          | inr (a, db') => (Val a, mk_conn (disk c) db' false w')
          end
      end.

(** What the caller of a public function observes. *)
Inductive outcome :=
| Returned (ok : bool) (m : message)
| Uncaught (e : exn).

Definition call (faults : option nat) (db : database)
           (f : M (bool * message) (bool * message)) : outcome * database :=
  let (r, c) := f (get_connection faults db) in
  (match r with
   | Val (ok, m) | Ret (ok, m) => Returned ok m
   | Exc e => Uncaught e
   end, disk c).

(* ================================================================== *)
(** * Values bound to SQL parameters *)
(* ================================================================== *)

(** A Python float is bound as a REAL; SQLite turns a NaN into NULL. *)
Definition sql_real (x : float) : option float :=
  if is_nan x then None else Some x.

(** AUTOINCREMENT: one more than the largest rowid ever used. *)
Definition next_id (seq : Z) (ids : list Z) : Z :=
  Z.max seq (fold_right Z.max 0 ids) + 1.

Definition set_stock (db : database) (l : list stock_row) (s : Z) : database :=
  let q := sqlite_sequence db in
  mk_db l (menu_inventory db) (dish_ingredients db) (orders db) (order_items db)
        (mk_seq s (seq_menu q) (seq_recipe q) (seq_orders q) (seq_items q)).

Definition set_menu (db : database) (l : list menu_row) (s : Z) : database :=
  let q := sqlite_sequence db in
  mk_db (stock_inventory db) l (dish_ingredients db) (orders db) (order_items db)
        (mk_seq (seq_stock q) s (seq_recipe q) (seq_orders q) (seq_items q)).

Definition set_recipes (db : database) (l : list recipe_row) (s : Z) : database :=
  let q := sqlite_sequence db in
  mk_db (stock_inventory db) (menu_inventory db) l (orders db) (order_items db)
        (mk_seq (seq_stock q) (seq_menu q) s (seq_orders q) (seq_items q)).

Definition set_orders (db : database) (l : list order_row) (s : Z) : database :=
  let q := sqlite_sequence db in
  mk_db (stock_inventory db) (menu_inventory db) (dish_ingredients db) l (order_items db)
        (mk_seq (seq_stock q) (seq_menu q) (seq_recipe q) s (seq_items q)).

Definition set_items (db : database) (l : list item_row) (s : Z) : database :=
  let q := sqlite_sequence db in
  mk_db (stock_inventory db) (menu_inventory db) (dish_ingredients db) (orders db) l
        (mk_seq (seq_stock q) (seq_menu q) (seq_recipe q) (seq_orders q) s).

(* ================================================================== *)
(** * The SQL statements of [database.py] *)
(* ================================================================== *)

Module Sql.

Definition integrity {A} : exn + A := inl (Raised IntegrityError).
Definition overflow {A} : exn + A := inl (Raised OverflowError).

(** SELECT ... FROM stock_inventory WHERE ingredient_name = ? (fetchone) *)
Definition stock_by_name (name : string) (db : database) : option stock_row :=
  find (fun r => String.eqb (ingredient_name r) name) (stock_inventory db).

(** SELECT id, dish_name, dish_price FROM menu_inventory WHERE id = ? *)
Definition dish_by_id (id : Z) (db : database) : option menu_row :=
  find (fun r => menu_row_id r =? id) (menu_inventory db).

(** SELECT id FROM menu_inventory WHERE dish_name = ? *)
Definition dish_by_name (name : string) (db : database) : option menu_row :=
  find (fun r => String.eqb (dish_name r) name) (menu_inventory db).

(** INSERT INTO stock_inventory (ingredient_name, quantity_in_stock, unit):
    [ingredient_name] is UNIQUE. *)
Definition insert_stock (name : string) (qty : float) (unit : string)
           (db : database) : exn + (Z * database) :=
  if existsb (fun r => String.eqb (ingredient_name r) name) (stock_inventory db)
  then integrity
  else
    let id := next_id (seq_stock (sqlite_sequence db))
                      (map stock_id (stock_inventory db)) in
    inr (id, set_stock db
               (stock_inventory db ++ [mk_stock id name (sql_real qty) unit]) id).

(** UPDATE stock_inventory SET ingredient_name = ?, quantity_in_stock = ?,
    unit = ? WHERE id = ?; the value is [rowcount]. *)
Definition update_stock (name : string) (qty : float) (unit : string) (id : Z)
           (db : database) : exn + (Z * database) :=
  if negb (sql_int id) then overflow
  else
    let hit := fun r => stock_id r =? id in
    let n := Z.of_nat (List.length (filter hit (stock_inventory db))) in
    if (0 <? n)
       && existsb (fun r => negb (hit r) && String.eqb (ingredient_name r) name)
                  (stock_inventory db)
    then integrity
    else if 1 <? n then integrity   (* two rows would get the same name *)
    else
      inr (n, set_stock db
                (map (fun r => if hit r
                               then mk_stock (stock_id r) name (sql_real qty) unit
                               else r) (stock_inventory db))
                (seq_stock (sqlite_sequence db))).

(** UPDATE stock_inventory SET quantity_in_stock = ? WHERE id = ?; the id
    is one read from the table. *)
Definition update_quantity (qty : float) (id : Z)
           (db : database) : exn + (unit * database) :=
  inr (tt, set_stock db
             (map (fun r => if stock_id r =? id
                            then mk_stock (stock_id r) (ingredient_name r)
                                          (sql_real qty) (stock_unit r)
                            else r) (stock_inventory db))
             (seq_stock (sqlite_sequence db))).

(** DELETE FROM stock_inventory WHERE id = ?: a recipe row that
    references the ingredient makes the foreign key fail. *)
Definition delete_stock (id : Z) (db : database) : exn + (Z * database) :=
  if negb (sql_int id) then overflow
  else
    let hit := fun r => stock_id r =? id in
    let n := Z.of_nat (List.length (filter hit (stock_inventory db))) in
    if (0 <? n) && existsb (fun d => ingredient_id d =? id) (dish_ingredients db)
    then integrity
    else
      inr (n, set_stock db (filter (fun r => negb (hit r)) (stock_inventory db))
                        (seq_stock (sqlite_sequence db))).

(** INSERT INTO menu_inventory (dish_name, dish_price): [dish_name] is
    UNIQUE and [dish_price] NOT NULL. *)
Definition insert_menu (name : string) (price : float)
           (db : database) : exn + (Z * database) :=
  if existsb (fun r => String.eqb (dish_name r) name) (menu_inventory db)
  then integrity
  else if is_nan price then integrity
  else
    let id := next_id (seq_menu (sqlite_sequence db))
                      (map menu_row_id (menu_inventory db)) in
    inr (id, set_menu db (menu_inventory db ++ [mk_menu id name price]) id).

(** UPDATE menu_inventory SET dish_name = ?, dish_price = ? WHERE id = ? *)
Definition update_menu (name : string) (price : float) (id : Z)
           (db : database) : exn + (Z * database) :=
  if negb (sql_int id) then overflow
  else
    let hit := fun r => menu_row_id r =? id in
    let n := Z.of_nat (List.length (filter hit (menu_inventory db))) in
    if (0 <? n)
       && (is_nan price
           || existsb (fun r => negb (hit r) && String.eqb (dish_name r) name)
                      (menu_inventory db)
           || (1 <? n))
    then integrity
    else
      inr (n, set_menu db
                (map (fun r => if hit r then mk_menu (menu_row_id r) name price
                               else r) (menu_inventory db))
                (seq_menu (sqlite_sequence db))).

(** DELETE FROM menu_inventory WHERE id = ?: the recipe rows of the dish
    go with it (ON DELETE CASCADE); an order item that references the dish
    makes the foreign key fail. *)
Definition delete_menu (id : Z) (db : database) : exn + (Z * database) :=
  if negb (sql_int id) then overflow
  else
    let hit := fun r => menu_row_id r =? id in
    let n := Z.of_nat (List.length (filter hit (menu_inventory db))) in
    if (0 <? n) && existsb (fun it => dish_id it =? id) (order_items db)
    then integrity
    else if 0 <? n then
      inr (n, set_recipes
                (set_menu db (filter (fun r => negb (hit r)) (menu_inventory db))
                          (seq_menu (sqlite_sequence db)))
                (filter (fun d => negb (menu_id d =? id)) (dish_ingredients db))
                (seq_recipe (sqlite_sequence db)))
    else inr (n, db).

(** DELETE FROM dish_ingredients WHERE menu_id = ? *)
Definition delete_recipe (dish : Z) (db : database) : exn + (unit * database) :=
  if negb (sql_int dish) then overflow
  else
    inr (tt, set_recipes db
               (filter (fun d => negb (menu_id d =? dish)) (dish_ingredients db))
               (seq_recipe (sqlite_sequence db))).

(** INSERT INTO dish_ingredients (menu_id, ingredient_id, quantity_needed):
    both ids are foreign keys (and were read from their tables before),
    [quantity_needed] is NOT NULL. *)
Definition insert_recipe (dish ing : Z) (qty : float)
           (db : database) : exn + (unit * database) :=
  if is_nan qty then integrity
  else if negb (existsb (fun r => menu_row_id r =? dish) (menu_inventory db)
                && existsb (fun r => stock_id r =? ing) (stock_inventory db))
  then integrity
  else
    let id := next_id (seq_recipe (sqlite_sequence db))
                      (map recipe_id (dish_ingredients db)) in
    inr (tt, set_recipes db (dish_ingredients db ++ [mk_recipe id dish ing qty]) id).

(** INSERT INTO orders (subtotal, vat_rate, vat_amount, total): the four
    numbers are NOT NULL, [order_date] defaults to CURRENT_TIMESTAMP; the
    value is [lastrowid]. *)
Definition insert_order (now : string) (sub rate vat tot : float)
           (db : database) : exn + (Z * database) :=
  if is_nan sub || is_nan rate || is_nan vat || is_nan tot then integrity
  else
    let id := next_id (seq_orders (sqlite_sequence db))
                      (map order_row_id (orders db)) in
    inr (id, set_orders db (orders db ++ [mk_order id now sub rate vat tot]) id).

(** INSERT INTO order_items (order_id, dish_id, quantity, line_price);
    [order_id] is the [lastrowid] of the order. *)
Definition insert_item (order dish qty : Z) (price : float)
           (db : database) : exn + (unit * database) :=
  if negb (sql_int dish && sql_int qty) then overflow
  else if is_nan price then integrity
  else if negb (existsb (fun r => order_row_id r =? order) (orders db)
                && existsb (fun r => menu_row_id r =? dish) (menu_inventory db))
  then integrity
  else
    let id := next_id (seq_items (sqlite_sequence db))
                      (map item_id (order_items db)) in
    inr (tt, set_items db (order_items db ++ [mk_item id order dish qty price]) id).

End Sql.

(* ================================================================== *)
(** * Utilities *)
(* ================================================================== *)

(** The characters [str.strip()] removes, among the code points below 256. *)
Definition is_space (a : ascii) : bool :=
  existsb (Nat.eqb (nat_of_ascii a))
          [9; 10; 11; 12; 13; 28; 29; 30; 31; 32; 133; 160]%nat.

Fixpoint lstrip (s : string) : string :=
  match s with
  | String a s' => if is_space a then lstrip s' else s
  | EmptyString => EmptyString
  end.

Fixpoint rstrip (s : string) : string :=
  match s with
  | EmptyString => EmptyString
  | String a s' =>
      match rstrip s' with
      | EmptyString => if is_space a then EmptyString else String a EmptyString
      | t => String a t
      end
  end.

Definition strip (s : string) : string := rstrip (lstrip s).

(** [validate_unit]: the stripped unit when it is an allowed one. *)
Definition validate_unit (unit : string) : option string :=
  let unit := strip unit in
  if existsb (String.eqb unit) allowed_units then Some unit else None.

(** A Python [dict] with int keys, in insertion order: assignment replaces
    the value of a present key in place and appends an absent one. *)
Definition dict (V : Type) : Type := list (Z * V).

Fixpoint dict_get {V} (k : Z) (d : dict V) : option V :=
  match d with
  | [] => None
  | (k', v) :: d' => if k' =? k then Some v else dict_get k d'
  end.

Fixpoint dict_set {V} (k : Z) (v : V) (d : dict V) : dict V :=
  match d with
  | [] => [(k, v)]
  | (k', v') :: d' => if k' =? k then (k, v) :: d' else (k', v') :: dict_set k v d'
  end.

(** The result type of the public functions: [(ok, message)]. *)
Definition result : Type := bool * message.

(** [ensure_ingredient_exists]: the pair [(id, None)] is [inl id] and
    [(None, err)] is [inr err]. *)
Definition ensure_ingredient_exists (ingredient_name unit : string)
  : M result (Z + message) :=
  row <- query (Sql.stock_by_name ingredient_name) ;;
  match row with
  | Some r =>
      if negb (String.eqb (stock_unit r) unit)
      then ret (inr (Unit_mismatch ingredient_name (stock_unit r) unit))
      else ret (inl (stock_id r))
  | None =>
      execute (Sql.insert_stock ingredient_name 0 unit) ;;;
      row <- query (Sql.stock_by_name ingredient_name) ;;
      match row with
      | Some r => ret (inl (stock_id r))
      | None => raise (Raised TypeError)
      end
  end.

(* ================================================================== *)
(** * Ingredients *)
(* ================================================================== *)

(** [add_ingredient] *)
Definition add_ingredient (name : string) (quantity : float) (unit : string)
  : M result result :=
  if (quantity <=? 0)%float then return_ (false, Quantity_must_be_greater_than_0)
  else
    match validate_unit unit with
    | None => return_ (false, Unit_must_be_one_of_allowed)
    | Some unit =>
        try_finally
          (try_except
             (with_conn (execute (Sql.insert_stock name quantity unit)) ;;;
              return_ (true, Ingredient_added))
             (fun e =>
                match e with
                | Raised IntegrityError => return_ (false, Ingredient_already_exists)
                | _ => raise e
                end))
          close
    end.

(** [update_ingredient_by_id] *)
Definition update_ingredient_by_id (ingredient_id : Z) (name : string)
           (quantity : float) (unit : string) : M result result :=
  if (quantity <=? 0)%float then return_ (false, Quantity_must_be_greater_than_0)
  else
    match validate_unit unit with
    | None => return_ (false, Unit_must_be_one_of_allowed)
    | Some unit =>
        ok <- with_conn
                (rowcount <- execute (Sql.update_stock name quantity unit ingredient_id) ;;
                 ret (negb (rowcount =? 0))) ;;
        close ;;;
        if ok : bool then return_ (true, Ingredient_updated)
        else return_ (false, Ingredient_not_found)
    end.

(** [delete_ingredient_by_id] *)
Definition delete_ingredient_by_id (ingredient_id : Z) : M result result :=
  ok <- with_conn
          (rowcount <- execute (Sql.delete_stock ingredient_id) ;;
           ret (negb (rowcount =? 0))) ;;
  close ;;;
  if ok : bool then return_ (true, Ingredient_deleted)
  else return_ (false, Ingredient_id_not_found ingredient_id).

(* ================================================================== *)
(** * Dishes *)
(* ================================================================== *)

(** One entry of the [ingredients] list of [create_dish] and [update_dish]:
    the dict with the keys ["name"], ["qty_needed"] and ["unit"]. *)
Record ingredient := mk_ingredient {
  ing_name : string;
  qty_needed : float;
  ing_unit : string
}.

(** The loop [for ing in ingredients] of [create_dish]. *)
Fixpoint create_dish_ingredients (dish_id : Z) (ingredients : list ingredient)
  : M result unit :=
  match ingredients with
  | [] => ret tt
  | ing :: rest =>
      let unit := ing_unit ing in
      match validate_unit unit with
      | None => raise (ValueError (Invalid_unit_for (ing_name ing)))
      | Some _ =>
          let qty := qty_needed ing in
          if (qty <=? 0)%float
          then raise (ValueError
                        (Quantity_needed_must_be_greater_than_0_for (ing_name ing)))
          else
            r <- ensure_ingredient_exists (ing_name ing) unit ;;
            match r with
            | inr err => raise (ValueError err)
            | inl ing_id =>
                execute (Sql.insert_recipe dish_id ing_id qty) ;;;
                create_dish_ingredients dish_id rest
            end
      end
  end.

(** [create_dish] *)
Definition create_dish (dish_name : string) (dish_price : float)
           (ingredients : list ingredient) : M result result :=
  if (dish_price <=? 0)%float then return_ (false, Price_must_be_greater_than_0)
  else
    try_finally
      (try_except
         (with_conn
            (execute (Sql.insert_menu dish_name dish_price) ;;;
             row <- query (Sql.dish_by_name dish_name) ;;
             match row with
             | Some r => create_dish_ingredients (menu_row_id r) ingredients
             | None => raise (Raised TypeError)
             end) ;;;
          return_ (true, Dish_created dish_name))
         (fun e =>
            match e with
            | Raised IntegrityError => return_ (false, Dish_already_exists)
            | _ => return_ (false, str e)
            end))
      close.

(** The loop [for ing in new_ingredients] of [update_dish]: a rejected
    entry closes the connection and returns from inside the [with] block. *)
Fixpoint update_dish_ingredients (dish_id : Z) (new_ingredients : list ingredient)
  : M result unit :=
  match new_ingredients with
  | [] => ret tt
  | ing :: rest =>
      let unit := ing_unit ing in
      match validate_unit unit with
      | None => close ;;; return_ (false, Invalid_unit_for (ing_name ing))
      | Some _ =>
          let qty := qty_needed ing in
          if (qty <=? 0)%float
          then close ;;;
               return_ (false, Quantity_needed_must_be_greater_than_0_for (ing_name ing))
          else
            r <- ensure_ingredient_exists (ing_name ing) unit ;;
            match r with
            | inr err => close ;;; return_ (false, err)
            | inl ing_id =>
                execute (Sql.insert_recipe dish_id ing_id qty) ;;;
                update_dish_ingredients dish_id rest
            end
      end
  end.

(** [update_dish] *)
Definition update_dish (dish_id : Z) (new_name : string) (new_price : float)
           (new_ingredients : list ingredient) : M result result :=
  if (new_price <=? 0)%float then return_ (false, Price_must_be_greater_than_0)
  else
    with_conn
      (row <- query_int dish_id Sql.dish_by_id ;;
       match row with
       | None => close ;;; return_ (false, Dish_id_not_found_update dish_id)
       | Some _ =>
           execute (Sql.update_menu new_name new_price dish_id) ;;;
           execute (Sql.delete_recipe dish_id) ;;;
           update_dish_ingredients dish_id new_ingredients
       end) ;;;
    close ;;;
    return_ (true, Dish_updated).

(** [delete_dish] *)
Definition delete_dish (dish_id : Z) : M result result :=
  ok <- with_conn
          (rowcount <- execute (Sql.delete_menu dish_id) ;;
           ret (negb (rowcount =? 0))) ;;
  close ;;;
  if ok : bool then return_ (true, Dish_deleted)
  else return_ (false, Dish_not_found).

(* ================================================================== *)
(** * Orders and alerts *)
(* ================================================================== *)

(** A row of [dish_ingredients di JOIN stock_inventory si
    ON si.id = di.ingredient_id]. *)
Record joined_row := mk_joined {
  j_menu_id : Z;
  j_ingredient_id : Z;
  j_quantity_needed : float;
  j_ingredient_name : string;
  j_quantity_in_stock : option float;
  j_unit : string
}.

Definition recipe_join (db : database) : list joined_row :=
  flat_map
    (fun di =>
       map (fun si => mk_joined (menu_id di) (ingredient_id di) (quantity_needed di)
                                (ingredient_name si) (quantity_in_stock si)
                                (stock_unit si))
           (filter (fun si => stock_id si =? ingredient_id di) (stock_inventory db)))
    (dish_ingredients db).

(** ... WHERE di.menu_id = ? *)
Definition recipe_of (dish : Z) (db : database) : list joined_row :=
  filter (fun r => j_menu_id r =? dish) (recipe_join db).

(** One entry of the list [compute_low_stock_alerts] returns. *)
Record alert := mk_alert {
  alert_ingredient : string;
  alert_stock : float;
  alert_unit : string;
  alert_threshold : float
}.

Definition key_eqb (k1 k2 : string * string) : bool :=
  String.eqb (fst k1) (fst k2) && String.eqb (snd k1) (snd k2).

(** The loop [for r in rows] of [compute_low_stock_alerts]; [seen] is the
    set of (name, unit) pairs already alerted. *)
Fixpoint scan_alerts {R} (rows : list joined_row) (alerts : list alert)
         (seen : list (string * string)) : M R (list alert) :=
  match rows with
  | [] => ret alerts
  | r :: rest =>
      let threshold := (3 * j_quantity_needed r)%float in
      match j_quantity_in_stock r with
      | None => raise (Raised TypeError)
      | Some stock =>
          if (stock <? threshold)%float then
            let key := (j_ingredient_name r, j_unit r) in
            if existsb (key_eqb key) seen then scan_alerts rest alerts seen
            else scan_alerts rest
                   (alerts ++ [mk_alert (j_ingredient_name r) stock (j_unit r) threshold])
                   (key :: seen)
          else scan_alerts rest alerts seen
      end
  end.

(** [compute_low_stock_alerts] *)
Definition compute_low_stock_alerts : M (list alert) (list alert) :=
  rows <- query recipe_join ;;
  alerts <- scan_alerts rows [] [] ;;
  close ;;;
  return_ alerts.

(** A basket line: the dict with the keys ["dish_id"] and ["qty"], after
    [int(...)]. *)
Definition line : Type := Z * Z.

(** The values of [dish_map]. *)
Record dish_info := mk_dish_info {
  info_name : string;
  info_price : float
}.

(** The values of [needs]. *)
Record need := mk_need {
  need_name : string;
  need_unit : string;
  needed : float;
  need_stock : option float
}.

(** [float_value * int_value]: the int is converted first. *)
Definition mul_int {R} (x : float) (n : Z) : M R float :=
  match PyFloat.of_int n with
  | Some y => ret (x * y)%float
  | None => raise (Raised OverflowError)
  end.

(** The first loop of [create_order]: validate the lines, fill [dish_map]
    and add up [subtotal]. *)
Fixpoint validate_items (items : list line) (dish_map : dict dish_info)
         (subtotal : float) : M result (dict dish_info * float) :=
  match items with
  | [] => ret (dish_map, subtotal)
  | (dish_id, qty) :: rest =>
      if qty <=? 0 then return_ (false, Quantity_must_be_ge_1)
      else
        row <- query_int dish_id Sql.dish_by_id ;;
        match row with
        | None => return_ (false, Dish_id_not_found dish_id)
        | Some r =>
            p <- mul_int (dish_price r) qty ;;
            validate_items rest
              (dict_set dish_id (mk_dish_info (dish_name r) (dish_price r)) dish_map)
              (subtotal + p)%float
        end
  end.

(** The loop [for r in ing_rows]. *)
Fixpoint add_needs (ing_rows : list joined_row) (qty : Z) (needs : dict need)
  : M result (dict need) :=
  match ing_rows with
  | [] => ret needs
  | r :: rest =>
      tot_needed <- mul_int (j_quantity_needed r) qty ;;
      let iid := j_ingredient_id r in
      add_needs rest qty
        match dict_get iid needs with
        | Some info =>
            dict_set iid (mk_need (need_name info) (need_unit info)
                                  (needed info + tot_needed)%float (need_stock info))
                     needs
        | None =>
            dict_set iid (mk_need (j_ingredient_name r) (j_unit r) tot_needed
                                  (j_quantity_in_stock r))
                     needs
        end
  end.

(** The second loop of [create_order]: accumulate the ingredient needs. *)
Fixpoint accumulate_needs (items : list line) (dish_map : dict dish_info)
         (needs : dict need) : M result (dict need) :=
  match items with
  | [] => ret needs
  | (dish_id, qty) :: rest =>
      ing_rows <- query_int dish_id recipe_of ;;
      match ing_rows with
      | [] =>
          match dict_get dish_id dish_map with
          | Some d => return_ (false, Dish_has_no_ingredients (info_name d))
          | None => raise (Raised KeyError)
          end
      | _ =>
          needs' <- add_needs ing_rows qty needs ;;
          accumulate_needs rest dish_map needs'
      end
  end.

(** The third loop: check stock sufficiency. *)
Fixpoint check_stock (needs : dict need) : M result unit :=
  match needs with
  | [] => ret tt
  | (iid, info) :: rest =>
      match need_stock info with
      | None => raise (Raised TypeError)
      | Some stock =>
          if (stock <? needed info)%float
          then return_ (false, Not_enough (need_name info) (needed info)
                                          (need_unit info) (need_stock info))
          else check_stock rest
      end
  end.

(** Inside the transaction: one [order_items] row per basket line. *)
Fixpoint insert_items (order_id : Z) (items : list line) (dish_map : dict dish_info)
  : M result unit :=
  match items with
  | [] => ret tt
  | (dish_id, qty) :: rest =>
      match dict_get dish_id dish_map with
      | None => raise (Raised KeyError)
      | Some d =>
          p <- mul_int (info_price d) qty ;;
          let line_price := PyFloat.round2 p in
          execute (Sql.insert_item order_id dish_id qty line_price) ;;;
          insert_items order_id rest dish_map
      end
  end.

(** Inside the transaction: one stock update per needed ingredient. *)
Fixpoint subtract_stock (needs : dict need) : M result unit :=
  match needs with
  | [] => ret tt
  | (iid, info) :: rest =>
      match need_stock info with
      | None => raise (Raised TypeError)
      | Some stock =>
          let new_stock := (stock - needed info)%float in
          execute (Sql.update_quantity new_stock iid) ;;;
          subtract_stock rest
      end
  end.

(** The [try] block of [create_order]. *)
Definition create_order_try (now : string) (items : list line) : M result result :=
  vs <- validate_items items [] 0%float ;;
  let dish_map := fst vs in
  let subtotal := snd vs in
  let vat_amount := PyFloat.round2 (subtotal * vatRate)%float in
  let total := PyFloat.round2 (subtotal + vat_amount)%float in
  needs <- accumulate_needs items dish_map [] ;;
  check_stock needs ;;;
  order_id <- with_conn
                (order_id <- execute (Sql.insert_order now
                                        (PyFloat.round2 subtotal) vatRate
                                        vat_amount total) ;;
                 insert_items order_id items dish_map ;;;
                 subtract_stock needs ;;;
                 ret order_id) ;;
  return_ (true, Order_id order_id).

(** [create_order]; [now] is the clock reading CURRENT_TIMESTAMP stores. *)
Definition create_order (now : string) (items : list line) : M result result :=
  try_finally
    (try_except (create_order_try now items)
                (fun e => return_ (false, str e)))
    close.

(** Calling a function that returns a value of type [R]: the connection of
    [get_connection()] is opened on the stored database, and the caller
    sees the returned value or the exception, and the database left on
    disk. *)
Definition run {R} (faults : option nat) (db : database) (f : M R R)
  : (exn + R) * database :=
  let (r, c) := f (get_connection faults db) in
  (match r with
   | Val x | Ret x => inr x
   | Exc e => inl e
   end, disk c).

(* ================================================================== *)
(** * List functions: [fetch_ingredients], [fetch_menu], [fetch_orders] *)
(* ================================================================== *)

(** [if s:] for an optional string argument. *)
Definition truthy (s : option string) : bool :=
  match s with
  | Some (String _ _) => true
  | _ => false
  end.

(** [column >= ?] and [column <= ?] on a REAL column: NULL (a NULL column or
    a NaN parameter) satisfies neither. *)
Definition sql_ge (column : option float) (p : float) : bool :=
  match column with
  | Some v => (p <=? v)%float
  | None => false
  end.

Definition sql_le (column : option float) (p : float) : bool :=
  match column with
  | Some v => (v <=? p)%float
  | None => false
  end.

(** [a in b] for strings. *)
Definition contains (a b : string) : bool :=
  match index 0 a b with
  | Some _ => true
  | None => false
  end.

(** A row of [order_items oi JOIN menu_inventory m ON m.id = oi.dish_id]. *)
Record item_view := mk_item_view {
  view_quantity : Z;
  view_line_price : float;
  view_dish_name : string
}.

(** ... WHERE oi.order_id = ? *)
Definition items_of (order : Z) (db : database) : list item_view :=
  flat_map
    (fun oi =>
       map (fun m => mk_item_view (quantity oi) (line_price oi) (dish_name m))
           (filter (fun m => menu_row_id m =? dish_id oi) (menu_inventory db)))
    (filter (fun oi => order_id oi =? order) (order_items db)).

(** One element of the list [fetch_orders] returns: the order, its
    ["order_date_display"] and its items. *)
Record order_entry := mk_entry {
  entry_order : order_row;
  order_date_display : string;
  entry_items : list item_view
}.

(** ORDER BY o.order_date DESC, as an insertion sort on the stored text. *)
Fixpoint insert_by_date (o : order_row) (l : list order_row) : list order_row :=
  match l with
  | [] => [o]
  | o' :: l' =>
      if String.leb (order_date o') (order_date o) then o :: l
      else o' :: insert_by_date o l'
  end.

Definition order_by_date_desc (l : list order_row) : list order_row :=
  fold_right insert_by_date [] l.

(** The calendar date of a stored timestamp, ["YYYY-MM-DD HH:MM:SS"]: what
    [strftime("%Y-%m-%d")] prints for it. *)
Definition display_date (raw : string) : string := substring 0 10 raw.

(** A cell of a CSV row, before [csv.writer] prints it. *)
Inductive cell :=
| Int (n : Z)
| Text (s : string)
| Real (x : float).

Definition csv_header : list cell :=
  [Text "order_id"; Text "order_date"; Text "dish_name"; Text "qty";
   Text "line_price"; Text "subtotal"; Text "vat_rate"; Text "vat_amount";
   Text "total"].

(** The row written for one item of one order. *)
Definition csv_row (o : order_entry) (it : item_view) : list cell :=
  let order := entry_order o in
  [Int (order_row_id order); Text (order_date_display o);
   Text (view_dish_name it); Int (view_quantity it); Real (view_line_price it);
   Real (subtotal order); Real (vat_rate order); Real (vat_amount order);
   Real (total order)].

Section Queries.

(** SQLite's [text LIKE pattern] and [date(text)], and Python's
    [str.lower()]. *)
Variable sql_like : string -> string -> bool.
Variable sql_date : string -> option string.
Variable lower : string -> string.

Definition name_filter (filter_name : option string) (text : string) : bool :=
  if truthy filter_name
  then match filter_name with
       | Some s => sql_like text ("%" ++ s ++ "%")%string
       | None => true
       end
  else true.

(** [fetch_ingredients] *)
Definition fetch_ingredients (filter_name : option string)
           (filter_quantity : option float) (op : string)
  : M (list stock_row) (list stock_row) :=
  rows <- query
            (fun db =>
               filter
                 (fun r =>
                    name_filter filter_name (ingredient_name r)
                    && match filter_quantity with
                       | Some q =>
                           if String.eqb op "ge"
                           then sql_ge (quantity_in_stock r) q
                           else sql_le (quantity_in_stock r) q
                       | None => true
                       end)
                 (stock_inventory db)) ;;
  close ;;;
  return_ rows.

(** [fetch_menu] *)
Definition fetch_menu (filter_name : option string)
           (filter_price : option float) (price_op : string)
  : M (list menu_row) (list menu_row) :=
  rows <- query
            (fun db =>
               filter
                 (fun r =>
                    name_filter filter_name (dish_name r)
                    && match filter_price with
                       | Some p =>
                           if String.eqb price_op "le"
                           then sql_le (Some (dish_price r)) p
                           else sql_ge (Some (dish_price r)) p
                       | None => true
                       end)
                 (menu_inventory db)) ;;
  close ;;;
  return_ rows.

(** [date(o.order_date) >= date(?)] and [<=]. *)
Definition date_ge (column p : string) : bool :=
  match sql_date column, sql_date p with
  | Some a, Some b => String.leb b a
  | _, _ => false
  end.

Definition date_le (column p : string) : bool :=
  match sql_date column, sql_date p with
  | Some a, Some b => String.leb a b
  | _, _ => false
  end.

(** The loop [for r in rows] of [fetch_orders]. *)
Fixpoint collect_orders {R} (filter_name : option string) (rows : list order_row)
         (results : list order_entry) : M R (list order_entry) :=
  match rows with
  | [] => ret results
  | r :: rest =>
      items <- query (items_of (order_row_id r)) ;;
      if truthy filter_name
         && negb (existsb
                    (fun it =>
                       match filter_name with
                       | Some s => contains (lower s) (lower (view_dish_name it))
                       | None => false
                       end) items)
      then collect_orders filter_name rest results
      else collect_orders filter_name rest
             (results ++ [mk_entry r (display_date (order_date r)) items])
  end.

(** [fetch_orders] *)
Definition fetch_orders (filter_name start_date end_date : option string)
  : M (list order_entry) (list order_entry) :=
  rows <- query
            (fun db =>
               order_by_date_desc
                 (filter
                    (fun o =>
                       (if truthy start_date
                        then match start_date with
                             | Some d => date_ge (order_date o) d
                             | None => true
                             end
                        else true)
                       && (if truthy end_date
                           then match end_date with
                                | Some d => date_le (order_date o) d
                                | None => true
                                end
                           else true))
                    (orders db))) ;;
  results <- collect_orders filter_name rows [] ;;
  close ;;;
  return_ results.

(** [export_orders_csv]: the rows handed to [csv.writer], the header
    first. *)
Definition export_orders_csv (db : database) : exn + list (list cell) :=
  match fst (run None db (fetch_orders None None None)) with
  | inr orders =>
      inr (csv_header
             :: flat_map (fun o => map (csv_row o) (entry_items o)) orders)
  | inl e => inl e
  end.

End Queries.

(* ================================================================== *)
(** * What an accepted order computes and writes *)
(* ================================================================== *)

(** [needs] after the loop [for r in ing_rows] for one basket line. *)
Fixpoint needs_after_rows (ing_rows : list joined_row) (qty : Z)
         (needs : dict need) : dict need :=
  match ing_rows with
  | [] => needs
  | r :: rest =>
      let tot_needed := (j_quantity_needed r * PyFloat.to_float qty)%float in
      let iid := j_ingredient_id r in
      needs_after_rows rest qty
        match dict_get iid needs with
        | Some info =>
            dict_set iid (mk_need (need_name info) (need_unit info)
                                  (needed info + tot_needed)%float (need_stock info))
                     needs
        | None =>
            dict_set iid (mk_need (j_ingredient_name r) (j_unit r) tot_needed
                                  (j_quantity_in_stock r))
                     needs
        end
  end.

(** [needs] after the second loop of [create_order]. *)
Fixpoint needs_after_items (db : database) (items : list line)
         (needs : dict need) : dict need :=
  match items with
  | [] => needs
  | (dish_id, qty) :: rest =>
      needs_after_items db rest (needs_after_rows (recipe_of dish_id db) qty needs)
  end.

Definition order_needs (db : database) (items : list line) : dict need :=
  needs_after_items db items [].

(** [float(row["dish_price"]) * qty] for a basket line; a line whose dish is
    not on the menu has no amount (an accepted basket has no such line). *)
Definition line_amount (db : database) (l : line) : float :=
  match Sql.dish_by_id (fst l) db with
  | Some r => (dish_price r * PyFloat.to_float (snd l))%float
  | None => 0%float
  end.

(** [subtotal] after the first loop of [create_order]. *)
Definition raw_subtotal (db : database) (items : list line) : float :=
  fold_left (fun acc l => (acc + line_amount db l)%float) items 0%float.

(** The value written to [quantity_in_stock] for a needed ingredient. *)
Definition new_quantity (info : need) : option float :=
  match need_stock info with
  | Some stock => sql_real (stock - needed info)%float
  | None => None
  end.

(** The stock table after the updates of the transaction. *)
Definition decrement (needs : dict need) (stock : list stock_row) : list stock_row :=
  fold_left
    (fun st (kv : Z * need) =>
       map (fun r => if stock_id r =? fst kv
                     then mk_stock (stock_id r) (ingredient_name r)
                                   (new_quantity (snd kv)) (stock_unit r)
                     else r) st)
    needs stock.

(** A basket line [create_order] can accept: the quantity is at least 1 and
    fits an SQLite INTEGER, the dish id is an SQLite INTEGER of a dish on the
    menu, and the recipe of the dish is not empty. *)
Definition line_ok (db : database) (l : line) : Prop :=
  1 <= snd l < 2 ^ 63
  /\ sql_int (fst l) = true
  /\ Sql.dish_by_id (fst l) db <> None
  /\ recipe_of (fst l) db <> [].

(* ================================================================== *)
(** * Vocabulary of the statements *)
(* ================================================================== *)

(** ** Transactions: what reaches the disk *)

(** A computation that never commits leaves the committed store alone. *)
Definition keeps_disk {R A} (m : M R A) : Prop :=
  forall c, disk (snd (m c)) = disk c.

(** A computation without [return]. *)
Definition no_return {R A} (m : M R A) : Prop :=
  forall c r, fst (m c) <> Ret r.

(** A computation that does not close the connection. *)
Definition keeps_open {R A} (m : M R A) : Prop :=
  forall c, closed c = false -> closed (snd (m c)) = false.

(** ** [create_order]: the loops *)

(** The loops before the transaction only return failures. *)
Definition returns_failure {A} (m : M result A) : Prop :=
  forall c r, fst (m c) = Ret r -> fst r = false.

(** ** [create_order]: the accepted basket *)

(** A computation that only reads: the connection is left as it was. *)
Definition reads_only {R A} (m : M R A) : Prop :=
  forall c, snd (m c) = c.

(** [dish_map] holds the name and price the menu has for its keys. *)
Definition dish_map_ok (db : database) (dish_map : dict dish_info) : Prop :=
  forall k info, dict_get k dish_map = Some info ->
    exists r, Sql.dish_by_id k db = Some r
              /\ info = mk_dish_info (dish_name r) (dish_price r).

(** The item rows written for the lines of a basket. *)
Definition item_rows_for (db : database) (id : Z) (items : list line)
           (rows : list item_row) : Prop :=
  Forall2 (fun l it => order_id it = id /\ dish_id it = fst l
                       /\ quantity it = snd l
                       /\ line_price it = PyFloat.round2 (line_amount db l))
          items rows.

(** ** The empty basket *)

(** The order row [create_order] writes for the empty basket. *)
Definition empty_order (now : string) (db : database) : order_row :=
  mk_order (next_id (seq_orders (sqlite_sequence db)) (map order_row_id (orders db)))
           now 0 vatRate 0 0.

(** ** Exceptions that escape *)

(** The store after a call without storage failure. *)
Definition after (f : M result result) (db : database) : database :=
  snd (call None db f).

(** Two ingredients, added through [add_ingredient]. *)
Definition pantry : database :=
  after (add_ingredient "Sugar" 500 "g")
        (after (add_ingredient "Flour" 1000 "g") empty_db).

(** The pantry with one dish, created through [create_dish], and one order
    of it, placed through [create_order]. *)
Definition bakery : database :=
  after (create_order "2024-05-01 12:00:00" [(1, 1)])
        (after (create_dish "Bread" 2.5 [mk_ingredient "Flour" 200 "g"]) pantry).

(** ** [create_dish] and conflicting units *)

(** The write budget after one more write. *)
Definition spend (w : option nat) : option nat :=
  match w with
  | Some (S n) => Some n
  | _ => w
  end.

(** The stock table with the ingredient [ensure_ingredient_exists] adds. *)
Definition vivify (name unit : string) (db : database) : database :=
  let id := next_id (seq_stock (sqlite_sequence db))
                    (map stock_id (stock_inventory db)) in
  set_stock db (stock_inventory db ++ [mk_stock id name (Some 0%float) unit]) id.

(** A recipe entry the loop of [create_dish] does not reject by itself: its
    unit is an allowed one and its quantity is a number above 0. *)
Definition entry_ok (e : ingredient) : Prop :=
  validate_unit (ing_unit e) <> None
  /\ (qty_needed e <=? 0)%float = false
  /\ is_nan (qty_needed e) = false.

(** The ingredient named by the entry is absent or has the entry's unit. *)
Definition agrees (db : database) (e : ingredient) : Prop :=
  forall r, Sql.stock_by_name (ing_name e) db = Some r ->
            stock_unit r = ing_unit e.

(** The store after the loop body of [create_dish] accepted one entry: the
    ingredient is created at zero stock when its name is new, and one recipe
    row is added. *)
Definition add_recipe_row (dish ing : Z) (qty : float) (db : database) : database :=
  let id := next_id (seq_recipe (sqlite_sequence db))
                    (map recipe_id (dish_ingredients db)) in
  set_recipes db (dish_ingredients db ++ [mk_recipe id dish ing qty]) id.

Definition write_entry (dish : Z) (db : database) (e : ingredient) : database :=
  let db1 := match Sql.stock_by_name (ing_name e) db with
             | Some _ => db
             | None => vivify (ing_name e) (ing_unit e) db
             end in
  match Sql.stock_by_name (ing_name e) db1 with
  | Some r => add_recipe_row dish (stock_id r) (qty_needed e) db1
  | None => db1
  end.

(** Every entry is acceptable when its turn comes. *)
Fixpoint accepted (dish : Z) (entries : list ingredient) (db : database) : Prop :=
  match entries with
  | [] => True
  | e :: rest =>
      entry_ok e /\ agrees db e /\ accepted dish rest (write_entry dish db e)
  end.

(** An entry of the recipe names a stored ingredient under another unit. *)
Definition conflicts (db : database) (e : ingredient) : Prop :=
  exists r, Sql.stock_by_name (ing_name e) db = Some r
            /\ stock_unit r <> ing_unit e.

(** The body of the [with] block of [create_dish]. *)
Definition create_dish_block (dish_name : string) (dish_price : float)
           (ingredients : list ingredient) : M result unit :=
  execute (Sql.insert_menu dish_name dish_price) ;;;
  row <- query (Sql.dish_by_name dish_name) ;;
  match row with
  | Some r => create_dish_ingredients (menu_row_id r) ingredients
  | None => raise (Raised TypeError)
  end.

(** The id [create_dish] gives the new dish, and the store once the dish
    row is inserted. *)
Definition new_dish_id (db : database) : Z :=
  next_id (seq_menu (sqlite_sequence db)) (map menu_row_id (menu_inventory db)).

Definition with_dish (name : string) (price : float) (db : database) : database :=
  set_menu db (menu_inventory db ++ [mk_menu (new_dish_id db) name price])
           (new_dish_id db).

(** A row with zero stock under the entry's name. *)
Definition at_zero_stock (db : database) (e : ingredient) : Prop :=
  exists r, Sql.stock_by_name (ing_name e) db = Some r
            /\ quantity_in_stock r = Some 0%float.

(** A request against the pantry: sugar is stored in grams and asked in
    grams, salt is new, flour is stored in grams and asked in millilitres. *)
Definition cake_entries : list ingredient :=
  [mk_ingredient "Sugar" 10 "g"; mk_ingredient "Salt" 5 "g";
   mk_ingredient "Flour" 200 "ml"].

Definition flour_row : stock_row := mk_stock 1 "Flour" (Some 1000%float) "g".

(** The entry [e] is the first one the loop of [create_dish] does not
    accept, and it gets as far as the comparison of the units: the entries
    before it are accepted in their turn, its unit is an allowed one, its
    quantity is not [<= 0] (a NaN is not), and when its turn comes its name
    is stored, in the row [r], under another unit. *)
Definition mismatch_at (dish : Z) (db : database) (pre : list ingredient)
           (e : ingredient) (r : stock_row) : Prop :=
  accepted dish pre db
  /\ validate_unit (ing_unit e) <> None
  /\ (qty_needed e <=? 0)%float = false
  /\ Sql.stock_by_name (ing_name e) (fold_left (write_entry dish) pre db) = Some r
  /\ stock_unit r <> ing_unit e.

(** A request against the pantry whose second entry asks, in millilitres,
    for the salt its first entry creates in grams. *)
Definition brine_entries : list ingredient :=
  [mk_ingredient "Salt" 5 "g"; mk_ingredient "Salt" 5 "ml";
   mk_ingredient "Flour" 200 "ml"].

(** ** Low-stock alerts *)

(** The (ingredient, unit) pair an alert is deduplicated by. *)
Definition alert_key (a : alert) : string * string :=
  (alert_ingredient a, alert_unit a).

Definition row_key (r : joined_row) : string * string :=
  (j_ingredient_name r, j_unit r).

(** The recipe line asks for more than a third of the stock: the stock is
    strictly below 3 times the quantity needed. *)
Definition triggers (r : joined_row) : Prop :=
  exists stock, j_quantity_in_stock r = Some stock
                /\ (stock <? 3 * j_quantity_needed r)%float = true.

(** A store whose recipes use flour twice and sugar once: flour is below 3
    times the quantity of both lines, sugar is exactly at 3 times its
    quantity. *)
Definition kitchen : database :=
  after (create_dish "Cake" 4 [mk_ingredient "Flour" 400 "g"])
    (after (create_dish "Bread" 2.5 [mk_ingredient "Flour" 200 "g";
                                     mk_ingredient "Sugar" 100 "g"])
       (after (add_ingredient "Sugar" 300 "g")
          (after (add_ingredient "Flour" 500 "g") empty_db))).

(** The recipe row [d] refers to the stock row [s]: the pair of rows the
    JOIN of [compute_low_stock_alerts] puts together. *)
Definition refers_to (db : database) (d : recipe_row) (s : stock_row) : Prop :=
  In d (dish_ingredients db) /\ In s (stock_inventory db)
  /\ stock_id s = ingredient_id d.

(** The stock of the ingredient is a number strictly below 3 times the
    quantity the recipe row needs. *)
Definition low_for (d : recipe_row) (s : stock_row) : Prop :=
  exists stock, quantity_in_stock s = Some stock
                /\ (stock <? 3 * quantity_needed d)%float = true.

(** A store in which flour is low for the soup, and the stock of salt,
    added with a NaN quantity, is NULL. *)
Definition scullery : database :=
  after (create_dish "Soup" 3 [mk_ingredient "Flour" 200 "g";
                               mk_ingredient "Salt" 1 "g"])
    (after (add_ingredient "Salt" nan "g")
       (after (add_ingredient "Flour" 100 "g") empty_db)).

(** ** The order of binary64 numbers *)

(** A key that orders the numbers (not NaN) as [SFcompare] does. *)
Definition SFkey (x : spec_float) : Z * (Z * Z) :=
  match x with
  | S754_zero _ | S754_nan => (0, (0, 0))
  | S754_infinity false => (2, (0, 0))
  | S754_infinity true => (-2, (0, 0))
  | S754_finite false m e => (1, (e, Zpos m))
  | S754_finite true m e => (-1, (- e, Zneg m))
  end.

Definition lex_le (k1 k2 : Z * (Z * Z)) : Prop :=
  fst k1 < fst k2
  \/ (fst k1 = fst k2
      /\ (fst (snd k1) < fst (snd k2)
          \/ (fst (snd k1) = fst (snd k2) /\ snd (snd k1) <= snd (snd k2)))).

Definition lex_lt (k1 k2 : Z * (Z * Z)) : Prop :=
  fst k1 < fst k2
  \/ (fst k1 = fst k2
      /\ (fst (snd k1) < fst (snd k2)
          \/ (fst (snd k1) = fst (snd k2) /\ snd (snd k1) < snd (snd k2)))).

Definition SFnumber (x : spec_float) : Prop := x <> S754_nan.

(** ** The list functions and their filters *)

(** The list a fetch returns ([[]] if it raised). *)
Definition fetched {A} (x : (exn + list A) * database) : list A :=
  match fst x with
  | inr l => l
  | inl _ => []
  end.

(** ** The CSV export *)

(** The constraints of the schema that the export relies on: [id] is the
    primary key of [orders] and of [menu_inventory], and the [order_id] and
    [dish_id] of an order item are foreign keys into them. *)
Definition keys_ok (db : database) : Prop :=
  NoDup (map order_row_id (orders db))
  /\ NoDup (map menu_row_id (menu_inventory db))
  /\ forall it, In it (order_items db) ->
       (exists o, In o (orders db) /\ order_row_id o = order_id it)
       /\ (exists m, In m (menu_inventory db) /\ menu_row_id m = dish_id it).

(** An order item with its order and its dish. *)
Definition export_line : Type := item_row * order_row * menu_row.

Definition line_item (t : export_line) : item_row := fst (fst t).
Definition line_order (t : export_line) : order_row := snd (fst t).
Definition line_dish (t : export_line) : menu_row := snd t.

(** The CSV row of an order item: its order id, the calendar date of its
    order (the first ten characters, YYYY-MM-DD, of the timestamp stored),
    the name of its dish, its quantity and line price, then the amounts of
    its order. *)
Definition line_cells (t : export_line) : list cell :=
  [Int (order_row_id (line_order t));
   Text (substring 0 10 (order_date (line_order t)));
   Text (dish_name (line_dish t));
   Int (quantity (line_item t));
   Real (line_price (line_item t));
   Real (subtotal (line_order t));
   Real (vat_rate (line_order t));
   Real (vat_amount (line_order t));
   Real (total (line_order t))].

(** The items of the orders, each with its order and dish, in the order of
    the export. *)
Definition export_lines (db : database) : list export_line :=
  flat_map
    (fun o =>
       flat_map
         (fun oi => map (fun m => (oi, o, m))
                        (filter (fun m => menu_row_id m =? dish_id oi)
                                (menu_inventory db)))
         (filter (fun oi => order_id oi =? order_row_id o) (order_items db)))
    (order_by_date_desc (orders db)).

(** ** Signs and sizes of binary64 results *)

(** A number that is not negative: a zero, or a finite or infinite number
    with the sign bit clear. *)
Definition SFnonneg (x : spec_float) : Prop :=
  match x with
  | S754_nan => False
  | S754_zero _ => True
  | S754_infinity s | S754_finite s _ _ => s = false
  end.

Definition SFfinite (x : spec_float) : Prop :=
  match x with
  | S754_zero _ | S754_finite _ _ _ => True
  | _ => False
  end.

(** ** [create_order]: baskets that are accepted *)

(** Every need is covered: the stock has a value and is not below the
    need. *)
Definition covered (kv : Z * need) : Prop :=
  exists stock, need_stock (snd kv) = Some stock
                /\ (stock <? needed (snd kv))%float = false.

(** The stock covers the needs of the basket. *)
Definition sufficient (db : database) (items : list line) : Prop :=
  Forall covered (order_needs db items).

(** The prices on the menu are finite numbers that are not negative. *)
Definition prices_ok (db : database) : Prop :=
  forall r, In r (menu_inventory db) ->
    PyFloat.nonneg (dish_price r) = true /\ is_finite (dish_price r) = true.

(** What the loop that inserts the item rows needs of a line. *)
Definition item_ok (dish_map : dict dish_info) (menu : list menu_row) (l : line)
  : Prop :=
  exists d, dict_get (fst l) dish_map = Some d
            /\ 0 <= snd l < 2 ^ 63
            /\ sql_int (fst l) = true
            /\ is_nan (PyFloat.round2 (info_price d * PyFloat.to_float (snd l))) = false
            /\ existsb (fun r => menu_row_id r =? fst l) menu = true.

(** ** The amounts of an order *)

(** A store with one dish priced 0.045, created through the functions. *)
Definition tea_room : database :=
  after (create_dish "Cup" 0.045 [mk_ingredient "Tea" 1 "g"])
        (after (add_ingredient "Tea" 100 "g") empty_db).

(** ** The stock after an order *)

(** The quantities of the recipes are numbers that are not negative. *)
Definition recipes_nonneg (db : database) : Prop :=
  forall d, In d (dish_ingredients db) ->
    PyFloat.nonneg (quantity_needed d) = true.

(** A stock quantity that is a number and not negative. *)
Definition quantity_ok (q : option float) : Prop :=
  exists s, q = Some s /\ PyFloat.nonneg s = true.

(** Every ingredient has a stock that is not negative. *)
Definition stock_nonneg (db : database) : Prop :=
  forall r, In r (stock_inventory db) -> quantity_ok (quantity_in_stock r).

(** An entry of [needs] describes a stored ingredient, and its need is a
    number that is not negative. *)
Definition need_sound (db : database) (kv : Z * need) : Prop :=
  PyFloat.nonneg (needed (snd kv)) = true
  /\ exists si, In si (stock_inventory db) /\ stock_id si = fst kv
                /\ need_stock (snd kv) = quantity_in_stock si
                /\ need_name (snd kv) = ingredient_name si
                /\ need_unit (snd kv) = stock_unit si.

(** An ingredient with an infinite stock, and a dish that takes an infinite
    quantity of it, both created through the functions. *)
Definition vault : database :=
  after (create_dish "Bar" 1 [mk_ingredient "Gold" infinity "g"])
        (after (add_ingredient "Gold" infinity "g") empty_db).

(** ** The needs of a basket and the sufficiency check *)

(** The contributions of the basket to the need of an ingredient: for every
    basket line, in basket order, and every recipe row of its dish for the
    ingredient, the recipe quantity times the line quantity. *)
Definition contributions (db : database) (items : list line) (iid : Z)
  : list float :=
  flat_map
    (fun l : line =>
       map (fun r => (j_quantity_needed r * PyFloat.to_float (snd l))%float)
           (filter (fun r => j_ingredient_id r =? iid) (recipe_of (fst l) db)))
    items.

(** The sum of a list of floats from left to right; the empty list has no
    sum. *)
Definition sum_of (xs : list float) : option float :=
  match xs with
  | [] => None
  | x :: rest => Some (fold_left (fun a y => (a + y)%float) rest x)
  end.

(** The aggregated need of an ingredient, as the specification words it: the
    sum of its contributions; an ingredient no line uses has none. *)
Definition aggregated_need (db : database) (items : list line) (iid : Z)
  : option float :=
  sum_of (contributions db items iid).

(** The stock row the check reads for an entry of [needs]. *)
Definition need_from (db : database) (kv : Z * need) : Prop :=
  exists si, In si (stock_inventory db) /\ stock_id si = fst kv
             /\ need_stock (snd kv) = quantity_in_stock si
             /\ need_name (snd kv) = ingredient_name si
             /\ need_unit (snd kv) = stock_unit si.

(** An ingredient is short: its stock is strictly below its aggregated
    need. *)
Definition short (db : database) (items : list line) (si : stock_row)
           (have need : float) : Prop :=
  In si (stock_inventory db)
  /\ quantity_in_stock si = Some have
  /\ aggregated_need db items (stock_id si) = Some need
  /\ (have <? need)%float = true.

(** The stock an accepted order loses: the prior stock of the ingredient
    less its aggregated need is a NaN, which SQLite stores as NULL. *)
Definition stock_lost (db : database) (items : list line) (db' : database)
           (si : stock_row) : Prop :=
  In si (stock_inventory db)
  /\ (exists s n, quantity_in_stock si = Some s
                  /\ aggregated_need db items (stock_id si) = Some n
                  /\ is_nan (s - n) = true)
  /\ In (mk_stock (stock_id si) (ingredient_name si) None (stock_unit si))
        (stock_inventory db').

(** An entry of [needs] whose new stock is a NaN. *)
Definition difference_nan (kv : Z * need) : bool :=
  match need_stock (snd kv) with
  | Some s => is_nan (s - needed (snd kv))
  | None => false
  end.

(** Five grams of gold in stock, and a dish that takes an infinite quantity
    of it. *)
Definition strongroom : database :=
  after (create_dish "Bar" 1 [mk_ingredient "Gold" infinity "g"])
        (after (add_ingredient "Gold" 5 "g") empty_db).

(** A computation that raises only the exceptions of the storage and of the
    conversions, none that carries a message of the functions. *)
Definition raises_errors {R A} (m : M R A) : Prop :=
  forall c e c', m c = (Exc e, c') -> exists k, e = Raised k.

(** Adding contributions to a need that may be absent. *)
Definition add_to (acc : option float) (xs : list float) : option float :=
  fold_left (fun a x => match a with
                        | Some y => Some (y + x)%float
                        | None => Some x
                        end) xs acc.

(** The example of the specification: 500 g of flour, dish A takes 200 g
    and dish B 400 g, all created through the functions. *)
Definition mill : database :=
  after (create_dish "B" 9 [mk_ingredient "Flour" 400 "g"])
        (after (create_dish "A" 7 [mk_ingredient "Flour" 200 "g"])
               (after (add_ingredient "Flour" 500 "g") empty_db)).

(** A basket line that passes the first two loops of [create_order]: the
    quantity is at least 1 and converts to a float, the dish id is bound as
    an SQLite INTEGER, the dish exists and its recipe is not empty. *)
Definition line_passes (db : database) (l : line) : Prop :=
  1 <= snd l
  /\ PyFloat.of_int (snd l) <> None
  /\ sql_int (fst l) = true
  /\ Sql.dish_by_id (fst l) db <> None
  /\ recipe_of (fst l) db <> [].

(** The keys of a dictionary filled in the order [ks]: a key takes its
    place when it is first seen. *)
Definition see (seen : list Z) (k : Z) : list Z :=
  if existsb (Z.eqb k) seen then seen else seen ++ [k].

Definition first_seen (ks : list Z) : list Z := fold_left see ks [].

(** The ingredients a basket needs, in the order in which the recipe rows
    of its lines first name them. *)
Definition needed_ids (db : database) (items : list line) : list Z :=
  first_seen (flat_map (fun l : line => map j_ingredient_id (recipe_of (fst l) db))
                       items).

(** An entry of [needs] that stops the sufficiency check with the
    insufficient-stock message. *)
Definition falls_short (kv : Z * need) (have : float) : Prop :=
  need_stock (snd kv) = Some have /\ (have <? needed (snd kv))%float = true.

(** A soup that takes salt, whose stock is NULL, before flour, of which
    there is too little. *)
Definition galley : database :=
  after (create_dish "Soup" 3 [mk_ingredient "Salt" 1 "g";
                               mk_ingredient "Flour" 200 "g"])
        (after (add_ingredient "Salt" nan "g")
               (after (add_ingredient "Flour" 100 "g") empty_db)).

(** ** The list functions on stored examples *)

(** [text LIKE '%s%'] on texts without letters that differ in case only:
    [s] occurs in [text]. *)
Definition like_substring (text pattern : string) : bool :=
  contains (substring 1 (String.length pattern - 2) pattern) text.

(** [date(text)] of a stored timestamp ["YYYY-MM-DD HH:MM:SS"]. *)
Definition date_of_timestamp (text : string) : option string :=
  Some (substring 0 10 text).

(** [str.lower()] on a text without upper-case letters. *)
Definition lower_of_lowercase (s : string) : string := s.

(** The tea room after two orders: two lines of cups, then one cup. *)
Definition tea_orders : database :=
  after (create_order "2024-05-02 09:30:00" [(1, 1)])
        (after (create_order "2024-05-01 12:00:00" [(1, 2); (1, 3)]) tea_room).

(** ** Properties of the store that the functions keep *)

(** A computation keeps a property of the store: when the committed store
    and the working store have it, both have it afterwards, however the
    computation ends. *)
Definition stable (P : database -> Prop) {R A} (m : M R A) : Prop :=
  forall c, P (disk c) -> P (work c) ->
            P (disk (snd (m c))) /\ P (work (snd (m c))).

(** An SQL statement keeps a property of the store when it succeeds (a
    statement that fails changes nothing). *)
Definition stmt_keeps (P : database -> Prop) {A}
           (stmt : database -> exn + A * database) : Prop :=
  forall db a db', P db -> stmt db = inr (a, db') -> P db'.

(** The calls that change the store. *)
Inductive operation :=
| Add_ingredient (name : string) (quantity : float) (unit : string)
| Update_ingredient (id : Z) (name : string) (quantity : float) (unit : string)
| Delete_ingredient (id : Z)
| Create_dish (name : string) (price : float) (ingredients : list ingredient)
| Update_dish (id : Z) (name : string) (price : float)
              (ingredients : list ingredient)
| Delete_dish (id : Z)
| Create_order (now : string) (items : list line).

Definition perform (op : operation) : M result result :=
  match op with
  | Add_ingredient name quantity unit => add_ingredient name quantity unit
  | Update_ingredient id name quantity unit =>
      update_ingredient_by_id id name quantity unit
  | Delete_ingredient id => delete_ingredient_by_id id
  | Create_dish name price ingredients => create_dish name price ingredients
  | Update_dish id name price ingredients => update_dish id name price ingredients
  | Delete_dish id => delete_dish id
  | Create_order now items => create_order now items
  end.

(** The store after a sequence of calls, each with its own storage-failure
    point. *)
Definition perform_all (ops : list (option nat * operation)) (db : database)
  : database :=
  fold_left (fun d fo => snd (call (fst fo) d (perform (snd fo)))) ops db.

(** Every statement of [database.py] keeps the property. *)
Record statements_keep (P : database -> Prop) : Prop := {
  keep_insert_stock : forall n q u, stmt_keeps P (Sql.insert_stock n q u);
  keep_update_stock : forall n q u i, stmt_keeps P (Sql.update_stock n q u i);
  keep_update_quantity : forall q i, stmt_keeps P (Sql.update_quantity q i);
  keep_delete_stock : forall i, stmt_keeps P (Sql.delete_stock i);
  keep_insert_menu : forall n p, stmt_keeps P (Sql.insert_menu n p);
  keep_update_menu : forall n p i, stmt_keeps P (Sql.update_menu n p i);
  keep_delete_menu : forall i, stmt_keeps P (Sql.delete_menu i);
  keep_delete_recipe : forall i, stmt_keeps P (Sql.delete_recipe i);
  keep_insert_recipe : forall d i q, stmt_keeps P (Sql.insert_recipe d i q);
  keep_insert_order : forall t s r v o, stmt_keeps P (Sql.insert_order t s r v o);
  keep_insert_item : forall o d q p, stmt_keeps P (Sql.insert_item o d q p)
}.

(** The constraints of the schema of [init_db]: every [id] is a primary
    key, [ingredient_name] and [dish_name] are UNIQUE, the AUTOINCREMENT
    counter of a table is at or above every id of the table, and the foreign
    keys of [dish_ingredients] and [order_items] refer to stored rows. *)
Record schema_ok (db : database) : Prop := {
  stock_ids : NoDup (map stock_id (stock_inventory db));
  stock_names : NoDup (map ingredient_name (stock_inventory db));
  menu_ids : NoDup (map menu_row_id (menu_inventory db));
  menu_names : NoDup (map dish_name (menu_inventory db));
  recipe_ids : NoDup (map recipe_id (dish_ingredients db));
  order_ids : NoDup (map order_row_id (orders db));
  item_ids : NoDup (map item_id (order_items db));
  stock_seq : forall r, In r (stock_inventory db) ->
                stock_id r <= seq_stock (sqlite_sequence db);
  menu_seq : forall r, In r (menu_inventory db) ->
               menu_row_id r <= seq_menu (sqlite_sequence db);
  recipe_seq : forall r, In r (dish_ingredients db) ->
                 recipe_id r <= seq_recipe (sqlite_sequence db);
  orders_seq : forall r, In r (orders db) ->
                 order_row_id r <= seq_orders (sqlite_sequence db);
  items_seq : forall r, In r (order_items db) ->
                item_id r <= seq_items (sqlite_sequence db);
  recipe_dish : forall d, In d (dish_ingredients db) ->
                  exists m, In m (menu_inventory db) /\ menu_row_id m = menu_id d;
  recipe_ingredient : forall d, In d (dish_ingredients db) ->
                        exists s, In s (stock_inventory db)
                                  /\ stock_id s = ingredient_id d;
  item_order : forall it, In it (order_items db) ->
                 exists o, In o (orders db) /\ order_row_id o = order_id it;
  item_dish : forall it, In it (order_items db) ->
                exists m, In m (menu_inventory db) /\ menu_row_id m = dish_id it
}.

(** ** Ingredients and dishes: what the calls do *)

(** The storage fails at the first write. *)
Definition fails_at_once (faults : option nat) : bool :=
  match faults with
  | Some O => true
  | _ => false
  end.

(** A block that never commits, leaves the connection open when it falls
    through, and has closed it when it executes [return]. *)
Definition returns_after_close {R A} (m : M R A) : Prop :=
  forall c, closed c = false ->
    disk (snd (m c)) = disk c
    /\ match fst (m c) with
       | Val _ => closed (snd (m c)) = false
       | Ret _ => closed (snd (m c)) = true
       | Exc _ => True
       end.

(** ** The recipe of a dish *)

(** A row of the list [fetch_dish_ingredients] returns: the dict with the
    keys ["quantity_needed"], ["ing_id"], ["ingredient_name"],
    ["quantity_in_stock"] and ["unit"]. *)
Record recipe_view := mk_recipe_view {
  view_quantity_needed : float;
  view_ing_id : Z;
  view_ingredient_name : string;
  view_quantity_in_stock : option float;
  view_unit : string
}.

Definition recipe_view_of (r : joined_row) : recipe_view :=
  mk_recipe_view (j_quantity_needed r) (j_ingredient_id r) (j_ingredient_name r)
                 (j_quantity_in_stock r) (j_unit r).

(** [fetch_dish_ingredients] *)
Definition fetch_dish_ingredients (dish_id : Z)
  : M (list recipe_view) (list recipe_view) :=
  rows <- query_int dish_id (fun d db => map recipe_view_of (recipe_of d db)) ;;
  close ;;;
  return_ rows.

(** What a recipe entry asks for, and what a fetched row shows of it:
    ingredient name, quantity needed and unit. *)
Definition entry_asks (e : ingredient) : string * float * string :=
  (ing_name e, qty_needed e, ing_unit e).

Definition view_shows (v : recipe_view) : string * float * string :=
  (view_ingredient_name v, view_quantity_needed v, view_unit v).

(** The store once [update_dish] has renamed and repriced the dish and
    deleted its recipe rows. *)
Definition with_dish_updated (id : Z) (name : string) (price : float)
           (db : database) : database :=
  set_recipes
    (set_menu db
       (map (fun r => if menu_row_id r =? id then mk_menu (menu_row_id r) name price
                      else r) (menu_inventory db))
       (seq_menu (sqlite_sequence db)))
    (filter (fun d => negb (menu_id d =? id)) (dish_ingredients db))
    (seq_recipe (sqlite_sequence db)).

(** The body of the [with] block of [update_dish]. *)
Definition update_dish_block (dish_id : Z) (new_name : string) (new_price : float)
           (new_ingredients : list ingredient) : M result unit :=
  row <- query_int dish_id Sql.dish_by_id ;;
  match row with
  | None => close ;;; return_ (false, Dish_id_not_found_update dish_id)
  | Some _ =>
      execute (Sql.update_menu new_name new_price dish_id) ;;;
      execute (Sql.delete_recipe dish_id) ;;;
      update_dish_ingredients dish_id new_ingredients
  end.

(** ** The filters of [fetch_orders] *)

(** The order passes the date filters that are set. *)
Definition date_in_range (sql_date : string -> option string)
           (start_date end_date : option string) (o : order_row) : bool :=
  (if truthy start_date
   then match start_date with
        | Some d => date_ge sql_date (order_date o) d
        | None => true
        end
   else true)
  && (if truthy end_date
      then match end_date with
           | Some d => date_le sql_date (order_date o) d
           | None => true
           end
      else true).

(** The name of some dish of the order contains the filter, whatever the
    case of the letters; no filter, or an empty one, lets every order
    pass. *)
Definition name_matches (lower : string -> string) (filter_name : option string)
           (items : list item_view) : bool :=
  negb (truthy filter_name
        && negb (existsb
                   (fun it =>
                      match filter_name with
                      | Some s => contains (lower s) (lower (view_dish_name it))
                      | None => false
                      end) items)).

(** The entry [fetch_orders] builds for an order row. *)
Definition entry_of (db : database) (r : order_row) : order_entry :=
  mk_entry r (display_date (order_date r)) (items_of (order_row_id r) db).

(** ** The lines of a basket *)

(** A basket line the first loop of [create_order] lets pass: the quantity
    is at least 1 (and fits an SQLite INTEGER) and the dish id is an SQLite
    INTEGER of a dish on the menu. *)
Definition line_known (db : database) (l : line) : Prop :=
  1 <= snd l < 2 ^ 63
  /\ sql_int (fst l) = true
  /\ Sql.dish_by_id (fst l) db <> None.

(** ** AUTOINCREMENT *)

(** The ids of a table of the later store: each was in the table of the
    earlier store, or is above the AUTOINCREMENT counter of the earlier
    store. *)
Definition old_or_new {A} (key : A -> Z) (seq0 : Z) (rows0 rows : list A) : Prop :=
  forall r, In r rows -> In (key r) (map key rows0) \/ seq0 < key r.

(** The later store was reached without giving an id a second time: no
    counter went down, and every id is an old one or above the old counter. *)
Definition issued_after (db0 db : database) : Prop :=
  let q0 := sqlite_sequence db0 in
  let q := sqlite_sequence db in
  (seq_stock q0 <= seq_stock q /\ seq_menu q0 <= seq_menu q
   /\ seq_recipe q0 <= seq_recipe q /\ seq_orders q0 <= seq_orders q
   /\ seq_items q0 <= seq_items q)
  /\ old_or_new stock_id (seq_stock q0) (stock_inventory db0) (stock_inventory db)
  /\ old_or_new menu_row_id (seq_menu q0) (menu_inventory db0) (menu_inventory db)
  /\ old_or_new recipe_id (seq_recipe q0) (dish_ingredients db0) (dish_ingredients db)
  /\ old_or_new order_row_id (seq_orders q0) (orders db0) (orders db)
  /\ old_or_new item_id (seq_items q0) (order_items db0) (order_items db).

(** ** The basket of the [new_order] route *)

(** The loop of [new_order] over [zip(dish_ids, qtys)]: a pair without dish
    id is skipped; [int(q)] gives the quantity, 0 when it raises; a quantity
    [<= 0] is skipped; the other pairs are appended in order.  [py_int] is
    Python's [int] on a string ([None] when it raises). *)
Fixpoint new_order_items (py_int : string -> option Z)
         (pairs : list (string * string)) : list (string * Z) :=
  match pairs with
  | [] => []
  | (did, q) :: rest =>
      if String.eqb did "" then new_order_items py_int rest
      else
        let qty := match py_int q with
                   | Some n => n
                   | None => 0
                   end in
        if qty <=? 0 then new_order_items py_int rest
        else (did, qty) :: new_order_items py_int rest
  end.

(** A computation that never executes [return] with the message. *)
Definition never_returns (m0 : message) {A} (m : M result A) : Prop :=
  forall c r c', m c = (Ret r, c') -> snd r <> m0.

(** ** More stored examples *)

(** An ingredient added with a NaN quantity, which SQLite stores as NULL,
    and a dish that uses it. *)
Definition larder : database :=
  after (create_dish "Soup" 3 [mk_ingredient "Salt" 1 "g"])
        (after (add_ingredient "Salt" nan "g") empty_db).

(** The kitchen with a dish that has no recipe. *)
Definition canteen : database := after (create_dish "Water" 1 []) kitchen.

(** [str.lower()] on a text of ASCII characters. *)
Definition lower_ascii_char (c : ascii) : ascii :=
  let n := nat_of_ascii c in
  if (Nat.leb 65 n && Nat.leb n 90)%bool then ascii_of_nat (n + 32) else c.

Fixpoint lower_ascii (s : string) : string :=
  match s with
  | EmptyString => EmptyString
  | String c rest => String (lower_ascii_char c) (lower_ascii rest)
  end.

(* ================================================================== *)
(** * Transactions: what reaches the disk *)
(* ================================================================== *)

Lemma keeps_disk_ret {R A} (a : A) : keeps_disk (ret (R := R) a).
Proof. intro c; reflexivity. Qed.

Lemma keeps_disk_return {R A} (r : R) : keeps_disk (return_ (A := A) r).
Proof. intro c; reflexivity. Qed.

Lemma keeps_disk_raise {R A} (e : exn) : keeps_disk (raise (R := R) (A := A) e).
Proof. intro c; reflexivity. Qed.

Lemma keeps_disk_close {R} : keeps_disk (close (R := R)).
Proof. intro c; reflexivity. Qed.

Lemma keeps_disk_query {R A} (q : database -> A) : keeps_disk (query (R := R) q).
Proof. intro c; unfold query; destruct (closed c); reflexivity. Qed.

Lemma keeps_disk_query_int {R A} n (q : Z -> database -> A) :
  keeps_disk (query_int (R := R) n q).
Proof.
  intro c; unfold query_int; destruct (closed c); [reflexivity|].
  destruct (sql_int n); reflexivity.
Qed.

Lemma keeps_disk_execute {R A} (stmt : database -> exn + A * database) :
  keeps_disk (execute (R := R) stmt).
Proof.
  intro c; unfold execute; destruct (closed c); [reflexivity|].
  destruct (writes_left c) as [[|n]|]; try reflexivity;
    destruct (stmt (work c)) as [e|[a db']]; reflexivity.
Qed.

Lemma keeps_disk_bind {R A B} (m : M R A) (k : A -> M R B) :
  keeps_disk m -> (forall a, keeps_disk (k a)) -> keeps_disk (bind m k).
Proof.
  intros Hm Hk c; unfold bind.
  specialize (Hm c); destruct (m c) as [[a|r|e] c']; simpl in *; auto.
  rewrite Hk; assumption.
Qed.

Lemma keeps_disk_mul_int {R} x n : keeps_disk (mul_int (R := R) x n).
Proof. intro c; unfold mul_int; destruct (PyFloat.of_int n); reflexivity. Qed.

Create HintDb disk.
#[local] Hint Resolve keeps_disk_ret keeps_disk_return keeps_disk_raise
  keeps_disk_close keeps_disk_query keeps_disk_query_int keeps_disk_execute
  keeps_disk_mul_int : disk.

(** Split a goal [keeps_disk m] along the syntax of [m]. *)
Ltac keeps_disk_step :=
  match goal with
  | |- keeps_disk (bind _ _) => apply keeps_disk_bind; [|intros]
  | |- keeps_disk (match ?x with _ => _ end) => destruct x
  | |- keeps_disk (if ?b then _ else _) => destruct b
  | |- keeps_disk _ => solve [auto with disk]
  end.
Ltac keeps_disk_tac := repeat keeps_disk_step.

Lemma no_return_ret {R A} (a : A) : no_return (ret (R := R) a).
Proof. intros c r; discriminate. Qed.

Lemma no_return_raise {R A} (e : exn) : no_return (raise (R := R) (A := A) e).
Proof. intros c r; discriminate. Qed.

Lemma no_return_query_int {R A} n (q : Z -> database -> A) :
  no_return (query_int (R := R) n q).
Proof.
  intros c r; unfold query_int; destruct (closed c); [discriminate|].
  destruct (sql_int n); discriminate.
Qed.

Lemma no_return_execute {R A} (stmt : database -> exn + A * database) :
  no_return (execute (R := R) stmt).
Proof.
  intros c r; unfold execute; destruct (closed c); [discriminate|].
  destruct (writes_left c) as [[|n]|]; try discriminate;
    destruct (stmt (work c)) as [e|[a db']]; discriminate.
Qed.

Lemma no_return_bind {R A B} (m : M R A) (k : A -> M R B) :
  no_return m -> (forall a, no_return (k a)) -> no_return (bind m k).
Proof.
  intros Hm Hk c r; unfold bind.
  specialize (Hm c); destruct (m c) as [[a|r'|e] c']; simpl in *.
  - apply Hk.
  - exfalso; apply (Hm r'); reflexivity.
  - discriminate.
Qed.

Lemma no_return_mul_int {R} x n : no_return (mul_int (R := R) x n).
Proof. intros c r; unfold mul_int; destruct (PyFloat.of_int n); discriminate. Qed.

#[local] Hint Resolve no_return_ret no_return_raise no_return_query_int
  no_return_execute no_return_mul_int : disk.

Ltac no_return_step :=
  match goal with
  | |- no_return (bind _ _) => apply no_return_bind; [|intros]
  | |- no_return (match ?x with _ => _ end) => destruct x
  | |- no_return (if ?b then _ else _) => destruct b
  | |- no_return _ => solve [auto with disk]
  end.
Ltac no_return_tac := repeat no_return_step.

(** A [with] block whose body neither commits nor returns: when it raises,
    nothing has reached the disk; when it does not, the working store of the
    body has. *)
Lemma with_conn_cases {R A} (body : M R A) (c : connection) :
  keeps_disk body -> no_return body ->
  (exists e c', with_conn body c = (Exc e, c') /\ disk c' = disk c)
  \/ (exists a c1, body c = (Val a, c1) /\ closed c1 = false
        /\ with_conn body c
           = (Val a, mk_conn (work c1) (work c1) false (writes_left c1))).
Proof.
  intros Hd Hr; unfold with_conn.
  pose proof (Hd c) as Hdc; pose proof (Hr c) as Hrc.
  destruct (body c) as [[a|r|e] c1]; simpl in *.
  - unfold commit; destruct (closed c1) eqn:Hc.
    + left; eauto.
    + right; exists a, c1; auto.
  - exfalso; apply (Hrc r); reflexivity.
  - unfold rollback; destruct (closed c1); left; eauto.
Qed.

(* ================================================================== *)
(** * [create_order]: the loops *)
(* ================================================================== *)

Lemma validate_items_keeps_disk items : forall dish_map subtotal,
  keeps_disk (validate_items items dish_map subtotal).
Proof.
  induction items as [|[dish_id qty] rest IH]; intros; simpl; keeps_disk_tac; try apply IH.
Qed.

Lemma add_needs_keeps_disk rows qty : forall needs,
  keeps_disk (add_needs rows qty needs).
Proof.
  induction rows as [|r rest IH]; intros; simpl; keeps_disk_tac; try apply IH.
Qed.

Lemma accumulate_needs_keeps_disk items dish_map : forall needs,
  keeps_disk (accumulate_needs items dish_map needs).
Proof.
  induction items as [|[dish_id qty] rest IH]; intros; simpl; keeps_disk_tac;
    try solve [apply add_needs_keeps_disk | apply IH].
Qed.

Lemma check_stock_keeps_disk needs : keeps_disk (check_stock needs).
Proof.
  induction needs as [|[iid info] rest IH]; simpl; keeps_disk_tac; try apply IH.
Qed.

Lemma insert_items_keeps_disk order_id items dish_map :
  keeps_disk (insert_items order_id items dish_map).
Proof.
  induction items as [|[dish_id qty] rest IH]; simpl; keeps_disk_tac; try apply IH.
Qed.

Lemma subtract_stock_keeps_disk needs : keeps_disk (subtract_stock needs).
Proof.
  induction needs as [|[iid info] rest IH]; simpl; keeps_disk_tac; try apply IH.
Qed.

Lemma insert_items_no_return order_id items dish_map :
  no_return (insert_items order_id items dish_map).
Proof.
  induction items as [|[dish_id qty] rest IH]; simpl; no_return_tac; try apply IH.
Qed.

Lemma subtract_stock_no_return needs : no_return (subtract_stock needs).
Proof.
  induction needs as [|[iid info] rest IH]; simpl; no_return_tac; try apply IH.
Qed.

#[local] Hint Resolve validate_items_keeps_disk accumulate_needs_keeps_disk
  check_stock_keeps_disk insert_items_keeps_disk subtract_stock_keeps_disk
  insert_items_no_return subtract_stock_no_return : disk.

Lemma returns_failure_bind {A B} (m : M result A) (k : A -> M result B) :
  returns_failure m -> (forall a, returns_failure (k a)) ->
  returns_failure (bind m k).
Proof.
  intros Hm Hk c r; unfold bind.
  specialize (Hm c); destruct (m c) as [[a|r'|e] c']; simpl in *.
  - apply Hk.
  - intros H; injection H as <-; apply Hm; reflexivity.
  - discriminate.
Qed.

Lemma returns_failure_no_return {A} (m : M result A) :
  no_return m -> returns_failure m.
Proof. intros H c r Hr; exfalso; exact (H c r Hr). Qed.

Lemma returns_failure_return {A} (msg : message) :
  returns_failure (return_ (A := A) (false, msg)).
Proof. intros c r H; injection H as <-; reflexivity. Qed.

Ltac returns_failure_step :=
  match goal with
  | |- returns_failure (bind _ _) => apply returns_failure_bind; [|intros]
  | |- returns_failure (return_ (false, _)) => apply returns_failure_return
  | |- returns_failure (match ?x with _ => _ end) => destruct x
  | |- returns_failure (if ?b then _ else _) => destruct b
  | |- returns_failure _ =>
      solve [apply returns_failure_no_return; auto with disk]
  end.
Ltac returns_failure_tac := repeat returns_failure_step.

Lemma validate_items_returns_failure items : forall dish_map subtotal,
  returns_failure (validate_items items dish_map subtotal).
Proof.
  induction items as [|[dish_id qty] rest IH]; intros; simpl;
    returns_failure_tac; try apply IH.
Qed.

Lemma add_needs_no_return rows qty : forall needs,
  no_return (add_needs rows qty needs).
Proof.
  induction rows as [|r rest IH]; intros; simpl; no_return_tac; try apply IH.
Qed.

Lemma accumulate_needs_returns_failure items dish_map : forall needs,
  returns_failure (accumulate_needs items dish_map needs).
Proof.
  induction items as [|[dish_id qty] rest IH]; intros; simpl;
    returns_failure_tac;
    try solve [apply returns_failure_no_return, add_needs_no_return | apply IH].
Qed.

Lemma check_stock_returns_failure needs : returns_failure (check_stock needs).
Proof.
  induction needs as [|[iid info] rest IH]; simpl; returns_failure_tac; try apply IH.
Qed.

(** The transaction of [create_order]. *)
Lemma order_transaction_cases now sub vat tot items dish_map needs c :
  let body :=
    (order_id <- execute (Sql.insert_order now sub vatRate vat tot) ;;
     insert_items order_id items dish_map ;;;
     subtract_stock needs ;;;
     ret (R := result) order_id) in
  (exists e c', with_conn body c = (Exc e, c') /\ disk c' = disk c)
  \/ (exists id c1, body c = (Val id, c1) /\ closed c1 = false
        /\ with_conn body c
           = (Val id, mk_conn (work c1) (work c1) false (writes_left c1))).
Proof.
  intros body; apply with_conn_cases; subst body.
  - keeps_disk_tac.
  - no_return_tac.
Qed.

(** The [try] block either ends with [return True, order_id], or it ends
    with a failure or an exception and has written nothing to the disk. *)
Lemma create_order_try_cases now items c r c' :
  create_order_try now items c = (r, c') ->
  (exists id, r = Ret (true, Order_id id))
  \/ (disk c' = disk c
      /\ ((exists m, r = Ret (false, m)) \/ (exists e, r = Exc e))).
Proof.
  unfold create_order_try.
  unfold bind at 1.
  pose proof (validate_items_keeps_disk items [] 0%float c) as Hd1.
  pose proof (@validate_items_returns_failure items [] 0%float c) as Hf1.
  destruct (validate_items items [] 0%float c) as [[[dish_map sub]|r1|e1] c1];
    simpl in Hd1, Hf1.
  2: { intros H; injection H as <- <-; right; split; [assumption|left].
       destruct r1 as [ok m]; specialize (Hf1 _ eq_refl); simpl in Hf1; subst ok.
       eauto. }
  2: { intros H; injection H as <- <-; right; split; [assumption|right]; eauto. }
  simpl fst; simpl snd.
  unfold bind at 1.
  pose proof (accumulate_needs_keeps_disk items dish_map [] c1) as Hd2.
  pose proof (@accumulate_needs_returns_failure items dish_map [] c1) as Hf2.
  destruct (accumulate_needs items dish_map [] c1) as [[needs|r2|e2] c2];
    simpl in Hd2, Hf2.
  2: { intros H; injection H as <- <-; right; split; [congruence|left].
       destruct r2 as [ok m]; specialize (Hf2 _ eq_refl); simpl in Hf2; subst ok.
       eauto. }
  2: { intros H; injection H as <- <-; right; split; [congruence|right]; eauto. }
  unfold bind at 1.
  pose proof (check_stock_keeps_disk needs c2) as Hd3.
  pose proof (@check_stock_returns_failure needs c2) as Hf3.
  destruct (check_stock needs c2) as [[[]|r3|e3] c3]; simpl in Hd3, Hf3.
  2: { intros H; injection H as <- <-; right; split; [congruence|left].
       destruct r3 as [ok m]; specialize (Hf3 _ eq_refl); simpl in Hf3; subst ok.
       eauto. }
  2: { intros H; injection H as <- <-; right; split; [congruence|right]; eauto. }
  unfold bind at 1.
  destruct (order_transaction_cases now (PyFloat.round2 sub)
              (PyFloat.round2 (sub * vatRate))
              (PyFloat.round2 (sub + PyFloat.round2 (sub * vatRate)))
              items dish_map needs c3)
    as [(e & c4 & -> & Hd4)|(id & c4 & _ & _ & ->)].
  - intros H; injection H as <- <-; right; split; [congruence|right]; eauto.
  - intros H; injection H as <- <-; left; eauto.
Qed.

(* ================================================================== *)
(** * [create_order]: the accepted basket *)
(* ================================================================== *)

Lemma reads_only_ret {R A} (a : A) : reads_only (ret (R := R) a).
Proof. intro c; reflexivity. Qed.

Lemma reads_only_return {R A} (r : R) : reads_only (return_ (A := A) r).
Proof. intro c; reflexivity. Qed.

Lemma reads_only_raise {R A} (e : exn) : reads_only (raise (R := R) (A := A) e).
Proof. intro c; reflexivity. Qed.

Lemma reads_only_query_int {R A} n (q : Z -> database -> A) :
  reads_only (query_int (R := R) n q).
Proof.
  intro c; unfold query_int; destruct (closed c); [reflexivity|].
  destruct (sql_int n); reflexivity.
Qed.

Lemma reads_only_mul_int {R} x n : reads_only (mul_int (R := R) x n).
Proof. intro c; unfold mul_int; destruct (PyFloat.of_int n); reflexivity. Qed.

Lemma reads_only_bind {R A B} (m : M R A) (k : A -> M R B) :
  reads_only m -> (forall a, reads_only (k a)) -> reads_only (bind m k).
Proof.
  intros Hm Hk c; unfold bind.
  specialize (Hm c); destruct (m c) as [[a|r|e] c']; simpl in *; auto.
  rewrite Hk; assumption.
Qed.

#[local] Hint Resolve reads_only_ret reads_only_return reads_only_raise
  reads_only_query_int reads_only_mul_int : disk.

Ltac reads_only_step :=
  match goal with
  | |- reads_only (bind _ _) => apply reads_only_bind; [|intros]
  | |- reads_only (match ?x with _ => _ end) => destruct x
  | |- reads_only (if ?b then _ else _) => destruct b
  | |- reads_only _ => solve [auto with disk]
  end.
Ltac reads_only_tac := repeat reads_only_step.

Lemma validate_items_reads_only items : forall dish_map subtotal,
  reads_only (validate_items items dish_map subtotal).
Proof.
  induction items as [|[dish_id qty] rest IH]; intros; simpl;
    reads_only_tac; try apply IH.
Qed.

Lemma add_needs_reads_only rows qty : forall needs,
  reads_only (add_needs rows qty needs).
Proof.
  induction rows as [|r rest IH]; intros; simpl; reads_only_tac; try apply IH.
Qed.

Lemma accumulate_needs_reads_only items dish_map : forall needs,
  reads_only (accumulate_needs items dish_map needs).
Proof.
  induction items as [|[dish_id qty] rest IH]; intros; simpl; reads_only_tac;
    try solve [apply add_needs_reads_only | apply IH].
Qed.

Lemma check_stock_reads_only needs : reads_only (check_stock needs).
Proof.
  induction needs as [|[iid info] rest IH]; simpl; reads_only_tac; try apply IH.
Qed.

Lemma of_int_some n y : PyFloat.of_int n = Some y -> y = PyFloat.to_float n.
Proof.
  unfold PyFloat.of_int.
  destruct (binary_normalize prec emax n 0 false); congruence.
Qed.

Lemma mul_int_val {R} x n y c c' :
  mul_int (R := R) x n c = (Val y, c') ->
  PyFloat.of_int n <> None /\ y = (x * PyFloat.to_float n)%float.
Proof.
  unfold mul_int; destruct (PyFloat.of_int n) as [z|] eqn:E; [|discriminate].
  intros H; injection H as <- _; split; [discriminate|].
  rewrite (of_int_some _ E); reflexivity.
Qed.

Lemma dict_get_set_same {V} k (v : V) d : dict_get k (dict_set k v d) = Some v.
Proof.
  induction d as [|[k' v'] d IH]; simpl.
  - rewrite Z.eqb_refl; reflexivity.
  - destruct (k' =? k) eqn:E; simpl.
    + rewrite Z.eqb_refl; reflexivity.
    + rewrite E; exact IH.
Qed.

Lemma dict_get_set_other {V} k k' (v : V) d :
  k' <> k -> dict_get k (dict_set k' v d) = dict_get k d.
Proof.
  intros Hne; induction d as [|[k0 v0] d IH]; simpl.
  - destruct (k' =? k) eqn:E; [apply Z.eqb_eq in E; contradiction|reflexivity].
  - destruct (k0 =? k') eqn:E; simpl.
    + apply Z.eqb_eq in E; subst k0.
      destruct (k' =? k) eqn:E'; [apply Z.eqb_eq in E'; contradiction|reflexivity].
    + destruct (k0 =? k); [reflexivity|exact IH].
Qed.

Lemma dish_map_ok_set db dish_map k r :
  dish_map_ok db dish_map -> Sql.dish_by_id k db = Some r ->
  dish_map_ok db (dict_set k (mk_dish_info (dish_name r) (dish_price r)) dish_map).
Proof.
  intros Hok Hr k' info.
  destruct (Z.eq_dec k k') as [->|Hne].
  - rewrite dict_get_set_same; intros H; injection H as <-; eauto.
  - rewrite dict_get_set_other by assumption; apply Hok.
Qed.

(** What the first loop has established when it falls through. *)
Lemma validate_items_val items : forall dish_map sub c dish_map' sub' c',
  validate_items items dish_map sub c = (Val (dish_map', sub'), c') ->
  dish_map_ok (work c) dish_map ->
  c' = c
  /\ sub' = fold_left (fun acc l => (acc + line_amount (work c) l)%float) items sub
  /\ dish_map_ok (work c) dish_map'
  /\ (forall k, dict_get k dish_map <> None -> dict_get k dish_map' <> None)
  /\ Forall (fun l => 1 <= snd l /\ sql_int (fst l) = true
                      /\ Sql.dish_by_id (fst l) (work c) <> None
                      /\ PyFloat.of_int (snd l) <> None
                      /\ dict_get (fst l) dish_map' <> None) items.
Proof.
  induction items as [|[dish_id qty] rest IH]; intros dish_map sub c dish_map' sub' c'.
  - simpl; intros H Hok; injection H as <- <- <-; repeat split; auto.
  - cbn [validate_items].
    destruct (qty <=? 0) eqn:Hq; [discriminate|].
    apply Z.leb_gt in Hq.
    unfold bind at 1, query_int.
    destruct (closed c); [discriminate|].
    destruct (sql_int dish_id) eqn:Hid; [|discriminate].
    destruct (Sql.dish_by_id dish_id (work c)) as [r|] eqn:Hr; [|discriminate].
    unfold bind at 1.
    destruct (mul_int (dish_price r) qty c) as [[p|?|?] c1] eqn:Hm; try discriminate.
    pose proof (reads_only_mul_int (R := result) (dish_price r) qty c) as Hc1.
    rewrite Hm in Hc1; simpl in Hc1; subst c1.
    apply mul_int_val in Hm; destruct Hm as [Hof ->].
    intros H Hok.
    apply IH in H; [|apply dish_map_ok_set; assumption].
    destruct H as (-> & -> & Hok' & Hkeys & Hall).
    repeat split; auto.
    + cbn [fold_left]; unfold line_amount at 3; cbn [fst snd]; rewrite Hr;
      reflexivity.
    + intros k Hk; apply Hkeys.
      destruct (Z.eq_dec dish_id k) as [->|Hne].
      * rewrite dict_get_set_same; discriminate.
      * rewrite dict_get_set_other by assumption; exact Hk.
    + constructor; [|exact Hall]; simpl.
      repeat split; try lia; try assumption; try congruence.
      apply Hkeys; rewrite dict_get_set_same; discriminate.
Qed.

Lemma add_needs_val rows qty : forall needs c needs' c',
  add_needs rows qty needs c = (Val needs', c') ->
  c' = c /\ needs' = needs_after_rows rows qty needs.
Proof.
  induction rows as [|r rest IH]; intros needs c needs' c'.
  - simpl; intros H; injection H as <- <-; auto.
  - cbn [add_needs needs_after_rows].
    unfold bind at 1.
    destruct (mul_int (j_quantity_needed r) qty c) as [[p|?|?] c1] eqn:Hm;
      try discriminate.
    pose proof (reads_only_mul_int (R := result) (j_quantity_needed r) qty c) as Hc1.
    rewrite Hm in Hc1; simpl in Hc1; subst c1.
    apply mul_int_val in Hm; destruct Hm as [_ ->].
    apply IH.
Qed.

(** What the second loop has established when it falls through. *)
Lemma accumulate_needs_val items dish_map : forall needs c needs' c',
  accumulate_needs items dish_map needs c = (Val needs', c') ->
  c' = c
  /\ needs' = needs_after_items (work c) items needs
  /\ Forall (fun l => recipe_of (fst l) (work c) <> []) items.
Proof.
  induction items as [|[dish_id qty] rest IH]; intros needs c needs' c'.
  - simpl; intros H; injection H as <- <-; auto.
  - cbn [accumulate_needs needs_after_items].
    unfold bind at 1, query_int.
    destruct (closed c); [discriminate|].
    destruct (sql_int dish_id); [|discriminate].
    destruct (recipe_of dish_id (work c)) as [|r0 rows] eqn:Hrows.
    { destruct (dict_get dish_id dish_map); discriminate. }
    unfold bind at 1.
    destruct (add_needs (r0 :: rows) qty needs c) as [[n1|?|?] c1] eqn:Ha;
      try discriminate.
    apply add_needs_val in Ha; destruct Ha as [-> ->].
    intros H; apply IH in H; destruct H as (-> & -> & Hall).
    repeat split; auto.
    constructor; [simpl; rewrite Hrows; discriminate|exact Hall].
Qed.

(** What the third loop has established when it falls through. *)
Lemma check_stock_val needs : forall c c',
  check_stock needs c = (Val tt, c') ->
  c' = c
  /\ Forall (fun kv => exists stock, need_stock (snd kv) = Some stock
                       /\ (stock <? needed (snd kv))%float = false) needs.
Proof.
  induction needs as [|[iid info] rest IH]; intros c c'.
  - simpl; intros H; injection H as <-; auto.
  - cbn [check_stock].
    destruct (need_stock info) as [stock|] eqn:Hs; [|discriminate].
    destruct (stock <? needed info)%float eqn:Hlt; [discriminate|].
    intros H; apply IH in H; destruct H as [-> Hall]; split; [reflexivity|].
    constructor; [simpl; eauto|exact Hall].
Qed.

Lemma execute_val {R A} (stmt : database -> exn + A * database) c a c' :
  execute (R := R) stmt c = (Val a, c') ->
  stmt (work c) = inr (a, work c')
  /\ disk c' = disk c /\ closed c = false /\ closed c' = false.
Proof.
  unfold execute; destruct (closed c); [discriminate|].
  destruct (writes_left c) as [[|n]|]; try discriminate;
    destruct (stmt (work c)) as [e|[a' db']]; try discriminate;
    intros H; injection H as <- <-; auto.
Qed.

Lemma insert_items_val db0 id dish_map items : forall c c',
  insert_items id items dish_map c = (Val tt, c') ->
  dish_map_ok db0 dish_map ->
  (exists rows, order_items (work c') = order_items (work c) ++ rows
                /\ item_rows_for db0 id items rows)
  /\ stock_inventory (work c') = stock_inventory (work c)
  /\ menu_inventory (work c') = menu_inventory (work c)
  /\ dish_ingredients (work c') = dish_ingredients (work c)
  /\ orders (work c') = orders (work c)
  /\ Forall (fun l => sql_int (snd l) = true) items.
Proof.
  induction items as [|[d q] rest IH]; intros c c'.
  - simpl; intros H _; injection H as <-.
    repeat split; auto.
    exists []; split; [rewrite app_nil_r; reflexivity|constructor].
  - cbn [insert_items]; intros H Hok.
    destruct (dict_get d dish_map) as [info|] eqn:Hd; [|discriminate].
    destruct (Hok _ _ Hd) as (r & Hr & ->).
    unfold bind at 1 in H.
    destruct (mul_int (info_price _) q c) as [[p|?|?] c1] eqn:Hm;
      try discriminate.
    pose proof (reads_only_mul_int (R := result) (dish_price r) q c) as Hc1.
    simpl in Hm; rewrite Hm in Hc1; simpl in Hc1; subst c1.
    apply mul_int_val in Hm; destruct Hm as [_ ->].
    unfold bind at 1 in H.
    destruct (execute _ c) as [[[]|?|?] c2] eqn:He; try discriminate.
    apply execute_val in He; destruct He as (Hs & _ & _ & _).
    unfold Sql.insert_item in Hs.
    destruct (sql_int d && sql_int q) eqn:Hint; [|discriminate].
    apply andb_prop in Hint; destruct Hint as [_ Hq].
    cbn [negb] in Hs.
    repeat match type of Hs with
           | (if ?b then _ else _) = _ => destruct b; [discriminate|]
           end.
    injection Hs as Hs.
    apply IH in H; [|assumption].
    destruct H as ((rows & Hrows & Hfor) & Hst & Hme & Hre & Hor & Hall).
    rewrite <- Hs in Hrows, Hst, Hme, Hre, Hor; cbn in Hrows, Hst, Hme, Hre, Hor.
    repeat split; auto.
    eexists; split.
    + rewrite Hrows, <- app_assoc; reflexivity.
    + constructor; [|exact Hfor].
      cbn; repeat split; auto.
      unfold line_amount; cbn [fst snd]; rewrite Hr; reflexivity.
Qed.

Lemma subtract_stock_val needs : forall c c',
  subtract_stock needs c = (Val tt, c') ->
  stock_inventory (work c') = decrement needs (stock_inventory (work c))
  /\ menu_inventory (work c') = menu_inventory (work c)
  /\ dish_ingredients (work c') = dish_ingredients (work c)
  /\ orders (work c') = orders (work c)
  /\ order_items (work c') = order_items (work c).
Proof.
  induction needs as [|[iid info] rest IH]; intros c c'.
  - simpl; intros H; injection H as <-; auto.
  - cbn [subtract_stock]; intros H.
    destruct (need_stock info) as [stock|] eqn:Hs; [|discriminate].
    unfold bind at 1 in H.
    destruct (execute _ c) as [[[]|?|?] c2] eqn:He; try discriminate.
    apply execute_val in He; destruct He as (Hu & _ & _ & _).
    unfold Sql.update_quantity in Hu; injection Hu as Hu.
    apply IH in H; destruct H as (Hst & Hme & Hre & Hor & Hit).
    rewrite <- Hu in Hst, Hme, Hre, Hor, Hit; cbn in Hst, Hme, Hre, Hor, Hit.
    repeat split; auto.
    rewrite Hst; unfold decrement; cbn [fold_left fst snd].
    unfold new_quantity; rewrite Hs; reflexivity.
Qed.

(** The [try] block ends with [return True, order_id] exactly after the
    three loops fell through and the transaction was committed. *)
Lemma create_order_try_success now items c id c' :
  create_order_try now items c = (Ret (true, Order_id id), c') ->
  let db := work c in
  let sub := raw_subtotal db items in
  let needs := order_needs db items in
  Forall (line_ok db) items
  /\ Forall (fun kv => exists stock, need_stock (snd kv) = Some stock
                       /\ (stock <? needed (snd kv))%float = false) needs
  /\ disk c' = work c'
  /\ orders (disk c')
     = orders db ++ [mk_order id now (PyFloat.round2 sub) vatRate
                       (PyFloat.round2 (sub * vatRate))
                       (PyFloat.round2 (sub + PyFloat.round2 (sub * vatRate)))]
  /\ (exists rows, order_items (disk c') = order_items db ++ rows
                   /\ item_rows_for db id items rows)
  /\ stock_inventory (disk c') = decrement needs (stock_inventory db)
  /\ menu_inventory (disk c') = menu_inventory db
  /\ dish_ingredients (disk c') = dish_ingredients db.
Proof.
  unfold create_order_try.
  unfold bind at 1.
  pose proof (@validate_items_returns_failure items [] 0%float c) as Hf1.
  destruct (validate_items items [] 0%float c) as [[[dish_map sub]|r1|e1] c1] eqn:Hv;
    simpl in Hf1.
  2: { intros H; injection H as -> _; specialize (Hf1 _ eq_refl); discriminate. }
  2: discriminate.
  apply validate_items_val in Hv; [|intros k info; discriminate].
  destruct Hv as (-> & -> & Hok & _ & Hlines).
  cbn [fst snd].
  unfold bind at 1.
  pose proof (@accumulate_needs_returns_failure items dish_map [] c) as Hf2.
  destruct (accumulate_needs items dish_map [] c) as [[needs|r2|e2] c2] eqn:Ha;
    simpl in Hf2.
  2: { intros H; injection H as -> _; specialize (Hf2 _ eq_refl); discriminate. }
  2: discriminate.
  apply accumulate_needs_val in Ha; destruct Ha as (-> & -> & Hrecipes).
  unfold bind at 1.
  pose proof (@check_stock_returns_failure (needs_after_items (work c) items []) c)
    as Hf3.
  destruct (check_stock (needs_after_items (work c) items []) c)
    as [[[]|r3|e3] c3] eqn:Hc; simpl in Hf3.
  2: { intros H; injection H as -> _; specialize (Hf3 _ eq_refl); discriminate. }
  2: discriminate.
  apply check_stock_val in Hc; destruct Hc as (-> & Hstock).
  unfold bind at 1.
  match goal with
  | |- context [with_conn ?b c] =>
      destruct (order_transaction_cases now
                  (PyFloat.round2 (raw_subtotal (work c) items))
                  (PyFloat.round2 (raw_subtotal (work c) items * vatRate))
                  (PyFloat.round2
                     (raw_subtotal (work c) items
                      + PyFloat.round2 (raw_subtotal (work c) items * vatRate)))
                  items dish_map (needs_after_items (work c) items []) c)
        as [(e & c4 & Hw & _)|(oid & c4 & Hbody & _ & Hw)]
  end.
  { unfold raw_subtotal in Hw; rewrite Hw; discriminate. }
  unfold raw_subtotal in Hw, Hbody; rewrite Hw.
  intros H; injection H as <- <-; cbn [disk work].
  (* the body of the transaction *)
  unfold bind at 1 in Hbody.
  destruct (execute _ c) as [[oid'|?|?] c5] eqn:He; try discriminate.
  apply execute_val in He; destruct He as (Hins & _ & _ & _).
  unfold Sql.insert_order in Hins.
  destruct (_ || _); [discriminate|]; injection Hins as -> Hins.
  unfold bind at 1 in Hbody.
  destruct (insert_items _ items dish_map c5) as [[[]|?|?] c6] eqn:Hi;
    try discriminate.
  apply (@insert_items_val (work c)) in Hi; [|assumption].
  destruct Hi as ((rows & Hrows & Hfor) & Hst & Hme & Hre & Hor & Hq).
  unfold bind at 1 in Hbody.
  destruct (subtract_stock _ c6) as [[[]|?|?] c7] eqn:Hs; try discriminate.
  apply subtract_stock_val in Hs.
  destruct Hs as (Hst' & Hme' & Hre' & Hor' & Hit').
  injection Hbody as <- <-.
  rewrite <- Hins in Hrows, Hst, Hme, Hre, Hor.
  cbn in Hrows, Hst, Hme, Hre, Hor.
  repeat split.
  - clear - Hlines Hrecipes Hq.
    induction items as [|l rest IH]; constructor;
      inversion Hlines as [|? ? (H1 & H2 & H3 & _) Hl' ]; subst;
      inversion Hrecipes; subst; inversion Hq as [|? ? Hq1 Hq']; subst.
    + unfold line_ok; repeat split; auto.
      unfold sql_int in Hq1; apply andb_prop in Hq1; destruct Hq1 as [_ Hq1].
      apply Z.ltb_lt in Hq1; exact Hq1.
    + apply IH; assumption.
  - exact Hstock.
  - rewrite Hor', Hor; reflexivity.
  - exists rows; split; [rewrite Hit', Hrows; reflexivity|exact Hfor].
  - rewrite Hst', Hst; reflexivity.
  - rewrite Hme', Hme; reflexivity.
  - rewrite Hre', Hre; reflexivity.
Qed.

(** How a call of [create_order] ends, from the end of its [try] block. *)
Lemma create_order_call faults now items db :
  let c := get_connection faults db in
  call faults db (create_order now items)
  = match create_order_try now items c with
    | (Val (ok, m), c') | (Ret (ok, m), c') => (Returned ok m, disk c')
    | (Exc e, c') => (Returned false (str e), disk c')
    end.
Proof.
  unfold call, create_order, try_finally, try_except.
  destruct (create_order_try now items (get_connection faults db))
    as [[[ok m]|[ok m]|e] c']; reflexivity.
Qed.

(** C1. Atomicity of [create_order]: for every basket, clock reading,
    stored database and storage-failure point, the call either returns a
    failure and leaves the database exactly as it was (no order row, no item
    row, no stock change), or it returns [True, order_id] and the order row,
    one item row per basket line and every stock decrement are on disk
    together.  It never ends by an uncaught exception. *)
Theorem create_order_all_or_nothing
        (faults : option nat) (now : string) (items : list line) (db : database) :
  let out := fst (call faults db (create_order now items)) in
  let db' := snd (call faults db (create_order now items)) in
  (exists m, out = Returned false m /\ db' = db)
  \/ (exists id o rows,
        out = Returned true (Order_id id)
        /\ order_row_id o = id
        /\ orders db' = orders db ++ [o]
        /\ order_items db' = order_items db ++ rows
        /\ item_rows_for db id items rows
        /\ stock_inventory db'
           = decrement (order_needs db items) (stock_inventory db)).
Proof.
  cbv zeta; rewrite create_order_call; cbv zeta.
  destruct (create_order_try now items (get_connection faults db))
    as [r c'] eqn:Htry.
  destruct (create_order_try_cases _ _ _ Htry) as [[id ->]|[Hd [[m ->]|[e ->]]]].
  - right.
    apply create_order_try_success in Htry; cbv zeta in Htry; cbn [work get_connection] in Htry.
    destruct Htry as (_ & _ & _ & Hor & (rows & Hrows & Hfor) & Hst & _ & _).
    cbn [fst snd].
    eexists id, _, rows; repeat split; eauto.
    reflexivity.
  - left; exists m; split; [reflexivity|exact Hd].
  - left; exists (str e); split; [reflexivity|exact Hd].
Qed.

(* ================================================================== *)
(** * The empty basket *)
(* ================================================================== *)

(** C4, as the code has it. [create_order] takes the basket as a list of
    (dish id, quantity) pairs and does not reject the empty one: when the
    storage does not fail, the call with the empty basket returns
    [True, order_id] and commits one order row with subtotal, VAT amount
    and total 0; it writes no item row and changes no stock. *)
Theorem create_order_empty_basket (now : string) (db : database) :
  let o := empty_order now db in
  call None db (create_order now [])
  = (Returned true (Order_id (order_row_id o)),
     set_orders db (orders db ++ [o]) (order_row_id o))
  /\ order_items (snd (call None db (create_order now []))) = order_items db
  /\ stock_inventory (snd (call None db (create_order now [])))
     = stock_inventory db.
Proof.
  repeat split; reflexivity.
Qed.

(** C4, as stated, fails: on the empty store the empty basket is not
    rejected (the call does not return a failure that leaves the store as it
    was). *)
Lemma create_order_empty_basket_not_rejected :
  ~ (exists m, call None empty_db (create_order "2024-05-01 12:00:00" [])
               = (Returned false m, empty_db)).
Proof.
  intros [m H]; vm_compute in H; discriminate H.
Qed.

(* ================================================================== *)
(** * Exceptions that escape *)
(* ================================================================== *)

(** C5 fails on the code.  [add_ingredient] catches the UNIQUE violation
    and returns [False, "Ingredient already exists"], but
    [update_ingredient_by_id] renaming ingredient 2 to the name of
    ingredient 1 ends by an uncaught [IntegrityError]; [delete_dish] on a
    dish that an order item references ends by an uncaught [IntegrityError];
    and [update_dish] with a recipe entry whose unit conflicts closes the
    connection inside the [with] block, so that the commit at the end of the
    block raises [ProgrammingError]. *)
Theorem update_and_delete_raise :
  fst (call None pantry (add_ingredient "Flour" 5 "g"))
  = Returned false Ingredient_already_exists
  /\ fst (call None pantry (update_ingredient_by_id 2 "Flour" 500 "g"))
     = Uncaught (Raised IntegrityError)
  /\ fst (call None bakery (delete_dish 1)) = Uncaught (Raised IntegrityError)
  /\ fst (call None bakery
            (update_dish 1 "Bread" 3 [mk_ingredient "Flour" 200 "ml"]))
     = Uncaught (Raised ProgrammingError).
Proof.
  repeat split; vm_compute; reflexivity.
Qed.

(* ================================================================== *)
(** * The exceptions a computation raises *)
(* ================================================================== *)

Lemma raises_errors_ret {R A} (a : A) : raises_errors (ret (R := R) a).
Proof. intros c e c'; discriminate. Qed.

Lemma raises_errors_bind {R A B} (m : M R A) (k : A -> M R B) :
  raises_errors m -> (forall a, raises_errors (k a)) -> raises_errors (bind m k).
Proof.
  intros Hm Hk c e c'; unfold bind.
  pose proof (Hm c) as Hmc.
  destruct (m c) as [[a|r|e0] c0]; [apply Hk|discriminate|].
  intros H; injection H as <- <-; eapply Hmc; reflexivity.
Qed.

Lemma raises_errors_execute {R A} (stmt : database -> exn + A * database) :
  (forall db e, stmt db = inl e -> exists k, e = Raised k) ->
  raises_errors (execute (R := R) stmt).
Proof.
  intros Hs c e c'; unfold execute.
  destruct (closed c); [intros H; injection H as <- _; eauto|].
  pose proof (Hs (work c)) as Hw.
  destruct (writes_left c) as [[|n]|];
    try (intros H; injection H as <- _; eauto; fail);
    destruct (stmt (work c)) as [e0|[a db']]; try discriminate;
    intros H; injection H as <- _; apply Hw; reflexivity.
Qed.

(* ================================================================== *)
(** * [create_dish] and conflicting units *)
(* ================================================================== *)

Lemma find_app_some {A} (f : A -> bool) l l' x :
  find f l = Some x -> find f (l ++ l') = Some x.
Proof.
  induction l as [|a l IH]; simpl; [discriminate|].
  destruct (f a); auto.
Qed.

Lemma find_app_none {A} (f : A -> bool) l l' :
  find f l = None -> find f (l ++ l') = find f l'.
Proof.
  induction l as [|a l IH]; simpl; [reflexivity|].
  destruct (f a); [discriminate|auto].
Qed.

Lemma find_none_existsb {A} (f : A -> bool) l :
  find f l = None -> existsb f l = false.
Proof.
  induction l as [|a l IH]; simpl; [reflexivity|].
  destruct (f a); [discriminate|auto].
Qed.

Lemma existsb_false_find {A} (f : A -> bool) l :
  existsb f l = false -> find f l = None.
Proof.
  induction l as [|a l IH]; simpl; [reflexivity|].
  destruct (f a); [discriminate|auto].
Qed.

Lemma ensure_ingredient_exists_found name unit c row :
  closed c = false ->
  Sql.stock_by_name name (work c) = Some row ->
  ensure_ingredient_exists name unit c
  = (Val (if String.eqb (stock_unit row) unit then inl (stock_id row)
          else inr (Unit_mismatch name (stock_unit row) unit)), c).
Proof.
  intros Hc Hrow; unfold ensure_ingredient_exists, bind, query.
  rewrite Hc, Hrow.
  destruct (String.eqb (stock_unit row) unit); reflexivity.
Qed.

Lemma stock_by_name_vivify name unit db :
  Sql.stock_by_name name db = None ->
  Sql.stock_by_name name (vivify name unit db)
  = Some (mk_stock (next_id (seq_stock (sqlite_sequence db))
                            (map stock_id (stock_inventory db)))
                   name (Some 0%float) unit).
Proof.
  intros Hnone; unfold Sql.stock_by_name, vivify; cbn [stock_inventory set_stock].
  rewrite find_app_none by exact Hnone.
  cbn [find ingredient_name]; rewrite String.eqb_refl; reflexivity.
Qed.

Lemma ensure_ingredient_exists_new name unit c :
  closed c = false ->
  Sql.stock_by_name name (work c) = None ->
  ensure_ingredient_exists name unit c
  = match writes_left c with
    | Some O => (Exc (Raised OperationalError), c)
    | w => (Val (inl (next_id (seq_stock (sqlite_sequence (work c)))
                              (map stock_id (stock_inventory (work c))))),
            mk_conn (disk c) (vivify name unit (work c)) false (spend w))
    end.
Proof.
  intros Hc Hnone; unfold ensure_ingredient_exists, bind, query, execute.
  rewrite Hc, Hnone.
  pose proof (stock_by_name_vivify name unit (work c) Hnone) as Hv.
  unfold Sql.insert_stock.
  unfold Sql.stock_by_name in Hnone; rewrite (find_none_existsb _ _ Hnone).
  change (sql_real 0) with (Some 0%float).
  fold (vivify name unit (work c)).
  destruct (writes_left c) as [[|k]|]; rewrite ?Hc; cbn [closed work spend];
    try rewrite Hv; reflexivity.
Qed.

Lemma stock_by_name_vivify_keeps name unit db n r :
  Sql.stock_by_name n db = Some r ->
  Sql.stock_by_name n (vivify name unit db) = Some r.
Proof.
  intros H; unfold Sql.stock_by_name, vivify; cbn [stock_inventory set_stock].
  apply find_app_some; exact H.
Qed.

Lemma stock_by_name_vivify_other name unit db n :
  n <> name ->
  Sql.stock_by_name n db = None ->
  Sql.stock_by_name n (vivify name unit db) = None.
Proof.
  intros Hne H; unfold Sql.stock_by_name, vivify; cbn [stock_inventory set_stock].
  rewrite find_app_none by exact H.
  cbn [find ingredient_name].
  destruct (String.eqb_spec name n); [congruence|reflexivity].
Qed.

Lemma write_entry_stock_by_name dish db e n :
  Sql.stock_by_name n (write_entry dish db e)
  = Sql.stock_by_name n
      match Sql.stock_by_name (ing_name e) db with
      | Some _ => db
      | None => vivify (ing_name e) (ing_unit e) db
      end.
Proof.
  unfold write_entry.
  destruct (Sql.stock_by_name (ing_name e) _); reflexivity.
Qed.

Lemma write_entry_keeps dish db e n r :
  Sql.stock_by_name n db = Some r ->
  Sql.stock_by_name n (write_entry dish db e) = Some r.
Proof.
  intros H; rewrite write_entry_stock_by_name.
  destruct (Sql.stock_by_name (ing_name e) db); [exact H|].
  apply stock_by_name_vivify_keeps; exact H.
Qed.

Lemma write_entry_menu dish db e :
  menu_inventory (write_entry dish db e) = menu_inventory db.
Proof.
  unfold write_entry.
  destruct (Sql.stock_by_name (ing_name e) db);
    destruct (Sql.stock_by_name (ing_name e) _); reflexivity.
Qed.

Lemma find_some_existsb {A} (f g : A -> bool) l x :
  find f l = Some x -> g x = true -> existsb g l = true.
Proof.
  intros Hf Hg; apply find_some in Hf; destruct Hf as [Hin _].
  apply existsb_exists; eauto.
Qed.

(** One turn of the loop of [create_dish] on an entry that is accepted. *)
Lemma create_dish_entry_accepted dish e rest c :
  closed c = false -> writes_left c = None ->
  existsb (fun r => menu_row_id r =? dish) (menu_inventory (work c)) = true ->
  entry_ok e -> agrees (work c) e ->
  create_dish_ingredients dish (e :: rest) c
  = create_dish_ingredients dish rest
      (mk_conn (disk c) (write_entry dish (work c) e) false None).
Proof.
  intros Hc Hw Hmenu (Hu & Hq & Hn) Hag.
  cbn [create_dish_ingredients].
  destruct (validate_unit (ing_unit e)); [|congruence].
  rewrite Hq.
  unfold bind at 1.
  unfold write_entry.
  destruct (Sql.stock_by_name (ing_name e) (work c)) as [r|] eqn:Hr.
  - rewrite (ensure_ingredient_exists_found _ _ _ Hc Hr).
    rewrite (Hag _ Hr), String.eqb_refl.
    unfold bind, execute; rewrite Hc, Hw.
    rewrite Hr.
    unfold Sql.insert_recipe; rewrite Hn, Hmenu.
    rewrite (find_some_existsb _ (fun r0 => stock_id r0 =? stock_id r) _ Hr)
      by apply Z.eqb_refl.
    reflexivity.
  - rewrite (ensure_ingredient_exists_new _ _ _ Hc Hr), Hw.
    cbn [spend].
    rewrite (stock_by_name_vivify _ _ _ Hr).
    unfold bind, execute; cbn [closed writes_left work disk].
    unfold Sql.insert_recipe; rewrite Hn.
    replace (menu_inventory (vivify (ing_name e) (ing_unit e) (work c)))
      with (menu_inventory (work c)) by reflexivity.
    rewrite Hmenu.
    rewrite (find_some_existsb _
               (fun r0 => stock_id r0
                          =? next_id (seq_stock (sqlite_sequence (work c)))
                                     (map stock_id (stock_inventory (work c))))
               _ (stock_by_name_vivify _ _ _ Hr))
      by apply Z.eqb_refl.
    reflexivity.
Qed.

(** The loop of [create_dish] on entries that are all accepted. *)
Lemma create_dish_ingredients_accepted dish entries : forall c,
  closed c = false -> writes_left c = None ->
  existsb (fun r => menu_row_id r =? dish) (menu_inventory (work c)) = true ->
  accepted dish entries (work c) ->
  exists c', create_dish_ingredients dish entries c = (Val tt, c')
             /\ disk c' = disk c /\ closed c' = false /\ writes_left c' = None
             /\ work c' = fold_left (write_entry dish) entries (work c).
Proof.
  induction entries as [|e rest IH]; intros c Hc Hw Hmenu Hacc.
  - exists c; repeat split; auto.
  - destruct Hacc as (Hok & Hag & Hrest).
    rewrite (@create_dish_entry_accepted dish e rest c Hc Hw Hmenu Hok Hag).
    destruct (IH (mk_conn (disk c) (write_entry dish (work c) e) false None))
      as (c' & Hrun & Hd & Hcl & Hwl & Hwork); auto.
    { cbn [work]; rewrite write_entry_menu; exact Hmenu. }
    exists c'; repeat split; auto.
Qed.

Lemma execute_cases {R A} (stmt : database -> exn + A * database) c :
  (exists e c', execute (R := R) stmt c = (Exc e, c'))
  \/ (exists a db', stmt (work c) = inr (a, db')
        /\ closed c = false
        /\ execute (R := R) stmt c
           = (Val a, mk_conn (disk c) db' false (spend (writes_left c)))).
Proof.
  unfold execute; destruct (closed c); [left; eauto|].
  destruct (writes_left c) as [[|n]|]; [left; eauto| |];
    destruct (stmt (work c)) as [e|[a db']]; [left|right|left|right]; eauto.
Qed.

Lemma insert_recipe_stock dish ing qty db a db' :
  Sql.insert_recipe dish ing qty db = inr (a, db') ->
  stock_inventory db' = stock_inventory db.
Proof.
  unfold Sql.insert_recipe.
  destruct (is_nan qty); [discriminate|].
  destruct (negb _); [discriminate|].
  intros H; injection H as _ <-; reflexivity.
Qed.

Lemma stock_by_name_ext n db db' :
  stock_inventory db' = stock_inventory db ->
  Sql.stock_by_name n db' = Sql.stock_by_name n db.
Proof. unfold Sql.stock_by_name; intros ->; reflexivity. Qed.

(** After the recipe row of an entry is inserted, a conflict is still
    there for the rest of the loop. *)
Lemma create_dish_rest_conflict dish rest e qty
      (IH : forall c, (exists e, In e rest /\ conflicts (work c) e) ->
                      exists ex c', create_dish_ingredients dish rest c = (Exc ex, c'))
      c1 ing_id :
  In e rest -> conflicts (work c1) e ->
  exists ex c',
    (execute (Sql.insert_recipe dish ing_id qty) ;;;
     create_dish_ingredients dish rest) c1 = (Exc ex, c').
Proof.
  intros Hin (r & Hr & Hne); unfold bind.
  destruct (execute_cases (R := result) (Sql.insert_recipe dish ing_id qty) c1)
    as [(ex & c' & ->)|(a & db' & Hs & _ & ->)]; [eauto|].
  apply IH; exists e; split; [exact Hin|].
  exists r; split; [|exact Hne].
  cbn [work]; rewrite (@stock_by_name_ext (ing_name e) _ _
                    (@insert_recipe_stock _ _ _ _ _ _ Hs)).
  exact Hr.
Qed.

(** The loop of [create_dish] raises when some entry conflicts, whatever
    else the entries are and wherever the storage fails. *)
Lemma create_dish_ingredients_conflict dish entries : forall c,
  (exists e, In e entries /\ conflicts (work c) e) ->
  exists ex c', create_dish_ingredients dish entries c = (Exc ex, c').
Proof.
  induction entries as [|e0 rest IH]; intros c (e & Hin & Hconf).
  - destruct Hin.
  - cbn [create_dish_ingredients].
    destruct (validate_unit (ing_unit e0)); [|unfold raise; eauto].
    destruct (qty_needed e0 <=? 0)%float; [unfold raise; eauto|].
    unfold bind at 1.
    destruct (closed c) eqn:Hc.
    { unfold ensure_ingredient_exists, bind, query; rewrite Hc; eauto. }
    destruct (Sql.stock_by_name (ing_name e0) (work c)) as [r0|] eqn:Hr0.
    + rewrite (@ensure_ingredient_exists_found _ (ing_unit e0) _ _ Hc Hr0).
      destruct (String.eqb_spec (stock_unit r0) (ing_unit e0)) as [Heq|Hneq].
      * destruct Hin as [<-|Hin].
        { destruct Hconf as (r & Hr & Hne); congruence. }
        exact (@create_dish_rest_conflict _ _ _ _ IH _ _ Hin Hconf).
      * unfold raise; eauto.
    + rewrite (@ensure_ingredient_exists_new _ (ing_unit e0) _ Hc Hr0).
      destruct Hin as [<-|Hin].
      { destruct Hconf as (r & Hr & Hne); congruence. }
      assert (Hconf' : forall w,
                 conflicts (work (mk_conn (disk c)
                                    (vivify (ing_name e0) (ing_unit e0) (work c))
                                    false w)) e).
      { intros w; destruct Hconf as (r & Hr & Hne); exists r; split; [|exact Hne].
        apply stock_by_name_vivify_keeps; exact Hr. }
      destruct (writes_left c) as [[|k]|]; [eauto| |];
        exact (@create_dish_rest_conflict _ _ _ _ IH _ _ Hin (Hconf' _)).
Qed.

Lemma ensure_ingredient_exists_keeps_disk name unit :
  keeps_disk (ensure_ingredient_exists name unit).
Proof. unfold ensure_ingredient_exists; keeps_disk_tac. Qed.

Lemma ensure_ingredient_exists_no_return name unit :
  no_return (ensure_ingredient_exists name unit).
Proof.
  unfold ensure_ingredient_exists.
  apply no_return_bind; [|intros [r|]].
  - intros c r; unfold query; destruct (closed c); discriminate.
  - destruct (negb _); auto with disk.
  - apply no_return_bind; [auto with disk|intros _].
    apply no_return_bind; [|intros [r|]; auto with disk].
    intros c r; unfold query; destruct (closed c); discriminate.
Qed.

Lemma create_dish_ingredients_keeps_disk dish entries :
  keeps_disk (create_dish_ingredients dish entries).
Proof.
  induction entries as [|e rest IH]; simpl; keeps_disk_tac;
    try solve [apply ensure_ingredient_exists_keeps_disk | apply IH].
Qed.

Lemma create_dish_ingredients_no_return dish entries :
  no_return (create_dish_ingredients dish entries).
Proof.
  induction entries as [|e rest IH]; simpl; no_return_tac;
    try solve [apply ensure_ingredient_exists_no_return | apply IH].
Qed.

Lemma create_dish_block_keeps_disk name price entries :
  keeps_disk (create_dish_block name price entries).
Proof.
  unfold create_dish_block; keeps_disk_tac.
  apply create_dish_ingredients_keeps_disk.
Qed.

Lemma create_dish_block_no_return name price entries :
  no_return (create_dish_block name price entries).
Proof.
  unfold create_dish_block.
  apply no_return_bind; [auto with disk|intros _].
  apply no_return_bind.
  - intros c r; unfold query; destruct (closed c); discriminate.
  - intros [r|]; [apply create_dish_ingredients_no_return|auto with disk].
Qed.

(** How a call of [create_dish] with a price above 0 ends, from the end of
    its [with] block. *)
Lemma create_dish_call faults db name price entries :
  (price <=? 0)%float = false ->
  call faults db (create_dish name price entries)
  = match with_conn (create_dish_block name price entries)
                    (get_connection faults db) with
    | (Val _, c') => (Returned true (Dish_created name), disk c')
    | (Ret (ok, m), c') => (Returned ok m, disk c')
    | (Exc (Raised IntegrityError), c') => (Returned false Dish_already_exists, disk c')
    | (Exc e, c') => (Returned false (str e), disk c')
    end.
Proof.
  intros Hp; unfold call, create_dish; rewrite Hp.
  unfold try_finally, try_except, bind at 1.
  fold (create_dish_block name price entries).
  destruct (with_conn (create_dish_block name price entries)
                      (get_connection faults db)) as [[[]|[ok m]|e] c'];
    try reflexivity.
  destruct e as [[]|m]; reflexivity.
Qed.

(** A failed call of [create_dish] leaves the store as it was. *)
Lemma create_dish_failure_unchanged faults db name price entries m db' :
  call faults db (create_dish name price entries) = (Returned false m, db') ->
  db' = db.
Proof.
  destruct (price <=? 0)%float eqn:Hp.
  { unfold call, create_dish; rewrite Hp; cbn.
    intros H; injection H as _ <-; reflexivity. }
  rewrite create_dish_call by exact Hp.
  destruct (with_conn_cases (get_connection faults db)
              (create_dish_block_keeps_disk name price entries)
              (create_dish_block_no_return name price entries))
    as [(e & c' & -> & Hd)|(a & c1 & _ & _ & ->)].
  - destruct e as [[]|m']; intros H; injection H as _ <-; exact Hd.
  - discriminate.
Qed.

(** With a conflicting entry the [with] block of [create_dish] raises. *)
Lemma create_dish_block_conflict name price entries c :
  (exists e, In e entries /\ conflicts (work c) e) ->
  exists ex c', create_dish_block name price entries c = (Exc ex, c').
Proof.
  intros (e & Hin & r & Hr & Hne); unfold create_dish_block, bind at 1.
  destruct (execute_cases (R := result) (Sql.insert_menu name price) c)
    as [(ex & c' & ->)|(a & db' & Hs & _ & ->)]; [eauto|].
  unfold bind, query; cbn [closed work].
  destruct (Sql.dish_by_name name db') as [row|]; [|unfold raise; eauto].
  apply create_dish_ingredients_conflict.
  exists e; split; [exact Hin|]; exists r; split; [|exact Hne].
  cbn [work].
  unfold Sql.insert_menu in Hs.
  destruct (existsb _ _); [discriminate|].
  destruct (is_nan price); [discriminate|].
  injection Hs as _ <-; exact Hr.
Qed.

(** A request with a conflicting entry fails and changes nothing. *)
Lemma create_dish_conflict_fails faults db name price entries :
  (exists e, In e entries /\ conflicts db e) ->
  exists m, call faults db (create_dish name price entries) = (Returned false m, db).
Proof.
  intros Hconf.
  assert (Hfail : exists m db', call faults db (create_dish name price entries)
                                = (Returned false m, db')).
  { destruct (price <=? 0)%float eqn:Hp.
    { unfold call, create_dish; rewrite Hp; cbn; eauto. }
    rewrite create_dish_call by exact Hp.
    destruct (create_dish_block_conflict name price entries
                (get_connection faults db) Hconf) as (ex & c1 & Hb).
    unfold with_conn; rewrite Hb.
    unfold rollback; destruct (closed c1); [eauto|].
    destruct ex as [[]|m']; eauto. }
  destruct Hfail as (m & db' & H).
  rewrite H; exists m; f_equal.
  exact (create_dish_failure_unchanged _ _ _ _ _ H).
Qed.

Lemma fold_write_entry_keeps dish entries : forall db n r,
  Sql.stock_by_name n db = Some r ->
  Sql.stock_by_name n (fold_left (write_entry dish) entries db) = Some r.
Proof.
  induction entries as [|e rest IH]; intros db n r H; [exact H|].
  cbn [fold_left]; apply IH, write_entry_keeps; exact H.
Qed.

(** The loop of [create_dish] after a prefix of accepted entries. *)
Lemma create_dish_ingredients_prefix dish pre rest : forall c,
  closed c = false -> writes_left c = None ->
  existsb (fun r => menu_row_id r =? dish) (menu_inventory (work c)) = true ->
  accepted dish pre (work c) ->
  create_dish_ingredients dish (pre ++ rest) c
  = create_dish_ingredients dish rest
      (mk_conn (disk c) (fold_left (write_entry dish) pre (work c)) false None).
Proof.
  induction pre as [|e pre IH]; intros c Hc Hw Hmenu Hacc.
  - destruct c as [d w cl wl]; cbn in *; subst; reflexivity.
  - destruct Hacc as (Hok & Hag & Hrest).
    rewrite <- app_comm_cons.
    rewrite (@create_dish_entry_accepted dish e (pre ++ rest) c Hc Hw Hmenu Hok Hag).
    rewrite IH; auto.
    cbn [work]; rewrite write_entry_menu; exact Hmenu.
Qed.

Lemma insert_menu_new name price db :
  is_nan price = false ->
  Sql.dish_by_name name db = None ->
  Sql.insert_menu name price db = inr (new_dish_id db, with_dish name price db)
  /\ Sql.dish_by_name name (with_dish name price db)
     = Some (mk_menu (new_dish_id db) name price).
Proof.
  intros Hn Hnone; unfold Sql.insert_menu, Sql.dish_by_name in *.
  rewrite (find_none_existsb _ _ Hnone), Hn; split; [reflexivity|].
  unfold with_dish; cbn [menu_inventory set_menu].
  rewrite find_app_none by exact Hnone.
  cbn [find dish_name]; rewrite String.eqb_refl; reflexivity.
Qed.

Lemma with_dish_has_dish name price db :
  existsb (fun r => menu_row_id r =? new_dish_id db)
          (menu_inventory (with_dish name price db)) = true.
Proof.
  unfold with_dish; cbn [menu_inventory set_menu].
  rewrite existsb_app; cbn [existsb menu_row_id].
  rewrite Z.eqb_refl, orb_true_r; reflexivity.
Qed.

Lemma insert_recipe_val dish ing qty db a db' :
  Sql.insert_recipe dish ing qty db = inr (a, db') ->
  is_nan qty = false /\ db' = add_recipe_row dish ing qty db.
Proof.
  unfold Sql.insert_recipe.
  destruct (is_nan qty); [discriminate|].
  destruct (negb _); [discriminate|].
  intros H; injection H as _ <-; auto.
Qed.

Lemma write_entry_found dish db e r :
  Sql.stock_by_name (ing_name e) db = Some r ->
  write_entry dish db e = add_recipe_row dish (stock_id r) (qty_needed e) db.
Proof. intros H; unfold write_entry; rewrite H, H; reflexivity. Qed.

Lemma write_entry_new dish db e :
  Sql.stock_by_name (ing_name e) db = None ->
  write_entry dish db e
  = add_recipe_row dish
      (next_id (seq_stock (sqlite_sequence db)) (map stock_id (stock_inventory db)))
      (qty_needed e) (vivify (ing_name e) (ing_unit e) db).
Proof.
  intros H; unfold write_entry; rewrite H, (stock_by_name_vivify _ _ _ H).
  reflexivity.
Qed.

(** One turn of the loop of [create_dish] that falls through. *)
Lemma create_dish_entry_val dish e rest c c' :
  closed c = false ->
  create_dish_ingredients dish (e :: rest) c = (Val tt, c') ->
  entry_ok e /\ agrees (work c) e
  /\ exists w, create_dish_ingredients dish rest
                 (mk_conn (disk c) (write_entry dish (work c) e) false w)
               = (Val tt, c').
Proof.
  intros Hc H.
  cbn [create_dish_ingredients] in H.
  destruct (validate_unit (ing_unit e)) as [u|] eqn:Hu; [|discriminate].
  destruct (qty_needed e <=? 0)%float eqn:Hq; [discriminate|].
  unfold bind at 1 in H.
  unfold agrees, entry_ok.
  destruct (Sql.stock_by_name (ing_name e) (work c)) as [r|] eqn:Hr.
  - rewrite (@ensure_ingredient_exists_found _ (ing_unit e) _ _ Hc Hr) in H.
    destruct (String.eqb_spec (stock_unit r) (ing_unit e)) as [Heq|]; [|discriminate].
    unfold bind in H.
    destruct (execute_cases (R := result)
                (Sql.insert_recipe dish (stock_id r) (qty_needed e)) c)
      as [(ex & c1 & He)|(a & db' & Hs & _ & He)]; rewrite He in H;
      [discriminate|].
    apply insert_recipe_val in Hs; destruct Hs as [Hn ->].
    rewrite (write_entry_found _ _ _ Hr).
    repeat split; try congruence; eauto.
  - rewrite (@ensure_ingredient_exists_new _ (ing_unit e) _ Hc Hr) in H.
    rewrite (write_entry_new _ _ _ Hr).
    assert (Hgo : forall w,
               (execute (Sql.insert_recipe dish
                           (next_id (seq_stock (sqlite_sequence (work c)))
                                    (map stock_id (stock_inventory (work c))))
                           (qty_needed e)) ;;;
                create_dish_ingredients dish rest)
                 (mk_conn (disk c) (vivify (ing_name e) (ing_unit e) (work c))
                          false w) = (Val tt, c') ->
               is_nan (qty_needed e) = false
               /\ exists w',
                   create_dish_ingredients dish rest
                     (mk_conn (disk c)
                        (add_recipe_row dish
                           (next_id (seq_stock (sqlite_sequence (work c)))
                                    (map stock_id (stock_inventory (work c))))
                           (qty_needed e)
                           (vivify (ing_name e) (ing_unit e) (work c)))
                        false w') = (Val tt, c')).
    { intros w Hrun; unfold bind in Hrun.
      match type of Hrun with
      | context [execute ?s ?cc] =>
          destruct (execute_cases (R := result) s cc)
            as [(ex & c1 & He)|(a & db' & Hs & _ & He)]; rewrite He in Hrun;
            [discriminate|]
      end.
      apply insert_recipe_val in Hs; destruct Hs as [Hn ->].
      cbn [disk work] in Hrun; eauto. }
    destruct (writes_left c) as [[|k]|]; [discriminate| |];
      apply Hgo in H; destruct H as (Hn & w' & H);
      repeat split; try congruence; eauto.
Qed.

(** What the loop of [create_dish] has done when it falls through. *)
Lemma create_dish_ingredients_val dish entries : forall c c',
  closed c = false ->
  create_dish_ingredients dish entries c = (Val tt, c') ->
  work c' = fold_left (write_entry dish) entries (work c)
  /\ accepted dish entries (work c).
Proof.
  induction entries as [|e rest IH]; intros c c' Hc H.
  - cbn in H; injection H as <-; split; [reflexivity|exact I].
  - apply create_dish_entry_val in H; [|exact Hc].
    destruct H as (Hok & Hag & w & H).
    apply IH in H; [|reflexivity].
    cbn [work] in H; destruct H as [-> Hacc].
    split; [reflexivity|]; cbn [accepted]; auto.
Qed.

(** A successful call of [create_dish]: the dish name was new and the price
    a number above 0, every entry was accepted in its turn, and the store is
    the one with the dish row, the created ingredients and the recipe
    rows. *)
Lemma create_dish_success faults db name price entries m db' :
  call faults db (create_dish name price entries) = (Returned true m, db') ->
  m = Dish_created name
  /\ Sql.dish_by_name name db = None
  /\ accepted (new_dish_id db) entries (with_dish name price db)
  /\ db' = fold_left (write_entry (new_dish_id db)) entries (with_dish name price db).
Proof.
  destruct (price <=? 0)%float eqn:Hp.
  { unfold call, create_dish; rewrite Hp; cbn; discriminate. }
  rewrite create_dish_call by exact Hp.
  destruct (with_conn_cases (get_connection faults db)
              (create_dish_block_keeps_disk name price entries)
              (create_dish_block_no_return name price entries))
    as [(e & c' & -> & Hd)|(a & c1 & Hb & _ & ->)].
  { destruct e as [[]|m']; discriminate. }
  intros H; injection H as <- <-; cbn [disk].
  split; [reflexivity|].
  unfold create_dish_block, bind at 1 in Hb.
  destruct (execute_cases (R := result) (Sql.insert_menu name price)
              (get_connection faults db))
    as [(ex & c2 & He)|(id & db1 & Hs & _ & He)]; rewrite He in Hb;
    [discriminate|].
  cbn [get_connection work] in Hs.
  unfold Sql.insert_menu in Hs.
  destruct (existsb _ _) eqn:Hex; [discriminate|].
  destruct (is_nan price) eqn:Hn; [discriminate|].
  apply existsb_false_find in Hex.
  injection Hs as _ <-.
  destruct (insert_menu_new name price db Hn Hex) as [_ Hrow].
  unfold bind at 1, query in Hb; cbn [closed work] in Hb.
  fold (new_dish_id db) in Hb; fold (with_dish name price db) in Hb.
  rewrite Hrow in Hb; cbn [menu_row_id] in Hb.
  destruct a.
  apply create_dish_ingredients_val in Hb; [|reflexivity].
  destruct Hb as [-> Hacc]; auto.
Qed.

(** After the accepted entries are written, the ingredient of an entry
    whose name was new is stored at zero stock with the entry's unit. *)
Lemma fold_write_entry_vivified dish entries : forall db,
  accepted dish entries db ->
  forall e, In e entries ->
    Sql.stock_by_name (ing_name e) db = None \/ at_zero_stock db e ->
    exists r, Sql.stock_by_name (ing_name e)
                (fold_left (write_entry dish) entries db) = Some r
              /\ quantity_in_stock r = Some 0%float
              /\ stock_unit r = ing_unit e.
Proof.
  induction entries as [|h rest IH]; intros db Hacc e Hin H0; [destruct Hin|].
  destruct Hacc as (Hok & Hag & Hacc); cbn [fold_left].
  destruct Hin as [<-|Hin].
  - assert (H1 : exists r, Sql.stock_by_name (ing_name h) (write_entry dish db h) = Some r
                           /\ quantity_in_stock r = Some 0%float
                           /\ stock_unit r = ing_unit h).
    { destruct H0 as [Hnone|(r & Hr & Hz)].
      - rewrite write_entry_stock_by_name, Hnone, (stock_by_name_vivify _ _ _ Hnone).
        eexists; repeat split.
      - exists r; repeat split; auto using write_entry_keeps. }
    destruct H1 as (r & Hr & Hz & Hu).
    exists r; repeat split; auto using fold_write_entry_keeps.
  - apply IH; auto.
    destruct H0 as [Hnone|(r & Hr & Hz)].
    + destruct (string_dec (ing_name e) (ing_name h)) as [Heq|Hne].
      * right; unfold at_zero_stock.
        rewrite write_entry_stock_by_name, Heq.
        rewrite Heq in Hnone; rewrite Hnone, (stock_by_name_vivify _ _ _ Hnone).
        eexists; split; reflexivity.
      * left; rewrite write_entry_stock_by_name.
        destruct (Sql.stock_by_name (ing_name h) db); [exact Hnone|].
        apply stock_by_name_vivify_other; assumption.
    + right; exists r; split; auto using write_entry_keeps.
Qed.

(** A request whose entries are all accepted succeeds when the storage
    does not fail. *)
Lemma create_dish_accepted db name price entries :
  (price <=? 0)%float = false -> is_nan price = false ->
  Sql.dish_by_name name db = None ->
  accepted (new_dish_id db) entries (with_dish name price db) ->
  call None db (create_dish name price entries)
  = (Returned true (Dish_created name),
     fold_left (write_entry (new_dish_id db)) entries (with_dish name price db)).
Proof.
  intros Hp Hn Hnew Hacc.
  rewrite create_dish_call by exact Hp.
  destruct (insert_menu_new name price db Hn Hnew) as [Hins Hrow].
  unfold with_conn, create_dish_block, bind at 1, execute.
  cbn [get_connection closed writes_left work disk].
  rewrite Hins.
  unfold bind at 1, query; cbn [closed work].
  rewrite Hrow; cbn [menu_row_id].
  destruct (@create_dish_ingredients_accepted (new_dish_id db) entries
              (mk_conn db (with_dish name price db) false None))
    as (c' & Hrun & Hd & Hcl & Hwl & Hwork);
    [reflexivity|reflexivity|apply with_dish_has_dish|exact Hacc|].
  rewrite Hrun; unfold commit; rewrite Hcl; cbn [disk].
  rewrite Hwork; reflexivity.
Qed.

(** ** The unit-mismatch error *)

Lemma insert_menu_errors name price db e :
  Sql.insert_menu name price db = inl e -> exists k, e = Raised k.
Proof.
  unfold Sql.insert_menu, Sql.integrity.
  repeat match goal with
         | |- (if ?b then _ else _) = _ -> _ =>
             destruct b; [intros H; injection H as <-; eauto|]
         end.
  discriminate.
Qed.

Lemma insert_recipe_errors dish ing qty db e :
  Sql.insert_recipe dish ing qty db = inl e -> exists k, e = Raised k.
Proof.
  unfold Sql.insert_recipe, Sql.integrity.
  repeat match goal with
         | |- (if ?b then _ else _) = _ -> _ =>
             destruct b; [intros H; injection H as <-; eauto|]
         end.
  discriminate.
Qed.

(** The statement that inserts the recipe row of an entry, and the rest of
    the loop: it raises an exception of the storage, or the row is written
    and the loop goes on. *)
Lemma insert_recipe_step dish ing qty rest c :
  (exists ex c1,
      (execute (Sql.insert_recipe dish ing qty) ;;;
       create_dish_ingredients dish rest) c = (Exc ex, c1)
      /\ forall n u1 u2, ex <> ValueError (Unit_mismatch n u1 u2))
  \/ (is_nan qty = false
      /\ (execute (Sql.insert_recipe dish ing qty) ;;;
          create_dish_ingredients dish rest) c
         = create_dish_ingredients dish rest
             (mk_conn (disk c) (add_recipe_row dish ing qty (work c)) false
                      (spend (writes_left c)))).
Proof.
  destruct (execute_cases (R := result) (Sql.insert_recipe dish ing qty) c)
    as [(ex & c1 & He)|(a & db' & Hs & _ & He)].
  - left; exists ex, c1; split; [unfold bind; rewrite He; reflexivity|].
    destruct (@raises_errors_execute result _ (Sql.insert_recipe dish ing qty)
                (insert_recipe_errors dish ing qty) _ _ _ He) as [k ->].
    discriminate.
  - apply insert_recipe_val in Hs; destruct Hs as [Hn ->].
    right; split; [exact Hn|unfold bind; rewrite He; reflexivity].
Qed.

(** One turn of the loop of [create_dish]: the entry is rejected with
    another error than the unit mismatch, or it is rejected with the unit
    mismatch, or it is accepted and written. *)
Lemma create_dish_entry_cases dish e rest c :
  closed c = false ->
  (exists ex c1, create_dish_ingredients dish (e :: rest) c = (Exc ex, c1)
                 /\ forall n u1 u2, ex <> ValueError (Unit_mismatch n u1 u2))
  \/ (exists r, validate_unit (ing_unit e) <> None
        /\ (qty_needed e <=? 0)%float = false
        /\ Sql.stock_by_name (ing_name e) (work c) = Some r
        /\ stock_unit r <> ing_unit e
        /\ create_dish_ingredients dish (e :: rest) c
           = (Exc (ValueError (Unit_mismatch (ing_name e) (stock_unit r)
                                             (ing_unit e))), c))
  \/ (entry_ok e /\ agrees (work c) e
      /\ exists w, create_dish_ingredients dish (e :: rest) c
                   = create_dish_ingredients dish rest
                       (mk_conn (disk c) (write_entry dish (work c) e) false w)).
Proof.
  intros Hc.
  remember (create_dish_ingredients dish (e :: rest) c) as X eqn:HX.
  cbn [create_dish_ingredients] in HX.
  destruct (validate_unit (ing_unit e)) as [u|] eqn:Hu;
    [|left; eexists _, _; split; [exact HX|discriminate]].
  destruct (qty_needed e <=? 0)%float eqn:Hq;
    [left; eexists _, _; split; [exact HX|discriminate]|].
  assert (Hu' : validate_unit (ing_unit e) <> None) by congruence.
  unfold bind at 1 in HX.
  destruct (Sql.stock_by_name (ing_name e) (work c)) as [r|] eqn:Hr.
  - rewrite (@ensure_ingredient_exists_found _ (ing_unit e) _ _ Hc Hr) in HX.
    destruct (String.eqb_spec (stock_unit r) (ing_unit e)) as [Heq|Hne].
    + destruct (insert_recipe_step dish (stock_id r) (qty_needed e) rest c)
        as [(ex & c1 & He & Hex)|[Hn He]]; rewrite He in HX.
      * left; exists ex, c1; auto.
      * right; right; split; [repeat split; assumption|].
        split; [intros r' Hr'; congruence|].
        exists (spend (writes_left c)).
        rewrite (write_entry_found _ _ _ Hr); exact HX.
    + right; left; exists r.
      split; [discriminate|split; [reflexivity|split; [reflexivity|split; [exact Hne|]]]].
      exact HX.
  - rewrite (@ensure_ingredient_exists_new _ (ing_unit e) _ Hc Hr) in HX.
    rewrite (write_entry_new _ _ _ Hr).
    assert (Hgo : forall w,
      X = (execute (Sql.insert_recipe dish
                      (next_id (seq_stock (sqlite_sequence (work c)))
                               (map stock_id (stock_inventory (work c))))
                      (qty_needed e)) ;;;
           create_dish_ingredients dish rest)
            (mk_conn (disk c) (vivify (ing_name e) (ing_unit e) (work c)) false w) ->
      (exists ex c1, X = (Exc ex, c1)
          /\ forall n u1 u2, ex <> ValueError (Unit_mismatch n u1 u2))
      \/ (entry_ok e /\ agrees (work c) e
          /\ exists w',
               X = create_dish_ingredients dish rest
                   (mk_conn (disk c)
                      (add_recipe_row dish
                         (next_id (seq_stock (sqlite_sequence (work c)))
                                  (map stock_id (stock_inventory (work c))))
                         (qty_needed e)
                         (vivify (ing_name e) (ing_unit e) (work c)))
                      false w'))).
    { intros w HXw.
      match type of HXw with
      | _ = (execute (Sql.insert_recipe ?d ?i ?q) ;;; _) ?cc =>
          destruct (insert_recipe_step d i q rest cc)
            as [(ex & c1 & He & Hex)|[Hn He]]; rewrite He in HXw
      end.
      - left; exists ex, c1; auto.
      - right; split; [repeat split; assumption|].
        split; [intros r' Hr'; congruence|].
        eexists; exact HXw. }
    destruct (writes_left c) as [[|k]|].
    + left; eexists _, _; split; [exact HX|discriminate].
    + destruct (Hgo _ HX) as [H|H]; [left; exact H|right; right; exact H].
    + destruct (Hgo _ HX) as [H|H]; [left; exact H|right; right; exact H].
Qed.

(** The turn of an entry that reaches the comparison of the units and names
    an ingredient stored under another unit. *)
Lemma create_dish_entry_mismatch dish e post c r :
  closed c = false ->
  validate_unit (ing_unit e) <> None ->
  (qty_needed e <=? 0)%float = false ->
  Sql.stock_by_name (ing_name e) (work c) = Some r ->
  stock_unit r <> ing_unit e ->
  create_dish_ingredients dish (e :: post) c
  = (Exc (ValueError (Unit_mismatch (ing_name e) (stock_unit r) (ing_unit e))), c).
Proof.
  intros Hc Hu Hq Hr Hne.
  cbn [create_dish_ingredients].
  destruct (validate_unit (ing_unit e)); [|congruence].
  rewrite Hq; unfold bind.
  rewrite (@ensure_ingredient_exists_found _ (ing_unit e) _ _ Hc Hr).
  destruct (String.eqb_spec (stock_unit r) (ing_unit e)); [contradiction|].
  reflexivity.
Qed.

(** The loop of [create_dish] raises the unit mismatch only at the first
    entry it does not accept. *)
Lemma create_dish_ingredients_mismatch dish entries : forall c c' n u1 u2,
  closed c = false ->
  create_dish_ingredients dish entries c
  = (Exc (ValueError (Unit_mismatch n u1 u2)), c') ->
  exists pre e post r,
    entries = pre ++ e :: post /\ mismatch_at dish (work c) pre e r
    /\ n = ing_name e /\ u1 = stock_unit r /\ u2 = ing_unit e.
Proof.
  induction entries as [|e rest IH]; intros c c' n u1 u2 Hc H; [discriminate|].
  destruct (@create_dish_entry_cases dish e rest c Hc)
    as [(ex & c1 & He & Hex)|[(r & Hu & Hq & Hr & Hne & He)|(Hok & Hag & w & He)]];
    rewrite He in H.
  - exfalso; injection H as -> _; exact (Hex _ _ _ eq_refl).
  - injection H as <- <- <- _.
    exists [], e, rest, r; repeat split; auto.
  - apply IH in H; [|reflexivity].
    destruct H as (pre & e' & post & r & -> & (Hacc & Hu & Hq & Hr & Hne) & Hn).
    exists (e :: pre), e', post, r; split; [reflexivity|].
    split; [|exact Hn].
    cbn [work] in Hacc, Hr.
    split; [cbn [accepted]; auto|].
    split; [exact Hu|split; [exact Hq|split; [exact Hr|exact Hne]]].
Qed.

(** An exception with a message leaves a [with] block as it is raised. *)
Lemma with_conn_value_error {R A} (body : M R A) c m c' :
  with_conn body c = (Exc (ValueError m), c') ->
  exists c1, body c = (Exc (ValueError m), c1).
Proof.
  unfold with_conn, rollback, commit.
  destruct (body c) as [[a|r|e] c1]; destruct (closed c1);
    intros H; try discriminate H; injection H as <- _; eauto.
Qed.

(** A call of [create_dish] that fails with the unit mismatch: the dish row
    was inserted, and the loop stopped at the first entry it did not accept,
    which named an ingredient stored under another unit. *)
Lemma create_dish_mismatch_inv faults db name price entries n u1 u2 db' :
  call faults db (create_dish name price entries)
  = (Returned false (Unit_mismatch n u1 u2), db') ->
  db' = db
  /\ (price <=? 0)%float = false /\ is_nan price = false
  /\ Sql.dish_by_name name db = None
  /\ exists pre e post r,
       entries = pre ++ e :: post
       /\ mismatch_at (new_dish_id db) (with_dish name price db) pre e r
       /\ n = ing_name e /\ u1 = stock_unit r /\ u2 = ing_unit e.
Proof.
  intros Hcall.
  split; [exact (create_dish_failure_unchanged _ _ _ _ _ Hcall)|].
  destruct (price <=? 0)%float eqn:Hp.
  { unfold call, create_dish in Hcall; rewrite Hp in Hcall; cbn in Hcall.
    discriminate Hcall. }
  split; [reflexivity|].
  rewrite create_dish_call in Hcall by exact Hp.
  destruct (with_conn (create_dish_block name price entries)
                      (get_connection faults db)) as [[a|[ok m]|e] c1] eqn:Hw.
  - discriminate Hcall.
  - exfalso.
    destruct (with_conn_cases (get_connection faults db)
                (create_dish_block_keeps_disk name price entries)
                (create_dish_block_no_return name price entries))
      as [(e & c2 & He & _)|(a & c2 & _ & _ & He)]; rewrite He in Hw;
      discriminate Hw.
  - assert (He : e = ValueError (Unit_mismatch n u1 u2)).
    { destruct e as [[]|m]; try discriminate Hcall.
      cbn [str] in Hcall; injection Hcall as -> _; reflexivity. }
    subst e; clear Hcall.
    apply with_conn_value_error in Hw; destruct Hw as [c2 Hb].
    unfold create_dish_block, bind at 1 in Hb.
    destruct (execute_cases (R := result) (Sql.insert_menu name price)
                (get_connection faults db))
      as [(ex & c3 & He)|(id & db1 & Hs & _ & He)]; rewrite He in Hb.
    { exfalso.
      destruct (@raises_errors_execute result _ (Sql.insert_menu name price)
                  (insert_menu_errors name price) _ _ _ He) as [k ->].
      discriminate Hb. }
    cbn [get_connection work] in Hs.
    unfold Sql.insert_menu in Hs.
    destruct (existsb _ _) eqn:Hex; [discriminate|].
    destruct (is_nan price) eqn:Hn; [discriminate|].
    apply existsb_false_find in Hex.
    injection Hs as _ <-.
    split; [reflexivity|split; [exact Hex|]].
    destruct (insert_menu_new name price db Hn Hex) as [_ Hrow].
    unfold bind at 1, query in Hb; cbn [closed work] in Hb.
    fold (new_dish_id db) in Hb; fold (with_dish name price db) in Hb.
    rewrite Hrow in Hb; cbn [menu_row_id] in Hb.
    apply create_dish_ingredients_mismatch in Hb; [|reflexivity].
    exact Hb.
Qed.

(** The call fails with the unit mismatch when the storage does not fail
    and the loop stops at an entry that names an ingredient stored under
    another unit. *)
Lemma create_dish_mismatch_message db name price pre e post r :
  (price <=? 0)%float = false -> is_nan price = false ->
  Sql.dish_by_name name db = None ->
  mismatch_at (new_dish_id db) (with_dish name price db) pre e r ->
  call None db (create_dish name price (pre ++ e :: post))
  = (Returned false (Unit_mismatch (ing_name e) (stock_unit r) (ing_unit e)), db).
Proof.
  intros Hp Hn Hnew (Hacc & Hu & Hq & Hr & Hne).
  rewrite create_dish_call by exact Hp.
  destruct (insert_menu_new name price db Hn Hnew) as [Hins Hrow].
  unfold with_conn, create_dish_block, bind at 1, execute.
  cbn [get_connection closed writes_left work disk].
  rewrite Hins.
  unfold bind at 1, query; cbn [closed work].
  rewrite Hrow; cbn [menu_row_id].
  rewrite create_dish_ingredients_prefix;
    [|reflexivity|reflexivity|apply with_dish_has_dish|exact Hacc].
  rewrite (@create_dish_entry_mismatch _ e post _ r);
    [reflexivity|reflexivity|exact Hu|exact Hq|exact Hr|exact Hne].
Qed.

(** A conflict with a stored ingredient is still there when the turn of the
    entry comes. *)
Lemma conflict_mismatch_at dish name price db pre e r :
  accepted dish pre (with_dish name price db) ->
  validate_unit (ing_unit e) <> None ->
  (qty_needed e <=? 0)%float = false ->
  Sql.stock_by_name (ing_name e) db = Some r ->
  stock_unit r <> ing_unit e ->
  mismatch_at dish (with_dish name price db) pre e r.
Proof.
  intros Hacc Hu Hq Hr Hne; repeat split; auto.
  apply fold_write_entry_keeps.
  unfold with_dish, Sql.stock_by_name; exact Hr.
Qed.

(** C6, as the code has it.  For every dish-creation request, stored
    database and storage-failure point:
    - when some recipe entry names an ingredient that is stored under
      another unit, [create_dish] returns a failure and the store is exactly
      as before (no dish row, no recipe row, no created ingredient);
    - when the call fails with the unit-mismatch error, the store is as
      before, the price is a number above 0, the dish name is new, and the
      error names the first entry the loop does not accept, the unit given
      for it and the unit under which its name is stored when its turn
      comes: the entries before it are accepted, its own unit is an allowed
      one and its quantity is not [<= 0];
    - conversely, when the storage does not fail, the price is a number
      above 0, the dish name is new and the first entry that is not accepted
      is such an entry, the call fails with that unit-mismatch error;
    - this is so in particular when the name of that entry was stored under
      another unit before the call;
    - when the call succeeds, every recipe name that was not stored is
      stored afterwards at zero stock with the unit the entry gives;
    - and the call does succeed when the storage does not fail, the price is
      a number above 0, the dish name is new and every entry is accepted. *)
Theorem create_dish_unit_conflict
        (faults : option nat) (db : database) (name : string) (price : float)
        (entries : list ingredient) :
  ((exists e, In e entries /\ conflicts db e) ->
   exists m, call faults db (create_dish name price entries) = (Returned false m, db))
  /\ (forall n u1 u2 db',
        call faults db (create_dish name price entries)
        = (Returned false (Unit_mismatch n u1 u2), db') ->
        db' = db
        /\ (price <=? 0)%float = false /\ is_nan price = false
        /\ Sql.dish_by_name name db = None
        /\ exists pre e post r,
             entries = pre ++ e :: post
             /\ mismatch_at (new_dish_id db) (with_dish name price db) pre e r
             /\ n = ing_name e /\ u1 = stock_unit r /\ u2 = ing_unit e)
  /\ (forall pre e post r,
        entries = pre ++ e :: post ->
        (price <=? 0)%float = false -> is_nan price = false ->
        Sql.dish_by_name name db = None ->
        mismatch_at (new_dish_id db) (with_dish name price db) pre e r ->
        call None db (create_dish name price entries)
        = (Returned false (Unit_mismatch (ing_name e) (stock_unit r) (ing_unit e)),
           db))
  /\ (forall pre e post r,
        entries = pre ++ e :: post ->
        (price <=? 0)%float = false -> is_nan price = false ->
        Sql.dish_by_name name db = None ->
        accepted (new_dish_id db) pre (with_dish name price db) ->
        validate_unit (ing_unit e) <> None ->
        (qty_needed e <=? 0)%float = false ->
        Sql.stock_by_name (ing_name e) db = Some r ->
        stock_unit r <> ing_unit e ->
        call None db (create_dish name price entries)
        = (Returned false (Unit_mismatch (ing_name e) (stock_unit r) (ing_unit e)),
           db))
  /\ (forall m db',
        call faults db (create_dish name price entries) = (Returned true m, db') ->
        forall e, In e entries ->
          Sql.stock_by_name (ing_name e) db = None ->
          exists r, Sql.stock_by_name (ing_name e) db' = Some r
                    /\ quantity_in_stock r = Some 0%float
                    /\ stock_unit r = ing_unit e)
  /\ ((price <=? 0)%float = false -> is_nan price = false ->
      Sql.dish_by_name name db = None ->
      accepted (new_dish_id db) entries (with_dish name price db) ->
      fst (call None db (create_dish name price entries))
      = Returned true (Dish_created name)).
Proof.
  split; [|split; [|split; [|split; [|split]]]].
  - apply create_dish_conflict_fails.
  - intros n u1 u2 db'; apply create_dish_mismatch_inv.
  - intros pre e post r ->; apply create_dish_mismatch_message.
  - intros pre e post r -> Hp Hn Hnew Hacc Hu Hq Hr Hne.
    apply create_dish_mismatch_message; auto.
    apply conflict_mismatch_at; assumption.
  - intros m db' H e Hin Hnone.
    apply create_dish_success in H; destruct H as (_ & _ & Hacc & ->).
    apply fold_write_entry_vivified; auto.
  - intros Hp Hn Hnew Hacc.
    rewrite create_dish_accepted by assumption; reflexivity.
Qed.

Ltac accept_entries :=
  repeat match goal with
         | |- accepted _ _ _ => unfold cake_entries; cbn [accepted firstn]
         | |- _ /\ _ => split
         | |- entry_ok _ => unfold entry_ok
         | |- agrees _ _ =>
             let r := fresh "r" in
             let H := fresh "H" in
             intros r H; vm_compute in H;
             first [discriminate H | injection H as <-; reflexivity]
         | |- _ <> _ => discriminate
         | |- _ = _ => reflexivity
         | |- True => exact I
         end.

(** In the pantry, flour and sugar are stored in grams.  A cake that asks
    for flour in millilitres is refused with the unit mismatch of the flour,
    also when the quantity of the flour is a NaN; a recipe that creates
    salt in grams and then asks for it in millilitres is refused with the
    unit mismatch of the salt; without the conflicting entry the cake is
    created, and the salt is stored at zero stock. *)
Lemma create_dish_unit_conflict_witness :
  (exists m, call None pantry (create_dish "Cake" 3 cake_entries)
             = (Returned false m, pantry))
  /\ call None pantry (create_dish "Cake" 3 cake_entries)
     = (Returned false (Unit_mismatch "Flour" "g" "ml"), pantry)
  /\ call None pantry (create_dish "Cake" 3 [mk_ingredient "Flour" nan "ml"])
     = (Returned false (Unit_mismatch "Flour" "g" "ml"), pantry)
  /\ call None pantry (create_dish "Cake" 3 brine_entries)
     = (Returned false (Unit_mismatch "Salt" "g" "ml"), pantry)
  /\ (exists r, Sql.stock_by_name "Salt"
                  (after (create_dish "Cake" 3 (firstn 2 cake_entries)) pantry)
                = Some r
                /\ quantity_in_stock r = Some 0%float /\ stock_unit r = "g")
  /\ fst (call None pantry (create_dish "Cake" 3 (firstn 2 cake_entries)))
     = Returned true (Dish_created "Cake").
Proof.
  split; [|split; [|split; [|split; [|split]]]].
  - apply (proj1 (create_dish_unit_conflict None pantry "Cake" 3 cake_entries)).
    exists (mk_ingredient "Flour" 200 "ml"); split.
    + right; right; left; reflexivity.
    + exists flour_row; split; [reflexivity|discriminate].
  - apply (proj1 (proj2 (proj2 (proj2
             (create_dish_unit_conflict None pantry "Cake" 3 cake_entries))))
             (firstn 2 cake_entries) (mk_ingredient "Flour" 200 "ml") [] flour_row);
      try reflexivity; try discriminate; accept_entries.
  - apply (proj1 (proj2 (proj2 (proj2
             (create_dish_unit_conflict None pantry "Cake" 3
                [mk_ingredient "Flour" nan "ml"]))))
             [] (mk_ingredient "Flour" nan "ml") [] flour_row);
      try reflexivity; try discriminate; accept_entries.
  - apply (proj1 (proj2 (proj2
             (create_dish_unit_conflict None pantry "Cake" 3 brine_entries)))
             [mk_ingredient "Salt" 5 "g"] (mk_ingredient "Salt" 5 "ml")
             [mk_ingredient "Flour" 200 "ml"] (mk_stock 3 "Salt" (Some 0%float) "g"));
      try reflexivity.
    unfold mismatch_at; split; [accept_entries|].
    split; [discriminate|].
    split; [reflexivity|].
    split; [vm_compute; reflexivity|discriminate].
  - apply (proj1 (proj2 (proj2 (proj2 (proj2
             (create_dish_unit_conflict None pantry "Cake" 3
                (firstn 2 cake_entries))))))
             (Dish_created "Cake")
             (after (create_dish "Cake" 3 (firstn 2 cake_entries)) pantry)
             (eq_refl _) (mk_ingredient "Salt" 5 "g")).
    + right; left; reflexivity.
    + reflexivity.
  - apply (proj2 (proj2 (proj2 (proj2 (proj2
             (create_dish_unit_conflict None pantry "Cake" 3
                (firstn 2 cake_entries)))))));
      try reflexivity; accept_entries.
Defined.

(** C6, as stated, fails: flour is stored in grams; a recipe that asks for
    it in kilograms is rejected for its unit, and the error is not the
    unit-mismatch one. *)
Lemma create_dish_conflict_other_error :
  conflicts pantry (mk_ingredient "Flour" 200 "kg")
  /\ call None pantry (create_dish "Cake" 3 [mk_ingredient "Flour" 200 "kg"])
     = (Returned false (Invalid_unit_for "Flour"), pantry)
  /\ ~ (exists n u1 u2,
          fst (call None pantry (create_dish "Cake" 3 [mk_ingredient "Flour" 200 "kg"]))
          = Returned false (Unit_mismatch n u1 u2)).
Proof.
  split; [|split].
  - exists flour_row; split; [reflexivity|discriminate].
  - reflexivity.
  - intros (n & u1 & u2 & H); vm_compute in H; discriminate H.
Qed.

(* ================================================================== *)
(** * Low-stock alerts *)
(* ================================================================== *)

Lemma key_eqb_eq k1 k2 : key_eqb k1 k2 = true <-> k1 = k2.
Proof.
  destruct k1 as [a1 b1], k2 as [a2 b2]; unfold key_eqb; cbn [fst snd].
  rewrite andb_true_iff, !String.eqb_eq.
  split; [intros [-> ->]; reflexivity|intros H; injection H; auto].
Qed.

Lemma seen_spec k seen : existsb (key_eqb k) seen = true <-> In k seen.
Proof.
  rewrite existsb_exists; split.
  - intros (x & Hin & Hx); apply key_eqb_eq in Hx; subst; exact Hin.
  - intros Hin; exists k; split; [exact Hin|apply key_eqb_eq; reflexivity].
Qed.

(** The loop of [compute_low_stock_alerts]: it only adds alerts for rows
    that trigger, one per key, and every key that triggers gets one. *)
Lemma scan_alerts_spec {R} rows : forall alerts seen c,
  (forall r, In r rows -> j_quantity_in_stock r <> None) ->
  (forall k, In k seen <-> In k (map alert_key alerts)) ->
  NoDup (map alert_key alerts) ->
  exists out,
    scan_alerts (R := R) rows alerts seen c = (Val out, c)
    /\ NoDup (map alert_key out)
    /\ (forall k, In k (map alert_key out)
                  <-> In k (map alert_key alerts)
                      \/ exists r, In r rows /\ row_key r = k /\ triggers r).
Proof.
  induction rows as [|r rest IH]; intros alerts seen c Hstock Hseen Hnd.
  - exists alerts; repeat split; auto.
    + intros [H|(r & [] & _)]; exact H.
  - cbn [scan_alerts].
    destruct (j_quantity_in_stock r) as [stock|] eqn:Hs;
      [|exfalso; apply (Hstock r); [left; reflexivity|exact Hs]].
    assert (Hrest : forall r0, In r0 rest -> j_quantity_in_stock r0 <> None)
      by (intros r0 H0; apply Hstock; right; exact H0).
    destruct (stock <? 3 * j_quantity_needed r)%float eqn:Hlt.
    + destruct (existsb (key_eqb (j_ingredient_name r, j_unit r)) seen) eqn:Hex.
      * destruct (IH alerts seen c Hrest Hseen Hnd) as (out & Hrun & Hnd' & Hiff).
        exists out; repeat split; auto.
        -- intros H; apply Hiff in H; destruct H as [H|(r0 & Hin & Hk & Ht)]; auto.
           right; exists r0; repeat split; auto; right; exact Hin.
        -- intros [H|(r0 & [<-|Hin] & Hk & Ht)]; apply Hiff; auto.
           ++ left; apply Hseen, seen_spec; subst k; exact Hex.
           ++ right; eauto.
      * assert (Hnew : ~ In (row_key r) (map alert_key alerts)).
        { intros H; apply Hseen, seen_spec in H.
          unfold row_key in H; congruence. }
        destruct (IH (alerts ++ [mk_alert (j_ingredient_name r) stock (j_unit r)
                                          (3 * j_quantity_needed r)%float])
                     ((j_ingredient_name r, j_unit r) :: seen) c Hrest)
          as (out & Hrun & Hnd' & Hiff).
        { intros k; rewrite map_app, in_app_iff; cbn.
          rewrite <- Hseen; tauto. }
        { rewrite map_app; cbn [map alert_key alert_ingredient alert_unit].
          apply NoDup_app; auto.
          - constructor; [intros []|constructor].
          - intros k Hk [<-|[]]; exact (Hnew Hk). }
        exists out; repeat split; auto.
        -- intros H; apply Hiff in H; destruct H as [H|(r0 & Hin & Hk & Ht)].
           ++ rewrite map_app, in_app_iff in H; destruct H as [H|[<-|[]]]; auto.
              right; exists r; repeat split; [left; reflexivity|].
              exists stock; auto.
           ++ right; exists r0; repeat split; auto; right; exact Hin.
        -- intros [H|(r0 & [<-|Hin] & Hk & Ht)]; apply Hiff.
           ++ left; rewrite map_app, in_app_iff; auto.
           ++ left; rewrite map_app, in_app_iff; right; left; exact Hk.
           ++ right; eauto.
    + destruct (IH alerts seen c Hrest Hseen Hnd) as (out & Hrun & Hnd' & Hiff).
      exists out; repeat split; auto.
      * intros H; apply Hiff in H; destruct H as [H|(r0 & Hin & Hk & Ht)]; auto.
        right; exists r0; repeat split; auto; right; exact Hin.
      * intros [H|(r0 & [<-|Hin] & Hk & Ht)]; apply Hiff; auto.
        -- destruct Ht as (s & Hs' & Hlt'); congruence.
        -- right; eauto.
Qed.

(** No number is strictly below itself. *)
Lemma SFltb_irrefl x : SFltb x x = false.
Proof.
  unfold SFltb, SFcompare.
  destruct x as [s|s| |s m e]; try reflexivity.
  - destruct s; reflexivity.
  - rewrite Z.compare_refl, Pos.compare_cont_refl; destruct s; reflexivity.
Qed.

Lemma ltb_irrefl (x : float) : (x <? x)%float = false.
Proof. rewrite ltb_spec; apply SFltb_irrefl. Qed.

Lemma run_compute_low_stock_alerts faults db out :
  scan_alerts (R := list alert) (recipe_join db) [] [] (get_connection faults db)
  = (Val out, get_connection faults db) ->
  run faults db compute_low_stock_alerts = (inr out, db).
Proof.
  intros H; unfold run, compute_low_stock_alerts, bind at 1, query.
  cbn [get_connection closed work].
  unfold bind at 1.
  change (mk_conn db db false faults) with (get_connection faults db).
  rewrite H; reflexivity.
Qed.

(** The rows of the JOIN are the pairs of a recipe row and the stock row it
    refers to. *)
Lemma recipe_join_rows db r :
  In r (recipe_join db)
  <-> exists d s, refers_to db d s
                  /\ r = mk_joined (menu_id d) (ingredient_id d) (quantity_needed d)
                                   (ingredient_name s) (quantity_in_stock s)
                                   (stock_unit s).
Proof.
  unfold recipe_join, refers_to; rewrite in_flat_map; split.
  - intros (d & Hd & H); apply in_map_iff in H; destruct H as (s & <- & Hs).
    apply filter_In in Hs; destruct Hs as [Hs Hid]; apply Z.eqb_eq in Hid.
    exists d, s; auto.
  - intros (d & s & (Hd & Hs & Hid) & ->); exists d; split; [exact Hd|].
    apply in_map_iff; exists s; split; [reflexivity|].
    apply filter_In; split; [exact Hs|apply Z.eqb_eq; exact Hid].
Qed.

(** The loop of [compute_low_stock_alerts] raises [TypeError] when the
    stock of some row is NULL. *)
Lemma scan_alerts_null {R} rows : forall alerts seen c,
  (exists r, In r rows /\ j_quantity_in_stock r = None) ->
  scan_alerts (R := R) rows alerts seen c = (Exc (Raised TypeError), c).
Proof.
  induction rows as [|r rest IH]; intros alerts seen c (r0 & Hin & Hnull);
    [destruct Hin|].
  cbn [scan_alerts].
  destruct (j_quantity_in_stock r) as [stock|] eqn:Hs; [|reflexivity].
  assert (Hrest : exists r1, In r1 rest /\ j_quantity_in_stock r1 = None).
  { destruct Hin as [<-|Hin]; [congruence|eauto]. }
  destruct (stock <? 3 * j_quantity_needed r)%float;
    [destruct (existsb _ seen)|]; apply IH; exact Hrest.
Qed.

(** C7, as the code has it.  For every stored database and
    storage-failure point:
    - when every ingredient that a recipe row refers to has a stock value
      (not NULL), [compute_low_stock_alerts] returns a list in which an
      (ingredient, unit) pair occurs exactly when some recipe row refers to a
      stock row with that name and unit whose stock is strictly below 3 times
      the quantity the recipe row needs; no pair occurs twice, however many
      rows trigger; an ingredient whose stock equals 3 times the quantity
      needed of every recipe row that refers to it is not in the list; and
      the stored database is the same after the call;
    - when some recipe row refers to an ingredient whose stock is NULL, the
      call raises [TypeError] and returns no list; the stored database is
      the same. *)
Theorem low_stock_alerts_spec (faults : option nat) (db : database) :
  ((forall d s, refers_to db d s -> quantity_in_stock s <> None) ->
   exists alerts,
     run faults db compute_low_stock_alerts = (inr alerts, db)
     /\ (forall name unit,
           In (name, unit) (map alert_key alerts)
           <-> exists d s, refers_to db d s
                           /\ ingredient_name s = name /\ stock_unit s = unit
                           /\ low_for d s)
     /\ NoDup (map alert_key alerts)
     /\ (forall name unit,
           (forall d s, refers_to db d s ->
                        ingredient_name s = name -> stock_unit s = unit ->
                        quantity_in_stock s = Some (3 * quantity_needed d)%float) ->
           ~ In (name, unit) (map alert_key alerts)))
  /\ ((exists d s, refers_to db d s /\ quantity_in_stock s = None) ->
      run faults db compute_low_stock_alerts = (inl (Raised TypeError), db)).
Proof.
  split.
  - intros Hstock.
    destruct (@scan_alerts_spec (list alert) (recipe_join db) [] []
                (get_connection faults db))
      as (out & Hrun & Hnd & Hiff).
    { intros r Hr; apply recipe_join_rows in Hr.
      destruct Hr as (d & s & Hds & ->); cbn; exact (Hstock d s Hds). }
    { intros k; reflexivity. }
    { constructor. }
    assert (Hkey : forall name unit,
               In (name, unit) (map alert_key out)
               <-> exists d s, refers_to db d s
                               /\ ingredient_name s = name /\ stock_unit s = unit
                               /\ low_for d s).
    { intros name unit; rewrite Hiff; split.
      - intros [H|(r & Hr & Hk & (stock & Hs & Hlt))]; [destruct H|].
        apply recipe_join_rows in Hr; destruct Hr as (d & s & Hds & ->).
        unfold row_key in Hk; cbn in Hk, Hs, Hlt; injection Hk as <- <-.
        exists d, s; split; [exact Hds|].
        split; [reflexivity|split; [reflexivity|exists stock; auto]].
      - intros (d & s & Hds & <- & <- & (stock & Hs & Hlt)); right.
        exists (mk_joined (menu_id d) (ingredient_id d) (quantity_needed d)
                          (ingredient_name s) (quantity_in_stock s) (stock_unit s)).
        split; [apply recipe_join_rows; eauto|].
        split; [reflexivity|exists stock; cbn; auto]. }
    exists out; split; [|split; [|split]].
    + apply run_compute_low_stock_alerts; exact Hrun.
    + exact Hkey.
    + exact Hnd.
    + intros name unit Heq Hin; apply Hkey in Hin.
      destruct Hin as (d & s & Hds & Hn & Hu & (stock & Hs & Hlt)).
      rewrite (Heq d s Hds Hn Hu) in Hs; injection Hs as <-.
      rewrite ltb_irrefl in Hlt; discriminate.
  - intros (d & s & Hds & Hnull).
    unfold run, compute_low_stock_alerts, bind at 1, query.
    cbn [get_connection closed work].
    unfold bind at 1.
    rewrite scan_alerts_null; [reflexivity|].
    exists (mk_joined (menu_id d) (ingredient_id d) (quantity_needed d)
                      (ingredient_name s) (quantity_in_stock s) (stock_unit s)).
    split; [apply recipe_join_rows; eauto|exact Hnull].
Qed.

(** In the kitchen flour (500 g) is below 3 times the quantity of both
    recipe rows that refer to it, and is alerted once; sugar (300 g) is at 3
    times the quantity of its row, and is not alerted. *)
Lemma low_stock_alerts_spec_witness :
  run None kitchen compute_low_stock_alerts
  = (inr [mk_alert "Flour" 500 "g" 600], kitchen)
  /\ exists alerts,
       run None kitchen compute_low_stock_alerts = (inr alerts, kitchen)
       /\ (forall name unit,
             In (name, unit) (map alert_key alerts)
             <-> exists d s, refers_to kitchen d s
                             /\ ingredient_name s = name /\ stock_unit s = unit
                             /\ low_for d s)
       /\ NoDup (map alert_key alerts)
       /\ ~ In ("Sugar", "g") (map alert_key alerts).
Proof.
  split; [vm_compute; reflexivity|].
  destruct (proj1 (@low_stock_alerts_spec None kitchen))
    as (alerts & H1 & H2 & H3 & H4).
  { intros d s (Hd & Hs & _); vm_compute in Hs.
    repeat (destruct Hs as [<-|Hs]; [discriminate|]); destruct Hs. }
  exists alerts; repeat split; auto; try (apply H2).
  apply H4; intros d s (Hd & Hs & Hid) Hn Hu.
  vm_compute in Hs; destruct Hs as [<-|[<-|[]]]; [discriminate Hn|].
  vm_compute in Hd; destruct Hd as [<-|[<-|[<-|[]]]];
    try discriminate Hid; reflexivity.
Defined.

(** C7, as stated, fails.  In the scullery the soup needs 200 g of flour
    and the stock of flour, 100 g, is below 3 times that; but the soup also
    needs salt, whose stock is NULL: the comparison raises [TypeError] and
    the call returns no list, so that flour is not flagged. *)
Lemma low_stock_alerts_null_stock :
  (exists d s, refers_to scullery d s /\ ingredient_name s = "Flour"
               /\ low_for d s)
  /\ run None scullery compute_low_stock_alerts
     = (inl (Raised TypeError), scullery).
Proof.
  split; [|vm_compute; reflexivity].
  exists (mk_recipe 1 1 1 200), (mk_stock 1 "Flour" (Some 100%float) "g").
  split; [split; [|split]|split].
  - vm_compute; left; reflexivity.
  - vm_compute; left; reflexivity.
  - reflexivity.
  - reflexivity.
  - exists 100%float; split; reflexivity.
Qed.

Example kitchen_alerts :
  fst (run None kitchen compute_low_stock_alerts)
  = inr [mk_alert "Flour" 500 "g" 600].
Proof. vm_compute; reflexivity. Qed.

(* ================================================================== *)
(** * The order of binary64 numbers *)
(* ================================================================== *)

Ltac solve_comparison :=
  eexists; (split; [reflexivity|]);
  split; (split; intros ?H;
          [first [discriminate | lia]
          |first [reflexivity | exfalso; lia]]).

Lemma SFcompare_key x y :
  SFnumber x -> SFnumber y ->
  exists c, SFcompare x y = Some c
            /\ (c = Lt <-> lex_lt (SFkey x) (SFkey y))
            /\ (c = Gt <-> lex_lt (SFkey y) (SFkey x)).
Proof.
  unfold SFnumber, lex_lt.
  destruct x as [sx|sx| |sx mx ex], y as [sy|sy| |sy my ey];
    intros Hx Hy; try congruence;
    try destruct sx; try destruct sy; cbn; try solve_comparison.
  - fold (Pos.compare mx my).
    destruct (Z.compare_spec ex ey), (Pos.compare_spec mx my); cbn;
      solve_comparison.
  - fold (Pos.compare mx my).
    destruct (Z.compare_spec ex ey), (Pos.compare_spec mx my); cbn;
      solve_comparison.
Qed.

Lemma SFleb_iff x y :
  SFleb x y = true
  <-> SFnumber x /\ SFnumber y /\ ~ lex_lt (SFkey y) (SFkey x).
Proof.
  unfold SFleb; split.
  - intros H.
    assert (Hx : SFnumber x) by (intros ->; discriminate H).
    assert (Hy : SFnumber y) by (intros ->; destruct x; discriminate H).
    destruct (SFcompare_key Hx Hy) as (c & Hc & _ & Hgt).
    rewrite Hc in H; repeat split; auto.
    intros Hlt; apply Hgt in Hlt; subst c; discriminate.
  - intros (Hx & Hy & Hn).
    destruct (SFcompare_key Hx Hy) as (c & Hc & _ & Hgt).
    rewrite Hc; destruct c; try reflexivity.
    exfalso; apply Hn, Hgt; reflexivity.
Qed.

Lemma SFltb_iff x y :
  SFltb x y = true
  <-> SFnumber x /\ SFnumber y /\ lex_lt (SFkey x) (SFkey y).
Proof.
  unfold SFltb; split.
  - intros H.
    assert (Hx : SFnumber x) by (intros ->; discriminate H).
    assert (Hy : SFnumber y) by (intros ->; destruct x; discriminate H).
    destruct (SFcompare_key Hx Hy) as (c & Hc & Hlt & _).
    rewrite Hc in H; repeat split; auto.
    apply Hlt; destruct c; try discriminate; reflexivity.
  - intros (Hx & Hy & Hn).
    destruct (SFcompare_key Hx Hy) as (c & Hc & Hlt & _).
    rewrite Hc; apply Hlt in Hn; subst c; reflexivity.
Qed.

Lemma SFleb_trans x y z :
  SFleb x y = true -> SFleb y z = true -> SFleb x z = true.
Proof.
  rewrite !SFleb_iff; intros (Hx & Hy & H1) (_ & Hz & H2); repeat split; auto.
  unfold lex_lt in *.
  destruct (SFkey x) as [a1 [b1 c1]], (SFkey y) as [a2 [b2 c2]],
           (SFkey z) as [a3 [b3 c3]]; cbn [fst snd] in *; lia.
Qed.

(** [<=] on binary64 numbers is transitive. *)
Lemma leb_trans (x y z : float) :
  (x <=? y)%float = true -> (y <=? z)%float = true -> (x <=? z)%float = true.
Proof. rewrite !leb_spec; apply SFleb_trans. Qed.

(** Of two numbers, one that is not strictly below the other is at least
    the other. *)
Lemma SFltb_false_leb x y :
  SFnumber x -> SFnumber y -> SFltb x y = false -> SFleb y x = true.
Proof.
  intros Hx Hy H; apply SFleb_iff; repeat split; auto.
  intros Hlt; assert (SFltb x y = true) by (apply SFltb_iff; auto).
  congruence.
Qed.

(* ================================================================== *)
(** * The list functions and their filters *)
(* ================================================================== *)

Lemma insert_by_date_perm o l : Permutation (insert_by_date o l) (o :: l).
Proof.
  induction l as [|o' l IH]; cbn; [reflexivity|].
  destruct (String.leb (order_date o') (order_date o)); [reflexivity|].
  rewrite IH; apply perm_swap.
Qed.

Lemma order_by_date_desc_perm l : Permutation (order_by_date_desc l) l.
Proof.
  induction l as [|o l IH]; cbn; [reflexivity|].
  rewrite insert_by_date_perm; constructor; exact IH.
Qed.

Lemma filter_incl_pred {A} (f g : A -> bool) l :
  (forall x, f x = true -> g x = true) -> incl (filter f l) (filter g l).
Proof.
  intros H x Hx; apply filter_In in Hx; destruct Hx as [Hin Hf].
  apply filter_In; auto.
Qed.

Section FetchProperties.

Variable sql_like : string -> string -> bool.
Variable sql_date : string -> option string.
Variable lower : string -> string.

Lemma run_fetch_ingredients faults db name fq op :
  run faults db (fetch_ingredients sql_like name fq op)
  = (inr (filter
            (fun r =>
               name_filter sql_like name (ingredient_name r)
               && match fq with
                  | Some q => if String.eqb op "ge"
                              then sql_ge (quantity_in_stock r) q
                              else sql_le (quantity_in_stock r) q
                  | None => true
                  end)
            (stock_inventory db)), db).
Proof. reflexivity. Qed.

Lemma run_fetch_menu faults db name fp op :
  run faults db (fetch_menu sql_like name fp op)
  = (inr (filter
            (fun r =>
               name_filter sql_like name (dish_name r)
               && match fp with
                  | Some p => if String.eqb op "le"
                              then sql_le (Some (dish_price r)) p
                              else sql_ge (Some (dish_price r)) p
                  | None => true
                  end)
            (menu_inventory db)), db).
Proof. reflexivity. Qed.

Lemma filter_true {A} (l : list A) : filter (fun _ => true) l = l.
Proof. induction l as [|a l IH]; cbn; congruence. Qed.

(** With no dish-name filter the loop of [fetch_orders] keeps every
    order. *)
Lemma collect_orders_all {R} rows : forall results c,
  closed c = false ->
  collect_orders (R := R) lower None rows results c
  = (Val (results
          ++ map (fun r => mk_entry r (display_date (order_date r))
                                    (items_of (order_row_id r) (work c))) rows),
     c).
Proof.
  induction rows as [|r rest IH]; intros results c Hc; cbn [collect_orders map].
  - rewrite app_nil_r; reflexivity.
  - unfold bind, query; rewrite Hc; cbn [truthy andb].
    rewrite IH by exact Hc.
    rewrite <- app_assoc; reflexivity.
Qed.

Lemma run_fetch_orders_all faults db :
  run faults db (fetch_orders sql_date lower None None None)
  = (inr (map (fun r => mk_entry r (display_date (order_date r))
                                 (items_of (order_row_id r) db))
              (order_by_date_desc (orders db))), db).
Proof.
  unfold run, fetch_orders, bind at 1, query.
  cbn [get_connection closed work truthy andb].
  rewrite filter_true.
  unfold bind at 1.
  rewrite collect_orders_all by reflexivity.
  reflexivity.
Qed.

Lemma sql_ge_mono column q1 q2 :
  (q1 <=? q2)%float = true -> sql_ge column q2 = true -> sql_ge column q1 = true.
Proof.
  destruct column as [v|]; cbn; [|discriminate].
  intros H1 H2; exact (@leb_trans _ _ _ H1 H2).
Qed.

Lemma sql_le_mono column q1 q2 :
  (q1 <=? q2)%float = true -> sql_le column q1 = true -> sql_le column q2 = true.
Proof.
  destruct column as [v|]; cbn; [|discriminate].
  intros H1 H2; exact (@leb_trans _ _ _ H2 H1).
Qed.

(** C8. For every stored database: the three fetches without filters
    return every row of their table ([fetch_orders] in date order, each
    order once), and leave the database as it is; a quantity bound in
    [fetch_ingredients] and a price bound in [fetch_menu] return a sublist of
    what the same call without the bound returns, hence of the whole table;
    and a tighter bound (a larger lower bound, a smaller upper bound) returns
    rows that the looser bound returns too. *)
Theorem fetch_filters_monotone (faults : option nat) (db : database) :
  (forall op, run faults db (fetch_ingredients sql_like None None op)
              = (inr (stock_inventory db), db))
  /\ (forall op, run faults db (fetch_menu sql_like None None op)
                 = (inr (menu_inventory db), db))
  /\ (exists entries,
        run faults db (fetch_orders sql_date lower None None None)
        = (inr entries, db)
        /\ Permutation (map entry_order entries) (orders db))
  /\ (forall name q op,
        let bounded := fetched (run faults db
                                  (fetch_ingredients sql_like name (Some q) op)) in
        let unbounded := fetched (run faults db
                                    (fetch_ingredients sql_like name None op)) in
        incl bounded unbounded /\ incl bounded (stock_inventory db))
  /\ (forall name p op,
        let bounded := fetched (run faults db
                                  (fetch_menu sql_like name (Some p) op)) in
        let unbounded := fetched (run faults db
                                    (fetch_menu sql_like name None op)) in
        incl bounded unbounded /\ incl bounded (menu_inventory db))
  /\ (forall name q1 q2 op,
        (q1 <=? q2)%float = true ->
        let at_q1 := fetched (run faults db
                                (fetch_ingredients sql_like name (Some q1) op)) in
        let at_q2 := fetched (run faults db
                                (fetch_ingredients sql_like name (Some q2) op)) in
        if String.eqb op "ge" then incl at_q2 at_q1 else incl at_q1 at_q2)
  /\ (forall name p1 p2 op,
        (p1 <=? p2)%float = true ->
        let at_p1 := fetched (run faults db
                                (fetch_menu sql_like name (Some p1) op)) in
        let at_p2 := fetched (run faults db
                                (fetch_menu sql_like name (Some p2) op)) in
        if String.eqb op "le" then incl at_p1 at_p2 else incl at_p2 at_p1).
Proof.
  repeat split.
  - intros op; rewrite run_fetch_ingredients; cbn [name_filter truthy andb].
    rewrite filter_true; reflexivity.
  - intros op; rewrite run_fetch_menu; cbn [name_filter truthy andb].
    rewrite filter_true; reflexivity.
  - eexists; split; [apply run_fetch_orders_all|].
    rewrite map_map; cbn [entry_order]; rewrite map_id.
    apply order_by_date_desc_perm.
  - rewrite !run_fetch_ingredients; unfold fetched; cbn [fst].
    apply filter_incl_pred; intros x Hx.
    apply andb_prop in Hx; destruct Hx as [-> _]; reflexivity.
  - rewrite !run_fetch_ingredients; unfold fetched; cbn [fst].
    apply incl_filter.
  - rewrite !run_fetch_menu; unfold fetched; cbn [fst].
    apply filter_incl_pred; intros x Hx.
    apply andb_prop in Hx; destruct Hx as [-> _]; reflexivity.
  - rewrite !run_fetch_menu; unfold fetched; cbn [fst].
    apply incl_filter.
  - intros name q1 q2 op Hq; rewrite !run_fetch_ingredients; unfold fetched; cbn [fst].
    destruct (String.eqb op "ge"); apply filter_incl_pred; intros x Hx;
      apply andb_prop in Hx; destruct Hx as [-> Hx]; cbn [andb].
    + exact (@sql_ge_mono _ _ _ Hq Hx).
    + exact (@sql_le_mono _ _ _ Hq Hx).
  - intros name p1 p2 op Hp; rewrite !run_fetch_menu; unfold fetched; cbn [fst].
    destruct (String.eqb op "le"); apply filter_incl_pred; intros x Hx;
      apply andb_prop in Hx; destruct Hx as [-> Hx]; cbn [andb].
    + exact (@sql_le_mono _ _ _ Hp Hx).
    + exact (@sql_ge_mono _ _ _ Hp Hx).
Qed.

End FetchProperties.

(* ================================================================== *)
(** * The CSV export *)
(* ================================================================== *)

Lemma flat_map_map {A B C} (g : A -> B) (f : B -> list C) l :
  flat_map f (map g l) = flat_map (fun x => f (g x)) l.
Proof. induction l as [|a l IH]; cbn; congruence. Qed.

Lemma map_flat_map {A B C} (g : A -> list B) (f : B -> C) l :
  map f (flat_map g l) = flat_map (fun x => map f (g x)) l.
Proof.
  induction l as [|a l IH]; cbn; [reflexivity|].
  rewrite map_app, IH; reflexivity.
Qed.

Lemma flat_map_ext_In {A B} (f g : A -> list B) l :
  (forall a, In a l -> f a = g a) -> flat_map f l = flat_map g l.
Proof.
  induction l as [|a l IH]; intros H; cbn; [reflexivity|].
  rewrite H by (left; reflexivity).
  rewrite IH by (intros; apply H; right; assumption).
  reflexivity.
Qed.

Lemma flat_map_nil {A B} (l : list A) : flat_map (fun _ => @nil B) l = [].
Proof. induction l as [|a l IH]; cbn; congruence. Qed.

Lemma flat_map_singleton {A} (l : list A) : flat_map (fun x => [x]) l = l.
Proof. induction l as [|a l IH]; cbn; congruence. Qed.

Lemma Permutation_flat_map_list {A B} (f : A -> list B) l l' :
  Permutation l l' -> Permutation (flat_map f l) (flat_map f l').
Proof.
  induction 1; cbn.
  - reflexivity.
  - apply Permutation_app_head; assumption.
  - rewrite !app_assoc; apply Permutation_app_tail, Permutation_app_comm.
  - etransitivity; eassumption.
Qed.

Lemma Permutation_flat_map_app {A B} (f g : A -> list B) l :
  Permutation (flat_map (fun x => f x ++ g x) l) (flat_map f l ++ flat_map g l).
Proof.
  induction l as [|a l IH]; cbn; [reflexivity|].
  rewrite IH, <- !app_assoc.
  apply Permutation_app_head, Permutation_app_swap_app.
Qed.

(** In a table with a primary key, the rows with the key of a row are that
    row alone. *)
Lemma filter_key_unique {A} (key : A -> Z) l x :
  NoDup (map key l) -> In x l ->
  filter (fun y => key y =? key x) l = [x].
Proof.
  induction l as [|a l IH]; intros Hnd Hin; [destruct Hin|].
  cbn in Hnd; apply NoDup_cons_iff in Hnd; destruct Hnd as [Hna Hnd].
  cbn [filter]; destruct Hin as [->|Hin].
  - rewrite Z.eqb_refl; f_equal.
    clear IH Hnd; induction l as [|y l IHl]; [reflexivity|].
    cbn [filter]; destruct (key y =? key x) eqn:E.
    + apply Z.eqb_eq in E; exfalso; apply Hna; rewrite <- E; left; reflexivity.
    + apply IHl; intros H; apply Hna; right; exact H.
  - destruct (key a =? key x) eqn:E.
    + apply Z.eqb_eq in E; exfalso; apply Hna; rewrite E; apply in_map; exact Hin.
    + apply IH; assumption.
Qed.

Lemma flat_map_key_once {A B} (key : A -> Z) (x : B) l k0 :
  NoDup (map key l) -> In k0 l ->
  flat_map (fun k => if key k0 =? key k then [x] else []) l = [x].
Proof.
  induction l as [|a l IH]; intros Hnd Hin; [destruct Hin|].
  cbn in Hnd; apply NoDup_cons_iff in Hnd; destruct Hnd as [Hna Hnd].
  cbn [flat_map]; destruct Hin as [->|Hin].
  - rewrite Z.eqb_refl; cbn; f_equal.
    rewrite (@flat_map_ext_In _ _ _ (fun _ => [])).
    + apply flat_map_nil.
    + intros k Hk; destruct (key k0 =? key k) eqn:E; [|reflexivity].
      apply Z.eqb_eq in E; exfalso; apply Hna; rewrite E; apply in_map; exact Hk.
  - destruct (key k0 =? key a) eqn:E.
    + apply Z.eqb_eq in E; exfalso; apply Hna; rewrite <- E; apply in_map; exact Hin.
    + cbn; apply IH; assumption.
Qed.

(** Grouping the rows of a table by a foreign key into a table with a
    primary key loses and repeats nothing. *)
Lemma group_by_key_perm {A B} (key : A -> Z) (tag : B -> Z) ks xs :
  NoDup (map key ks) ->
  (forall x, In x xs -> exists k, In k ks /\ key k = tag x) ->
  Permutation (flat_map (fun k => filter (fun x => tag x =? key k) xs) ks) xs.
Proof.
  intros Hnd; induction xs as [|x rest IH]; intros Hfk.
  - cbn; rewrite flat_map_nil; reflexivity.
  - destruct (Hfk x (or_introl eq_refl)) as (k0 & Hk0 & Hkey).
    rewrite (@flat_map_ext_In _ _ _
               (fun k => (if key k0 =? key k then [x] else [])
                         ++ filter (fun x => tag x =? key k) rest)).
    2: { intros k _; cbn [filter]; rewrite Hkey.
         destruct (tag x =? key k); reflexivity. }
    rewrite Permutation_flat_map_app, (@flat_map_key_once _ _ key x ks k0 Hnd Hk0).
    cbn; constructor; apply IH.
    intros y Hy; apply Hfk; right; exact Hy.
Qed.

Lemma NoDup_map_key_inj {A} (key : A -> Z) l x y :
  NoDup (map key l) -> In x l -> In y l -> key x = key y -> x = y.
Proof.
  induction l as [|a l IH]; intros Hnd Hx Hy Hk; [destruct Hx|].
  cbn in Hnd; apply NoDup_cons_iff in Hnd; destruct Hnd as [Hna Hnd].
  destruct Hx as [->|Hx], Hy as [->|Hy]; auto.
  - exfalso; apply Hna; rewrite Hk; apply in_map; exact Hy.
  - exfalso; apply Hna; rewrite <- Hk; apply in_map; exact Hx.
Qed.

Lemma export_lines_in db t :
  In t (export_lines db) ->
  In (line_item t) (order_items db)
  /\ In (line_order t) (orders db)
  /\ order_row_id (line_order t) = order_id (line_item t)
  /\ In (line_dish t) (menu_inventory db)
  /\ menu_row_id (line_dish t) = dish_id (line_item t).
Proof.
  unfold export_lines; intros H.
  apply in_flat_map in H; destruct H as (o & Ho & H).
  apply in_flat_map in H; destruct H as (oi & Hoi & H).
  apply in_map_iff in H; destruct H as (m & <- & Hm).
  apply filter_In in Hoi; destruct Hoi as [Hoi Hid].
  apply filter_In in Hm; destruct Hm as [Hm Hd].
  apply Z.eqb_eq in Hid, Hd.
  cbn; repeat split; auto.
  eapply Permutation_in; [apply order_by_date_desc_perm|exact Ho].
Qed.

Lemma export_lines_items db :
  keys_ok db ->
  Permutation (map line_item (export_lines db)) (order_items db).
Proof.
  intros (Hno & Hnm & Hfk); unfold export_lines.
  rewrite map_flat_map.
  rewrite (@flat_map_ext_In _ _ _
             (fun o => filter (fun oi => order_id oi =? order_row_id o)
                              (order_items db))).
  - rewrite (Permutation_flat_map_list _ (order_by_date_desc_perm (orders db))).
    apply group_by_key_perm; [exact Hno|].
    intros it Hit; destruct (Hfk it Hit) as [(o & Ho & Hid) _]; eauto.
  - intros o _; rewrite map_flat_map.
    rewrite (@flat_map_ext_In _ _ _ (fun oi => [oi])); [apply flat_map_singleton|].
    intros oi Hoi; apply filter_In in Hoi; destruct Hoi as [Hoi _].
    destruct (Hfk oi Hoi) as [_ (m & Hm & Hid)].
    rewrite <- Hid, (filter_key_unique menu_row_id _ _ Hnm Hm); reflexivity.
Qed.

Section CsvExport.

Variable sql_date : string -> option string.
Variable lower : string -> string.

Lemma export_orders_csv_lines db :
  export_orders_csv sql_date lower db
  = inr (csv_header :: map line_cells (export_lines db)).
Proof.
  unfold export_orders_csv; rewrite run_fetch_orders_all; cbn [fst].
  do 2 f_equal.
  rewrite flat_map_map; unfold export_lines; rewrite map_flat_map.
  apply flat_map_ext; intros o; cbn [entry_items].
  unfold items_of; rewrite !map_flat_map.
  apply flat_map_ext; intros oi; rewrite !map_map; reflexivity.
Qed.

(** C9. For every stored database in which the keys of the schema hold
    (order ids and dish ids are unique, every order item refers to a stored
    order and a stored dish), the export is the header followed by exactly
    one row per stored order item: the rows are the rows of a list of
    (item, order, dish) triples whose items are the stored order items, each
    once; the order of a triple is the stored order the item belongs to and
    its dish the stored dish the item refers to, so that the row carries the
    item's order id, the calendar date of that order (the first ten
    characters of its timestamp), the dish name, the quantity and the line
    price together with the subtotal, VAT rate, VAT amount and total of its
    order; two rows of the same order come from the same order row and carry
    identical order-level values. *)
Theorem export_orders_csv_rows (db : database) :
  keys_ok db ->
  exists lines : list export_line,
    export_orders_csv sql_date lower db = inr (csv_header :: map line_cells lines)
    /\ Permutation (map line_item lines) (order_items db)
    /\ (forall t, In t lines ->
          In (line_order t) (orders db)
          /\ order_row_id (line_order t) = order_id (line_item t)
          /\ In (line_dish t) (menu_inventory db)
          /\ menu_row_id (line_dish t) = dish_id (line_item t))
    /\ (forall t1 t2, In t1 lines -> In t2 lines ->
          order_id (line_item t1) = order_id (line_item t2) ->
          line_order t1 = line_order t2).
Proof.
  intros Hk; exists (export_lines db); repeat split.
  - apply export_orders_csv_lines.
  - apply export_lines_items; exact Hk.
  - apply export_lines_in in H; tauto.
  - apply export_lines_in in H; tauto.
  - apply export_lines_in in H; tauto.
  - apply export_lines_in in H; tauto.
  - intros t1 t2 H1 H2 Heq.
    apply export_lines_in in H1, H2.
    destruct H1 as (_ & Ho1 & Hid1 & _), H2 as (_ & Ho2 & Hid2 & _).
    destruct Hk as (Hno & _).
    apply (NoDup_map_key_inj order_row_id _ _ _ Hno Ho1 Ho2); congruence.
Qed.

End CsvExport.

(* ================================================================== *)
(** * Signs and sizes of binary64 results *)
(* ================================================================== *)

(** ** Digits and shifts *)

Lemma digits2_pos_size p : digits2_pos p = Pos.size p.
Proof. induction p as [p IH|p IH|]; cbn; congruence. Qed.

Lemma digits2_pos_bounds p :
  2 ^ (Zpos (digits2_pos p) - 1) <= Zpos p < 2 ^ Zpos (digits2_pos p).
Proof.
  rewrite digits2_pos_size.
  pose proof (Pos.size_gt p) as Hgt.
  pose proof (Pos.size_le p) as Hle.
  apply Pos2Z.pos_lt_pos in Hgt; apply Pos2Z.pos_le_pos in Hle.
  rewrite Pos2Z.inj_pow in Hgt, Hle.
  split; [|exact Hgt].
  replace (Z.pos (Pos.size p)) with (Z.succ (Z.pos (Pos.size p) - 1)) in Hle by lia.
  rewrite Z.pow_succ_r in Hle by lia.
  change (Z.pos p~0) with (2 * Z.pos p) in Hle; lia.
Qed.

Lemma Zdigits2_le m k :
  0 <= m < 2 ^ k -> 0 <= k -> Zdigits2 m <= k.
Proof.
  intros [Hm Hk] Hk0; destruct m as [|p|p]; cbn; [lia| |lia].
  destruct (digits2_pos_bounds p) as [Hlo _].
  destruct (Z_lt_le_dec k (Zpos (digits2_pos p))) as [Hlt|]; [|assumption].
  exfalso.
  assert (2 ^ k <= 2 ^ (Zpos (digits2_pos p) - 1))
    by (apply Z.pow_le_mono_r; lia).
  lia.
Qed.

Lemma Zdigits2_nonneg m : 0 <= Zdigits2 m.
Proof. destruct m; cbn; lia. Qed.

(** ** Shifting a mantissa to the right *)

Lemma shr_1_bounds mrs :
  0 <= shr_m mrs -> 0 <= shr_m (shr_1 mrs) <= shr_m mrs.
Proof.
  destruct mrs as [m r s]; cbn [shr_m].
  destruct m as [|[p|p|]|p]; cbn [shr_1 shr_m]; lia.
Qed.

Lemma iter_pos_bounds n : forall mrs,
  0 <= shr_m mrs -> 0 <= shr_m (iter_pos shr_1 n mrs) <= shr_m mrs.
Proof.
  induction n as [n IH|n IH|]; intros mrs H; cbn [iter_pos].
  - pose proof (shr_1_bounds mrs H) as H1.
    pose proof (IH _ (proj1 H1)) as H2.
    pose proof (IH _ (proj1 H2)) as H3. lia.
  - pose proof (IH _ H) as H2.
    pose proof (IH _ (proj1 H2)) as H3. lia.
  - apply shr_1_bounds; assumption.
Qed.

Lemma shr_bounds mrs e n :
  0 <= shr_m mrs ->
  0 <= shr_m (fst (shr mrs e n)) <= shr_m mrs
  /\ snd (shr mrs e n) = Z.max e (e + n).
Proof.
  intros H; unfold shr; destruct n as [|p|p]; cbn [fst snd]; try (split; lia).
  split; [apply iter_pos_bounds; assumption|lia].
Qed.

Lemma shr_record_of_loc_m m l : shr_m (shr_record_of_loc m l) = m.
Proof. destruct l as [|[]]; reflexivity. Qed.

Lemma shr_fexp_bounds pr em m e l :
  0 <= m ->
  0 <= shr_m (fst (shr_fexp pr em m e l)) <= m
  /\ snd (shr_fexp pr em m e l) = Z.max e (fexp pr em (Zdigits2 m + e)).
Proof.
  intros H; unfold shr_fexp.
  destruct (@shr_bounds (shr_record_of_loc m l) e
              (fexp pr em (Zdigits2 m + e) - e)) as [H1 H2].
  { rewrite shr_record_of_loc_m; exact H. }
  rewrite shr_record_of_loc_m in H1; split; [exact H1|].
  rewrite H2; lia.
Qed.

Lemma round_nearest_even_bounds m l :
  m <= round_nearest_even m l <= m + 1.
Proof. destruct l as [|[]]; cbn; try lia. destruct (Z.even m); lia. Qed.

(** ** The class of a rounded result *)

Lemma binary_round_aux_nonneg pr em mx ex lx :
  0 <= mx -> SFnonneg (binary_round_aux pr em false mx ex lx).
Proof.
  intros H; unfold binary_round_aux.
  destruct (shr_fexp pr em mx ex lx) as [mrs' e'] eqn:E1.
  pose proof (@shr_fexp_bounds pr em mx ex lx H) as [B1 _].
  rewrite E1 in B1; cbn [fst] in B1.
  pose proof (round_nearest_even_bounds (shr_m mrs') (loc_of_shr_record mrs')) as B2.
  destruct (shr_fexp pr em (round_nearest_even (shr_m mrs') (loc_of_shr_record mrs'))
              e' loc_Exact) as [mrs'' e''] eqn:E2.
  pose proof (@shr_fexp_bounds pr em
                (round_nearest_even (shr_m mrs') (loc_of_shr_record mrs'))
                e' loc_Exact) as [B3 _]; [lia|].
  rewrite E2 in B3; cbn [fst] in B3.
  destruct (shr_m mrs'') as [|p|p]; cbn; [exact I| |lia].
  destruct (e'' <=? em - pr); reflexivity.
Qed.

Lemma binary_round_nonneg pr em mx ex :
  SFnonneg (binary_round pr em false mx ex).
Proof.
  unfold binary_round.
  destruct (shl_align mx ex _) as [mz ez].
  apply binary_round_aux_nonneg; lia.
Qed.

Lemma binary_normalize_nonneg pr em m e :
  0 <= m -> SFnonneg (binary_normalize pr em m e false).
Proof.
  intros H; destruct m as [|p|p]; cbn; [exact I| |lia].
  apply binary_round_nonneg.
Qed.

(** ** Small integers *)

Lemma fexp64 x : fexp prec emax x = Z.max (x - 53) (-1074).
Proof. reflexivity. Qed.

Lemma iter_xO_value mx d : Zpos (Pos.iter xO mx d) = Zpos mx * 2 ^ Zpos d.
Proof.
  apply (@Pos.iter_ind positive xO mx (fun d r => Zpos r = Zpos mx * 2 ^ Zpos d)).
  - change (Z.pos mx~0) with (2 * Z.pos mx); lia.
  - intros p r H; rewrite Pos2Z.inj_succ, Z.pow_succ_r by lia.
    change (Z.pos r~0) with (2 * Z.pos r); lia.
Qed.

Lemma shl_align_value mx ex ex' :
  let r := shl_align mx ex ex' in
  snd r <= ex
  /\ Z.min ex ex' <= snd r
  /\ Zpos (fst r) = Zpos mx * 2 ^ (ex - snd r).
Proof.
  unfold shl_align.
  destruct (ex' - ex) as [|d|d] eqn:E; cbn [fst snd].
  - rewrite Z.sub_diag; lia.
  - rewrite Z.sub_diag; lia.
  - rewrite iter_xO_value.
    replace (ex - ex') with (Zpos d) by lia; lia.
Qed.

Lemma binary_round_aux_not_infinity sx mx ex lx k s :
  0 <= mx < 2 ^ k -> 0 <= k <= 400 -> ex <= 0 ->
  binary_round_aux prec emax sx mx ex lx <> S754_infinity s.
Proof.
  intros Hm Hk He; unfold binary_round_aux.
  destruct (shr_fexp prec emax mx ex lx) as [mrs' e'] eqn:E1.
  pose proof (@shr_fexp_bounds prec emax mx ex lx (proj1 Hm)) as [B1 X1].
  rewrite E1 in B1, X1; cbn [fst snd] in B1, X1.
  pose proof (round_nearest_even_bounds (shr_m mrs') (loc_of_shr_record mrs')) as B2.
  destruct (shr_fexp prec emax
              (round_nearest_even (shr_m mrs') (loc_of_shr_record mrs'))
              e' loc_Exact) as [mrs'' e''] eqn:E2.
  pose proof (@shr_fexp_bounds prec emax
                (round_nearest_even (shr_m mrs') (loc_of_shr_record mrs'))
                e' loc_Exact) as [B3 X3]; [lia|].
  rewrite E2 in B3, X3; cbn [fst snd] in B3, X3.
  rewrite fexp64 in X1, X3.
  assert (D1 : Zdigits2 mx <= k) by (apply Zdigits2_le; lia).
  assert (D2 : Zdigits2 (round_nearest_even (shr_m mrs') (loc_of_shr_record mrs'))
               <= k + 1).
  { apply Zdigits2_le; [|lia].
    rewrite Z.pow_add_r, Z.pow_1_r by lia; lia. }
  destruct (shr_m mrs'') as [|p|p]; try discriminate.
  destruct (e'' <=? emax - prec) eqn:Hle; [discriminate|].
  apply Z.leb_gt in Hle; change (emax - prec) with 971 in Hle; lia.
Qed.

Lemma binary_normalize_small n s :
  0 <= n < 2 ^ 63 ->
  binary_normalize prec emax n 0 false <> S754_infinity s.
Proof.
  intros Hn; destruct n as [|p|p]; cbn [binary_normalize]; [discriminate| |lia].
  unfold binary_round.
  pose proof (shl_align_value p 0 (fexp prec emax (Zpos (digits2_pos p) + 0))) as H.
  destruct (shl_align p 0 _) as [mz ez]; cbn [fst snd] in H.
  destruct H as (H1 & H2 & H3).
  rewrite fexp64 in H2.
  pose proof (Pos2Z.is_pos (digits2_pos p)).
  apply binary_round_aux_not_infinity with (k := 63 + 53); try lia.
  split; [lia|].
  rewrite H3, Z.pow_add_r by lia.
  assert (2 ^ (0 - ez) <= 2 ^ 53) by (apply Z.pow_le_mono_r; lia).
  assert (0 < 2 ^ (0 - ez)) by (apply Z.pow_pos_nonneg; lia).
  nia.
Qed.

(** ** Primitive floats *)

Lemma to_float_spec n :
  0 <= n < 2 ^ 63 ->
  Prim2SF (PyFloat.to_float n) = binary_normalize prec emax n 0 false.
Proof.
  intros Hn; unfold PyFloat.to_float.
  pose proof (of_uint63_spec (Uint63.of_Z n)) as H.
  rewrite Uint63.of_Z_spec, Z.mod_small in H
    by (change Uint63.wB with (2 ^ 63); lia).
  rewrite <- H, SF2Prim_Prim2SF; reflexivity.
Qed.

Lemma of_int_small n :
  0 <= n < 2 ^ 63 -> PyFloat.of_int n = Some (PyFloat.to_float n).
Proof.
  intros Hn; unfold PyFloat.of_int.
  pose proof (fun s => @binary_normalize_small n s Hn) as H.
  destruct (binary_normalize prec emax n 0 false); try reflexivity.
  exfalso; eapply H; reflexivity.
Qed.

Lemma SFnonneg_number x : SFnonneg x -> x <> S754_nan.
Proof. intros H ->; exact H. Qed.

Lemma is_nan_spec x : is_nan x = false <-> Prim2SF x <> S754_nan.
Proof.
  unfold is_nan; rewrite FloatAxioms.eqb_spec, negb_false_iff.
  unfold SFeqb, SFcompare.
  destruct (Prim2SF x) as [s|s| |s m e]; cbn.
  - split; [discriminate|reflexivity].
  - destruct s; split; try discriminate; reflexivity.
  - split; [discriminate|congruence].
  - rewrite Z.compare_refl, Pos.compare_cont_refl.
    destruct s; split; try discriminate; reflexivity.
Qed.

(** [0 <= x] holds exactly for the numbers that are not negative. *)
Lemma nonneg_spec x : PyFloat.nonneg x = true <-> SFnonneg (Prim2SF x).
Proof.
  unfold PyFloat.nonneg; rewrite FloatAxioms.leb_spec.
  change (Prim2SF 0) with (S754_zero false).
  unfold SFleb, SFcompare.
  destruct (Prim2SF x) as [s|s| |s m e]; cbn.
  - split; [intros; exact I|reflexivity].
  - destruct s; split; try discriminate; reflexivity.
  - split; [discriminate|intros []].
  - destruct s; split; try discriminate; reflexivity.
Qed.

Lemma to_float_nonneg n :
  0 <= n < 2 ^ 63 -> PyFloat.nonneg (PyFloat.to_float n) = true.
Proof.
  intros Hn; apply nonneg_spec; rewrite to_float_spec by exact Hn.
  apply binary_normalize_nonneg; lia.
Qed.

Lemma to_float_finite n :
  0 <= n < 2 ^ 63 -> SFfinite (Prim2SF (PyFloat.to_float n)).
Proof.
  intros Hn; rewrite to_float_spec by exact Hn.
  pose proof (fun s => @binary_normalize_small n s Hn) as H.
  pose proof (@binary_normalize_nonneg prec emax n 0 (proj1 Hn)) as H'.
  destruct (binary_normalize prec emax n 0 false); cbn; auto.
  eapply H; reflexivity.
Qed.

Lemma is_finite_spec x : is_finite x = true <-> SFfinite (Prim2SF x).
Proof.
  unfold is_finite, is_infinity, is_nan.
  rewrite !FloatAxioms.eqb_spec, abs_spec.
  change (Prim2SF infinity) with (S754_infinity false).
  unfold SFeqb, SFcompare, SFabs.
  destruct (Prim2SF x) as [s|s| |s m e]; cbn.
  - split; [intros; exact I|reflexivity].
  - destruct s; split; try discriminate; intros [].
  - split; [discriminate|intros []].
  - rewrite Z.compare_refl, Pos.compare_cont_refl.
    destruct s; split; try discriminate; try reflexivity; intros; exact I.
Qed.

(** ** Products, sums and differences of numbers that are not negative *)

Lemma SFmul_nonneg x y :
  SFnonneg x -> SFnonneg y -> SFfinite x -> SFfinite y ->
  SFnonneg (SF64mul x y).
Proof.
  unfold SF64mul, SFmul.
  destruct x as [sx|sx| |sx mx ex], y as [sy|sy| |sy my ey]; cbn;
    intros Hx Hy Fx Fy; try contradiction; try exact I.
  subst sx sy; apply binary_round_aux_nonneg; lia.
Qed.

Lemma SFmul_nonneg_finite x m e :
  SFnonneg x -> SFnonneg (SF64mul x (S754_finite false m e)).
Proof.
  unfold SF64mul, SFmul.
  destruct x as [sx|sx| |sx mx ex]; cbn; intros Hx; try contradiction;
    try exact I.
  - subst sx; reflexivity.
  - subst sx; apply binary_round_aux_nonneg; lia.
Qed.

Lemma SFadd_nonneg x y :
  SFnonneg x -> SFnonneg y -> SFnonneg (SF64add x y).
Proof.
  unfold SF64add, SFadd.
  destruct x as [sx|sx| |sx mx ex], y as [sy|sy| |sy my ey]; cbn;
    intros Hx Hy; try contradiction; try exact I; try assumption.
  - destruct sx, sy; exact I.
  - subst sx sy; reflexivity.
  - subst sx sy; apply binary_normalize_nonneg; cbn; lia.
Qed.

Lemma shl_align_le mx ex ex' :
  ex' <= ex -> Zpos (fst (shl_align mx ex ex')) = Zpos mx * 2 ^ (ex - ex').
Proof.
  intros H; unfold shl_align.
  destruct (ex' - ex) as [|d|d] eqn:E; cbn [fst]; try lia.
  - replace (ex - ex') with 0 by lia; lia.
  - rewrite iter_xO_value; replace (ex - ex') with (Zpos d) by lia; reflexivity.
Qed.

(** Of two canonical mantissas, the one with the larger exponent is the
    larger number. *)
Lemma canonical_exponent_order mx ex my ey :
  bounded prec emax mx ex = true -> bounded prec emax my ey = true ->
  ey < ex -> Zpos my <= Zpos mx * 2 ^ (ex - ey).
Proof.
  unfold bounded, canonical_mantissa; rewrite !andb_true_iff, !Z.eqb_eq, !fexp64.
  intros [Hx _] [Hy _] Hlt.
  destruct (digits2_pos_bounds mx) as [Hlo _].
  destruct (digits2_pos_bounds my) as [_ Hhi].
  assert (Dx : Zpos (digits2_pos mx) = 53) by lia.
  assert (Dy : Zpos (digits2_pos my) <= 53) by lia.
  rewrite Dx in Hlo.
  assert (Zpos my < 2 ^ 53).
  { eapply Z.lt_le_trans; [exact Hhi|apply Z.pow_le_mono_r; lia]. }
  assert (2 ^ 1 <= 2 ^ (ex - ey)) by (apply Z.pow_le_mono_r; lia).
  change (2 ^ (53 - 1)) with 4503599627370496 in Hlo.
  change (2 ^ 53) with 9007199254740992 in *.
  change (2 ^ 1) with 2 in *.
  nia.
Qed.

Lemma SFsub_nonneg x y :
  valid_binary x = true -> valid_binary y = true ->
  SFnonneg x -> SFfinite x -> SFnumber y -> SFltb x y = false ->
  SFnonneg (SF64sub x y).
Proof.
  intros Vx Vy Hx Fx Hy Hlt.
  assert (Hk : ~ lex_lt (SFkey x) (SFkey y)).
  { intros H; assert (SFltb x y = true); [|congruence].
    apply SFltb_iff; split; [apply SFnonneg_number; exact Hx|].
    split; [exact Hy|exact H]. }
  unfold SF64sub, SFsub, lex_lt, SFnumber in *.
  destruct x as [sx|sx| |sx mx ex], y as [sy|sy| |sy my ey];
    cbn in Hx, Fx, Hy, Hk, Vx, Vy; try contradiction; try congruence;
    try subst sx; try destruct sx; try destruct sy;
    cbn [SFnonneg negb fst snd] in *;
    try exact I; try reflexivity; try (exfalso; apply Hk; lia).
  - apply binary_normalize_nonneg; cbn [cond_Zopp]; lia.
  - apply binary_normalize_nonneg; cbn [cond_Zopp].
    assert (Hey : ey <= ex) by lia.
    rewrite Z.min_r by exact Hey.
    rewrite (shl_align_le mx Hey), (shl_align_le my (Z.le_refl ey)).
    rewrite Z.sub_diag, Z.pow_0_r, Z.mul_1_r.
    destruct (Z.eq_dec ex ey) as [->|Hne].
    + rewrite Z.sub_diag, Z.pow_0_r; lia.
    + pose proof (@canonical_exponent_order mx ex my ey Vx Vy); lia.
Qed.

(** ** The same, on primitive floats *)

Lemma mul_nonneg (x y : float) :
  PyFloat.nonneg x = true -> PyFloat.nonneg y = true ->
  is_finite x = true -> is_finite y = true ->
  PyFloat.nonneg (x * y) = true.
Proof.
  rewrite !nonneg_spec, !is_finite_spec, mul_spec; apply SFmul_nonneg.
Qed.

Lemma add_nonneg (x y : float) :
  PyFloat.nonneg x = true -> PyFloat.nonneg y = true ->
  PyFloat.nonneg (x + y) = true.
Proof. rewrite !nonneg_spec, add_spec; apply SFadd_nonneg. Qed.

Lemma sub_nonneg (x y : float) :
  PyFloat.nonneg x = true -> is_finite x = true -> is_nan y = false ->
  (x <? y)%float = false ->
  PyFloat.nonneg (x - y) = true.
Proof.
  rewrite !nonneg_spec, is_finite_spec, is_nan_spec, ltb_spec, sub_spec.
  apply SFsub_nonneg; apply Prim2SF_valid.
Qed.

Lemma nonneg_not_nan x : PyFloat.nonneg x = true -> is_nan x = false.
Proof. rewrite nonneg_spec, is_nan_spec; apply SFnonneg_number. Qed.

(** ** Rounding to two decimals keeps a number that is not negative *)

Lemma SFldexp_nonneg x e : SFnonneg x -> SFnonneg (SFldexp prec emax x e).
Proof.
  destruct x as [s|s| |s m ex]; cbn; auto.
  intros ->; apply binary_round_nonneg.
Qed.

Lemma SF2Prim_nonneg sf : SFnonneg sf -> PyFloat.nonneg (SF2Prim sf) = true.
Proof.
  destruct sf as [s|s| |s m e]; cbn [SFnonneg SF2Prim].
  - intros _; destruct s; reflexivity.
  - intros ->; reflexivity.
  - intros [].
  - intros ->; apply nonneg_spec.
    rewrite Z_ldexp_spec; apply SFldexp_nonneg.
    rewrite of_uint63_spec; apply binary_normalize_nonneg.
    apply Uint63.to_Z_bounded.
Qed.

Lemma round_half_even_nonneg num den :
  0 <= num -> 0 < den -> 0 <= PyFloat.round_half_even num den.
Proof.
  intros Hn Hd; unfold PyFloat.round_half_even.
  assert (0 <= num / den) by (apply Z.div_pos; assumption).
  destruct (2 * (num mod den) ?= den); [destruct (Z.even _)| |]; lia.
Qed.

Lemma hundredths_nonneg m e : 0 <= PyFloat.hundredths m e.
Proof.
  unfold PyFloat.hundredths; destruct e as [|p|p].
  - cbn; lia.
  - assert (0 < 2 ^ Zpos p) by (apply Z.pow_pos_nonneg; lia). nia.
  - apply round_half_even_nonneg; [lia|].
    rewrite Z.pow_pos_fold; apply Z.pow_pos_nonneg; lia.
Qed.

Lemma SFdiv_nonneg p m e :
  SFnonneg (SFdiv prec emax (S754_finite false p 0) (S754_finite false m e)).
Proof.
  cbn [SFdiv xorb].
  destruct (SFdiv_core_binary prec emax (Zpos p) 0 (Zpos m) e) as [[mz ez] lz] eqn:E.
  apply binary_round_aux_nonneg.
  unfold SFdiv_core_binary in E.
  match type of E with
  | context [Z.div_eucl ?a ?b] =>
      assert (Ha : 0 <= a);
      [|pose proof (Z.div_pos a b Ha (Pos2Z.is_pos m)) as Hq;
        unfold Z.div in Hq; destruct (Z.div_eucl a b) as [q r]]
  end.
  - destruct (0 - e - _) as [|s|s]; try lia.
    apply Z.shiftl_nonneg; lia.
  - injection E as <- _ _; exact Hq.
Qed.

Lemma round2_nonneg x :
  PyFloat.nonneg x = true -> PyFloat.nonneg (PyFloat.round2 x) = true.
Proof.
  intros H; pose proof H as Hsf; apply nonneg_spec in Hsf.
  unfold PyFloat.round2.
  destruct (Prim2SF x) as [s|s| |s m e]; try exact H.
  cbn in Hsf; subst s.
  apply SF2Prim_nonneg.
  pose proof (hundredths_nonneg m e) as Hh.
  destruct (PyFloat.hundredths m e) as [|p|p]; cbn [PyFloat.SF_of_Z]; [exact I| |lia].
  apply SFdiv_nonneg.
Qed.

(** ** Integers from 1 on are converted to positive numbers *)

Lemma shr_1_half mrs :
  0 <= shr_m mrs ->
  2 * shr_m (shr_1 mrs) <= shr_m mrs <= 2 * shr_m (shr_1 mrs) + 1.
Proof.
  destruct mrs as [m r s]; cbn [shr_m].
  destruct m as [|[p|p|]|p]; cbn [shr_1 shr_m]; lia.
Qed.

Lemma iter_pos_half n : forall mrs,
  0 <= shr_m mrs ->
  2 ^ Zpos n * shr_m (iter_pos shr_1 n mrs) <= shr_m mrs
  /\ shr_m mrs < 2 ^ Zpos n * (shr_m (iter_pos shr_1 n mrs) + 1).
Proof.
  induction n as [n IH|n IH|]; intros mrs H; cbn [iter_pos].
  - pose proof (shr_1_half mrs H) as H1.
    pose proof (shr_1_bounds mrs H) as B1.
    pose proof (IH _ (proj1 B1)) as H2.
    pose proof (iter_pos_bounds n _ (proj1 B1)) as B2.
    pose proof (IH _ (proj1 B2)) as H3.
    pose proof (iter_pos_bounds n _ (proj1 B2)) as B3.
    replace (Zpos n~1) with (Zpos n + Zpos n + 1) by lia.
    rewrite !Z.pow_add_r, Z.pow_1_r by lia.
    assert (0 < 2 ^ Zpos n) by (apply Z.pow_pos_nonneg; lia).
    nia.
  - pose proof (IH _ H) as H2.
    pose proof (iter_pos_bounds n _ H) as B2.
    pose proof (IH _ (proj1 B2)) as H3.
    pose proof (iter_pos_bounds n _ (proj1 B2)) as B3.
    replace (Zpos n~0) with (Zpos n + Zpos n) by lia.
    rewrite !Z.pow_add_r by lia.
    assert (0 < 2 ^ Zpos n) by (apply Z.pow_pos_nonneg; lia).
    nia.
  - pose proof (shr_1_half mrs H); change (2 ^ 1) with 2; lia.
Qed.

(** A shift that is shorter than the mantissa leaves a mantissa above 0. *)
Lemma shr_positive mrs e n :
  0 < shr_m mrs -> (0 < n -> 2 ^ n <= shr_m mrs) ->
  0 < shr_m (fst (shr mrs e n)).
Proof.
  intros Hm Hn; unfold shr; destruct n as [|p|p]; cbn [fst]; try exact Hm.
  assert (H0 : 0 <= shr_m mrs) by lia.
  pose proof (iter_pos_half p mrs H0) as [_ H].
  pose proof (iter_pos_bounds p mrs H0) as B.
  specialize (Hn (Pos2Z.is_pos p)).
  assert (0 < 2 ^ Zpos p) by (apply Z.pow_pos_nonneg; lia).
  nia.
Qed.

Lemma Zdigits2_low m : 0 < m -> 2 ^ (Zdigits2 m - 1) <= m.
Proof.
  destruct m as [|p|p]; try lia; intros _; cbn [Zdigits2].
  apply digits2_pos_bounds.
Qed.

Lemma shr_fexp_positive m e l :
  0 < m -> -1074 <= e -> 0 < shr_m (fst (shr_fexp prec emax m e l)).
Proof.
  intros Hm He; unfold shr_fexp.
  apply shr_positive; rewrite shr_record_of_loc_m; [exact Hm|].
  rewrite fexp64; intros Hn.
  pose proof (Zdigits2_low Hm) as Hd.
  eapply Z.le_trans; [|exact Hd].
  apply Z.pow_le_mono_r; lia.
Qed.

Lemma binary_round_aux_positive mx ex lx :
  0 < mx -> -1074 <= ex ->
  (exists m e, binary_round_aux prec emax false mx ex lx = S754_finite false m e)
  \/ binary_round_aux prec emax false mx ex lx = S754_infinity false.
Proof.
  intros Hm He; unfold binary_round_aux.
  pose proof (@shr_fexp_positive mx ex lx Hm He) as P1.
  pose proof (@shr_fexp_bounds prec emax mx ex lx) as [_ X1]; [lia|].
  destruct (shr_fexp prec emax mx ex lx) as [mrs' e']; cbn [fst snd] in P1, X1.
  pose proof (round_nearest_even_bounds (shr_m mrs') (loc_of_shr_record mrs')) as B2.
  pose proof (@shr_fexp_positive
                (round_nearest_even (shr_m mrs') (loc_of_shr_record mrs'))
                e' loc_Exact) as P3.
  destruct (shr_fexp prec emax
              (round_nearest_even (shr_m mrs') (loc_of_shr_record mrs'))
              e' loc_Exact) as [mrs'' e'']; cbn [fst] in P3.
  assert (H3 : 0 < shr_m mrs'') by (apply P3; lia).
  destruct (shr_m mrs'') as [|p|p]; try lia.
  destruct (e'' <=? emax - prec); [left; eauto|right; reflexivity].
Qed.

Lemma to_float_positive n :
  1 <= n < 2 ^ 63 ->
  exists m e, Prim2SF (PyFloat.to_float n) = S754_finite false m e.
Proof.
  intros Hn; rewrite to_float_spec by lia.
  pose proof (fun s => @binary_normalize_small n s (conj (Z.le_trans 0 1 n Z.le_0_1 (proj1 Hn)) (proj2 Hn))) as Hfin.
  destruct n as [|p|p]; try lia.
  cbn [binary_normalize] in *; unfold binary_round in *.
  pose proof (shl_align_value p 0 (fexp prec emax (Zpos (digits2_pos p) + 0))) as H.
  destruct (shl_align p 0 _) as [mz ez]; cbn [fst snd] in H.
  destruct H as (H1 & H2 & H3).
  rewrite fexp64 in H2.
  destruct (@binary_round_aux_positive (Zpos mz) ez loc_Exact) as [H|H];
    [lia|lia|exact H|].
  exfalso; exact (Hfin false H).
Qed.

(** A number that is not negative, times an integer from 1 on: a number
    that is not negative (an infinite one stays infinite). *)
Lemma mul_to_float_nonneg (x : float) n :
  PyFloat.nonneg x = true -> 1 <= n < 2 ^ 63 ->
  PyFloat.nonneg (x * PyFloat.to_float n) = true.
Proof.
  rewrite !nonneg_spec, mul_spec; intros Hx Hn.
  destruct (to_float_positive Hn) as (m & e & ->).
  apply SFmul_nonneg_finite; exact Hx.
Qed.

(** An infinite stock less a finite need is the infinite stock. *)
Lemma sub_from_infinite (x y : float) :
  PyFloat.nonneg x = true -> is_finite x = false ->
  PyFloat.nonneg y = true -> is_finite y = true ->
  PyFloat.nonneg (x - y) = true.
Proof.
  intros Hx Fx Hy Fy.
  assert (Fx' : ~ SFfinite (Prim2SF x))
    by (intros H; apply is_finite_spec in H; congruence).
  apply nonneg_spec in Hx, Hy; apply is_finite_spec in Fy.
  apply nonneg_spec; rewrite sub_spec.
  unfold SF64sub, SFsub.
  destruct (Prim2SF x) as [sx|sx| |sx mx ex], (Prim2SF y) as [sy|sy| |sy my ey];
    cbn in *; try contradiction; try (exfalso; apply Fx'; exact I); auto.
Qed.

(** A number that is not negative and not finite is [infinity]. *)
Lemma nonneg_infinite (x : float) :
  PyFloat.nonneg x = true -> is_finite x = false -> x = infinity.
Proof.
  intros Hx Fx.
  assert (Fx' : ~ SFfinite (Prim2SF x))
    by (intros H; apply is_finite_spec in H; congruence).
  apply nonneg_spec in Hx; apply Prim2SF_inj.
  change (Prim2SF infinity) with (S754_infinity false).
  destruct (Prim2SF x) as [sx|sx| |sx mx ex]; cbn in *;
    try contradiction; try (exfalso; apply Fx'; exact I).
  subst; reflexivity.
Qed.

Lemma infinity_minus_infinity : sql_real (infinity - infinity) = None.
Proof. reflexivity. Qed.

(** A stock that is not below the need, less the need, is a number that is
    not negative, unless the difference is a NaN. *)
Lemma SFsub_nonneg_or_nan x y :
  valid_binary x = true -> valid_binary y = true ->
  SFnonneg x -> SFltb x y = false -> SF64sub x y <> S754_nan ->
  SFnonneg (SF64sub x y).
Proof.
  intros Vx Vy Hx Hlt Hn.
  assert (Hy : SFnumber y).
  { intros ->; apply Hn; destruct x as [[]|[]| |[] ? ?]; reflexivity. }
  destruct x as [sx|sx| |sx mx ex].
  - apply SFsub_nonneg; auto; exact I.
  - cbn in Hx; subst sx.
    destruct y as [sy|sy| |sy my ey]; try exact I; try reflexivity.
    + destruct sy; [reflexivity|exfalso; apply Hn; reflexivity].
    + exfalso; apply Hy; reflexivity.
  - contradiction.
  - apply SFsub_nonneg; auto; exact I.
Qed.

Lemma sub_nonneg_or_nan (x y : float) :
  PyFloat.nonneg x = true -> (x <? y)%float = false ->
  is_nan (x - y) = false -> PyFloat.nonneg (x - y) = true.
Proof.
  rewrite !nonneg_spec, is_nan_spec, ltb_spec, sub_spec.
  apply SFsub_nonneg_or_nan; apply Prim2SF_valid.
Qed.

(** When stock and need are numbers that are not negative, the difference
    is a NaN only if both are infinite. *)
Lemma sub_nan_infinite (x y : float) :
  PyFloat.nonneg x = true -> PyFloat.nonneg y = true ->
  (x <? y)%float = false -> is_nan (x - y) = true ->
  x = infinity /\ y = infinity.
Proof.
  intros Hx Hy Hlt Hn.
  destruct (is_finite x) eqn:Fx.
  - pose proof (@sub_nonneg x y Hx Fx (@nonneg_not_nan y Hy) Hlt) as H.
    apply nonneg_not_nan in H; congruence.
  - destruct (is_finite y) eqn:Fy.
    + pose proof (@sub_from_infinite x y Hx Fx Hy Fy) as H.
      apply nonneg_not_nan in H; congruence.
    + split; apply nonneg_infinite; assumption.
Qed.

(* ================================================================== *)
(** * [create_order]: baskets that are accepted *)
(* ================================================================== *)

Lemma mul_int_small {R} x n c :
  0 <= n < 2 ^ 63 ->
  mul_int (R := R) x n c = (Val (x * PyFloat.to_float n)%float, c).
Proof. intros Hn; unfold mul_int; rewrite of_int_small by exact Hn; reflexivity. Qed.

(** The first loop falls through on lines that are acceptable. *)
Lemma validate_items_ok items : forall dish_map sub c,
  closed c = false ->
  Forall (line_ok (work c)) items ->
  exists dish_map' sub',
    validate_items items dish_map sub c = (Val (dish_map', sub'), c).
Proof.
  induction items as [|[d q] rest IH]; intros dish_map sub c Hc Hall.
  - exists dish_map, sub; reflexivity.
  - inversion Hall as [|? ? (Hq & Hd & Hr & _) Hrest]; subst; cbn [fst snd] in *.
    cbn [validate_items].
    destruct (q <=? 0) eqn:E; [apply Z.leb_le in E; lia|].
    unfold bind at 1, query_int; rewrite Hc, Hd.
    destruct (Sql.dish_by_id d (work c)) as [r|]; [|congruence].
    unfold bind at 1; rewrite mul_int_small by lia.
    apply IH; assumption.
Qed.

Lemma add_needs_ok rows qty : forall needs c,
  0 <= qty < 2 ^ 63 ->
  add_needs rows qty needs c = (Val (needs_after_rows rows qty needs), c).
Proof.
  induction rows as [|r rest IH]; intros needs c Hq; [reflexivity|].
  cbn [add_needs needs_after_rows].
  unfold bind at 1; rewrite mul_int_small by exact Hq.
  apply IH; exact Hq.
Qed.

(** The second loop falls through on lines that are acceptable. *)
Lemma accumulate_needs_ok items dish_map : forall needs c,
  closed c = false ->
  Forall (line_ok (work c)) items ->
  accumulate_needs items dish_map needs c
  = (Val (needs_after_items (work c) items needs), c).
Proof.
  induction items as [|[d q] rest IH]; intros needs c Hc Hall; [reflexivity|].
  inversion Hall as [|? ? (Hq & Hd & _ & Hrec) Hrest]; subst; cbn [fst snd] in *.
  cbn [accumulate_needs needs_after_items].
  unfold bind at 1, query_int; rewrite Hc, Hd.
  destruct (recipe_of d (work c)) as [|r0 rows] eqn:E; [congruence|].
  unfold bind at 1; rewrite add_needs_ok by lia.
  apply IH; assumption.
Qed.

(** The third loop: it falls through when every need is covered, and
    returns the error of the first need that is short otherwise. *)
Lemma check_stock_cases needs c :
  (forall kv, In kv needs -> need_stock (snd kv) <> None) ->
  (Forall covered needs /\ check_stock needs c = (Val tt, c))
  \/ (exists kv stock,
        In kv needs /\ need_stock (snd kv) = Some stock
        /\ (stock <? needed (snd kv))%float = true
        /\ check_stock needs c
           = (Ret (false, Not_enough (need_name (snd kv)) (needed (snd kv))
                                     (need_unit (snd kv)) (need_stock (snd kv))),
              c)).
Proof.
  induction needs as [|[iid info] rest IH]; intros Hs.
  - left; split; [constructor|reflexivity].
  - cbn [check_stock].
    destruct (need_stock info) as [stock|] eqn:E;
      [|exfalso; apply (Hs (iid, info)); [left; reflexivity|exact E]].
    destruct (stock <? needed info)%float eqn:Hlt.
    + right; exists (iid, info), stock; cbn [snd]; rewrite E.
      repeat split; auto; left; reflexivity.
    + destruct IH as [[Hall Hrun]|(kv & s & Hin & Hk & Hsh & Hrun)].
      * intros kv Hin; apply Hs; right; exact Hin.
      * left; split; [|exact Hrun].
        constructor; [exists stock; auto|exact Hall].
      * right; exists kv, s; repeat split; auto; right; exact Hin.
Qed.

Lemma check_stock_ok needs c :
  Forall covered needs -> check_stock needs c = (Val tt, c).
Proof.
  induction 1 as [|[iid info] rest (stock & Hs & Hlt) _ IH]; [reflexivity|].
  cbn [check_stock]; cbn [snd] in Hs, Hlt; rewrite Hs, Hlt; exact IH.
Qed.

Lemma sql_int_small n : 0 <= n < 2 ^ 63 -> sql_int n = true.
Proof.
  intros H; unfold sql_int; apply andb_true_intro; split;
    [apply Z.leb_le|apply Z.ltb_lt]; lia.
Qed.

Lemma insert_items_ok id dish_map menu ords items : forall c,
  closed c = false -> writes_left c = None ->
  menu_inventory (work c) = menu -> orders (work c) = ords ->
  existsb (fun r => order_row_id r =? id) ords = true ->
  Forall (item_ok dish_map menu) items ->
  exists c', insert_items id items dish_map c = (Val tt, c')
             /\ closed c' = false /\ writes_left c' = None.
Proof.
  induction items as [|[d q] rest IH]; intros c Hc Hw Hmenu Hords Hid Hall.
  - exists c; auto.
  - inversion Hall as [|? ? (info & Hd & Hq & Hsd & Hn & Hm) Hrest]; subst.
    cbn [fst snd] in *; cbn [insert_items]; rewrite Hd.
    unfold bind at 1; rewrite mul_int_small by exact Hq.
    unfold bind at 1, execute; rewrite Hc, Hw.
    unfold Sql.insert_item.
    rewrite Hsd, (sql_int_small Hq), Hn, Hid, Hm; cbn [andb negb].
    apply IH; auto.
Qed.

Lemma subtract_stock_ok needs : forall c,
  closed c = false -> writes_left c = None ->
  Forall covered needs ->
  exists c', subtract_stock needs c = (Val tt, c') /\ closed c' = false.
Proof.
  induction needs as [|[iid info] rest IH]; intros c Hc Hw Hall.
  - exists c; auto.
  - inversion Hall as [|? ? (stock & Hs & _) Hrest]; subst; cbn [snd] in Hs.
    cbn [subtract_stock]; rewrite Hs.
    unfold bind at 1, execute; rewrite Hc, Hw; cbn [Sql.update_quantity].
    apply IH; auto.
Qed.

(** ** The amounts of an accepted basket are numbers *)

Lemma dish_by_id_in id db r : Sql.dish_by_id id db = Some r ->
  In r (menu_inventory db) /\ menu_row_id r = id.
Proof.
  unfold Sql.dish_by_id; intros H; apply find_some in H.
  destruct H as [Hin Hid]; apply Z.eqb_eq in Hid; auto.
Qed.

Lemma line_amount_nonneg db l :
  prices_ok db -> 0 <= snd l < 2 ^ 63 ->
  PyFloat.nonneg (line_amount db l) = true.
Proof.
  intros Hp Hq; unfold line_amount.
  destruct (Sql.dish_by_id (fst l) db) as [r|] eqn:E; [|reflexivity].
  apply dish_by_id_in in E; destruct E as [Hin _].
  destruct (Hp r Hin) as [Hn Hf].
  apply mul_nonneg; auto using to_float_nonneg.
  apply is_finite_spec, to_float_finite; exact Hq.
Qed.

Lemma fold_amounts_nonneg db items : forall sub,
  prices_ok db -> Forall (fun l => 0 <= snd l < 2 ^ 63) items ->
  PyFloat.nonneg sub = true ->
  PyFloat.nonneg
    (fold_left (fun acc l => (acc + line_amount db l)%float) items sub) = true.
Proof.
  induction items as [|l rest IH]; intros sub Hp Hall Hs; [exact Hs|].
  inversion Hall; subst; cbn [fold_left].
  apply IH; auto.
  apply add_nonneg; auto using line_amount_nonneg.
Qed.

Lemma line_ok_quantity db items :
  Forall (line_ok db) items -> Forall (fun l => 0 <= snd l < 2 ^ 63) items.
Proof.
  intros H; eapply Forall_impl; [|exact H].
  intros l (Hq & _); lia.
Qed.

Lemma raw_subtotal_nonneg db items :
  prices_ok db -> Forall (line_ok db) items ->
  PyFloat.nonneg (raw_subtotal db items) = true.
Proof.
  intros Hp Hall; unfold raw_subtotal; apply fold_amounts_nonneg.
  - exact Hp.
  - apply (line_ok_quantity Hall).
  - reflexivity.
Qed.

Lemma mul_vatRate_nonneg x :
  PyFloat.nonneg x = true -> PyFloat.nonneg (x * vatRate) = true.
Proof.
  rewrite !nonneg_spec, mul_spec; intros H.
  assert (Hv : exists m e, Prim2SF vatRate = S754_finite false m e)
    by (vm_compute; eauto).
  destruct Hv as (m & e & ->); apply SFmul_nonneg_finite; exact H.
Qed.

Lemma item_ok_of_line db dish_map l :
  prices_ok db -> dish_map_ok db dish_map -> line_ok db l ->
  dict_get (fst l) dish_map <> None ->
  item_ok dish_map (menu_inventory db) l.
Proof.
  intros Hp Hok (Hq & Hd & _ & _) Hget.
  destruct (dict_get (fst l) dish_map) as [d|] eqn:E; [|congruence].
  destruct (Hok _ _ E) as (r & Hr & ->).
  apply dish_by_id_in in Hr; destruct Hr as [Hin Hid].
  destruct (Hp r Hin) as [Hn Hf].
  exists (mk_dish_info (dish_name r) (dish_price r)); repeat split;
    try lia; auto.
  - cbn [info_price]; apply nonneg_not_nan, round2_nonneg, mul_nonneg; auto.
    + apply to_float_nonneg; lia.
    + apply is_finite_spec, to_float_finite; lia.
  - apply existsb_exists; exists r; split; [exact Hin|apply Z.eqb_eq; exact Hid].
Qed.

(** The statements of the transaction after the order row is inserted. *)
Lemma order_body_ok id dish_map menu ords items needs c :
  closed c = false -> writes_left c = None ->
  menu_inventory (work c) = menu -> orders (work c) = ords ->
  existsb (fun r => order_row_id r =? id) ords = true ->
  Forall (item_ok dish_map menu) items ->
  Forall covered needs ->
  exists c', (insert_items id items dish_map ;;;
              subtract_stock needs ;;;
              ret (R := result) id) c = (Val id, c')
             /\ closed c' = false.
Proof.
  intros Hc Hw Hm Ho Hid Hitems Hneeds.
  destruct (@insert_items_ok id dish_map menu ords items c Hc Hw Hm Ho Hid Hitems)
    as (c1 & Hi & Hc1 & Hw1).
  destruct (@subtract_stock_ok needs c1 Hc1 Hw1 Hneeds) as (c2 & Hs & Hc2).
  exists c2; split; [|exact Hc2].
  unfold bind; rewrite Hi, Hs; reflexivity.
Qed.

(** A basket of acceptable lines whose needs the stock covers is accepted
    when the storage does not fail and the prices are numbers. *)
Lemma create_order_accepts now db items :
  prices_ok db -> Forall (line_ok db) items -> sufficient db items ->
  exists id db',
    call None db (create_order now items) = (Returned true (Order_id id), db').
Proof.
  intros Hp Hall Hsuf.
  rewrite create_order_call; cbv zeta.
  set (c := get_connection None db).
  destruct (@validate_items_ok items [] 0%float c eq_refl Hall) as (dm & sub & Hv).
  pose proof (@validate_items_val items [] 0%float c dm sub c Hv) as Hval.
  destruct Hval as (_ & Hsub & Hok & _ & Hlines); [intros k info; discriminate|].
  change (work c) with db in Hsub, Hok, Hlines.
  fold (raw_subtotal db items) in Hsub.
  unfold create_order_try, bind at 1; rewrite Hv; cbn [fst snd].
  unfold bind at 1; rewrite accumulate_needs_ok by (auto; reflexivity).
  change (work c) with db; fold (order_needs db items).
  unfold bind at 1; rewrite check_stock_ok by exact Hsuf.
  pose proof (raw_subtotal_nonneg Hp Hall) as Hs; rewrite <- Hsub in Hs.
  pose proof (@round2_nonneg _ Hs) as Hs2.
  pose proof (@round2_nonneg _ (@mul_vatRate_nonneg _ Hs)) as Hvat.
  pose proof (@round2_nonneg _ (@add_nonneg _ _ Hs Hvat)) as Htot.
  apply nonneg_not_nan in Hs2, Hvat, Htot.
  unfold bind at 1, with_conn.
  unfold bind at 1, execute; cbn [c get_connection closed writes_left work disk].
  unfold Sql.insert_order; rewrite Hs2, Hvat, Htot.
  change (is_nan vatRate) with false; cbn [orb].
  match goal with
  | |- context [(insert_items ?id items dm ;;; ?k) ?cc] =>
      destruct (@order_body_ok id dm (menu_inventory db)
                  (orders db ++ [mk_order id now (PyFloat.round2 sub) vatRate
                                   (PyFloat.round2 (sub * vatRate))
                                   (PyFloat.round2
                                      (sub + PyFloat.round2 (sub * vatRate)))])
                  items (order_needs db items) cc)
        as (c2 & Hb & Hc2); try reflexivity; try exact Hsuf
  end.
  { rewrite existsb_app; cbn [existsb order_row_id].
    rewrite Z.eqb_refl, orb_true_r; reflexivity. }
  { clear - Hp Hok Hall Hlines.
    induction items as [|l rest IH]; constructor;
      inversion Hall; subst; inversion Hlines as [|? ? (_ & _ & _ & _ & Hg) ?]; subst.
    - apply (item_ok_of_line Hp Hok); assumption.
    - apply IH; assumption. }
  rewrite Hb; unfold commit; rewrite Hc2.
  eexists _, _; reflexivity.
Qed.

(* ================================================================== *)
(** * The amounts of an order *)
(* ================================================================== *)

(** C3, as the code has it.  When [create_order] returns
    [True, order_id], the order row it has committed carries
    - [subtotal = round(s, 2)], where [s] is the sum over the basket lines, in
      basket order, of price times quantity,
    - [vat_rate = 0.21] and [vat_amount = round(s * 0.21, 2)],
    - [total = round(s + vat_amount, 2)]: the total is rounded from the
      subtotal that is not rounded yet, not from [round(s, 2)];
    and the call does return [True, order_id] for every basket of acceptable
    lines whose needs the stock covers, when the prices on the menu are
    finite numbers that are not negative and the storage does not fail. *)
Theorem order_amounts (faults : option nat) (now : string) (db : database)
        (items : list line) :
  (forall id db',
     call faults db (create_order now items) = (Returned true (Order_id id), db') ->
     let s := raw_subtotal db items in
     exists o, In o (orders db') /\ order_row_id o = id
               /\ subtotal o = PyFloat.round2 s
               /\ vat_rate o = 0.21%float
               /\ vat_amount o = PyFloat.round2 (s * 0.21)%float
               /\ total o = PyFloat.round2 (s + vat_amount o)%float)
  /\ (prices_ok db -> Forall (line_ok db) items -> sufficient db items ->
      exists id db',
        call None db (create_order now items) = (Returned true (Order_id id), db')).
Proof.
  split; [|apply create_order_accepts].
  intros id db'; rewrite create_order_call; cbv zeta.
  destruct (create_order_try now items (get_connection faults db))
    as [[[ok m]|[ok m]|e] c'] eqn:Htry; intros H; [| |discriminate H];
    injection H as -> -> <-.
  - destruct (create_order_try_cases _ _ _ Htry) as [[id' H]|[_ [[m H]|[e H]]]];
      discriminate H.
  - apply create_order_try_success in Htry; cbv zeta in Htry.
    cbn [get_connection work] in Htry.
    destruct Htry as (_ & _ & _ & Hor & _).
    eexists; split; [rewrite Hor; apply in_or_app; right; left; reflexivity|].
    repeat split.
Qed.

Lemma order_amounts_witness :
  exists id db',
    call None tea_room (create_order "2024-05-01 12:00:00" [(1, 1)])
    = (Returned true (Order_id id), db').
Proof.
  apply (proj2 (order_amounts None "2024-05-01 12:00:00" tea_room [(1, 1)])).
  - intros r H; vm_compute in H.
    destruct H as [<-|[]]; split; reflexivity.
  - repeat constructor; cbn; try lia; discriminate.
  - unfold sufficient; vm_compute.
    repeat constructor; eexists; split; reflexivity.
Defined.

(** C3, as stated, fails: one cup at 0.045.  The committed total is
    0.06, the rounding of [0.045 + 0.01]; the claimed
    [round(round(subtotal, 2) + round(subtotal * 0.21, 2), 2)] is 0.05. *)
Lemma order_total_not_from_rounded_subtotal :
  let s := raw_subtotal tea_room [(1, 1)] in
  exists o,
    orders (after (create_order "2024-05-01 12:00:00" [(1, 1)]) tea_room) = [o]
    /\ (total o
        =? PyFloat.round2 (PyFloat.round2 s + PyFloat.round2 (s * 0.21)))%float
       = false
    /\ (total o =? 0.06)%float = true
    /\ (PyFloat.round2 (PyFloat.round2 s + PyFloat.round2 (s * 0.21)) =? 0.05)%float
       = true.
Proof.
  cbv zeta; eexists; split; [vm_compute; reflexivity|].
  repeat split; vm_compute; reflexivity.
Qed.

(* ================================================================== *)
(** * The stock after an order *)
(* ================================================================== *)

Lemma dict_get_in {V} k (v : V) d : dict_get k d = Some v -> In (k, v) d.
Proof.
  induction d as [|[k' v'] d IH]; cbn; [discriminate|].
  destruct (k' =? k) eqn:E.
  - apply Z.eqb_eq in E; subst; intros H; injection H as ->; left; reflexivity.
  - intros H; right; apply IH; exact H.
Qed.

Lemma dict_get_none {V} k (d : dict V) :
  dict_get k d = None <-> ~ In k (map fst d).
Proof.
  induction d as [|[k' v'] d IH]; cbn; [tauto|].
  destruct (k' =? k) eqn:E.
  - apply Z.eqb_eq in E; split; [discriminate|intros H; exfalso; apply H; auto].
  - apply Z.eqb_neq in E; rewrite IH; tauto.
Qed.

Lemma dict_set_in {V} k (v : V) d kv :
  In kv (dict_set k v d) -> kv = (k, v) \/ In kv d.
Proof.
  induction d as [|[k' v'] d IH]; cbn.
  - intros [<-|[]]; auto.
  - destruct (k' =? k); cbn; intros [<-|H]; auto.
    destruct (IH H); auto.
Qed.

Lemma dict_set_keys {V} k (v : V) d x :
  In x (map fst (dict_set k v d)) <-> x = k \/ In x (map fst d).
Proof.
  induction d as [|[k' v'] d IH]; cbn; [intuition|].
  destruct (k' =? k) eqn:E; cbn.
  - apply Z.eqb_eq in E; subst; intuition.
  - rewrite IH; intuition.
Qed.

Lemma dict_set_nodup {V} k (v : V) d :
  NoDup (map fst d) -> NoDup (map fst (dict_set k v d)).
Proof.
  induction d as [|[k' v'] d IH]; cbn; intros H.
  - constructor; [intros []|constructor].
  - apply NoDup_cons_iff in H; destruct H as [Hn Hd].
    destruct (k' =? k) eqn:E; cbn.
    + apply Z.eqb_eq in E; subst; constructor; assumption.
    + apply Z.eqb_neq in E; constructor; [|apply IH; assumption].
      rewrite dict_set_keys; intros [->|H]; [congruence|contradiction].
Qed.

(** The keys of [needs] are distinct. *)
Lemma needs_after_rows_nodup rows qty : forall needs,
  NoDup (map fst needs) -> NoDup (map fst (needs_after_rows rows qty needs)).
Proof.
  induction rows as [|r rest IH]; intros needs H; [exact H|].
  cbn [needs_after_rows]; apply IH.
  destruct (dict_get (j_ingredient_id r) needs); apply dict_set_nodup; exact H.
Qed.

Lemma needs_after_items_nodup db items : forall needs,
  NoDup (map fst needs) -> NoDup (map fst (needs_after_items db items needs)).
Proof.
  induction items as [|[d q] rest IH]; intros needs H; [exact H|].
  cbn [needs_after_items]; apply IH, needs_after_rows_nodup; exact H.
Qed.

Lemma order_needs_nodup db items : NoDup (map fst (order_needs db items)).
Proof. apply needs_after_items_nodup; constructor. Qed.

(** A property of every entry of [needs] that the loops establish. *)
Lemma needs_after_rows_forall (P : Z * need -> Prop) rows qty :
  (forall r, In r rows ->
     P (j_ingredient_id r,
        mk_need (j_ingredient_name r) (j_unit r)
                (j_quantity_needed r * PyFloat.to_float qty)%float
                (j_quantity_in_stock r))) ->
  (forall r info, In r rows -> P (j_ingredient_id r, info) ->
     P (j_ingredient_id r,
        mk_need (need_name info) (need_unit info)
                (needed info + j_quantity_needed r * PyFloat.to_float qty)%float
                (need_stock info))) ->
  forall needs, (forall kv, In kv needs -> P kv) ->
    forall kv, In kv (needs_after_rows rows qty needs) -> P kv.
Proof.
  induction rows as [|r rest IH]; intros Hnew Hadd needs Hn; [exact Hn|].
  cbn [needs_after_rows]; apply IH.
  - intros r0 H0; apply Hnew; right; exact H0.
  - intros r0 info H0; apply Hadd; right; exact H0.
  - intros kv Hkv.
    destruct (dict_get (j_ingredient_id r) needs) as [info|] eqn:E;
      apply dict_set_in in Hkv; destruct Hkv as [->|Hkv]; auto.
    + apply Hadd; [left; reflexivity|].
      apply Hn, dict_get_in; exact E.
    + apply Hnew; left; reflexivity.
Qed.

(** The rows of the join come from a recipe row and the stock row of its
    ingredient. *)
Lemma recipe_join_in db r :
  In r (recipe_join db) ->
  exists di si, In di (dish_ingredients db) /\ In si (stock_inventory db)
                /\ stock_id si = ingredient_id di
                /\ j_menu_id r = menu_id di
                /\ j_ingredient_id r = ingredient_id di
                /\ j_quantity_needed r = quantity_needed di
                /\ j_ingredient_name r = ingredient_name si
                /\ j_quantity_in_stock r = quantity_in_stock si
                /\ j_unit r = stock_unit si.
Proof.
  unfold recipe_join; intros H.
  apply in_flat_map in H; destruct H as (di & Hdi & H).
  apply in_map_iff in H; destruct H as (si & <- & Hsi).
  apply filter_In in Hsi; destruct Hsi as [Hsi Hid]; apply Z.eqb_eq in Hid.
  exists di, si; cbn; repeat split; auto.
Qed.

Lemma recipe_of_in dish db r :
  In r (recipe_of dish db) -> In r (recipe_join db) /\ j_menu_id r = dish.
Proof.
  unfold recipe_of; intros H; apply filter_In in H.
  destruct H as [H Hid]; apply Z.eqb_eq in Hid; auto.
Qed.

Lemma decrement_spec needs : forall stock,
  NoDup (map fst needs) ->
  decrement needs stock
  = map (fun r => match dict_get (stock_id r) needs with
                  | Some info => mk_stock (stock_id r) (ingredient_name r)
                                          (new_quantity info) (stock_unit r)
                  | None => r
                  end) stock.
Proof.
  induction needs as [|[k v] rest IH]; intros stock Hnd.
  - cbn; rewrite map_id; reflexivity.
  - cbn in Hnd; apply NoDup_cons_iff in Hnd; destruct Hnd as [Hk Hnd].
    unfold decrement in *; cbn [fold_left fst snd].
    rewrite IH by exact Hnd; rewrite map_map.
    apply map_ext; intros r; cbn [dict_get].
    rewrite (Z.eqb_sym k).
    destruct (stock_id r =? k) eqn:E; [|reflexivity].
    apply Z.eqb_eq in E; cbn [stock_id]; rewrite E.
    rewrite (proj2 (dict_get_none k rest) Hk); reflexivity.
Qed.

(** A finite float minus itself is [0.0]. *)
Lemma sub_self (x : float) : is_finite x = true -> (x - x)%float = 0%float.
Proof.
  rewrite is_finite_spec; intros Hf.
  apply Prim2SF_inj; rewrite sub_spec.
  change (Prim2SF 0) with (S754_zero false).
  destruct (Prim2SF x) as [s|s| |s m e]; cbn in Hf; try contradiction.
  - destruct s; reflexivity.
  - unfold SF64sub, SFsub; rewrite Z.sub_diag; reflexivity.
Qed.

Lemma nodup_key_eq {A} (f : A -> Z) l a b :
  NoDup (map f l) -> In a l -> In b l -> f a = f b -> a = b.
Proof.
  induction l as [|x l IH]; cbn; [intros _ []|].
  intros Hnd Ha Hb E; apply NoDup_cons_iff in Hnd; destruct Hnd as [Hx Hnd].
  destruct Ha as [->|Ha], Hb as [->|Hb]; auto.
  - exfalso; apply Hx; rewrite E; apply in_map; exact Hb.
  - exfalso; apply Hx; rewrite <- E; apply in_map; exact Ha.
Qed.

(* ================================================================== *)
(** * The needs of a basket and the sufficiency check *)
(* ================================================================== *)

Lemma add_to_none xs : add_to None xs = sum_of xs.
Proof.
  destruct xs as [|x rest]; [reflexivity|].
  unfold add_to, sum_of; cbn [fold_left].
  revert x; induction rest as [|y rest IH]; intros x; [reflexivity|].
  cbn [fold_left]; apply IH.
Qed.

Lemma add_to_app acc xs ys : add_to acc (xs ++ ys) = add_to (add_to acc xs) ys.
Proof. unfold add_to; apply fold_left_app. Qed.

Lemma needs_after_rows_need iid qty rows : forall needs,
  option_map needed (dict_get iid (needs_after_rows rows qty needs))
  = add_to (option_map needed (dict_get iid needs))
           (map (fun r => (j_quantity_needed r * PyFloat.to_float qty)%float)
                (filter (fun r => j_ingredient_id r =? iid) rows)).
Proof.
  induction rows as [|r rest IH]; intros needs; [reflexivity|].
  cbn [needs_after_rows filter]; rewrite IH.
  destruct (j_ingredient_id r =? iid) eqn:E.
  - apply Z.eqb_eq in E; subst iid; cbn [map add_to fold_left].
    destruct (dict_get (j_ingredient_id r) needs) as [info|];
      rewrite dict_get_set_same; reflexivity.
  - apply Z.eqb_neq in E.
    destruct (dict_get (j_ingredient_id r) needs) as [info|];
      rewrite dict_get_set_other by exact E; reflexivity.
Qed.

Lemma needs_after_items_need db iid items : forall needs,
  option_map needed (dict_get iid (needs_after_items db items needs))
  = add_to (option_map needed (dict_get iid needs)) (contributions db items iid).
Proof.
  induction items as [|[d q] rest IH]; intros needs; [reflexivity|].
  cbn [needs_after_items]; rewrite IH, needs_after_rows_need.
  unfold contributions; cbn [flat_map fst snd]; rewrite add_to_app; reflexivity.
Qed.

(** The needs [create_order] accumulates are the aggregated needs. *)
Lemma order_needs_aggregated db items iid :
  option_map needed (dict_get iid (order_needs db items))
  = aggregated_need db items iid.
Proof.
  unfold order_needs, aggregated_need.
  rewrite needs_after_items_need; apply add_to_none.
Qed.

Lemma needs_after_items_from db items : forall needs,
  (forall kv, In kv needs -> need_from db kv) ->
  forall kv, In kv (needs_after_items db items needs) -> need_from db kv.
Proof.
  induction items as [|[d q] rest IH]; intros needs Hn; [exact Hn|].
  cbn [needs_after_items]; apply IH.
  apply needs_after_rows_forall; auto.
  intros r H; apply recipe_of_in in H; destruct H as [H _].
  apply recipe_join_in in H.
  destruct H as (di & si & _ & Hsi & Hid & _ & -> & _ & Hn1 & Hs1 & Hu1).
  exists si; cbn; auto.
Qed.

Lemma order_needs_from db items :
  forall kv, In kv (order_needs db items) -> need_from db kv.
Proof. apply needs_after_items_from; intros kv []. Qed.

(** ** The exceptions of the transaction *)

Lemma raises_errors_mul_int {R} x n : raises_errors (mul_int (R := R) x n).
Proof.
  intros c e c'; unfold mul_int.
  destruct (PyFloat.of_int n); [discriminate|].
  intros H; injection H as <- _; eauto.
Qed.

Lemma insert_order_errors now sub rate vat tot db e :
  Sql.insert_order now sub rate vat tot db = inl e -> exists k, e = Raised k.
Proof.
  unfold Sql.insert_order, Sql.integrity.
  destruct (is_nan sub || is_nan rate || is_nan vat || is_nan tot);
    [intros H; injection H as <-; eauto|discriminate].
Qed.

Lemma insert_item_errors order dish qty price db e :
  Sql.insert_item order dish qty price db = inl e -> exists k, e = Raised k.
Proof.
  unfold Sql.insert_item, Sql.integrity, Sql.overflow.
  repeat match goal with
         | |- (if ?b then _ else _) = _ -> _ =>
             destruct b; [intros H; injection H as <-; eauto|]
         end.
  discriminate.
Qed.

Lemma raises_errors_insert_items id items dish_map :
  raises_errors (insert_items id items dish_map).
Proof.
  induction items as [|[d q] rest IH]; cbn [insert_items];
    [apply raises_errors_ret|].
  destruct (dict_get d dish_map) as [info|].
  - apply raises_errors_bind; [apply raises_errors_mul_int|intros p].
    apply raises_errors_bind; [|intros _; exact IH].
    apply raises_errors_execute; intros db e; apply insert_item_errors.
  - intros c e c' H; injection H as <- _; eauto.
Qed.

Lemma raises_errors_subtract_stock needs : raises_errors (subtract_stock needs).
Proof.
  induction needs as [|[iid info] rest IH]; cbn [subtract_stock];
    [apply raises_errors_ret|].
  destruct (need_stock info) as [stock|].
  - apply raises_errors_bind; [|intros _; exact IH].
    apply raises_errors_execute; intros db e; discriminate.
  - intros c e c' H; injection H as <- _; eauto.
Qed.

Lemma raises_errors_with_conn {R A} (body : M R A) :
  raises_errors body -> raises_errors (with_conn body).
Proof.
  intros Hb c e c'; unfold with_conn, rollback, commit.
  pose proof (Hb c) as Hbc.
  destruct (body c) as [[a|r|e0] c0]; destruct (closed c0);
    intros H; try discriminate H; injection H as <- _; eauto.
Qed.

Lemma raises_errors_order_transaction now sub vat tot items dish_map needs :
  raises_errors
    (with_conn
       (order_id <- execute (Sql.insert_order now sub vatRate vat tot) ;;
        insert_items order_id items dish_map ;;;
        subtract_stock needs ;;;
        ret (R := result) order_id)).
Proof.
  apply raises_errors_with_conn, raises_errors_bind.
  - apply raises_errors_execute; intros db e; apply insert_order_errors.
  - intros id; apply raises_errors_bind; [apply raises_errors_insert_items|].
    intros _; apply raises_errors_bind; [apply raises_errors_subtract_stock|].
    intros _; apply raises_errors_ret.
Qed.

Lemma dict_get_of_in {V} k (v : V) d :
  NoDup (map fst d) -> In (k, v) d -> dict_get k d = Some v.
Proof.
  induction d as [|[k' v'] d IH]; cbn; [intros _ []|].
  intros Hnd Hin; apply NoDup_cons_iff in Hnd; destruct Hnd as [Hk Hnd].
  destruct Hin as [H|Hin].
  - injection H as -> ->; rewrite Z.eqb_refl; reflexivity.
  - destruct (k' =? k) eqn:E; [|apply IH; assumption].
    apply Z.eqb_eq in E; subst k'; exfalso; apply Hk.
    change k with (fst (k, v)); apply in_map; exact Hin.
Qed.

(** ** Lines that pass the first two loops *)

Lemma line_ok_passes db l : line_ok db l -> line_passes db l.
Proof.
  intros (Hq & Hd & Hm & Hr); repeat split; auto; try lia.
  rewrite of_int_small by lia; discriminate.
Qed.

Lemma mul_int_passes {R} x n c :
  PyFloat.of_int n <> None ->
  mul_int (R := R) x n c = (Val (x * PyFloat.to_float n)%float, c).
Proof.
  intros Hn; unfold mul_int.
  destruct (PyFloat.of_int n) as [y|] eqn:E; [|congruence].
  rewrite (of_int_some _ E); reflexivity.
Qed.

(** The first loop falls through on lines that pass. *)
Lemma validate_items_passes items : forall dish_map sub c,
  closed c = false ->
  Forall (line_passes (work c)) items ->
  exists dish_map' sub',
    validate_items items dish_map sub c = (Val (dish_map', sub'), c).
Proof.
  induction items as [|[d q] rest IH]; intros dish_map sub c Hc Hall.
  - exists dish_map, sub; reflexivity.
  - inversion Hall as [|? ? (Hq & Hf & Hd & Hr & _) Hrest]; subst;
      cbn [fst snd] in *.
    cbn [validate_items].
    destruct (q <=? 0) eqn:E; [apply Z.leb_le in E; lia|].
    unfold bind at 1, query_int; rewrite Hc, Hd.
    destruct (Sql.dish_by_id d (work c)) as [r|]; [|congruence].
    unfold bind at 1; rewrite mul_int_passes by exact Hf.
    apply IH; assumption.
Qed.

Lemma add_needs_passes rows qty : forall needs c,
  PyFloat.of_int qty <> None ->
  add_needs rows qty needs c = (Val (needs_after_rows rows qty needs), c).
Proof.
  induction rows as [|r rest IH]; intros needs c Hq; [reflexivity|].
  cbn [add_needs needs_after_rows].
  unfold bind at 1; rewrite mul_int_passes by exact Hq.
  apply IH; exact Hq.
Qed.

(** The second loop falls through on lines that pass. *)
Lemma accumulate_needs_passes items dish_map : forall needs c,
  closed c = false ->
  Forall (line_passes (work c)) items ->
  accumulate_needs items dish_map needs c
  = (Val (needs_after_items (work c) items needs), c).
Proof.
  induction items as [|[d q] rest IH]; intros needs c Hc Hall; [reflexivity|].
  inversion Hall as [|? ? (Hq & Hf & Hd & _ & Hrec) Hrest]; subst;
    cbn [fst snd] in *.
  cbn [accumulate_needs needs_after_items].
  unfold bind at 1, query_int; rewrite Hc, Hd.
  destruct (recipe_of d (work c)) as [|r0 rows] eqn:E; [congruence|].
  unfold bind at 1; rewrite add_needs_passes by exact Hf.
  apply IH; assumption.
Qed.

(** ** The order of the dictionary [needs] *)

Lemma dict_set_key_order {V} k (v : V) d :
  map fst (dict_set k v d) = see (map fst d) k.
Proof.
  unfold see; induction d as [|[k' v'] d IH]; [reflexivity|].
  cbn [dict_set map fst existsb]; rewrite (Z.eqb_sym k k').
  destruct (k' =? k) eqn:E; cbn [orb].
  - apply Z.eqb_eq in E; subst k'; reflexivity.
  - cbn [map fst]; rewrite IH.
    destruct (existsb (Z.eqb k) (map fst d)); reflexivity.
Qed.

Lemma needs_after_rows_keys rows qty : forall needs,
  map fst (needs_after_rows rows qty needs)
  = fold_left see (map j_ingredient_id rows) (map fst needs).
Proof.
  induction rows as [|r rest IH]; intros needs; [reflexivity|].
  cbn [needs_after_rows map fold_left]; rewrite IH.
  destruct (dict_get (j_ingredient_id r) needs); rewrite dict_set_key_order;
    reflexivity.
Qed.

Lemma needs_after_items_keys db items : forall needs,
  map fst (needs_after_items db items needs)
  = fold_left see
      (flat_map (fun l : line => map j_ingredient_id (recipe_of (fst l) db)) items)
      (map fst needs).
Proof.
  induction items as [|[d q] rest IH]; intros needs; [reflexivity|].
  cbn [needs_after_items flat_map fst]; rewrite IH, fold_left_app.
  rewrite needs_after_rows_keys; reflexivity.
Qed.

(** The entries of [needs] are in the order in which the recipe rows first
    name the ingredients. *)
Lemma order_needs_keys db items :
  map fst (order_needs db items) = needed_ids db items.
Proof. apply needs_after_items_keys. Qed.

(** ** The sufficiency check *)

(** The check passes over the needs that are covered. *)
Lemma check_stock_skip pre rest c :
  Forall covered pre -> check_stock (pre ++ rest) c = check_stock rest c.
Proof.
  induction 1 as [|[iid info] pre' (stock & Hs & Hlt) _ IH]; [reflexivity|].
  cbn [app check_stock]; cbn [snd] in Hs, Hlt; rewrite Hs, Hlt; exact IH.
Qed.

(** It stops at the first need that is not covered: with the
    insufficient-stock message if the stock is below the need, with a
    [TypeError] if the stock is NULL. *)
Lemma check_stock_stops pre kv post c :
  Forall covered pre ->
  check_stock (pre ++ kv :: post) c
  = match need_stock (snd kv) with
    | Some have =>
        if (have <? needed (snd kv))%float
        then (Ret (false, Not_enough (need_name (snd kv)) (needed (snd kv))
                                     (need_unit (snd kv)) (Some have)), c)
        else check_stock post c
    | None => (Exc (Raised TypeError), c)
    end.
Proof.
  intros Hpre; rewrite check_stock_skip by exact Hpre.
  destruct kv as [iid info]; cbn [check_stock snd].
  destruct (need_stock info) as [have|]; [|reflexivity].
  destruct (have <? needed info)%float; reflexivity.
Qed.

(** Every need is covered, or there is a first one that is not. *)
Lemma first_uncovered needs :
  Forall covered needs
  \/ exists pre kv post,
       needs = pre ++ kv :: post /\ Forall covered pre
       /\ (need_stock (snd kv) = None \/ exists have, falls_short kv have).
Proof.
  induction needs as [|[iid info] rest IH]; [left; constructor|].
  destruct (need_stock info) as [have|] eqn:Hs.
  - destruct (have <? needed info)%float eqn:Hlt.
    + right; exists [], (iid, info), rest; split; [reflexivity|].
      split; [constructor|right; exists have; split; assumption].
    + assert (Hc : covered (iid, info)) by (exists have; auto).
      destruct IH as [Hall|(pre & kv & post & -> & Hpre & Hkv)].
      * left; constructor; assumption.
      * right; exists ((iid, info) :: pre), kv, post; split; [reflexivity|].
        split; [constructor; assumption|exact Hkv].
  - right; exists [], (iid, info), rest; split; [reflexivity|].
    split; [constructor|left; exact Hs].
Qed.

(** ** The call, for a basket whose lines pass *)

(** After the first two loops, the call is the sufficiency check on the
    needs of the basket, followed by the transaction. *)
Lemma create_order_try_passes faults now db items :
  Forall (line_passes db) items ->
  let c := get_connection faults db in
  exists dm sub,
    create_order_try now items c
    = (check_stock (order_needs db items) ;;;
       order_id <- with_conn
         (order_id <- execute (Sql.insert_order now (PyFloat.round2 sub)
                                 vatRate (PyFloat.round2 (sub * vatRate))
                                 (PyFloat.round2
                                    (sub + PyFloat.round2 (sub * vatRate)))) ;;
          insert_items order_id items dm ;;;
          subtract_stock (order_needs db items) ;;;
          ret order_id) ;;
       return_ (true, Order_id order_id)) c.
Proof.
  intros Hall c.
  destruct (@validate_items_passes items [] 0%float c eq_refl Hall)
    as (dm & sub & Hv).
  exists dm, sub.
  unfold create_order_try, bind at 1; rewrite Hv; cbn [fst snd].
  unfold bind at 1; rewrite accumulate_needs_passes by (auto; reflexivity).
  reflexivity.
Qed.

(** The call stops at the first need that is not covered. *)
Lemma create_order_stops faults now db items pre kv post :
  Forall (line_passes db) items ->
  order_needs db items = pre ++ kv :: post -> Forall covered pre ->
  match need_stock (snd kv) with
  | Some have =>
      (have <? needed (snd kv))%float = true ->
      call faults db (create_order now items)
      = (Returned false (Not_enough (need_name (snd kv)) (needed (snd kv))
                                    (need_unit (snd kv)) (Some have)), db)
  | None =>
      call faults db (create_order now items)
      = (Returned false (Exception_text TypeError), db)
  end.
Proof.
  intros Hall Hsplit Hpre.
  destruct (@create_order_try_passes faults now db items Hall) as (dm & sub & Htry).
  cbv zeta in Htry.
  assert (Hrun : check_stock (order_needs db items) (get_connection faults db)
                 = match need_stock (snd kv) with
                   | Some have =>
                       if (have <? needed (snd kv))%float
                       then (Ret (false, Not_enough (need_name (snd kv))
                                           (needed (snd kv)) (need_unit (snd kv))
                                           (Some have)),
                             get_connection faults db)
                       else check_stock post (get_connection faults db)
                   | None => (Exc (Raised TypeError), get_connection faults db)
                   end)
    by (rewrite Hsplit; apply check_stock_stops; exact Hpre).
  destruct (need_stock (snd kv)) as [have|]; [intros Hlt; rewrite Hlt in Hrun|];
    rewrite create_order_call; cbv zeta; rewrite Htry;
    unfold bind at 1; rewrite Hrun; reflexivity.
Qed.

(** When every need is covered, the call does not fail with the
    insufficient-stock message. *)
Lemma create_order_covered faults now db items :
  Forall (line_passes db) items -> sufficient db items ->
  forall name n u h,
    fst (call faults db (create_order now items))
    <> Returned false (Not_enough name n u h).
Proof.
  intros Hall Hcov name n u h.
  destruct (@create_order_try_passes faults now db items Hall) as (dm & sub & Htry).
  cbv zeta in Htry.
  rewrite create_order_call; cbv zeta; rewrite Htry; clear Htry.
  set (c := get_connection faults db).
  unfold bind at 1; rewrite check_stock_ok by exact Hcov.
  unfold bind at 1.
  pose proof (@raises_errors_order_transaction now (PyFloat.round2 sub)
                (PyFloat.round2 (sub * vatRate))
                (PyFloat.round2 (sub + PyFloat.round2 (sub * vatRate)))
                items dm (order_needs db items) c) as Hr.
  destruct (order_transaction_cases now (PyFloat.round2 sub)
              (PyFloat.round2 (sub * vatRate))
              (PyFloat.round2 (sub + PyFloat.round2 (sub * vatRate)))
              items dm (order_needs db items) c)
    as [(e & c4 & Hw & _)|(id & c4 & _ & _ & Hw)]; rewrite Hw in *.
  - destruct (Hr _ _ eq_refl) as [k ->]; cbn; discriminate.
  - cbn; discriminate.
Qed.

(** ** Baskets with a quantity that is not positive *)

(** The first loop does not fall through when some quantity is not
    positive, and it ends with none of the messages of the later loops. *)
Lemma validate_items_rejects items : forall dish_map sub c,
  Exists (fun l : line => snd l <= 0) items ->
  match validate_items items dish_map sub c with
  | (Val _, _) => False
  | (Ret (_, m), _) =>
      m = Quantity_must_be_ge_1 \/ exists d, m = Dish_id_not_found d
  | (Exc e, _) => exists k, e = Raised k
  end.
Proof.
  induction items as [|[d q] rest IH]; intros dish_map sub c Hex;
    [inversion Hex|].
  cbn [validate_items].
  destruct (q <=? 0) eqn:E; [left; reflexivity|].
  assert (Hrest : Exists (fun l : line => snd l <= 0) rest).
  { inversion Hex as [? ? H|? ? H]; subst; [|exact H].
    cbn [snd] in H; apply Z.leb_gt in E; lia. }
  unfold bind at 1, query_int.
  destruct (closed c); [eauto|].
  destruct (sql_int d); [|eauto].
  destruct (Sql.dish_by_id d (work c)) as [r|]; [|right; eauto].
  unfold bind at 1, mul_int.
  destruct (PyFloat.of_int q); [|cbn; eauto].
  cbn [ret]; apply IH; exact Hrest.
Qed.

Lemma create_order_quantity faults now db items :
  Exists (fun l : line => snd l <= 0) items ->
  forall name n u h,
    fst (call faults db (create_order now items))
    <> Returned false (Not_enough name n u h).
Proof.
  intros Hex name n u h.
  rewrite create_order_call; cbv zeta.
  unfold create_order_try, bind at 1.
  pose proof (@validate_items_rejects items [] 0%float
                (get_connection faults db) Hex) as H.
  destruct (validate_items items [] 0%float (get_connection faults db))
    as [[v|[ok m]|e] c1]; [contradiction| |].
  - cbn [fst]; destruct H as [->|[d0 ->]]; discriminate.
  - destruct H as [k ->]; cbn; discriminate.
Qed.

(** An entry of [needs] that fails the check is a short ingredient. *)
Lemma short_of_entry db items kv have :
  In kv (order_needs db items) ->
  need_stock (snd kv) = Some have ->
  (have <? needed (snd kv))%float = true ->
  exists si, short db items si have (needed (snd kv))
             /\ need_name (snd kv) = ingredient_name si
             /\ need_unit (snd kv) = stock_unit si.
Proof.
  intros Hin Hk Hlt.
  destruct (order_needs_from _ _ _ Hin) as (si & Hsi & Hid & Hq & Hn & Hu).
  exists si; repeat split; auto; [congruence|].
  rewrite <- order_needs_aggregated, Hid.
  destruct kv as [k v]; cbn [fst snd] in *.
  rewrite (@dict_get_of_in _ _ _ _ (order_needs_nodup db items) Hin); reflexivity.
Qed.

(** A short ingredient is an entry of [needs] that fails the check. *)
Lemma entry_of_short db items si have need :
  NoDup (map stock_id (stock_inventory db)) ->
  short db items si have need ->
  exists info, In (stock_id si, info) (order_needs db items)
               /\ need_stock info = Some have /\ needed info = need.
Proof.
  intros Hnd (Hsi & Hq & Hagg & _).
  rewrite <- order_needs_aggregated in Hagg.
  destruct (dict_get (stock_id si) (order_needs db items)) as [info|] eqn:Hg;
    [|discriminate].
  injection Hagg as Hneed.
  apply dict_get_in in Hg.
  destruct (order_needs_from _ _ _ Hg) as (si' & Hsi' & Hid & Hq' & _).
  cbn [fst snd] in Hid, Hq'.
  assert (si' = si) by (eapply nodup_key_eq; eauto); subst si'.
  exists info; repeat split; auto; congruence.
Qed.

(** The stock of a needed ingredient is the stock its entry holds. *)
Lemma entry_stock db items kv :
  (forall si, In si (stock_inventory db) ->
     aggregated_need db items (stock_id si) <> None ->
     quantity_in_stock si <> None) ->
  In kv (order_needs db items) -> need_stock (snd kv) <> None.
Proof.
  intros Hnn Hin.
  destruct (order_needs_from _ _ _ Hin) as (si & Hsi & Hid & -> & _).
  apply Hnn; [exact Hsi|].
  rewrite <- order_needs_aggregated, Hid.
  destruct kv as [k v]; cbn [fst].
  rewrite (@dict_get_of_in _ _ _ _ (order_needs_nodup db items) Hin); discriminate.
Qed.

(** C2, as the code has it.  For every basket, store and storage-failure
    point:
    - a basket with a line whose quantity is not positive never fails with
      the insufficient-stock message;
    - for a basket whose lines pass the first two loops (the quantity of
      every line is at least 1 and converts to a float, the dish id is bound
      as an SQLite INTEGER, the dish exists and its recipe is not empty):
      + the second loop of [create_order] ends with the dictionary [needs]
        of the basket; the need it holds for an ingredient is the sum, in
        basket order, of recipe quantity times line quantity over all the
        lines and recipe rows that use the ingredient; its entries are in
        the order in which the recipe rows first name the ingredients, and
        every entry holds the name, the unit and the stock of a stored
        ingredient;
      + the call stops at the first entry, in that order, that is not
        covered: if the stock is strictly below the need, it fails with the
        insufficient-stock message of that ingredient, with that need and
        that stock; if the stock is NULL, it fails with the text of a
        [TypeError]; in both cases the store is left as it was;
      + if every need is covered, the call does not fail with the
        insufficient-stock message;
      + when the call fails with the insufficient-stock message, the store
        is as it was, the message is that of the first entry that is not
        covered, and it names an ingredient whose stock is strictly below
        its aggregated need, with that need and that stock;
      + when the ingredient ids are distinct and no ingredient the basket
        needs has a NULL stock, the call fails with the insufficient-stock
        message if and only if the stock of some ingredient is strictly
        below its aggregated need. *)
Theorem create_order_needs_and_shortage
        (faults : option nat) (now : string) (db : database) (items : list line) :
  let c := get_connection faults db in
  let out := call faults db (create_order now items) in
  (Exists (fun l : line => snd l <= 0) items ->
   forall name n u h, fst out <> Returned false (Not_enough name n u h))
  /\ (Forall (line_passes db) items ->
      (forall dish_map,
         accumulate_needs items dish_map [] c = (Val (order_needs db items), c))
      /\ (forall iid,
            option_map needed (dict_get iid (order_needs db items))
            = aggregated_need db items iid)
      /\ map fst (order_needs db items) = needed_ids db items
      /\ (forall kv, In kv (order_needs db items) -> need_from db kv)
      /\ (forall pre kv post,
            order_needs db items = pre ++ kv :: post -> Forall covered pre ->
            match need_stock (snd kv) with
            | Some have =>
                (have <? needed (snd kv))%float = true ->
                out = (Returned false
                         (Not_enough (need_name (snd kv)) (needed (snd kv))
                                     (need_unit (snd kv)) (Some have)), db)
            | None => out = (Returned false (Exception_text TypeError), db)
            end)
      /\ (sufficient db items ->
          forall name n u h, fst out <> Returned false (Not_enough name n u h))
      /\ (forall name n u h,
            fst out = Returned false (Not_enough name n u h) ->
            snd out = db
            /\ (exists pre kv post have,
                  order_needs db items = pre ++ kv :: post
                  /\ Forall covered pre /\ falls_short kv have
                  /\ name = need_name (snd kv) /\ n = needed (snd kv)
                  /\ u = need_unit (snd kv) /\ h = Some have)
            /\ (exists si have,
                  short db items si have n
                  /\ name = ingredient_name si /\ u = stock_unit si
                  /\ h = Some have))
      /\ (NoDup (map stock_id (stock_inventory db)) ->
          (forall si, In si (stock_inventory db) ->
             aggregated_need db items (stock_id si) <> None ->
             quantity_in_stock si <> None) ->
          ((exists name n u h, fst out = Returned false (Not_enough name n u h))
           <-> exists si have n, short db items si have n))).
Proof.
  cbv zeta; split; [apply create_order_quantity|].
  intros Hall.
  assert (Hmsg : forall name n u h,
            fst (call faults db (create_order now items))
            = Returned false (Not_enough name n u h) ->
            snd (call faults db (create_order now items)) = db
            /\ exists pre kv post have,
                 order_needs db items = pre ++ kv :: post
                 /\ Forall covered pre /\ falls_short kv have
                 /\ name = need_name (snd kv) /\ n = needed (snd kv)
                 /\ u = need_unit (snd kv) /\ h = Some have).
  { intros name n u h Hout.
    destruct (first_uncovered (order_needs db items))
      as [Hcov|(pre & kv & post & Hsplit & Hpre & Hkv)].
    - exfalso; exact (@create_order_covered faults now db items Hall Hcov _ _ _ _ Hout).
    - pose proof (@create_order_stops faults now db items pre kv post Hall Hsplit Hpre)
        as Hstop.
      destruct Hkv as [Hnone|(have & Hs & Hlt)].
      + rewrite Hnone in Hstop; rewrite Hstop in Hout; discriminate Hout.
      + rewrite Hs in Hstop; specialize (Hstop Hlt); rewrite Hstop in *.
        cbn [fst snd] in *; injection Hout as <- <- <- <-.
        split; [reflexivity|].
        exists pre, kv, post, have; repeat split; auto. }
  split; [|split; [|split; [|split; [|split; [|split; [|split]]]]]].
  - intros dish_map; apply accumulate_needs_passes; [reflexivity|exact Hall].
  - apply order_needs_aggregated.
  - apply order_needs_keys.
  - apply order_needs_from.
  - intros pre kv post; apply create_order_stops; exact Hall.
  - apply create_order_covered; exact Hall.
  - intros name n u h Hout.
    destruct (Hmsg _ _ _ _ Hout)
      as (Hdb & pre & kv & post & have & Hsplit & Hpre & [Hs Hlt] & -> & -> & -> & ->).
    split; [exact Hdb|split].
    + exists pre, kv, post, have; repeat split; auto.
    + assert (Hin : In kv (order_needs db items))
        by (rewrite Hsplit; apply in_or_app; right; left; reflexivity).
      destruct (short_of_entry _ _ _ Hin Hs Hlt) as (si & Hsh & Hn & Hu).
      exists si, have; auto.
  - intros Hnd Hnn; split.
    + intros (name & n & u & h & Hout).
      destruct (Hmsg _ _ _ _ Hout)
        as (_ & pre & kv & post & have & Hsplit & _ & [Hs Hlt] & _).
      assert (Hin : In kv (order_needs db items))
        by (rewrite Hsplit; apply in_or_app; right; left; reflexivity).
      destruct (short_of_entry _ _ _ Hin Hs Hlt) as (si & Hsh & _).
      exists si, have, (needed (snd kv)); exact Hsh.
    + intros (si & have & n & Hsh).
      destruct (first_uncovered (order_needs db items))
        as [Hcov|(pre & kv & post & Hsplit & Hpre & Hkv)].
      * exfalso.
        destruct (entry_of_short Hnd Hsh) as (info & Hin & Hs & Hn).
        pose proof (proj1 (Forall_forall _ _) Hcov _ Hin) as (s & Hs' & Hlt).
        cbn [snd] in Hs', Hlt.
        destruct Hsh as (_ & _ & _ & Hshort).
        congruence.
      * pose proof (@create_order_stops faults now db items pre kv post
                      Hall Hsplit Hpre) as Hstop.
        assert (Hin : In kv (order_needs db items))
          by (rewrite Hsplit; apply in_or_app; right; left; reflexivity).
        destruct Hkv as [Hnone|(have' & Hs & Hlt)];
          [exfalso; exact (@entry_stock db items kv Hnn Hin Hnone)|].
        rewrite Hs in Hstop; specialize (Hstop Hlt).
        exists (need_name (snd kv)), (needed (snd kv)), (need_unit (snd kv)),
               (Some have').
        rewrite Hstop; reflexivity.
Qed.

(** In the kitchen, four loaves and a cake take 1200 g of flour and 400 g of
    sugar; 500 g of flour and 300 g of sugar are in stock.  Both are short,
    and the call reports the flour, which the recipes name first.  In the
    mill, 2^63 portions of dish A are refused for the flour as well: the
    quantity converts to a float, and the check comes before the row of the
    order item is written. *)
Lemma create_order_needs_and_shortage_witness :
  aggregated_need kitchen [(1, 4); (2, 1)] 1 = Some 1200%float
  /\ aggregated_need kitchen [(1, 4); (2, 1)] 2 = Some 400%float
  /\ map fst (order_needs kitchen [(1, 4); (2, 1)]) = [1; 2]
  /\ call None kitchen (create_order "2024-05-01 12:00:00" [(1, 4); (2, 1)])
     = (Returned false (Not_enough "Flour" 1200 "g" (Some 500%float)), kitchen)
  /\ call None mill (create_order "2024-05-01 12:00:00" [(1, 2 ^ 63)])
     = (Returned false
          (Not_enough "Flour" 1844674407370955161600 "g" (Some 500%float)), mill).
Proof.
  assert (Hall : Forall (line_passes kitchen) [(1, 4); (2, 1)]).
  { repeat constructor; vm_compute; try discriminate; reflexivity. }
  pose proof (create_order_needs_and_shortage None "2024-05-01 12:00:00"
                kitchen [(1, 4); (2, 1)]) as H.
  cbv zeta in H; destruct H as (_ & H).
  destruct (H Hall) as (_ & H2 & H3 & _ & H5 & _).
  split; [rewrite <- H2; vm_compute; reflexivity|].
  split; [rewrite <- H2; vm_compute; reflexivity|].
  split; [rewrite H3; vm_compute; reflexivity|].
  split.
  - exact (H5 [] (1, mk_need "Flour" "g" 1200 (Some 500%float))
              [(2, mk_need "Sugar" "g" 400 (Some 300%float))]
              ltac:(vm_compute; reflexivity) (Forall_nil _) eq_refl).
  - assert (Hbig : Forall (line_passes mill) [(1, 2 ^ 63)]).
    { repeat constructor; vm_compute; try discriminate; reflexivity. }
    pose proof (create_order_needs_and_shortage None "2024-05-01 12:00:00"
                  mill [(1, 2 ^ 63)]) as G.
    cbv zeta in G; destruct G as (_ & G).
    destruct (G Hbig) as (_ & _ & _ & _ & G5 & _).
    exact (G5 [] (1, mk_need "Flour" "g" 1844674407370955161600 (Some 500%float))
              [] ltac:(vm_compute; reflexivity) (Forall_nil _) eq_refl).
Defined.

(** C2, as stated, fails: every dish of the basket exists and has a recipe,
    and the stock of flour, 500 g, is strictly below the aggregated need,
    600 g; but the last line has quantity 0, and the call fails with
    "Quantity must be >= 1", not with the insufficient-stock message. *)
Lemma shortage_hidden_by_quantity_check :
  let basket := [(1, 1); (2, 1); (1, 0)] in
  Forall (fun l : line => Sql.dish_by_id (fst l) mill <> None
                          /\ recipe_of (fst l) mill <> []) basket
  /\ short mill basket (mk_stock 1 "Flour" (Some 500%float) "g") 500 600
  /\ call None mill (create_order "2024-05-01 12:00:00" basket)
     = (Returned false Quantity_must_be_ge_1, mill).
Proof.
  cbv zeta; split; [|split].
  - repeat constructor; vm_compute; discriminate.
  - split; [vm_compute; left; reflexivity|].
    split; [vm_compute; reflexivity|].
    split; vm_compute; reflexivity.
  - vm_compute; reflexivity.
Qed.

(** The same with a quantity too large for a float: the flour is short, and
    the call fails with the text of an [OverflowError]. *)
Example shortage_hidden_by_overflow :
  Forall (fun l : line => Sql.dish_by_id (fst l) mill <> None
                          /\ recipe_of (fst l) mill <> []) [(1, 2 ^ 1024)]
  /\ short mill [(1, 2 ^ 1024)] (mk_stock 1 "Flour" (Some 500%float) "g")
           500 infinity
  /\ call None mill (create_order "2024-05-01 12:00:00" [(1, 2 ^ 1024)])
     = (Returned false (Exception_text OverflowError), mill).
Proof.
  split; [|split].
  - repeat constructor; vm_compute; discriminate.
  - split; [vm_compute; left; reflexivity|].
    split; [vm_compute; reflexivity|].
    split; vm_compute; reflexivity.
  - vm_compute; reflexivity.
Qed.

(** The same with a NULL stock: the soup takes salt, whose stock is NULL,
    and flour, of which 100 g are in stock and 200 g are needed; the check
    meets the salt first, and the call fails with the text of a
    [TypeError]. *)
Example shortage_hidden_by_null_stock :
  Forall (fun l : line => Sql.dish_by_id (fst l) galley <> None
                          /\ recipe_of (fst l) galley <> []) [(1, 1)]
  /\ map fst (order_needs galley [(1, 1)]) = [2; 1]
  /\ short galley [(1, 1)] (mk_stock 1 "Flour" (Some 100%float) "g") 100 200
  /\ call None galley (create_order "2024-05-01 12:00:00" [(1, 1)])
     = (Returned false (Exception_text TypeError), galley).
Proof.
  split; [|split; [|split]].
  - repeat constructor; vm_compute; discriminate.
  - vm_compute; reflexivity.
  - split; [vm_compute; left; reflexivity|].
    split; [vm_compute; reflexivity|].
    split; vm_compute; reflexivity.
  - vm_compute; reflexivity.
Qed.

(* ================================================================== *)
(** * The stock after an accepted order *)
(* ================================================================== *)

(** ** The needs of an accepted basket are numbers *)

Lemma needs_after_items_nonneg db items : forall needs,
  recipes_nonneg db -> Forall (fun l : line => 1 <= snd l < 2 ^ 63) items ->
  (forall kv, In kv needs -> need_sound db kv) ->
  forall kv, In kv (needs_after_items db items needs) -> need_sound db kv.
Proof.
  induction items as [|[d q] rest IH]; intros needs Hr Hall Hn; [exact Hn|].
  inversion Hall as [|? ? Hq Hrest]; subst; cbn [snd] in Hq.
  cbn [needs_after_items]; apply IH; auto.
  assert (Hc : forall r, In r (recipe_of d db) ->
                 PyFloat.nonneg (j_quantity_needed r * PyFloat.to_float q) = true).
  { intros r H; apply recipe_of_in in H; destruct H as [H _].
    apply recipe_join_in in H.
    destruct H as (di & si & Hdi & _ & _ & _ & _ & -> & _).
    apply mul_to_float_nonneg; [exact (Hr di Hdi)|exact Hq]. }
  apply needs_after_rows_forall; auto.
  - intros r H; split; cbn [fst snd needed]; [apply Hc; exact H|].
    apply recipe_of_in in H; destruct H as [H _]; apply recipe_join_in in H.
    destruct H as (di & si & _ & Hsi & Hid & _ & -> & _ & Hn1 & Hs1 & Hu1).
    exists si; cbn; auto.
  - intros r info H [Hnn Hsi]; split; cbn [fst snd needed] in *.
    + apply add_nonneg; auto.
    + destruct Hsi as (si & ?); exists si; cbn; tauto.
Qed.

Lemma order_needs_nonneg db items :
  recipes_nonneg db -> Forall (line_ok db) items ->
  forall kv, In kv (order_needs db items) -> need_sound db kv.
Proof.
  intros Hr Hall; apply needs_after_items_nonneg; auto.
  - eapply Forall_impl; [|exact Hall]; intros l (H & _); exact H.
  - intros kv [].
Qed.

(** What an entry of [needs] holds for the stock row of its ingredient,
    when the stock covers the needs. *)
Lemma needed_entry db items r info :
  stock_nonneg db ->
  NoDup (map stock_id (stock_inventory db)) ->
  sufficient db items ->
  In r (stock_inventory db) ->
  dict_get (stock_id r) (order_needs db items) = Some info ->
  exists s, quantity_in_stock r = Some s /\ need_stock info = Some s
            /\ PyFloat.nonneg s = true
            /\ (s <? needed info)%float = false
            /\ aggregated_need db items (stock_id r) = Some (needed info)
            /\ new_quantity info = sql_real (s - needed info)%float.
Proof.
  intros Hst Hnd Hsuf Hr Hg.
  assert (Hagg : aggregated_need db items (stock_id r) = Some (needed info))
    by (rewrite <- order_needs_aggregated, Hg; reflexivity).
  apply dict_get_in in Hg.
  destruct (order_needs_from _ _ _ Hg) as (si & Hsi & Hid & Hq & _).
  cbn [fst snd] in Hid, Hq.
  assert (si = r) by (eapply nodup_key_eq; eauto); subst si.
  destruct (proj1 (Forall_forall _ _) Hsuf _ Hg) as (s & Hs & Hlt).
  cbn [snd] in Hs, Hlt.
  destruct (Hst r Hr) as (s0 & Hs0 & Hn0).
  assert (s0 = s) by congruence; subst s0.
  exists s; repeat split; auto.
  unfold new_quantity; rewrite Hs; reflexivity.
Qed.

(** The stock after the updates of a basket whose needs the stock covers:
    every stock is a number that is not negative, or the new stock of some
    ingredient is a NaN. *)
Lemma decrement_outcome db items :
  stock_nonneg db ->
  NoDup (map stock_id (stock_inventory db)) ->
  sufficient db items ->
  let stock' := decrement (order_needs db items) (stock_inventory db) in
  (forall r', In r' stock' -> quantity_ok (quantity_in_stock r'))
  \/ (exists si,
        In si (stock_inventory db)
        /\ (exists s n, quantity_in_stock si = Some s
                        /\ aggregated_need db items (stock_id si) = Some n
                        /\ is_nan (s - n) = true)
        /\ In (mk_stock (stock_id si) (ingredient_name si) None (stock_unit si))
              stock').
Proof.
  intros Hst Hnd Hsuf; cbv zeta.
  rewrite decrement_spec by apply order_needs_nodup.
  destruct (existsb difference_nan (order_needs db items)) eqn:Hex.
  - right; apply existsb_exists in Hex; destruct Hex as ([k info] & Hin & Hb).
    destruct (order_needs_from _ _ _ Hin) as (si & Hsi & Hid & _).
    cbn [fst] in Hid; subst k.
    pose proof (@dict_get_of_in _ _ _ _ (order_needs_nodup db items) Hin) as Hg.
    destruct (@needed_entry db items si info Hst Hnd Hsuf Hsi Hg)
      as (s & Hq & Hs & Hs0 & _ & Hagg & Hnew).
    unfold difference_nan in Hb; cbn [snd] in Hb; rewrite Hs in Hb.
    exists si; split; [exact Hsi|]; split.
    + exists s, (needed info); auto.
    + apply in_map_iff; exists si; split; [|exact Hsi].
      rewrite Hg, Hnew; unfold sql_real; rewrite Hb; reflexivity.
  - left; intros r' Hr'; apply in_map_iff in Hr'; destruct Hr' as (r & <- & Hr).
    destruct (dict_get (stock_id r) (order_needs db items)) as [info|] eqn:Hg;
      [|exact (Hst r Hr)].
    destruct (@needed_entry db items r info Hst Hnd Hsuf Hr Hg)
      as (s & Hq & Hs & Hs0 & Hlt & _ & Hnew).
    assert (Hb : is_nan (s - needed info) = false).
    { destruct (is_nan (s - needed info)) eqn:E; [|reflexivity].
      rewrite <- Hex; symmetry; apply existsb_exists.
      exists (stock_id r, info); split; [apply dict_get_in; exact Hg|].
      unfold difference_nan; cbn [snd]; rewrite Hs; exact E. }
    cbn [quantity_in_stock]; rewrite Hnew.
    exists (s - needed info)%float; split.
    + unfold sql_real; rewrite Hb; reflexivity.
    + apply sub_nonneg_or_nan; assumption.
Qed.

(** With recipe quantities that are not negative, the new stock of an
    accepted basket is a NaN only for an infinite stock and an infinite
    need. *)
Lemma lost_infinite db items si s n :
  stock_nonneg db -> recipes_nonneg db ->
  NoDup (map stock_id (stock_inventory db)) ->
  Forall (line_ok db) items -> sufficient db items ->
  In si (stock_inventory db) ->
  quantity_in_stock si = Some s ->
  aggregated_need db items (stock_id si) = Some n ->
  is_nan (s - n) = true ->
  s = infinity /\ n = infinity.
Proof.
  intros Hst Hre Hnd Hall Hsuf Hsi Hq Hagg Hnan.
  rewrite <- order_needs_aggregated in Hagg.
  destruct (dict_get (stock_id si) (order_needs db items)) as [info|] eqn:Hg;
    [|discriminate].
  cbn [option_map] in Hagg; injection Hagg as <-.
  destruct (@needed_entry db items si info Hst Hnd Hsuf Hsi Hg)
    as (s' & Hq' & _ & Hs0 & Hlt & _ & _).
  assert (s' = s) by congruence; subst s'.
  apply dict_get_in in Hg.
  destruct (@order_needs_nonneg db items Hre Hall _ Hg) as (Hn0 & _).
  cbn [snd] in Hn0.
  apply sub_nan_infinite; assumption.
Qed.

(** The stock rows after the updates of a basket whose needs the stock
    covers. *)
Lemma decrement_row db items r :
  stock_nonneg db ->
  NoDup (map stock_id (stock_inventory db)) ->
  sufficient db items ->
  In r (stock_inventory db) ->
  exists r',
    In r' (decrement (order_needs db items) (stock_inventory db))
    /\ stock_id r' = stock_id r
    /\ ingredient_name r' = ingredient_name r
    /\ stock_unit r' = stock_unit r
    /\ match aggregated_need db items (stock_id r) with
       | Some n =>
           exists s, quantity_in_stock r = Some s
                     /\ quantity_in_stock r' = sql_real (s - n)%float
                     /\ (is_finite s = true -> n = s ->
                         quantity_in_stock r' = Some 0%float)
       | None => r' = r
       end.
Proof.
  intros Hst Hnd Hsuf Hr.
  rewrite decrement_spec by apply order_needs_nodup.
  eexists; split; [apply in_map; exact Hr|].
  destruct (dict_get (stock_id r) (order_needs db items)) as [info|] eqn:Hg.
  - destruct (@needed_entry db items r info Hst Hnd Hsuf Hr Hg)
      as (s & Hq & Hs & _ & _ & Hagg & Hnew).
    rewrite Hagg; cbn [stock_id ingredient_name stock_unit quantity_in_stock].
    repeat split.
    exists s; repeat split; auto.
    intros Hf Hn; rewrite Hnew, Hn, (@sub_self s Hf); reflexivity.
  - rewrite <- order_needs_aggregated, Hg; cbn [option_map]; auto.
Qed.

(** C10, as the code has it.  If, before a call of [create_order], every
    ingredient has a stock that is a number and not negative and the
    ingredient ids are distinct (the primary key), then, wherever the
    storage fails:
    - after the call, whether it succeeds or fails, every ingredient has a
      stock that is a number and not negative, with one exception: the call
      returns [True, order_id] and, for some ingredient, the prior stock
      less the aggregated need is a NaN; the stock of that ingredient is
      NULL afterwards;
    - when the recipe quantities are numbers that are not negative, that
      exception is an infinite stock with an infinite aggregated need, and
      the stocks stay numbers that are not negative if no ingredient has
      both;
    - when the call returns [True, order_id], every ingredient the basket
      needs has as new stock its prior stock minus its aggregated need (NULL
      if that is a NaN), which is exactly [0.0] when the need equals a
      finite prior stock, and the other stock rows are as before;
    - a stock equal to the aggregated need passes the sufficiency check;
    - the call does return [True, order_id] for a basket of acceptable lines
      whose needs the stock covers, when the prices are finite numbers that
      are not negative and the storage does not fail. *)
Theorem create_order_keeps_stock_nonneg
        (faults : option nat) (now : string) (items : list line) (db : database) :
  stock_nonneg db ->
  NoDup (map stock_id (stock_inventory db)) ->
  let out := fst (call faults db (create_order now items)) in
  let db' := snd (call faults db (create_order now items)) in
  (stock_nonneg db'
   \/ exists id si, out = Returned true (Order_id id) /\ stock_lost db items db' si)
  /\ (recipes_nonneg db ->
      (forall si, stock_lost db items db' si ->
         quantity_in_stock si = Some infinity
         /\ aggregated_need db items (stock_id si) = Some infinity)
      /\ ((forall si, In si (stock_inventory db) ->
             quantity_in_stock si = Some infinity ->
             aggregated_need db items (stock_id si) <> Some infinity) ->
          stock_nonneg db'))
  /\ (forall id, out = Returned true (Order_id id) ->
      forall r, In r (stock_inventory db) ->
      exists r', In r' (stock_inventory db') /\ stock_id r' = stock_id r
        /\ ingredient_name r' = ingredient_name r
        /\ stock_unit r' = stock_unit r
        /\ match aggregated_need db items (stock_id r) with
           | Some n =>
               exists s, quantity_in_stock r = Some s
                 /\ quantity_in_stock r' = sql_real (s - n)%float
                 /\ (is_finite s = true -> n = s ->
                     quantity_in_stock r' = Some 0%float)
           | None => r' = r
           end)
  /\ (forall iid info,
        dict_get iid (order_needs db items) = Some info ->
        need_stock info = Some (needed info) -> covered (iid, info))
  /\ (prices_ok db -> Forall (line_ok db) items -> sufficient db items ->
      exists id db'',
        call None db (create_order now items) = (Returned true (Order_id id), db'')).
Proof.
  intros Hst Hnd; cbv zeta.
  assert (H1 : (snd (call faults db (create_order now items)) = db
                /\ forall id, fst (call faults db (create_order now items))
                              <> Returned true (Order_id id))
               \/ exists id, fst (call faults db (create_order now items))
                             = Returned true (Order_id id)
                    /\ Forall (line_ok db) items /\ sufficient db items
                    /\ stock_inventory (snd (call faults db (create_order now items)))
                       = decrement (order_needs db items) (stock_inventory db)).
  { rewrite create_order_call; cbv zeta.
    destruct (create_order_try now items (get_connection faults db))
      as [r c'] eqn:Htry.
    destruct (create_order_try_cases _ _ _ Htry) as [[id ->]|[Hd [[m ->]|[e ->]]]];
      cbn [fst snd]; try (left; split; [exact Hd|discriminate]).
    apply create_order_try_success in Htry; cbv zeta in Htry.
    cbn [work get_connection] in Htry.
    destruct Htry as (Hall & Hsuf & _ & _ & _ & Hstock & _).
    right; exists id; auto. }
  assert (H2 : stock_nonneg (snd (call faults db (create_order now items)))
               \/ exists id si,
                    fst (call faults db (create_order now items))
                    = Returned true (Order_id id)
                    /\ stock_lost db items
                         (snd (call faults db (create_order now items))) si).
  { destruct H1 as [[-> _]|(id & Hout & Hall & Hsuf & Hstock)]; [left; exact Hst|].
    destruct (@decrement_outcome db items Hst Hnd Hsuf)
      as [Hok|(si & Hsi & Hsn & Hin)].
    - left; intros r'; rewrite Hstock; apply Hok.
    - right; exists id, si; split; [exact Hout|].
      unfold stock_lost; rewrite Hstock; auto. }
  assert (H3 : recipes_nonneg db ->
               forall si, stock_lost db items
                            (snd (call faults db (create_order now items))) si ->
               quantity_in_stock si = Some infinity
               /\ aggregated_need db items (stock_id si) = Some infinity).
  { intros Hre si (Hsi & (s & n & Hq & Hagg & Hnan) & Hin).
    destruct H1 as [[Hd _]|(id & Hout & Hall & Hsuf & Hstock)].
    - exfalso; rewrite Hd in Hin.
      assert (E : mk_stock (stock_id si) (ingredient_name si) None (stock_unit si)
                  = si) by (eapply nodup_key_eq; eauto).
      rewrite <- E in Hq; discriminate Hq.
    - destruct (@lost_infinite db items si s n Hst Hre Hnd Hall Hsuf Hsi Hq Hagg Hnan)
        as [-> ->]; auto. }
  split; [exact H2|split; [|split; [|split]]].
  - intros Hre; split; [exact (H3 Hre)|].
    intros Hno; destruct H2 as [H2|(id & si & _ & Hlost)]; [exact H2|].
    exfalso; destruct (H3 Hre si Hlost) as [Hq Hagg].
    destruct Hlost as (Hsi & _); exact (Hno si Hsi Hq Hagg).
  - intros id Hout r Hr.
    destruct H1 as [[_ Hno]|(id' & _ & Hall & Hsuf & Hstock)].
    + exfalso; exact (Hno id Hout).
    + rewrite Hstock; apply decrement_row; assumption.
  - intros iid info _ Heq; exists (needed info); split; [exact Heq|].
    apply ltb_irrefl.
  - apply create_order_accepts.
Qed.

(** 100 g of tea are in stock and a cup takes 1 g: a basket of 100 cups is
    accepted and takes all the tea. *)
Lemma create_order_keeps_stock_nonneg_witness :
  let db' := after (create_order "2024-05-01 12:00:00" [(1, 100)]) tea_room in
  stock_nonneg db'
  /\ stock_inventory db' = [mk_stock 1 "Tea" (Some 0%float) "g"]
  /\ exists r', In r' (stock_inventory db') /\ stock_id r' = 1
                /\ quantity_in_stock r' = Some 0%float.
Proof.
  assert (Hst : stock_nonneg tea_room).
  { intros r H; vm_compute in H; destruct H as [<-|[]].
    eexists; split; reflexivity. }
  assert (Hre : recipes_nonneg tea_room).
  { intros d H; vm_compute in H; destruct H as [<-|[]]; reflexivity. }
  assert (Hnd : NoDup (map stock_id (stock_inventory tea_room))).
  { vm_compute; repeat constructor; intros []. }
  pose proof (create_order_keeps_stock_nonneg None "2024-05-01 12:00:00"
                [(1, 100)] Hst Hnd) as H.
  cbv zeta in H; destruct H as (_ & H1 & H2 & _).
  cbv zeta; split; [|split; [vm_compute; reflexivity|]].
  - apply (H1 Hre); intros si Hsi Hq; vm_compute in Hsi; destruct Hsi as [<-|[]].
    discriminate Hq.
  - destruct (H2 1 ltac:(vm_compute; reflexivity)
                (mk_stock 1 "Tea" (Some 100%float) "g"))
      as (r' & Hin & Hid & _ & _ & Hq); [vm_compute; left; reflexivity|].
    exists r'; split; [exact Hin|split; [exact Hid|]].
    change (aggregated_need tea_room [(1, 100)]
              (stock_id (mk_stock 1 "Tea" (Some 100%float) "g")))
      with (Some 100%float) in Hq.
    destruct Hq as (s & Hs & _ & Hz); injection Hs as <-.
    apply Hz; reflexivity.
Defined.

(** C10, as stated, fails.  The stock of gold is [inf], which is not
    negative; one bar needs [inf], and [inf < inf] is false, so the basket
    passes the sufficiency check.  The new stock is [inf - inf], which is
    NaN; SQLite stores NaN as NULL, so after the successful call the stock of
    gold is no number at all. *)
Lemma create_order_infinite_stock_lost :
  stock_nonneg vault
  /\ fst (call None vault (create_order "2024-05-01 12:00:00" [(1, 1)]))
     = Returned true (Order_id 1)
  /\ stock_inventory (after (create_order "2024-05-01 12:00:00" [(1, 1)]) vault)
     = [mk_stock 1 "Gold" None "g"]
  /\ ~ stock_nonneg (after (create_order "2024-05-01 12:00:00" [(1, 1)]) vault).
Proof.
  split; [|split; [|split]].
  - intros r H; vm_compute in H; destruct H as [<-|[]].
    exists infinity; split; reflexivity.
  - vm_compute; reflexivity.
  - vm_compute; reflexivity.
  - intros H.
    destruct (H (mk_stock 1 "Gold" None "g")) as (s & Hs & _);
      [vm_compute; left; reflexivity|discriminate Hs].
Qed.

(** With a finite stock and an infinite need the order is refused, and the
    stock stays as it was. *)
Example create_order_infinite_need_refused :
  stock_nonneg strongroom
  /\ call None strongroom (create_order "2024-05-01 12:00:00" [(1, 1)])
     = (Returned false (Not_enough "Gold" infinity "g" (Some 5%float)), strongroom)
  /\ stock_inventory strongroom = [mk_stock 1 "Gold" (Some 5%float) "g"].
Proof.
  split; [|split; vm_compute; reflexivity].
  intros r H; vm_compute in H; destruct H as [<-|[]].
  exists 5%float; split; reflexivity.
Qed.

(* ================================================================== *)
(** * The list functions on stored examples *)
(* ================================================================== *)

Lemma fetch_filters_monotone_witness :
  incl (fetched (run None kitchen
                     (fetch_ingredients like_substring None (Some 2%float) "ge")))
       (fetched (run None kitchen
                     (fetch_ingredients like_substring None (Some 1%float) "ge"))).
Proof.
  pose proof (fetch_filters_monotone like_substring date_of_timestamp
                lower_of_lowercase None kitchen) as H.
  destruct H as (_ & _ & _ & _ & _ & H & _).
  exact (H None 1%float 2%float "ge" eq_refl).
Defined.

(** The three order items of the tea room: one row each, the two rows of
    order 1 with the date and the amounts of order 1. *)
Lemma export_orders_csv_rows_witness :
  (exists lines : list export_line,
     export_orders_csv date_of_timestamp lower_of_lowercase tea_orders
     = inr (csv_header :: map line_cells lines)
     /\ Permutation (map line_item lines) (order_items tea_orders)
     /\ List.length lines = 3%nat)
  /\ export_orders_csv date_of_timestamp lower_of_lowercase tea_orders
     = inr [csv_header;
            [Int 2; Text "2024-05-02"; Text "Cup"; Int 1; Real 0.04;
             Real 0.04; Real 0.21; Real 0.01; Real 0.06];
            [Int 1; Text "2024-05-01"; Text "Cup"; Int 2; Real 0.09;
             Real 0.23; Real 0.21; Real 0.05; Real 0.28];
            [Int 1; Text "2024-05-01"; Text "Cup"; Int 3; Real 0.14;
             Real 0.23; Real 0.21; Real 0.05; Real 0.28]].
Proof.
  assert (Hk : keys_ok tea_orders).
  { split; [|split].
    - vm_compute; repeat constructor; cbn; intuition discriminate.
    - vm_compute; repeat constructor; intros [].
    - intros it H; vm_compute in H.
      destruct H as [<-|[<-|[<-|[]]]]; split; eexists;
        (split; [vm_compute; (left + (right; left)); reflexivity|]);
        reflexivity. }
  destruct (export_orders_csv_rows date_of_timestamp lower_of_lowercase Hk)
    as (lines & He & Hp & _).
  split; [|vm_compute; reflexivity].
  exists lines; repeat split; auto.
  apply Permutation_length in Hp; rewrite length_map in Hp; rewrite Hp.
  vm_compute; reflexivity.
Defined.

(* ================================================================== *)
(** * Properties of the store that every call keeps *)
(* ================================================================== *)

Lemma stable_ret P {R A} (a : A) : stable P (ret (R := R) a).
Proof. intros c Hd Hw; split; assumption. Qed.

Lemma stable_return P {R A} (r : R) : stable P (return_ (A := A) r).
Proof. intros c Hd Hw; split; assumption. Qed.

Lemma stable_raise P {R A} (e : exn) : stable P (raise (R := R) (A := A) e).
Proof. intros c Hd Hw; split; assumption. Qed.

Lemma stable_bind P {R A B} (m : M R A) (k : A -> M R B) :
  stable P m -> (forall a, stable P (k a)) -> stable P (bind m k).
Proof.
  intros Hm Hk c Hd Hw; unfold bind.
  specialize (Hm c Hd Hw).
  destruct (m c) as [[a|r|e] c']; cbn [fst snd] in *; try exact Hm.
  apply Hk; tauto.
Qed.

Lemma stable_query P {R A} (q : database -> A) : stable P (query (R := R) q).
Proof.
  intros c Hd Hw; unfold query; destruct (closed c); split; assumption.
Qed.

Lemma stable_query_int P {R A} n (q : Z -> database -> A) :
  stable P (query_int (R := R) n q).
Proof.
  intros c Hd Hw; unfold query_int.
  destruct (closed c); [|destruct (sql_int n)]; split; assumption.
Qed.

Lemma stable_execute P {R A} (stmt : database -> exn + A * database) :
  stmt_keeps P stmt -> stable P (execute (R := R) stmt).
Proof.
  intros Hs c Hd Hw; unfold execute.
  destruct (closed c); [split; assumption|].
  destruct (writes_left c) as [[|n]|]; [split; assumption| |];
    destruct (stmt (work c)) as [e|[a db']] eqn:E; cbn; split; eauto.
Qed.

Lemma stable_close P {R} : stable P (close (R := R)).
Proof. intros c Hd Hw; split; assumption. Qed.

Lemma stable_with_conn P {R A} (body : M R A) :
  stable P body -> stable P (with_conn body).
Proof.
  intros Hb c Hd Hw; unfold with_conn, commit, rollback.
  specialize (Hb c Hd Hw).
  destruct (body c) as [[a|r|e] c']; cbn [fst snd] in Hb;
    destruct (closed c'); cbn; tauto.
Qed.

Lemma stable_try_except P {R A} (body : M R A) (handler : exn -> M R A) :
  stable P body -> (forall e, stable P (handler e)) ->
  stable P (try_except body handler).
Proof.
  intros Hb Hh c Hd Hw; unfold try_except.
  specialize (Hb c Hd Hw).
  destruct (body c) as [[a|r|e] c']; cbn [fst snd] in *; try exact Hb.
  apply Hh; tauto.
Qed.

Lemma stable_try_finally P {R A} (body : M R A) (fin : M R unit) :
  stable P body -> stable P fin -> stable P (try_finally body fin).
Proof.
  intros Hb Hf c Hd Hw; unfold try_finally.
  specialize (Hb c Hd Hw).
  destruct (body c) as [r c']; cbn [fst snd] in Hb.
  specialize (Hf c' (proj1 Hb) (proj2 Hb)).
  destruct (fin c') as [[a|r'|e] c'']; exact Hf.
Qed.

Lemma stable_call P faults db (f : M result result) :
  stable P f -> P db -> P (snd (call faults db f)).
Proof.
  intros Hf Hdb; unfold call.
  specialize (Hf (get_connection faults db) Hdb Hdb).
  destruct (f (get_connection faults db)) as [r c]; cbn [fst snd] in *; tauto.
Qed.

Lemma stable_run P {R} faults db (f : M R R) :
  stable P f -> P db -> P (snd (run faults db f)).
Proof.
  intros Hf Hdb; unfold run.
  specialize (Hf (get_connection faults db) Hdb Hdb).
  destruct (f (get_connection faults db)) as [r c]; cbn [fst snd] in *; tauto.
Qed.

Ltac stable_step :=
  match goal with
  | |- stable _ (bind _ _) => apply stable_bind; [|intros ?]
  | |- stable _ (ret _) => apply stable_ret
  | |- stable _ (return_ _) => apply stable_return
  | |- stable _ (raise _) => apply stable_raise
  | |- stable _ (query _) => apply stable_query
  | |- stable _ (query_int _ _) => apply stable_query_int
  | |- stable _ close => apply stable_close
  | |- stable _ (with_conn _) => apply stable_with_conn
  | |- stable _ (try_finally _ _) => apply stable_try_finally
  | |- stable _ (try_except _ _) => apply stable_try_except; [|intros ?]
  | |- stable _ (execute _) => apply stable_execute
  | |- stable _ (match ?x with _ => _ end) => destruct x
  | |- stable _ (if ?b then _ else _) => destruct b
  end.

Ltac stable_tac := repeat stable_step.

Section Stable.

Variable P : database -> Prop.

Lemma stable_ensure_ingredient_exists name unit :
  (forall n q u, stmt_keeps P (Sql.insert_stock n q u)) ->
  stable P (ensure_ingredient_exists name unit).
Proof. intros H; unfold ensure_ingredient_exists; stable_tac; apply H. Qed.

Lemma stable_add_ingredient name quantity unit :
  (forall n q u, stmt_keeps P (Sql.insert_stock n q u)) ->
  stable P (add_ingredient name quantity unit).
Proof. intros H; unfold add_ingredient; stable_tac; apply H. Qed.

Lemma stable_update_ingredient_by_id id name quantity unit :
  (forall n q u i, stmt_keeps P (Sql.update_stock n q u i)) ->
  stable P (update_ingredient_by_id id name quantity unit).
Proof. intros H; unfold update_ingredient_by_id; stable_tac; apply H. Qed.

Lemma stable_delete_ingredient_by_id id :
  (forall i, stmt_keeps P (Sql.delete_stock i)) ->
  stable P (delete_ingredient_by_id id).
Proof. intros H; unfold delete_ingredient_by_id; stable_tac; apply H. Qed.

Lemma stable_create_dish_ingredients dish entries :
  (forall n q u, stmt_keeps P (Sql.insert_stock n q u)) ->
  (forall d i q, stmt_keeps P (Sql.insert_recipe d i q)) ->
  stable P (create_dish_ingredients dish entries).
Proof.
  intros H1 H2; induction entries as [|e rest IH]; cbn [create_dish_ingredients];
    stable_tac; auto using stable_ensure_ingredient_exists.
Qed.

Lemma stable_create_dish name price entries :
  (forall n p, stmt_keeps P (Sql.insert_menu n p)) ->
  (forall n q u, stmt_keeps P (Sql.insert_stock n q u)) ->
  (forall d i q, stmt_keeps P (Sql.insert_recipe d i q)) ->
  stable P (create_dish name price entries).
Proof.
  intros H1 H2 H3; unfold create_dish; stable_tac;
    auto using stable_create_dish_ingredients.
Qed.

Lemma stable_update_dish_ingredients dish entries :
  (forall n q u, stmt_keeps P (Sql.insert_stock n q u)) ->
  (forall d i q, stmt_keeps P (Sql.insert_recipe d i q)) ->
  stable P (update_dish_ingredients dish entries).
Proof.
  intros H1 H2; induction entries as [|e rest IH]; cbn [update_dish_ingredients];
    stable_tac; auto using stable_ensure_ingredient_exists.
Qed.

Lemma stable_update_dish id name price entries :
  (forall n p i, stmt_keeps P (Sql.update_menu n p i)) ->
  (forall i, stmt_keeps P (Sql.delete_recipe i)) ->
  (forall n q u, stmt_keeps P (Sql.insert_stock n q u)) ->
  (forall d i q, stmt_keeps P (Sql.insert_recipe d i q)) ->
  stable P (update_dish id name price entries).
Proof.
  intros H1 H2 H3 H4; unfold update_dish; stable_tac;
    auto using stable_update_dish_ingredients.
Qed.

Lemma stable_delete_dish id :
  (forall i, stmt_keeps P (Sql.delete_menu i)) ->
  stable P (delete_dish id).
Proof. intros H; unfold delete_dish; stable_tac; apply H. Qed.

Lemma stable_mul_int {R} x n : stable P (mul_int (R := R) x n).
Proof. unfold mul_int; stable_tac. Qed.

Lemma stable_validate_items items : forall dish_map sub,
  stable P (validate_items items dish_map sub).
Proof.
  induction items as [|[d q] rest IH]; intros dish_map sub;
    cbn [validate_items]; stable_tac; auto using stable_mul_int.
Qed.

Lemma stable_add_needs rows qty : forall needs,
  stable P (add_needs rows qty needs).
Proof.
  induction rows as [|r rest IH]; intros needs; cbn [add_needs].
  - apply stable_ret.
  - apply stable_bind; [apply stable_mul_int|intros t; apply IH].
Qed.

Lemma stable_accumulate_needs items dish_map : forall needs,
  stable P (accumulate_needs items dish_map needs).
Proof.
  induction items as [|[d q] rest IH]; intros needs; cbn [accumulate_needs].
  - apply stable_ret.
  - apply stable_bind; [apply stable_query_int|intros rows].
    destruct rows as [|r0 rows].
    + destruct (dict_get d dish_map); [apply stable_return|apply stable_raise].
    + apply stable_bind; [apply stable_add_needs|intros n; apply IH].
Qed.

Lemma stable_check_stock needs : stable P (check_stock needs).
Proof.
  induction needs as [|[iid info] rest IH]; cbn [check_stock]; stable_tac; auto.
Qed.

Lemma stable_insert_items id items dish_map :
  (forall o d q p, stmt_keeps P (Sql.insert_item o d q p)) ->
  stable P (insert_items id items dish_map).
Proof.
  intros H; induction items as [|[d q] rest IH]; cbn [insert_items];
    stable_tac; auto using stable_mul_int.
Qed.

Lemma stable_subtract_stock needs :
  (forall q i, stmt_keeps P (Sql.update_quantity q i)) ->
  stable P (subtract_stock needs).
Proof.
  intros H; induction needs as [|[iid info] rest IH]; cbn [subtract_stock];
    stable_tac; auto.
Qed.

Lemma stable_create_order now items :
  (forall t s r v o, stmt_keeps P (Sql.insert_order t s r v o)) ->
  (forall o d q p, stmt_keeps P (Sql.insert_item o d q p)) ->
  (forall q i, stmt_keeps P (Sql.update_quantity q i)) ->
  stable P (create_order now items).
Proof.
  intros H1 H2 H3; unfold create_order, create_order_try.
  apply stable_try_finally; [|apply stable_close].
  apply stable_try_except; [|intros e; apply stable_return].
  apply stable_bind; [apply stable_validate_items|intros vs].
  apply stable_bind; [apply stable_accumulate_needs|intros needs].
  apply stable_bind; [apply stable_check_stock|intros _].
  apply stable_bind; [|intros id; apply stable_return].
  apply stable_with_conn.
  apply stable_bind; [apply stable_execute, H1|intros id].
  apply stable_bind; [apply stable_insert_items, H2|intros _].
  apply stable_bind; [apply stable_subtract_stock, H3|intros _].
  apply stable_ret.
Qed.

Lemma stable_perform op : statements_keep P -> stable P (perform op).
Proof.
  intros [K1 K2 K3 K4 K5 K6 K7 K8 K9 K10 K11]; destruct op; cbn [perform].
  - apply stable_add_ingredient; assumption.
  - apply stable_update_ingredient_by_id; assumption.
  - apply stable_delete_ingredient_by_id; assumption.
  - apply stable_create_dish; assumption.
  - apply stable_update_dish; assumption.
  - apply stable_delete_dish; assumption.
  - apply stable_create_order; assumption.
Qed.

End Stable.

(* ================================================================== *)
(** * What a call never touches *)
(* ================================================================== *)

(** A statement that succeeded: its conditions, and the store it leaves. *)
Ltac stmt_succeeded H :=
  unfold Sql.insert_stock, Sql.update_stock, Sql.update_quantity,
    Sql.delete_stock, Sql.insert_menu, Sql.update_menu, Sql.delete_menu,
    Sql.delete_recipe, Sql.insert_recipe, Sql.insert_order, Sql.insert_item,
    Sql.integrity, Sql.overflow in H;
  repeat match type of H with
         | (if ?b then _ else _) = inr _ =>
             let E := fresh "E" in
             destruct b eqn:E; try discriminate H
         end;
  injection H as <- <-.

Lemma next_id_above seq ids : seq < next_id seq ids.
Proof. unfold next_id; lia. Qed.

Lemma fold_max_above ids i : In i ids -> i <= fold_right Z.max 0 ids.
Proof.
  induction ids as [|a ids IH]; cbn; [intros []|].
  intros [->|H]; [lia|specialize (IH H); lia].
Qed.

Lemma next_id_fresh seq ids : ~ In (next_id seq ids) ids.
Proof.
  intros H; apply fold_max_above in H; unfold next_id in H; lia.
Qed.

(** The statements on the stock and the catalogue leave the orders and
    their items alone. *)
Lemma sales_kept_by_catalogue o i :
  let P := fun d => orders d = o /\ order_items d = i in
  (forall n q u, stmt_keeps P (Sql.insert_stock n q u))
  /\ (forall n q u k, stmt_keeps P (Sql.update_stock n q u k))
  /\ (forall k, stmt_keeps P (Sql.delete_stock k))
  /\ (forall n p, stmt_keeps P (Sql.insert_menu n p))
  /\ (forall n p k, stmt_keeps P (Sql.update_menu n p k))
  /\ (forall k, stmt_keeps P (Sql.delete_menu k))
  /\ (forall k, stmt_keeps P (Sql.delete_recipe k))
  /\ (forall d k q, stmt_keeps P (Sql.insert_recipe d k q)).
Proof.
  cbv zeta; repeat apply conj; intros; intros db a db' [Ho Hi] H;
    stmt_succeeded H; cbn; auto.
Qed.

(** The statements on the stock and the orders leave the menu and the
    recipes alone. *)
Lemma catalogue_kept_by_orders m r :
  let P := fun d => menu_inventory d = m /\ dish_ingredients d = r in
  (forall n q u, stmt_keeps P (Sql.insert_stock n q u))
  /\ (forall n q u k, stmt_keeps P (Sql.update_stock n q u k))
  /\ (forall k, stmt_keeps P (Sql.delete_stock k))
  /\ (forall q k, stmt_keeps P (Sql.update_quantity q k))
  /\ (forall t s v a o, stmt_keeps P (Sql.insert_order t s v a o))
  /\ (forall o d q p, stmt_keeps P (Sql.insert_item o d q p)).
Proof.
  cbv zeta; repeat apply conj; intros; intros db x db' [Hm Hr] H;
    stmt_succeeded H; cbn; auto.
Qed.

(** The identity of an ingredient: its id, name and unit. *)
Lemma ingredients_kept_by_orders (l : list (Z * string * string)) :
  let P := fun d => map (fun r => (stock_id r, ingredient_name r, stock_unit r))
                        (stock_inventory d) = l in
  (forall q k, stmt_keeps P (Sql.update_quantity q k))
  /\ (forall t s v a o, stmt_keeps P (Sql.insert_order t s v a o))
  /\ (forall o d q p, stmt_keeps P (Sql.insert_item o d q p)).
Proof.
  cbv zeta; repeat apply conj; intros; intros db x db' Hs H;
    stmt_succeeded H; cbn; auto.
  rewrite map_map; rewrite <- Hs; apply map_ext; intros r.
  destruct (stock_id r =? k); reflexivity.
Qed.

(** The statements of [create_dish] and [update_dish] keep every stock row
    as it is. *)
Lemma stock_rows_kept_by_dishes (s : list stock_row) :
  let P := fun d => incl s (stock_inventory d) in
  (forall n q u, stmt_keeps P (Sql.insert_stock n q u))
  /\ (forall n p, stmt_keeps P (Sql.insert_menu n p))
  /\ (forall n p k, stmt_keeps P (Sql.update_menu n p k))
  /\ (forall k, stmt_keeps P (Sql.delete_recipe k))
  /\ (forall d k q, stmt_keeps P (Sql.insert_recipe d k q)).
Proof.
  cbv zeta; repeat apply conj; intros; intros db x db' Hs H;
    stmt_succeeded H; cbn; auto.
  apply incl_appl; exact Hs.
Qed.

Lemma stock_kept_by_delete_menu (s : list stock_row) k :
  stmt_keeps (fun d => stock_inventory d = s) (Sql.delete_menu k).
Proof. intros db x db' Hs H; stmt_succeeded H; cbn; auto. Qed.

(** X1. What a call never touches, for every argument, stored database and
    storage-failure point:
    - [add_ingredient], [update_ingredient_by_id] and
      [delete_ingredient_by_id] leave the menu, the recipes, the orders and
      the order items as they are;
    - [create_dish] and [update_dish] leave the orders and the order items as
      they are (the line prices of past orders are not recomputed), and every
      stock row that was stored is still stored, unchanged;
    - [delete_dish] leaves the stock, the orders and the order items as they
      are;
    - [create_order] leaves the menu and the recipes as they are, and the
      id, name and unit of every ingredient. *)
Theorem calls_leave_other_tables
        (faults : option nat) (op : operation) (db : database) :
  let db' := snd (call faults db (perform op)) in
  match op with
  | Add_ingredient _ _ _ | Update_ingredient _ _ _ _ | Delete_ingredient _ =>
      menu_inventory db' = menu_inventory db
      /\ dish_ingredients db' = dish_ingredients db
      /\ orders db' = orders db /\ order_items db' = order_items db
  | Create_dish _ _ _ | Update_dish _ _ _ _ =>
      orders db' = orders db /\ order_items db' = order_items db
      /\ incl (stock_inventory db) (stock_inventory db')
  | Delete_dish _ =>
      stock_inventory db' = stock_inventory db
      /\ orders db' = orders db /\ order_items db' = order_items db
  | Create_order _ _ =>
      menu_inventory db' = menu_inventory db
      /\ dish_ingredients db' = dish_ingredients db
      /\ map (fun r => (stock_id r, ingredient_name r, stock_unit r))
             (stock_inventory db')
         = map (fun r => (stock_id r, ingredient_name r, stock_unit r))
               (stock_inventory db)
  end.
Proof.
  cbv zeta.
  pose proof (sales_kept_by_catalogue (orders db) (order_items db)) as S.
  pose proof (catalogue_kept_by_orders (menu_inventory db) (dish_ingredients db))
    as C.
  pose proof (ingredients_kept_by_orders
                (map (fun r => (stock_id r, ingredient_name r, stock_unit r))
                     (stock_inventory db))) as G.
  pose proof (stock_rows_kept_by_dishes (stock_inventory db)) as D.
  cbv zeta in S, C, G, D.
  destruct S as (S1 & S2 & S3 & S4 & S5 & S6 & S7 & S8).
  destruct C as (C1 & C2 & C3 & C4 & C5 & C6).
  destruct G as (G1 & G2 & G3).
  destruct D as (D1 & D2 & D3 & D4 & D5).
  destruct op as [n q u|k n q u|k|n p es|k n p es|k|t its]; cbn [perform].
  - pose proof (stable_call faults db (stable_add_ingredient n q u C1)
                  (conj eq_refl eq_refl)) as [H1 H2].
    pose proof (stable_call faults db (stable_add_ingredient n q u S1)
                  (conj eq_refl eq_refl)) as [H3 H4].
    auto.
  - pose proof (stable_call faults db (stable_update_ingredient_by_id k n q u C2)
                  (conj eq_refl eq_refl)) as [H1 H2].
    pose proof (stable_call faults db (stable_update_ingredient_by_id k n q u S2)
                  (conj eq_refl eq_refl)) as [H3 H4].
    auto.
  - pose proof (stable_call faults db (stable_delete_ingredient_by_id k C3)
                  (conj eq_refl eq_refl)) as [H1 H2].
    pose proof (stable_call faults db (stable_delete_ingredient_by_id k S3)
                  (conj eq_refl eq_refl)) as [H3 H4].
    auto.
  - pose proof (stable_call faults db (stable_create_dish n p es S4 S1 S8)
                  (conj eq_refl eq_refl)) as [H1 H2].
    pose proof (stable_call faults db (stable_create_dish n p es D2 D1 D5)
                  (incl_refl _)) as H3.
    auto.
  - pose proof (stable_call faults db (stable_update_dish k n p es S5 S7 S1 S8)
                  (conj eq_refl eq_refl)) as [H1 H2].
    pose proof (stable_call faults db (stable_update_dish k n p es D3 D4 D1 D5)
                  (incl_refl _)) as H3.
    auto.
  - pose proof (stable_call faults db (stable_delete_dish k S6)
                  (conj eq_refl eq_refl)) as [H1 H2].
    pose proof (stable_call faults db
                  (stable_delete_dish k (@stock_kept_by_delete_menu
                                           (stock_inventory db)))
                  eq_refl) as H3.
    auto.
  - pose proof (stable_call faults db (stable_create_order t its C5 C6 C4)
                  (conj eq_refl eq_refl)) as [H1 H2].
    pose proof (stable_call faults db (stable_create_order t its G2 G3 G1) eq_refl)
      as H3.
    auto.
Qed.

(* ================================================================== *)
(** * The constraints of the schema *)
(* ================================================================== *)

Lemma NoDup_map_snoc {A B} (f : A -> B) l x :
  NoDup (map f l) -> ~ In (f x) (map f l) -> NoDup (map f (l ++ [x])).
Proof.
  intros Hnd Hx; rewrite map_app; cbn.
  apply NoDup_app; [exact Hnd|repeat constructor; intros []|].
  intros y Hy [<-|[]]; contradiction.
Qed.

Lemma NoDup_map_filter {A B} (f : A -> B) (p : A -> bool) l :
  NoDup (map f l) -> NoDup (map f (filter p l)).
Proof.
  induction l as [|a l IH]; cbn; [auto|].
  intros H; apply NoDup_cons_iff in H; destruct H as [Ha Hl].
  destruct (p a); cbn; [|auto].
  constructor; [|auto].
  intros Hin; apply Ha.
  apply in_map_iff in Hin; destruct Hin as (y & Hy & Hin).
  apply filter_In in Hin; rewrite <- Hy; apply in_map; tauto.
Qed.

Lemma name_absent {A} (name : A -> string) n l :
  existsb (fun r => String.eqb (name r) n) l = false -> ~ In n (map name l).
Proof.
  intros H Hin; apply in_map_iff in Hin; destruct Hin as (r & <- & Hr).
  assert (existsb (fun r0 => String.eqb (name r0) (name r)) l = true);
    [|congruence].
  apply existsb_exists; exists r; split; [exact Hr|apply String.eqb_refl].
Qed.

Lemma id_present {A} (key : A -> Z) k l :
  existsb (fun r => key r =? k) l = true -> exists r, In r l /\ key r = k.
Proof.
  intros H; apply existsb_exists in H; destruct H as (r & Hr & E).
  apply Z.eqb_eq in E; eauto.
Qed.

Lemma id_absent {A} (key : A -> Z) k l :
  existsb (fun r => key r =? k) l = false -> forall r, In r l -> key r <> k.
Proof.
  intros H r Hr E.
  assert (existsb (fun r0 => key r0 =? k) l = true); [|congruence].
  apply existsb_exists; exists r; split; [exact Hr|apply Z.eqb_eq; exact E].
Qed.

Lemma ids_below_fresh {A} (key : A -> Z) seq l :
  (forall r, In r l -> key r <= seq) ->
  ~ In (next_id seq (map key l)) (map key l).
Proof. intros _; apply next_id_fresh. Qed.

Lemma snoc_below {A} (key : A -> Z) seq l x :
  (forall r, In r l -> key r <= seq) -> seq < key x ->
  forall r, In r (l ++ [x]) -> key r <= key x.
Proof.
  intros H Hx r Hr; apply in_app_or in Hr; destruct Hr as [Hr|[<-|[]]]; [|lia].
  specialize (H r Hr); lia.
Qed.

(** Renaming the rows with one id: the ids stay, and the names stay
    distinct when the id is a key and no other row has the new name. *)
Lemma rename_keeps_ids {A B} (key : A -> B) (upd : A -> A) (hit : A -> bool) l :
  (forall r, key (upd r) = key r) ->
  map key (map (fun r => if hit r then upd r else r) l) = map key l.
Proof.
  intros H; rewrite map_map; apply map_ext; intros r.
  destruct (hit r); auto.
Qed.

Lemma rename_keeps_names {A} (name : A -> string) (upd : A -> A)
      (hit : A -> bool) n l :
  (forall r, name (upd r) = n) ->
  NoDup (map name l) ->
  existsb (fun r => negb (hit r) && String.eqb (name r) n) l = false ->
  (1 <? Z.of_nat (List.length (filter hit l))) = false ->
  NoDup (map name (map (fun r => if hit r then upd r else r) l)).
Proof.
  intros Hu; induction l as [|a l IH]; cbn [map filter existsb]; [auto|].
  intros Hnd Hex Hn.
  apply NoDup_cons_iff in Hnd; destruct Hnd as [Ha Hl].
  apply orb_false_iff in Hex; destruct Hex as [Hax Hex].
  destruct (hit a) eqn:Hh.
  - cbn [List.length] in Hn.
    assert (Hz : filter hit l = []).
    { destruct (filter hit l); [reflexivity|cbn [List.length] in Hn].
      apply Z.ltb_ge in Hn; lia. }
    assert (Hid : map (fun r => if hit r then upd r else r) l = l).
    { clear - Hz; induction l as [|b l IHl]; [reflexivity|].
      cbn [filter map] in *; destruct (hit b); [discriminate|].
      rewrite IHl by exact Hz; reflexivity. }
    rewrite Hid, Hu; constructor; [|exact Hl].
    intros Hin; apply in_map_iff in Hin; destruct Hin as (r & Hr & Hin).
    assert (Hnh : hit r = false).
    { destruct (hit r) eqn:E; [|reflexivity].
      assert (In r (filter hit l)) by (apply filter_In; auto).
      rewrite Hz in H; destruct H. }
    assert (existsb (fun r0 => negb (hit r0) && String.eqb (name r0) n) l = true);
      [|congruence].
    apply existsb_exists; exists r; split; [exact Hin|].
    rewrite Hnh, Hr; cbn; apply String.eqb_refl.
  - cbn [negb andb] in Hax.
    constructor; [|apply IH; auto].
    intros Hin; apply in_map_iff in Hin; destruct Hin as (r & Hr & Hin).
    apply in_map_iff in Hin; destruct Hin as (r0 & <- & Hin).
    destruct (hit r0).
    + rewrite Hu in Hr; rewrite <- Hr, String.eqb_refl in Hax; discriminate.
    + apply Ha; rewrite <- Hr; apply in_map; exact Hin.
Qed.

Lemma renamed_row_found {A} (key : A -> Z) (upd : A -> A) (hit : A -> bool) l k :
  (forall r, key (upd r) = key r) ->
  (exists r, In r l /\ key r = k) ->
  exists r, In r (map (fun r => if hit r then upd r else r) l) /\ key r = k.
Proof.
  intros H (r & Hr & Hk).
  exists (if hit r then upd r else r); split.
  - apply in_map_iff; exists r; auto.
  - destruct (hit r); [rewrite H|]; exact Hk.
Qed.

Lemma renamed_row_below {A} (key : A -> Z) (upd : A -> A) (hit : A -> bool) l seq :
  (forall r, key (upd r) = key r) ->
  (forall r, In r l -> key r <= seq) ->
  forall r, In r (map (fun r => if hit r then upd r else r) l) -> key r <= seq.
Proof.
  intros H Hl r Hr; apply in_map_iff in Hr; destruct Hr as (r0 & <- & Hr0).
  destruct (hit r0); [rewrite H|]; auto.
Qed.

Lemma kept_row_found {A} (key : A -> Z) (p : A -> bool) l k :
  (forall r, In r l -> key r = k -> p r = true) ->
  (exists r, In r l /\ key r = k) ->
  exists r, In r (filter p l) /\ key r = k.
Proof.
  intros H (r & Hr & Hk); exists r; split; [|exact Hk].
  apply filter_In; auto.
Qed.

Lemma no_hit_filter {A} (hit : A -> bool) l :
  (0 <? Z.of_nat (List.length (filter hit l))) = false -> filter hit l = [].
Proof.
  intros H; apply Z.ltb_ge in H.
  destruct (filter hit l); [reflexivity|cbn [List.length] in H; lia].
Qed.

Lemma no_hit_row {A} (hit : A -> bool) l r :
  filter hit l = [] -> In r l -> hit r = false.
Proof.
  intros Hz Hr; destruct (hit r) eqn:E; [|reflexivity].
  assert (H : In r (filter hit l)) by (apply filter_In; auto).
  rewrite Hz in H; destruct H.
Qed.

Lemma no_hit_map {A} (hit : A -> bool) (upd : A -> A) l :
  filter hit l = [] -> map (fun r => if hit r then upd r else r) l = l.
Proof.
  intros Hz; rewrite <- (map_id l) at 2; apply map_ext_in; intros r Hr.
  rewrite (@no_hit_row _ hit l r Hz Hr); reflexivity.
Qed.

Lemma no_hit_keep {A} (hit : A -> bool) l :
  filter hit l = [] -> filter (fun r => negb (hit r)) l = l.
Proof.
  intros Hz; induction l as [|a l IH]; [reflexivity|].
  cbn [filter] in *; destruct (hit a); [discriminate|].
  cbn; rewrite IH by exact Hz; reflexivity.
Qed.

Lemma filter_below {A} (key : A -> Z) (p : A -> bool) l seq :
  (forall r, In r l -> key r <= seq) ->
  forall r, In r (filter p l) -> key r <= seq.
Proof. intros H r Hr; apply filter_In in Hr; apply H; tauto. Qed.

(** The start of the proof that a statement keeps the constraints: the
    constraints on the tables it does not write are as before. *)
Ltac schema_start :=
  let db := fresh "db" in
  let a := fresh "a" in
  let db' := fresh "db'" in
  let W := fresh "W" in
  let H := fresh "H" in
  intros db a db' W H; stmt_succeeded H; destruct W; constructor; cbn;
  try assumption.

(** A table that grew by a row with the next id. *)
Ltac snoc_id := apply NoDup_map_snoc; [assumption|cbn; apply next_id_fresh].

Ltac snoc_name :=
  apply NoDup_map_snoc; [assumption|cbn; apply name_absent; assumption].

Ltac snoc_seq Hseq :=
  let r := fresh "r" in
  let Hr := fresh "Hr" in
  intros r Hr; apply in_app_or in Hr; destruct Hr as [Hr|[<-|[]]]; cbn;
  [apply Hseq in Hr;
   match goal with
   | |- _ <= next_id ?s ?l => pose proof (next_id_above s l); lia
   end
  |lia].

(** A foreign key into a table that grew. *)
Ltac fk_grow Hfk :=
  let d := fresh "d" in
  let Hd := fresh "Hd" in
  let s := fresh "s" in
  let Hs := fresh "Hs" in
  let E := fresh "E" in
  intros d Hd; destruct (Hfk d Hd) as (s & Hs & E); exists s; split;
  [apply in_or_app; left; exact Hs|exact E].

Lemma schema_insert_stock n q u : stmt_keeps schema_ok (Sql.insert_stock n q u).
Proof.
  schema_start.
  - snoc_id.
  - snoc_name.
  - snoc_seq stock_seq0.
  - fk_grow recipe_ingredient0.
Qed.

Lemma schema_insert_menu n p : stmt_keeps schema_ok (Sql.insert_menu n p).
Proof.
  schema_start.
  - snoc_id.
  - snoc_name.
  - snoc_seq menu_seq0.
  - fk_grow recipe_dish0.
  - fk_grow item_dish0.
Qed.

Lemma schema_insert_order t s r v o :
  stmt_keeps schema_ok (Sql.insert_order t s r v o).
Proof.
  schema_start.
  - snoc_id.
  - snoc_seq orders_seq0.
  - fk_grow item_order0.
Qed.

Lemma schema_insert_recipe d i q : stmt_keeps schema_ok (Sql.insert_recipe d i q).
Proof.
  schema_start;
    match goal with
    | E : negb (_ && _) = false |- _ =>
        apply negb_false_iff, andb_true_iff in E; destruct E as [Em Es];
        apply id_present in Em, Es
    end.
  - snoc_id.
  - snoc_seq recipe_seq0.
  - intros x Hx; apply in_app_or in Hx; destruct Hx as [Hx|[<-|[]]]; cbn; auto.
  - intros x Hx; apply in_app_or in Hx; destruct Hx as [Hx|[<-|[]]]; cbn; auto.
Qed.

Lemma schema_insert_item o d q p : stmt_keeps schema_ok (Sql.insert_item o d q p).
Proof.
  schema_start;
    match goal with
    | E : negb (existsb _ _ && existsb _ _) = false |- _ =>
        apply negb_false_iff, andb_true_iff in E; destruct E as [Eo Em];
        apply id_present in Eo, Em
    end.
  - snoc_id.
  - snoc_seq items_seq0.
  - intros x Hx; apply in_app_or in Hx; destruct Hx as [Hx|[<-|[]]]; cbn; auto.
  - intros x Hx; apply in_app_or in Hx; destruct Hx as [Hx|[<-|[]]]; cbn; auto.
Qed.

Lemma schema_update_quantity q i : stmt_keeps schema_ok (Sql.update_quantity q i).
Proof.
  schema_start.
  - rewrite rename_keeps_ids by reflexivity; assumption.
  - rewrite rename_keeps_ids by reflexivity; assumption.
  - apply renamed_row_below; [reflexivity|assumption].
  - intros d Hd; apply renamed_row_found; [reflexivity|auto].
Qed.

Lemma schema_delete_recipe i : stmt_keeps schema_ok (Sql.delete_recipe i).
Proof.
  schema_start.
  - apply NoDup_map_filter; assumption.
  - apply filter_below; assumption.
  - intros d Hd; apply filter_In in Hd; apply recipe_dish0; tauto.
  - intros d Hd; apply filter_In in Hd; apply recipe_ingredient0; tauto.
Qed.

Lemma schema_update_stock n q u i : stmt_keeps schema_ok (Sql.update_stock n q u i).
Proof.
  schema_start.
  - rewrite rename_keeps_ids by reflexivity; assumption.
  - apply andb_false_iff in E0; destruct E0 as [E0|E0].
    + rewrite no_hit_map by (apply no_hit_filter; exact E0); assumption.
    + apply rename_keeps_names with (n := n); auto.
  - apply renamed_row_below; [reflexivity|assumption].
  - intros d Hd; apply renamed_row_found; [reflexivity|auto].
Qed.

Lemma schema_update_menu n p i : stmt_keeps schema_ok (Sql.update_menu n p i).
Proof.
  schema_start.
  - rewrite rename_keeps_ids by reflexivity; assumption.
  - apply andb_false_iff in E0; destruct E0 as [E0|E0].
    + rewrite no_hit_map by (apply no_hit_filter; exact E0); assumption.
    + apply orb_false_iff in E0; destruct E0 as [E0 E1].
      apply orb_false_iff in E0; destruct E0 as [_ E0].
      apply rename_keeps_names with (n := n); auto.
  - apply renamed_row_below; [reflexivity|assumption].
  - intros d Hd; apply renamed_row_found; [reflexivity|auto].
  - intros d Hd; apply renamed_row_found; [reflexivity|auto].
Qed.

Lemma schema_delete_stock i : stmt_keeps schema_ok (Sql.delete_stock i).
Proof.
  schema_start.
  - apply NoDup_map_filter; assumption.
  - apply NoDup_map_filter; assumption.
  - apply filter_below; assumption.
  - intros d Hd; apply kept_row_found; [|auto].
    intros r Hr Hk; apply negb_true_iff.
    apply andb_false_iff in E0; destruct E0 as [E0|E0].
    + apply (@no_hit_row _ (fun r => stock_id r =? i) (stock_inventory db));
        [apply no_hit_filter; exact E0|exact Hr].
    + apply Z.eqb_neq; rewrite Hk.
      apply (@id_absent _ ingredient_id i _ E0); exact Hd.
Qed.

Lemma schema_delete_menu i : stmt_keeps schema_ok (Sql.delete_menu i).
Proof.
  schema_start; cbn [andb] in E0.
  - apply NoDup_map_filter; assumption.
  - apply NoDup_map_filter; assumption.
  - apply NoDup_map_filter; assumption.
  - apply filter_below; assumption.
  - apply filter_below; assumption.
  - intros d Hd; apply filter_In in Hd; destruct Hd as [Hd Hne].
    apply kept_row_found; [|auto].
    intros r Hr Hk; rewrite Hk; exact Hne.
  - intros d Hd; apply filter_In in Hd; apply recipe_ingredient0; tauto.
  - intros it Hit; apply kept_row_found; [|auto].
    intros r Hr Hk; apply negb_true_iff, Z.eqb_neq; rewrite Hk.
    apply (@id_absent _ dish_id i _ E0); exact Hit.
Qed.

(** Every statement keeps the constraints of the schema. *)
Lemma schema_statements : statements_keep schema_ok.
Proof.
  constructor.
  - apply schema_insert_stock.
  - apply schema_update_stock.
  - apply schema_update_quantity.
  - apply schema_delete_stock.
  - apply schema_insert_menu.
  - apply schema_update_menu.
  - apply schema_delete_menu.
  - apply schema_delete_recipe.
  - apply schema_insert_recipe.
  - apply schema_insert_order.
  - apply schema_insert_item.
Qed.

Lemma schema_empty : schema_ok empty_db.
Proof. constructor; cbn; try constructor; intros ? []. Qed.

Lemma schema_keys db : schema_ok db -> keys_ok db.
Proof.
  intros W; destruct W; repeat split; auto.
Qed.

(** X2. The constraints of the schema are an invariant of the store: a
    call of any function that changes the store, with any arguments and
    wherever the storage fails, leaves a store in which the ids are primary
    keys, the ingredient and dish names are unique, the AUTOINCREMENT
    counters are at or above the ids, and the foreign keys of the recipes
    and of the order items refer to stored rows, when the store it starts
    from is such a store; hence every store reached from the empty one by a
    sequence of calls satisfies them, and with them the key constraints the
    CSV export relies on. *)
Theorem schema_is_invariant :
  (forall faults op db,
     schema_ok db -> schema_ok (snd (call faults db (perform op))))
  /\ (forall ops, schema_ok (perform_all ops empty_db))
  /\ (forall ops, keys_ok (perform_all ops empty_db)).
Proof.
  assert (Hstep : forall faults op db,
             schema_ok db -> schema_ok (snd (call faults db (perform op)))).
  { intros faults op db W.
    apply stable_call; [apply stable_perform, schema_statements|exact W]. }
  assert (Hall : forall ops db, schema_ok db -> schema_ok (perform_all ops db)).
  { induction ops as [|[f op] ops IH]; intros db W; [exact W|].
    unfold perform_all; cbn [fold_left fst snd]; apply IH, Hstep, W. }
  split; [exact Hstep|split].
  - intros ops; apply Hall, schema_empty.
  - intros ops; apply schema_keys, Hall, schema_empty.
Qed.

(* ================================================================== *)
(** * Ingredients: what the three calls do *)
(* ================================================================== *)

Lemma call_add_ingredient faults db name q u :
  call faults db (add_ingredient name q u)
  = if (q <=? 0)%float
    then (Returned false Quantity_must_be_greater_than_0, db)
    else match validate_unit u with
         | None => (Returned false Unit_must_be_one_of_allowed, db)
         | Some unit =>
             if fails_at_once faults
             then (Uncaught (Raised OperationalError), db)
             else match Sql.insert_stock name q unit db with
                  | inl _ => (Returned false Ingredient_already_exists, db)
                  | inr (_, db') => (Returned true Ingredient_added, db')
                  end
         end.
Proof.
  unfold add_ingredient.
  destruct (q <=? 0)%float; [reflexivity|].
  destruct (validate_unit u) as [unit|]; [|reflexivity].
  unfold call, try_finally, try_except, bind, with_conn, execute, close,
    commit, rollback, get_connection; cbn [closed writes_left work disk].
  destruct faults as [[|n]|]; cbn [fails_at_once]; try reflexivity;
    unfold Sql.insert_stock, Sql.integrity;
    destruct (existsb _ (stock_inventory db)); reflexivity.
Qed.

Lemma call_update_ingredient_by_id faults db id name q u :
  call faults db (update_ingredient_by_id id name q u)
  = if (q <=? 0)%float
    then (Returned false Quantity_must_be_greater_than_0, db)
    else match validate_unit u with
         | None => (Returned false Unit_must_be_one_of_allowed, db)
         | Some unit =>
             if fails_at_once faults
             then (Uncaught (Raised OperationalError), db)
             else match Sql.update_stock name q unit id db with
                  | inl e => (Uncaught e, db)
                  | inr (n, db') =>
                      (if n =? 0 then Returned false Ingredient_not_found
                       else Returned true Ingredient_updated, db')
                  end
         end.
Proof.
  unfold update_ingredient_by_id.
  destruct (q <=? 0)%float; [reflexivity|].
  destruct (validate_unit u) as [unit|]; [|reflexivity].
  unfold call, bind, with_conn, execute, close, commit, rollback,
    get_connection; cbn [closed writes_left work disk].
  destruct faults as [[|k]|]; cbn [fails_at_once]; try reflexivity;
    destruct (Sql.update_stock name q unit id db) as [e|[n db']];
    try reflexivity; cbn; destruct (n =? 0); reflexivity.
Qed.

Lemma call_delete_ingredient_by_id faults db id :
  call faults db (delete_ingredient_by_id id)
  = if fails_at_once faults
    then (Uncaught (Raised OperationalError), db)
    else match Sql.delete_stock id db with
         | inl e => (Uncaught e, db)
         | inr (n, db') =>
             (if n =? 0 then Returned false (Ingredient_id_not_found id)
              else Returned true Ingredient_deleted, db')
         end.
Proof.
  unfold delete_ingredient_by_id.
  unfold call, bind, with_conn, execute, close, commit, rollback,
    get_connection; cbn [closed writes_left work disk].
  destruct faults as [[|k]|]; cbn [fails_at_once]; try reflexivity;
    destruct (Sql.delete_stock id db) as [e|[n db']];
    try reflexivity; cbn; destruct (n =? 0); reflexivity.
Qed.

Lemma call_delete_dish faults db id :
  call faults db (delete_dish id)
  = if fails_at_once faults
    then (Uncaught (Raised OperationalError), db)
    else match Sql.delete_menu id db with
         | inl e => (Uncaught e, db)
         | inr (n, db') =>
             (if n =? 0 then Returned false Dish_not_found
              else Returned true Dish_deleted, db')
         end.
Proof.
  unfold delete_dish.
  unfold call, bind, with_conn, execute, close, commit, rollback,
    get_connection; cbn [closed writes_left work disk].
  destruct faults as [[|k]|]; cbn [fails_at_once]; try reflexivity;
    destruct (Sql.delete_menu id db) as [e|[n db']];
    try reflexivity; cbn; destruct (n =? 0); reflexivity.
Qed.

Lemma find_none_iff {A} (f : A -> bool) l :
  find f l = None <-> existsb f l = false.
Proof.
  induction l as [|a l IH]; cbn; [tauto|].
  destruct (f a); cbn; [split; discriminate|exact IH].
Qed.

Lemma find_snoc {A} (f : A -> bool) l x :
  find f l = None -> f x = true -> find f (l ++ [x]) = Some x.
Proof.
  induction l as [|a l IH]; cbn; intros Hn Hx; [rewrite Hx; reflexivity|].
  destruct (f a); [discriminate|auto].
Qed.

Lemma validate_unit_allowed u unit :
  validate_unit u = Some unit -> In unit allowed_units /\ unit = strip u.
Proof.
  unfold validate_unit.
  destruct (existsb (String.eqb (strip u)) allowed_units) eqn:E; [|discriminate].
  intros H; injection H as <-; split; [|reflexivity].
  apply existsb_exists in E; destruct E as (x & Hx & E).
  apply String.eqb_eq in E; rewrite E; exact Hx.
Qed.

(** The stored unit of a validated unit is valid as it is. *)
Lemma validate_unit_fixpoint u unit :
  validate_unit u = Some unit -> validate_unit unit = Some unit.
Proof.
  intros H; apply validate_unit_allowed in H; destruct H as [H _].
  cbn in H; destruct H as [<-|[<-|[<-|[]]]]; reflexivity.
Qed.

(** A branch in which the call is refused: the store is as before and the
    conditions of success do not hold. *)
Ltac rejected :=
  cbn; repeat split; try discriminate; intros; try tauto;
  try (exfalso; intuition congruence).

(** X3. [add_ingredient] adds one row or nothing.  For every name,
    quantity, unit, stored database and storage-failure point:
    - the call returns [True, "Ingredient added"] exactly when the quantity
      is not [<= 0], the stripped unit is an allowed one, no ingredient has
      the name and the storage does not fail;
    - it then has appended one row to the stock, with a new id above the
      AUTOINCREMENT counter, the given name, the quantity (NULL for a NaN)
      and the stripped unit, which is an allowed one; a lookup by name finds
      that row, and adding the same name again is refused with
      "Ingredient already exists";
    - in every other case the store is left as it was. *)
Theorem add_ingredient_adds_one_row
        (faults : option nat) (db : database) (name : string) (q : float)
        (u : string) :
  let out := fst (call faults db (add_ingredient name q u)) in
  let db' := snd (call faults db (add_ingredient name q u)) in
  (out = Returned true Ingredient_added
   <-> (q <=? 0)%float = false /\ validate_unit u <> None
       /\ Sql.stock_by_name name db = None /\ fails_at_once faults = false)
  /\ (out = Returned true Ingredient_added ->
      exists row,
        stock_inventory db' = stock_inventory db ++ [row]
        /\ ingredient_name row = name
        /\ quantity_in_stock row = sql_real q
        /\ validate_unit u = Some (stock_unit row)
        /\ In (stock_unit row) allowed_units
        /\ seq_stock (sqlite_sequence db) < stock_id row
        /\ ~ In (stock_id row) (map stock_id (stock_inventory db))
        /\ Sql.stock_by_name name db' = Some row
        /\ call None db' (add_ingredient name q u)
           = (Returned false Ingredient_already_exists, db'))
  /\ (out <> Returned true Ingredient_added -> db' = db).
Proof.
  cbv zeta; rewrite call_add_ingredient.
  destruct (q <=? 0)%float eqn:Hq.
  { rejected. }
  destruct (validate_unit u) as [unit|] eqn:Hu.
  2: { rejected. }
  destruct (fails_at_once faults) eqn:Hf.
  { rejected. }
  unfold Sql.insert_stock, Sql.integrity, Sql.stock_by_name.
  destruct (existsb (fun r => String.eqb (ingredient_name r) name)
                    (stock_inventory db)) eqn:Hex.
  { rejected.
    match goal with
    | H : _ /\ _ |- _ => destruct H as (_ & _ & H & _)
    end.
    apply find_none_iff in H; congruence. }
  apply find_none_iff in Hex.
  cbn [fst snd]; split; [|split].
  - split; [intros _; repeat split; auto; discriminate|reflexivity].
  - intros _; eexists; cbn [stock_inventory set_stock]; split; [reflexivity|].
    cbn [ingredient_name quantity_in_stock stock_unit stock_id
         sqlite_sequence seq_stock].
    destruct (validate_unit_allowed _ Hu) as [Ha _].
    repeat split; auto.
    + apply next_id_above.
    + apply next_id_fresh.
    + apply find_snoc; [exact Hex|cbn; apply String.eqb_refl].
    + rewrite call_add_ingredient, Hq, Hu; cbn [fails_at_once].
      unfold Sql.insert_stock; cbn [stock_inventory set_stock].
      rewrite existsb_app; cbn [existsb ingredient_name].
      rewrite String.eqb_refl, orb_true_r; reflexivity.
  - intros H; exfalso; apply H; reflexivity.
Qed.

Lemma set_stock_same db :
  set_stock db (stock_inventory db) (seq_stock (sqlite_sequence db)) = db.
Proof. destruct db as [s m r o i [a b c d e]]; reflexivity. Qed.

Lemma filter_key_absent {A} (key : A -> Z) k l :
  (forall r, In r l -> key r <> k) -> filter (fun r => key r =? k) l = [].
Proof.
  induction l as [|a l IH]; intros H; [reflexivity|].
  cbn [filter]; destruct (key a =? k) eqn:E.
  - apply Z.eqb_eq in E; exfalso; apply (H a); [left; reflexivity|exact E].
  - apply IH; intros r Hr; apply H; right; exact Hr.
Qed.

Lemma stored_or_not {A} (key : A -> Z) k l :
  (exists r, In r l /\ key r = k) \/ (forall r, In r l -> key r <> k).
Proof.
  destruct (existsb (fun r => key r =? k) l) eqn:E.
  - left; apply id_present; exact E.
  - right; apply id_absent; exact E.
Qed.

(** X4. [update_ingredient_by_id], for every id, name, quantity, unit,
    stored database and storage-failure point:
    - a quantity [<= 0] and a unit that is not an allowed one are refused
      with their message, and nothing is written;
    - otherwise, when the storage does not fail and the ingredient ids are
      distinct: an id outside the 64-bit range ends by an uncaught
      [OverflowError]; an id that is not stored returns
      [False, "Ingredient not found"]; a name that another ingredient has
      ends by an uncaught [IntegrityError]; in these three cases the store is
      as before; in the remaining case the call returns
      [True, "Ingredient updated"] and the row of the id, and only that one,
      has the new name, quantity and stripped unit. *)
Theorem update_ingredient_by_id_outcomes
        (faults : option nat) (db : database) (id : Z) (name : string)
        (q : float) (u : string) :
  let result := call faults db (update_ingredient_by_id id name q u) in
  let stored := exists r, In r (stock_inventory db) /\ stock_id r = id in
  let taken := exists r, In r (stock_inventory db) /\ stock_id r <> id
                         /\ ingredient_name r = name in
  ((q <=? 0)%float = true ->
   result = (Returned false Quantity_must_be_greater_than_0, db))
  /\ ((q <=? 0)%float = false -> validate_unit u = None ->
      result = (Returned false Unit_must_be_one_of_allowed, db))
  /\ (forall unit,
        (q <=? 0)%float = false -> validate_unit u = Some unit ->
        fails_at_once faults = false ->
        NoDup (map stock_id (stock_inventory db)) ->
        (sql_int id = false -> result = (Uncaught (Raised OverflowError), db))
        /\ (sql_int id = true -> ~ stored ->
            result = (Returned false Ingredient_not_found, db))
        /\ (sql_int id = true -> stored -> taken ->
            result = (Uncaught (Raised IntegrityError), db))
        /\ (sql_int id = true -> stored -> ~ taken ->
            fst result = Returned true Ingredient_updated
            /\ stock_inventory (snd result)
               = map (fun r => if stock_id r =? id
                               then mk_stock id name (sql_real q) unit
                               else r) (stock_inventory db))).
Proof.
  cbv zeta; rewrite call_update_ingredient_by_id.
  split; [intros ->; reflexivity|].
  split; [intros -> ->; reflexivity|].
  intros unit -> -> -> Hnd.
  unfold Sql.update_stock, Sql.overflow, Sql.integrity.
  split; [intros ->; reflexivity|].
  assert (Htaken :
            existsb (fun r => negb (stock_id r =? id)
                              && String.eqb (ingredient_name r) name)
                    (stock_inventory db) = true
            <-> exists r, In r (stock_inventory db) /\ stock_id r <> id
                          /\ ingredient_name r = name).
  { rewrite existsb_exists; split; intros (r & Hr & H); exists r.
    - apply andb_true_iff in H; destruct H as [H1 H2].
      apply negb_true_iff, Z.eqb_neq in H1; apply String.eqb_eq in H2; auto.
    - destruct H as [H1 H2]; split; [exact Hr|].
      apply andb_true_iff; split;
        [apply negb_true_iff, Z.eqb_neq; exact H1|apply String.eqb_eq; exact H2]. }
  split; [|split]; intros ->; cbn [negb].
  - intros Hno.
    rewrite filter_key_absent by (intros r Hr E; apply Hno; eauto).
    cbn; rewrite no_hit_map by (apply filter_key_absent;
                                intros r Hr E; apply Hno; eauto).
    rewrite set_stock_same; reflexivity.
  - intros (r & Hr & <-) Ht; apply Htaken in Ht.
    rewrite (filter_key_unique stock_id _ _ Hnd Hr), Ht; reflexivity.
  - intros (r & Hr & <-) Ht.
    rewrite (filter_key_unique stock_id _ _ Hnd Hr).
    destruct (existsb _ (stock_inventory db)) eqn:E;
      [exfalso; apply Ht, Htaken; reflexivity|].
    split; [reflexivity|].
    cbn; apply map_ext; intros r0.
    destruct (stock_id r0 =? stock_id r) eqn:E0; [|reflexivity].
    apply Z.eqb_eq in E0; rewrite E0; reflexivity.
Qed.

Lemma stored_count {A} (key : A -> Z) k l :
  (exists r, In r l /\ key r = k) ->
  0 < Z.of_nat (List.length (filter (fun r => key r =? k) l)).
Proof.
  intros (r & Hr & E).
  assert (H : In r (filter (fun r => key r =? k) l))
    by (apply filter_In; split; [exact Hr|apply Z.eqb_eq; exact E]).
  destruct (filter (fun r => key r =? k) l); [destruct H|cbn [List.length]; lia].
Qed.

Lemma used_iff {A} (key : A -> Z) k l :
  existsb (fun r => key r =? k) l = true <-> exists r, In r l /\ key r = k.
Proof.
  rewrite existsb_exists; split; intros (r & Hr & E); exists r;
    (split; [exact Hr|apply Z.eqb_eq; exact E]).
Qed.

(** X5. [delete_ingredient_by_id], for every id and stored database: a
    storage that fails and an id outside the 64-bit range end by an uncaught
    exception; otherwise an id that is not stored returns
    [False, "Ingredient <id> not found"]; an ingredient that a recipe uses is
    protected by the foreign key and the call ends by an uncaught
    [IntegrityError]; in all these cases the store is as before.  In the
    remaining case the call returns [True, "Ingredient deleted"] and the
    stock is the former stock without the rows of the id. *)
Theorem delete_ingredient_by_id_outcomes
        (faults : option nat) (db : database) (id : Z) :
  let result := call faults db (delete_ingredient_by_id id) in
  let stored := exists r, In r (stock_inventory db) /\ stock_id r = id in
  let used := exists d, In d (dish_ingredients db) /\ ingredient_id d = id in
  (fails_at_once faults = true ->
   result = (Uncaught (Raised OperationalError), db))
  /\ (fails_at_once faults = false ->
      (sql_int id = false -> result = (Uncaught (Raised OverflowError), db))
      /\ (sql_int id = true -> ~ stored ->
          result = (Returned false (Ingredient_id_not_found id), db))
      /\ (sql_int id = true -> stored -> used ->
          result = (Uncaught (Raised IntegrityError), db))
      /\ (sql_int id = true -> stored -> ~ used ->
          fst result = Returned true Ingredient_deleted
          /\ stock_inventory (snd result)
             = filter (fun r => negb (stock_id r =? id)) (stock_inventory db))).
Proof.
  cbv zeta; rewrite call_delete_ingredient_by_id.
  split; [intros ->; reflexivity|intros ->].
  unfold Sql.delete_stock, Sql.overflow, Sql.integrity.
  split; [intros ->; reflexivity|].
  split; [|split]; intros ->; cbn [negb].
  - intros Hno.
    rewrite filter_key_absent by (intros r Hr E; apply Hno; eauto).
    cbn; rewrite no_hit_keep by (apply filter_key_absent;
                                 intros r Hr E; apply Hno; eauto).
    rewrite set_stock_same; reflexivity.
  - intros Hst Hu; apply stored_count in Hst; apply used_iff in Hu.
    rewrite Hu; apply Z.ltb_lt in Hst; rewrite Hst; reflexivity.
  - intros Hst Hu; apply stored_count in Hst.
    destruct (existsb _ (dish_ingredients db)) eqn:E;
      [exfalso; apply Hu, used_iff; exact E|].
    rewrite andb_false_r; cbn [fst snd].
    destruct (Z.of_nat _ =? 0) eqn:E0; [apply Z.eqb_eq in E0; lia|].
    split; reflexivity.
Qed.

(** X6. [delete_dish], for every id and stored database: a storage that
    fails and an id outside the 64-bit range end by an uncaught exception;
    otherwise an id that is not on the menu returns
    [False, "Dish not found"]; a dish that an order item refers to is
    protected by the foreign key and the call ends by an uncaught
    [IntegrityError]; in all these cases the store is as before.  In the
    remaining case the call returns [True, "Dish deleted"], the menu is the
    former menu without the dish, and the recipe rows of the dish are
    deleted with it, so that no recipe row refers to the id any more. *)
Theorem delete_dish_outcomes (faults : option nat) (db : database) (id : Z) :
  let result := call faults db (delete_dish id) in
  let stored := exists r, In r (menu_inventory db) /\ menu_row_id r = id in
  let ordered := exists it, In it (order_items db) /\ dish_id it = id in
  (fails_at_once faults = true ->
   result = (Uncaught (Raised OperationalError), db))
  /\ (fails_at_once faults = false ->
      (sql_int id = false -> result = (Uncaught (Raised OverflowError), db))
      /\ (sql_int id = true -> ~ stored ->
          result = (Returned false Dish_not_found, db))
      /\ (sql_int id = true -> stored -> ordered ->
          result = (Uncaught (Raised IntegrityError), db))
      /\ (sql_int id = true -> stored -> ~ ordered ->
          fst result = Returned true Dish_deleted
          /\ menu_inventory (snd result)
             = filter (fun r => negb (menu_row_id r =? id)) (menu_inventory db)
          /\ dish_ingredients (snd result)
             = filter (fun d => negb (menu_id d =? id)) (dish_ingredients db)
          /\ recipe_of id (snd result) = [])).
Proof.
  cbv zeta; rewrite call_delete_dish.
  split; [intros ->; reflexivity|intros ->].
  unfold Sql.delete_menu, Sql.overflow, Sql.integrity.
  split; [intros ->; reflexivity|].
  split; [|split]; intros ->; cbn [negb].
  - intros Hno.
    rewrite filter_key_absent by (intros r Hr E; apply Hno; eauto).
    reflexivity.
  - intros Hst Hu; apply stored_count in Hst; apply used_iff in Hu.
    rewrite Hu; apply Z.ltb_lt in Hst; rewrite Hst; reflexivity.
  - intros Hst Hu; apply stored_count in Hst.
    destruct (existsb _ (order_items db)) eqn:E;
      [exfalso; apply Hu, used_iff; exact E|].
    rewrite andb_false_r.
    pose proof Hst as Hlt; apply Z.ltb_lt in Hlt; rewrite Hlt; cbn [fst snd].
    destruct (Z.of_nat _ =? 0) eqn:E0; [apply Z.eqb_eq in E0; lia|].
    repeat split.
    unfold recipe_of, recipe_join; cbn [dish_ingredients set_recipes set_menu
                                          stock_inventory].
    match goal with
    | |- filter ?p ?l = [] =>
        destruct (filter p l) as [|x rest] eqn:F; [reflexivity|]
    end.
    assert (Hx : In x (x :: rest)) by (left; reflexivity).
    rewrite <- F in Hx; apply filter_In in Hx; destruct Hx as [Hx Hid].
    apply in_flat_map in Hx; destruct Hx as (d & Hd & Hx).
    apply filter_In in Hd; destruct Hd as [_ Hd].
    apply in_map_iff in Hx; destruct Hx as (s & <- & _).
    cbn [j_menu_id] in Hid; rewrite Hid in Hd; discriminate.
Qed.

Lemma filter_snoc_fresh {A} (key : A -> Z) l x :
  ~ In (key x) (map key l) ->
  filter (fun r => key r =? key x) (l ++ [x]) = [x]
  /\ filter (fun r => negb (key r =? key x)) (l ++ [x]) = l.
Proof.
  intros Hx.
  assert (Hl : forall r, In r l -> key r <> key x).
  { intros r Hr E; apply Hx; rewrite <- E; apply in_map; exact Hr. }
  rewrite !filter_app; cbn [filter]; rewrite Z.eqb_refl; cbn [negb].
  rewrite (filter_key_absent key _ Hl), app_nil_r.
  split; [reflexivity|].
  clear Hx; induction l as [|a l IH]; [reflexivity|].
  cbn [filter]; destruct (key a =? key x) eqn:E.
  - apply Z.eqb_eq in E; exfalso; apply (Hl a); [left; reflexivity|exact E].
  - cbn [negb]; rewrite IH by (intros r Hr; apply Hl; right; exact Hr).
    reflexivity.
Qed.

(** X15. An ingredient that was added can be deleted again, and the stock
    is then as it was before.  On a store that satisfies the constraints of
    the schema, when [add_ingredient] returns [True] and the id it has given
    fits an SQLite INTEGER, [delete_ingredient_by_id] of that id returns
    [True, "Ingredient deleted"], and the stock table is again the table from
    before the addition; the AUTOINCREMENT counter keeps the id, so that the
    next ingredient gets a larger one. *)
Theorem add_then_delete_restores_stock
        (db : database) (name : string) (q : float) (u : string) :
  schema_ok db ->
  fst (call None db (add_ingredient name q u)) = Returned true Ingredient_added ->
  let db1 := snd (call None db (add_ingredient name q u)) in
  let id := next_id (seq_stock (sqlite_sequence db))
                    (map stock_id (stock_inventory db)) in
  sql_int id = true ->
  let db2 := snd (call None db1 (delete_ingredient_by_id id)) in
  fst (call None db1 (delete_ingredient_by_id id))
  = Returned true Ingredient_deleted
  /\ stock_inventory db2 = stock_inventory db
  /\ seq_stock (sqlite_sequence db2) = id
  /\ forall r, In r (stock_inventory db) -> stock_id r < id.
Proof.
  intros W; cbv zeta; rewrite call_add_ingredient.
  destruct (q <=? 0)%float; [discriminate|].
  destruct (validate_unit u) as [unit|]; [|discriminate].
  cbn [fails_at_once]; unfold Sql.insert_stock, Sql.integrity.
  destruct (existsb _ (stock_inventory db)); [discriminate|].
  cbn [fst snd]; intros _ Hid.
  set (id := next_id _ _) in *.
  set (row := mk_stock id name (sql_real q) unit).
  rewrite call_delete_ingredient_by_id; cbn [fails_at_once].
  unfold Sql.delete_stock; rewrite Hid; cbn [negb].
  cbn [stock_inventory dish_ingredients set_stock sqlite_sequence seq_stock].
  assert (Hfresh : ~ In (stock_id row) (map stock_id (stock_inventory db)))
    by apply next_id_fresh.
  destruct (filter_snoc_fresh stock_id _ _ Hfresh) as [F1 F2].
  change id with (stock_id row); rewrite F1, F2.
  assert (Hunused : existsb (fun d => ingredient_id d =? stock_id row)
                            (dish_ingredients db) = false).
  { destruct (existsb _ (dish_ingredients db)) eqn:E; [|reflexivity].
    apply used_iff in E; destruct E as (d & Hd & E).
    destruct (recipe_ingredient W d Hd) as (s & Hs & Es).
    exfalso; apply Hfresh; rewrite <- E, <- Es; apply in_map; exact Hs. }
  rewrite Hunused; cbn.
  repeat split.
  intros r Hr; pose proof (stock_seq W r Hr).
  pose proof (next_id_above (seq_stock (sqlite_sequence db))
                            (map stock_id (stock_inventory db))).
  lia.
Qed.

(* ================================================================== *)
(** * [update_dish]: failures are exceptions *)
(* ================================================================== *)

Lemma rac_ret {R A} (a : A) : returns_after_close (ret (R := R) a).
Proof. intros c Hc; split; [reflexivity|exact Hc]. Qed.

Lemma rac_raise {R A} (e : exn) :
  returns_after_close (raise (R := R) (A := A) e).
Proof. intros c Hc; split; [reflexivity|exact I]. Qed.

Lemma rac_query {R A} (q : database -> A) :
  returns_after_close (query (R := R) q).
Proof.
  intros c Hc; unfold query; rewrite Hc; split; [reflexivity|exact Hc].
Qed.

Lemma rac_query_int {R A} n (q : Z -> database -> A) :
  returns_after_close (query_int (R := R) n q).
Proof.
  intros c Hc; unfold query_int; rewrite Hc.
  destruct (sql_int n); split; cbn; auto.
Qed.

Lemma rac_execute {R A} (stmt : database -> exn + A * database) :
  returns_after_close (execute (R := R) stmt).
Proof.
  intros c Hc; unfold execute; rewrite Hc.
  destruct (writes_left c) as [[|n]|]; [split; cbn; auto| |];
    destruct (stmt (work c)) as [e|[a db']]; split; cbn; auto.
Qed.

Lemma rac_close_return {R A} (r : R) :
  returns_after_close (close ;;; return_ (A := A) r).
Proof. intros c Hc; split; reflexivity. Qed.

Lemma rac_bind {R A B} (m : M R A) (k : A -> M R B) :
  returns_after_close m -> (forall a, returns_after_close (k a)) ->
  returns_after_close (bind m k).
Proof.
  intros Hm Hk c Hc; unfold bind.
  destruct (Hm c Hc) as [Hd Hm'].
  destruct (m c) as [[a|r|e] c']; cbn [fst snd] in *; auto.
  destruct (Hk a c' Hm') as [Hd' Hk']; split; [congruence|exact Hk'].
Qed.

Lemma rac_ensure_ingredient_exists name unit :
  returns_after_close (ensure_ingredient_exists name unit).
Proof.
  unfold ensure_ingredient_exists.
  apply rac_bind; [apply rac_query|intros [r|]].
  - destruct (negb _); apply rac_ret.
  - apply rac_bind; [apply rac_execute|intros _].
    apply rac_bind; [apply rac_query|intros [r|]];
      [apply rac_ret|apply rac_raise].
Qed.

Lemma rac_update_dish_ingredients dish entries :
  returns_after_close (update_dish_ingredients dish entries).
Proof.
  induction entries as [|e rest IH]; cbn [update_dish_ingredients];
    [apply rac_ret|].
  destruct (validate_unit (ing_unit e)); [|apply rac_close_return].
  destruct (qty_needed e <=? 0)%float; [apply rac_close_return|].
  apply rac_bind; [apply rac_ensure_ingredient_exists|intros [id|err]].
  - apply rac_bind; [apply rac_execute|intros _; exact IH].
  - apply rac_close_return.
Qed.

Lemma rac_update_dish_block id name price entries :
  returns_after_close
    (row <- query_int id Sql.dish_by_id ;;
     match row with
     | None => close ;;; return_ (false, Dish_id_not_found_update id)
     | Some _ =>
         execute (Sql.update_menu name price id) ;;;
         execute (Sql.delete_recipe id) ;;;
         update_dish_ingredients id entries
     end).
Proof.
  apply rac_bind; [apply rac_query_int|intros [r|]].
  - apply rac_bind; [apply rac_execute|intros _].
    apply rac_bind; [apply rac_execute|intros _].
    apply rac_update_dish_ingredients.
  - apply rac_close_return.
Qed.

(** A [with] block around such a body: a [return] inside it becomes a
    [ProgrammingError] of the commit, and nothing reaches the disk. *)
Lemma with_conn_returns_after_close {R A} (body : M R A) c :
  returns_after_close body -> closed c = false ->
  match with_conn body c with
  | (Val _, c') => closed c' = false /\ fst (body c) = fst (with_conn body c)
  | (Ret _, _) => False
  | (Exc e, c') =>
      disk c' = disk c
      /\ (forall r, fst (body c) = Ret r -> e = Raised ProgrammingError)
  end.
Proof.
  intros Hb Hc; unfold with_conn, commit, rollback.
  destruct (Hb c Hc) as [Hd He].
  destruct (body c) as [[a|r|e] c']; cbn [fst snd] in *.
  - rewrite He; cbn; auto.
  - rewrite He; cbn; auto.
  - destruct (closed c'); cbn; split; auto; intros r; discriminate.
Qed.

(** X7. [update_dish] reports no failure but the price.  For every id,
    name, price, recipe, stored database and storage-failure point:
    - a price [<= 0] is refused with its message and nothing is written;
    - otherwise the call returns [True, "Dish updated"], or it ends by an
      uncaught exception and the store is as before: it never returns
      [False, ...];
    - in particular, for an id that is not on the menu the message
      "Dish <id> not found" is never returned: the function closes the
      connection and returns inside the [with] block, whose commit then
      raises [ProgrammingError]; and the same happens when the dish is stored
      and the first recipe entry has a unit that is not allowed or a quantity
      [<= 0]. *)
Theorem update_dish_failures_are_exceptions
        (faults : option nat) (db : database) (id : Z) (name : string)
        (price : float) (entries : list ingredient) :
  let result := call faults db (update_dish id name price entries) in
  ((price <=? 0)%float = true ->
   result = (Returned false Price_must_be_greater_than_0, db))
  /\ ((price <=? 0)%float = false ->
      (fst result = Returned true Dish_updated
       \/ exists e, result = (Uncaught e, db))
      /\ (sql_int id = true -> Sql.dish_by_id id db = None ->
          result = (Uncaught (Raised ProgrammingError), db))
      /\ (forall r e rest,
            Sql.dish_by_id id db = Some r -> sql_int id = true ->
            entries = e :: rest ->
            validate_unit (ing_unit e) = None
            \/ (qty_needed e <=? 0)%float = true ->
            exists x, result = (Uncaught x, db))).
Proof.
  cbv zeta; unfold update_dish.
  split; [intros ->; reflexivity|intros ->].
  set (body := (row <- query_int id Sql.dish_by_id ;; _)).
  assert (Hb : returns_after_close body) by apply rac_update_dish_block.
  assert (Hcases :
            (fst (call faults db (with_conn body ;;; close ;;;
                                  return_ (true, Dish_updated)))
             = Returned true Dish_updated
             /\ exists a c', body (get_connection faults db) = (Val a, c'))
            \/ (exists e,
                  call faults db (with_conn body ;;; close ;;;
                                  return_ (true, Dish_updated))
                  = (Uncaught e, db)
                  /\ forall r, fst (body (get_connection faults db)) = Ret r ->
                               e = Raised ProgrammingError)).
  { pose proof (@with_conn_returns_after_close _ _ body
                  (get_connection faults db) Hb eq_refl) as H.
    unfold call, bind at 1.
    destruct (with_conn body (get_connection faults db)) as [[a|r|e] c'] eqn:Hw.
    - left; split; [reflexivity|].
      destruct H as [_ H]; cbn [fst] in H.
      destruct (body (get_connection faults db)) as [[a0|r0|e0] c0];
        try discriminate H; eauto.
    - destruct H.
    - right; exists e; destruct H as [Hd He]; cbn in Hd.
      split; [unfold bind at 1; rewrite Hw, Hd; reflexivity|exact He]. }
  split; [|split].
  - destruct Hcases as [[H _]|(e & H & _)]; [left; exact H|right; eauto].
  - intros Hi Hnone.
    destruct Hcases as [[_ (a & c' & H)]|(e & H & He)].
    + exfalso; revert H; unfold body, bind at 1, query_int.
      cbn [get_connection closed work]; rewrite Hi, Hnone; discriminate.
    + rewrite (He (false, Dish_id_not_found_update id)) in H; [exact H|].
      unfold body, bind at 1, query_int.
      cbn [get_connection closed work]; rewrite Hi, Hnone; reflexivity.
  - intros r e rest Hsome Hi -> Hrej.
    destruct Hcases as [[_ (a & c' & H)]|(x & H & _)]; [|exists x; exact H].
    exfalso; revert H; unfold body, bind at 1, query_int.
    cbn [get_connection closed work]; rewrite Hi, Hsome.
    unfold bind at 1.
    destruct (execute (Sql.update_menu name price id) _) as [[a1|r1|e1] c1];
      try discriminate.
    unfold bind at 1.
    destruct (execute (Sql.delete_recipe id) c1) as [[a2|r2|e2] c2];
      try discriminate.
    cbn [update_dish_ingredients].
    destruct Hrej as [Hrej|Hrej].
    + rewrite Hrej; discriminate.
    + destruct (validate_unit (ing_unit e)); [rewrite Hrej|]; discriminate.
Qed.

(* ================================================================== *)
(** * [create_dish]: all or nothing *)
(* ================================================================== *)

Lemma create_dish_refused_by_menu faults db name price entries :
  (price <=? 0)%float = false -> fails_at_once faults = false ->
  Sql.dish_by_name name db <> None \/ is_nan price = true ->
  call faults db (create_dish name price entries)
  = (Returned false Dish_already_exists, db).
Proof.
  intros Hp Hf Hd; rewrite create_dish_call by exact Hp.
  assert (Hs : Sql.insert_menu name price db = Sql.integrity).
  { unfold Sql.insert_menu.
    destruct (existsb _ (menu_inventory db)) eqn:E; [reflexivity|].
    destruct Hd as [Hd| ->]; [|reflexivity].
    exfalso; apply Hd; apply find_none_iff; exact E. }
  unfold with_conn, create_dish_block, bind at 1, execute, rollback.
  cbn [get_connection closed writes_left work disk].
  rewrite Hs; unfold Sql.integrity.
  destruct faults as [[|n]|]; try discriminate Hf; reflexivity.
Qed.

(** X8. [create_dish] is all or nothing and reports every failure.  For
    every name, price, recipe, stored database and storage-failure point:
    - the call returns a pair [(ok, message)]: it never ends by an
      exception;
    - when it returns [False], the store is exactly as before: no dish row,
      no recipe row and no ingredient created for an earlier entry remains;
    - a price [<= 0] is refused with "Price must be greater than 0";
    - a dish name that is already on the menu is refused with
      "Dish already exists", and so is a NaN price under any name, new or
      not, because every [IntegrityError] of the block is reported with that
      message (here the NOT NULL constraint of [dish_price]). *)
Theorem create_dish_all_or_nothing
        (faults : option nat) (db : database) (name : string) (price : float)
        (entries : list ingredient) :
  let result := call faults db (create_dish name price entries) in
  (exists ok m, fst result = Returned ok m)
  /\ (forall m, fst result = Returned false m -> snd result = db)
  /\ ((price <=? 0)%float = true ->
      result = (Returned false Price_must_be_greater_than_0, db))
  /\ ((price <=? 0)%float = false -> fails_at_once faults = false ->
      Sql.dish_by_name name db <> None ->
      result = (Returned false Dish_already_exists, db))
  /\ (is_nan price = true -> fails_at_once faults = false ->
      result = (Returned false Dish_already_exists, db)).
Proof.
  cbv zeta; split; [|split; [|split; [|split]]].
  - destruct (price <=? 0)%float eqn:Hp.
    + unfold create_dish; rewrite Hp; eexists _, _; reflexivity.
    + rewrite create_dish_call by exact Hp.
      destruct (with_conn _ _) as [[a|[ok m]|e] c'];
        [|cbn|destruct e as [[]|m]; cbn]; eexists _, _; reflexivity.
  - intros m H.
    destruct (call faults db (create_dish name price entries)) as [out db'] eqn:E.
    cbn [fst snd] in *; subst out.
    exact (create_dish_failure_unchanged _ _ _ _ _ E).
  - intros Hp; unfold create_dish; rewrite Hp; reflexivity.
  - intros Hp Hf Hd; apply create_dish_refused_by_menu; auto.
  - intros Hn Hf.
    assert (Hnan : Prim2SF price = S754_nan).
    { destruct (Prim2SF price) eqn:E; try reflexivity;
        assert (is_nan price = false)
          by (apply is_nan_spec; rewrite E; discriminate); congruence. }
    apply create_dish_refused_by_menu; auto.
    rewrite FloatAxioms.leb_spec, Hnan; reflexivity.
Qed.

(* ================================================================== *)
(** * The recipe of a dish, written and read back *)
(* ================================================================== *)

Lemma run_fetch_dish_ingredients faults db id :
  run faults db (fetch_dish_ingredients id)
  = if sql_int id
    then (inr (map recipe_view_of (recipe_of id db)), db)
    else (inl (Raised OverflowError), db).
Proof.
  unfold run, fetch_dish_ingredients, bind, query_int, close, get_connection.
  cbn [closed work]; destruct (sql_int id); reflexivity.
Qed.

Lemma recipe_join_vivify db n u :
  schema_ok db -> recipe_join (vivify n u db) = recipe_join db.
Proof.
  intros W; unfold recipe_join, vivify.
  cbn [dish_ingredients stock_inventory set_stock].
  apply flat_map_ext_In; intros di Hdi; f_equal.
  rewrite filter_app; cbn [filter stock_id].
  destruct (recipe_ingredient W di Hdi) as (s & Hs & E).
  destruct (next_id _ _ =? ingredient_id di) eqn:F; [|apply app_nil_r].
  apply Z.eqb_eq in F; exfalso.
  apply (@next_id_fresh (seq_stock (sqlite_sequence db))
                        (map stock_id (stock_inventory db))).
  rewrite F, <- E; apply in_map; exact Hs.
Qed.

Lemma recipe_join_add_row db dish r qty :
  NoDup (map stock_id (stock_inventory db)) -> In r (stock_inventory db) ->
  recipe_join (add_recipe_row dish (stock_id r) qty db)
  = recipe_join db
    ++ [mk_joined dish (stock_id r) qty (ingredient_name r)
                  (quantity_in_stock r) (stock_unit r)].
Proof.
  intros Hnd Hr; unfold recipe_join, add_recipe_row.
  cbn [dish_ingredients stock_inventory set_recipes].
  rewrite flat_map_app; cbn [flat_map menu_id ingredient_id quantity_needed].
  rewrite (filter_key_unique stock_id _ _ Hnd Hr); reflexivity.
Qed.

Lemma stock_by_name_in n db r :
  Sql.stock_by_name n db = Some r ->
  In r (stock_inventory db) /\ ingredient_name r = n.
Proof.
  unfold Sql.stock_by_name; intros H; apply find_some in H.
  destruct H as [H E]; apply String.eqb_eq in E; auto.
Qed.

Lemma schema_vivify db n u :
  schema_ok db -> Sql.stock_by_name n db = None -> schema_ok (vivify n u db).
Proof.
  intros W Hn.
  apply (@schema_insert_stock n 0%float u db
           (next_id (seq_stock (sqlite_sequence db))
                    (map stock_id (stock_inventory db)))); [exact W|].
  unfold Sql.insert_stock, Sql.stock_by_name in *.
  apply find_none_iff in Hn; rewrite Hn; reflexivity.
Qed.

Lemma schema_add_recipe_row db dish r qty :
  schema_ok db -> is_nan qty = false ->
  existsb (fun m => menu_row_id m =? dish) (menu_inventory db) = true ->
  In r (stock_inventory db) ->
  schema_ok (add_recipe_row dish (stock_id r) qty db).
Proof.
  intros W Hq Hm Hr.
  apply (@schema_insert_recipe dish (stock_id r) qty db tt); [exact W|].
  unfold Sql.insert_recipe; rewrite Hq, Hm.
  replace (existsb (fun r0 => stock_id r0 =? stock_id r) (stock_inventory db))
    with true; [reflexivity|].
  symmetry; apply existsb_exists; exists r; split; [exact Hr|apply Z.eqb_refl].
Qed.

(** One accepted entry: the constraints hold afterwards, the dish is still
    on the menu, and the join has one more row, that of the entry. *)
Lemma write_entry_row dish db e :
  schema_ok db ->
  existsb (fun m => menu_row_id m =? dish) (menu_inventory db) = true ->
  entry_ok e -> agrees db e ->
  schema_ok (write_entry dish db e)
  /\ existsb (fun m => menu_row_id m =? dish)
             (menu_inventory (write_entry dish db e)) = true
  /\ exists row,
       recipe_join (write_entry dish db e) = recipe_join db ++ [row]
       /\ j_menu_id row = dish
       /\ view_shows (recipe_view_of row) = entry_asks e.
Proof.
  intros W Hm (_ & _ & Hq) Ha.
  destruct (Sql.stock_by_name (ing_name e) db) as [r|] eqn:Hr.
  - rewrite (@write_entry_found dish db e r Hr).
    destruct (@stock_by_name_in _ _ _ Hr) as [Hin Hname].
    split; [apply schema_add_recipe_row; auto|].
    split; [exact Hm|].
    eexists; split; [apply recipe_join_add_row; [apply W|exact Hin]|].
    split; [reflexivity|].
    unfold view_shows, entry_asks; cbn.
    rewrite Hname, (Ha r Hr); reflexivity.
  - rewrite (@write_entry_new dish db e Hr).
    pose proof (@schema_vivify db (ing_name e) (ing_unit e) W Hr) as W1.
    pose proof (@stock_by_name_vivify (ing_name e) (ing_unit e) db Hr) as Hr1.
    destruct (@stock_by_name_in _ _ _ Hr1) as [Hin _].
    set (r := mk_stock _ (ing_name e) (Some 0%float) (ing_unit e)) in *.
    change (next_id (seq_stock (sqlite_sequence db))
                    (map stock_id (stock_inventory db))) with (stock_id r).
    split; [apply schema_add_recipe_row; auto|].
    split; [exact Hm|].
    eexists; split.
    + rewrite recipe_join_add_row by (apply W1 || exact Hin).
      rewrite recipe_join_vivify by exact W; reflexivity.
    + split; reflexivity.
Qed.

Lemma write_entries_rows dish entries : forall db,
  schema_ok db ->
  existsb (fun m => menu_row_id m =? dish) (menu_inventory db) = true ->
  accepted dish entries db ->
  schema_ok (fold_left (write_entry dish) entries db)
  /\ map view_shows
         (map recipe_view_of
              (recipe_of dish (fold_left (write_entry dish) entries db)))
     = map view_shows (map recipe_view_of (recipe_of dish db))
       ++ map entry_asks entries.
Proof.
  induction entries as [|e rest IH]; intros db W Hm Hacc.
  - cbn; rewrite app_nil_r; auto.
  - cbn [accepted] in Hacc; destruct Hacc as (He & Ha & Hrest).
    destruct (@write_entry_row dish db e W Hm He Ha) as (W1 & Hm1 & row & Hj & Hd & Hs).
    cbn [fold_left].
    destruct (IH _ W1 Hm1 Hrest) as [W2 Hrows]; split; [exact W2|].
    rewrite Hrows; unfold recipe_of; rewrite Hj, filter_app.
    cbn [filter]; rewrite Hd, Z.eqb_refl.
    rewrite !map_app, <- app_assoc; cbn [map app]; rewrite Hs; reflexivity.
Qed.

Lemma stock_rows_kept_menu dish entries : forall db m,
  In m (menu_inventory db) ->
  In m (menu_inventory (fold_left (write_entry dish) entries db)).
Proof.
  induction entries as [|e rest IH]; intros db m Hm; [exact Hm|].
  cbn [fold_left]; apply IH; rewrite write_entry_menu; exact Hm.
Qed.

Lemma recipe_of_unknown_dish db dish :
  (forall d, In d (dish_ingredients db) -> menu_id d <> dish) ->
  recipe_of dish db = [].
Proof.
  intros H; unfold recipe_of, recipe_join.
  match goal with
  | |- filter ?p ?l = [] => destruct (filter p l) as [|x rest] eqn:F; [reflexivity|]
  end.
  assert (Hx : In x (x :: rest)) by (left; reflexivity).
  rewrite <- F in Hx; apply filter_In in Hx; destruct Hx as [Hx Hid].
  apply in_flat_map in Hx; destruct Hx as (d & Hd & Hx).
  apply in_map_iff in Hx; destruct Hx as (s & <- & _).
  cbn [j_menu_id] in Hid; apply Z.eqb_eq in Hid.
  exfalso; exact (H d Hd Hid).
Qed.

Lemma schema_with_dish db name price :
  schema_ok db -> Sql.dish_by_name name db = None -> is_nan price = false ->
  schema_ok (with_dish name price db)
  /\ recipe_of (new_dish_id db) (with_dish name price db) = [].
Proof.
  intros W Hn Hp; split.
  - apply (@schema_insert_menu name price db (new_dish_id db)); [exact W|].
    unfold Sql.insert_menu, Sql.dish_by_name in *.
    apply find_none_iff in Hn; rewrite Hn, Hp; reflexivity.
  - apply recipe_of_unknown_dish; cbn [with_dish dish_ingredients set_menu].
    intros d Hd E.
    destruct (recipe_dish W d Hd) as (m & Hm & Em).
    apply (@next_id_fresh (seq_menu (sqlite_sequence db))
                          (map menu_row_id (menu_inventory db))).
    fold (new_dish_id db); rewrite <- E, <- Em; apply in_map; exact Hm.
Qed.

Lemma create_dish_success_price faults db name price entries m :
  fst (call faults db (create_dish name price entries)) = Returned true m ->
  is_nan price = false.
Proof.
  intros H; destruct (is_nan price) eqn:Hn; [exfalso|reflexivity].
  assert (Hnan : Prim2SF price = S754_nan).
  { destruct (Prim2SF price) eqn:E; try reflexivity;
      assert (is_nan price = false)
        by (apply is_nan_spec; rewrite E; discriminate); congruence. }
  assert (Hp : (price <=? 0)%float = false)
    by (rewrite FloatAxioms.leb_spec, Hnan; reflexivity).
  destruct (fails_at_once faults) eqn:Hf.
  - destruct faults as [[|n]|]; try discriminate Hf.
    rewrite create_dish_call in H by exact Hp.
    revert H; unfold with_conn, create_dish_block, bind at 1, execute.
    cbn; discriminate.
  - rewrite create_dish_refused_by_menu in H by auto; discriminate.
Qed.

(** X9. The recipe of a new dish is read back as it was given.  On a
    store that satisfies the constraints of the schema, when [create_dish]
    returns [True] (and the id of the new dish fits an SQLite INTEGER), the
    dish is on the menu under a new id with the name and price given, and
    [fetch_dish_ingredients] of that id returns one row per entry of the
    recipe, with the ingredient name, the quantity needed and the unit of the
    entry; the store afterwards satisfies the constraints too. *)
Theorem create_dish_recipe_read_back
        (faults : option nat) (db : database) (name : string) (price : float)
        (entries : list ingredient) :
  schema_ok db ->
  sql_int (new_dish_id db) = true ->
  fst (call faults db (create_dish name price entries))
  = Returned true (Dish_created name) ->
  let db' := snd (call faults db (create_dish name price entries)) in
  ~ In (new_dish_id db) (map menu_row_id (menu_inventory db))
  /\ In (mk_menu (new_dish_id db) name price) (menu_inventory db')
  /\ schema_ok db'
  /\ exists views,
       run None db' (fetch_dish_ingredients (new_dish_id db)) = (inr views, db')
       /\ map view_shows views = map entry_asks entries.
Proof.
  intros W Hid H; cbv zeta.
  pose proof (@create_dish_success_price faults db name price entries _ H) as Hp.
  destruct (call faults db (create_dish name price entries)) as [out db'] eqn:E.
  cbn [fst snd] in *; subst out.
  apply create_dish_success in E; destruct E as (_ & Hn & Hacc & ->).
  destruct (@schema_with_dish db name price W Hn Hp) as [W1 Hnil].
  destruct (@write_entries_rows (new_dish_id db) entries _ W1
              (with_dish_has_dish name price db) Hacc) as [W2 Hrows].
  split; [apply next_id_fresh|].
  split; [|split; [exact W2|]].
  - apply (stock_rows_kept_menu (new_dish_id db) entries).
    cbn [with_dish menu_inventory set_menu].
    apply in_or_app; right; left; reflexivity.
  - rewrite run_fetch_dish_ingredients, Hid.
    eexists; split; [reflexivity|].
    rewrite Hrows, Hnil; reflexivity.
Qed.

(** When the loop of [update_dish] falls through, it has done what the loop
    of [create_dish] does. *)
Lemma update_loop_val dish entries : forall c c',
  update_dish_ingredients dish entries c = (Val tt, c') ->
  create_dish_ingredients dish entries c = (Val tt, c').
Proof.
  induction entries as [|e rest IH]; intros c c'; [exact (fun H => H)|].
  cbn [update_dish_ingredients create_dish_ingredients].
  destruct (validate_unit (ing_unit e)); [|discriminate].
  destruct (qty_needed e <=? 0)%float; [discriminate|].
  unfold bind.
  destruct (ensure_ingredient_exists (ing_name e) (ing_unit e) c)
    as [[[id|err]|r|x] c1]; try discriminate.
  destruct (execute (Sql.insert_recipe dish id (qty_needed e)) c1)
    as [[a|r|x] c2]; try discriminate.
  apply IH.
Qed.

Lemma update_dish_call faults db id name price entries :
  (price <=? 0)%float = false ->
  call faults db (update_dish id name price entries)
  = match update_dish_block id name price entries (get_connection faults db) with
    | (Val _, c') => (Returned true Dish_updated, work c')
    | (Ret _, _) => (Uncaught (Raised ProgrammingError), db)
    | (Exc e, c') =>
        (Uncaught (if closed c' then Raised ProgrammingError else e), db)
    end.
Proof.
  intros Hp; unfold update_dish; rewrite Hp.
  fold (update_dish_block id name price entries).
  pose proof (@rac_update_dish_block id name price entries
                (get_connection faults db) eq_refl) as [Hd He].
  fold (update_dish_block id name price entries) in Hd, He.
  unfold call, bind, with_conn, commit, rollback, close, return_.
  destruct (update_dish_block id name price entries (get_connection faults db))
    as [[a|r|e] c']; cbn [fst snd get_connection disk] in *.
  - rewrite He; reflexivity.
  - rewrite He, Hd; reflexivity.
  - destruct (closed c'); cbn; rewrite ?Hd; reflexivity.
Qed.

Lemma update_dish_returns_true faults db id name price entries :
  fst (call faults db (update_dish id name price entries))
  = Returned true Dish_updated ->
  (price <=? 0)%float = false
  /\ exists c', update_dish_block id name price entries
                  (get_connection faults db) = (Val tt, c')
                /\ snd (call faults db (update_dish id name price entries))
                   = work c'.
Proof.
  destruct (price <=? 0)%float eqn:Hp.
  - unfold update_dish; rewrite Hp; discriminate.
  - rewrite update_dish_call by exact Hp.
    destruct (update_dish_block id name price entries (get_connection faults db))
      as [[[]|r|e] c']; cbn; try discriminate.
    intros _; split; [reflexivity|eauto].
Qed.

Lemma schema_with_dish_updated db id name price n db1 :
  schema_ok db ->
  Sql.update_menu name price id db = inr (n, db1) ->
  sql_int id = true ->
  (exists r, In r (menu_inventory db) /\ menu_row_id r = id) ->
  schema_ok (with_dish_updated id name price db)
  /\ Sql.delete_recipe id db1 = inr (tt, with_dish_updated id name price db)
  /\ recipe_of id (with_dish_updated id name price db) = []
  /\ existsb (fun m => menu_row_id m =? id)
             (menu_inventory (with_dish_updated id name price db)) = true
  /\ In (mk_menu id name price) (menu_inventory (with_dish_updated id name price db)).
Proof.
  intros W Hu Hi (r & Hr & Hid).
  pose proof (@schema_update_menu name price id db n db1 W Hu) as W1.
  assert (Hd : Sql.delete_recipe id db1 = inr (tt, with_dish_updated id name price db)).
  { revert Hu; unfold Sql.update_menu, Sql.delete_recipe, with_dish_updated.
    rewrite Hi; cbn [negb].
    destruct (_ && _); [discriminate|].
    intros H; injection H as _ <-; reflexivity. }
  split; [exact (@schema_delete_recipe id db1 tt _ W1 Hd)|].
  split; [exact Hd|].
  split; [|split].
  - apply recipe_of_unknown_dish; unfold with_dish_updated.
    cbn [dish_ingredients set_recipes].
    intros d Hdi E; apply filter_In in Hdi; destruct Hdi as [_ Hne].
    rewrite E, Z.eqb_refl in Hne; discriminate.
  - unfold with_dish_updated; cbn [menu_inventory set_recipes set_menu].
    apply existsb_exists.
    exists (if menu_row_id r =? id then mk_menu (menu_row_id r) name price else r).
    split; [apply in_map_iff; exists r; auto|].
    destruct (menu_row_id r =? id); cbn; apply Z.eqb_eq; exact Hid.
  - unfold with_dish_updated; cbn [menu_inventory set_recipes set_menu].
    apply in_map_iff; exists r; split; [|exact Hr].
    rewrite Hid, Z.eqb_refl; reflexivity.
Qed.

Lemma write_entry_recipes dish db e :
  exists rows,
    dish_ingredients (write_entry dish db e) = dish_ingredients db ++ rows
    /\ Forall (fun d => menu_id d = dish) rows.
Proof.
  unfold write_entry.
  destruct (Sql.stock_by_name (ing_name e) db) as [r|] eqn:Hr.
  - rewrite Hr; eexists; split; [reflexivity|repeat constructor].
  - destruct (Sql.stock_by_name _ (vivify _ _ db)) as [r|].
    + eexists; split; [reflexivity|repeat constructor].
    + exists []; split; [cbn; rewrite app_nil_r; reflexivity|constructor].
Qed.

Lemma write_entries_recipes dish entries : forall db,
  exists rows,
    dish_ingredients (fold_left (write_entry dish) entries db)
    = dish_ingredients db ++ rows
    /\ Forall (fun d => menu_id d = dish) rows.
Proof.
  induction entries as [|e rest IH]; intros db.
  - exists []; split; [cbn; rewrite app_nil_r; reflexivity|constructor].
  - cbn [fold_left].
    destruct (write_entry_recipes dish db e) as (r1 & H1 & F1).
    destruct (IH (write_entry dish db e)) as (r2 & H2 & F2).
    exists (r1 ++ r2); split; [rewrite H2, H1, app_assoc; reflexivity|].
    apply Forall_app; auto.
Qed.

(** X10. [update_dish] replaces the recipe.  On a store that satisfies
    the constraints of the schema, when [update_dish] returns
    [True, "Dish updated"]: the dish has the new name and price;
    [fetch_dish_ingredients] of the dish returns one row per entry of the new
    recipe, with the name, quantity needed and unit of the entry, and none of
    the former recipe; the recipe rows of every other dish are as before; and
    the store still satisfies the constraints. *)
Theorem update_dish_replaces_recipe
        (faults : option nat) (db : database) (id : Z) (name : string)
        (price : float) (entries : list ingredient) :
  schema_ok db ->
  fst (call faults db (update_dish id name price entries))
  = Returned true Dish_updated ->
  let db' := snd (call faults db (update_dish id name price entries)) in
  In (mk_menu id name price) (menu_inventory db')
  /\ schema_ok db'
  /\ (exists views,
        run None db' (fetch_dish_ingredients id) = (inr views, db')
        /\ map view_shows views = map entry_asks entries)
  /\ (forall other, other <> id ->
        filter (fun d => menu_id d =? other) (dish_ingredients db')
        = filter (fun d => menu_id d =? other) (dish_ingredients db)).
Proof.
  intros W H; cbv zeta.
  destruct (update_dish_returns_true _ _ _ _ _ _ H) as (Hp & c' & Hb & ->).
  revert Hb; unfold update_dish_block, bind at 1, query_int.
  cbn [get_connection closed work].
  destruct (sql_int id) eqn:Hi; [|discriminate].
  destruct (Sql.dish_by_id id db) as [r|] eqn:Hr; [|discriminate].
  unfold bind at 1.
  destruct (execute_cases (R := result) (Sql.update_menu name price id)
                          (get_connection faults db))
    as [(x & c1 & He)|(n & db1 & Hs & _ & He)]; [rewrite He; discriminate|].
  rewrite He; cbn [get_connection work disk writes_left] in Hs |- *.
  assert (Hst : exists r0, In r0 (menu_inventory db) /\ menu_row_id r0 = id).
  { unfold Sql.dish_by_id in Hr; apply find_some in Hr.
    exists r; split; [tauto|apply Z.eqb_eq; tauto]. }
  destruct (@schema_with_dish_updated db id name price _ _ W Hs Hi Hst)
    as (W2 & Hd & Hnil & Hm & Hin).
  unfold bind at 1.
  match goal with
  | |- context [execute (Sql.delete_recipe id) ?cc] =>
      destruct (execute_cases (R := result) (Sql.delete_recipe id) cc)
        as [(x & c2 & He2)|(a2 & db2 & Hs2 & _ & He2)];
        [rewrite He2; discriminate|]
  end.
  rewrite He2; cbn [work disk] in Hs2 |- *.
  rewrite Hd in Hs2; injection Hs2 as <- <-.
  intros Hb; apply update_loop_val, create_dish_ingredients_val in Hb;
    [|reflexivity].
  cbn [work] in Hb; destruct Hb as [-> Hacc].
  destruct (@write_entries_rows id entries _ W2 Hm Hacc) as [W3 Hrows].
  split; [apply stock_rows_kept_menu; exact Hin|].
  split; [exact W3|].
  split.
  { rewrite run_fetch_dish_ingredients, Hi; eexists; split; [reflexivity|].
    rewrite Hrows, Hnil; reflexivity. }
  intros other Hne.
  destruct (write_entries_recipes id entries (with_dish_updated id name price db))
    as (rows & -> & Hrows').
  rewrite filter_app.
  replace (filter (fun d => menu_id d =? other) rows) with (@nil recipe_row).
  2: { symmetry; clear - Hrows' Hne; induction Hrows' as [|d l Hd _ IH];
         [reflexivity|].
       cbn [filter]; rewrite Hd.
       destruct (id =? other) eqn:E; [apply Z.eqb_eq in E; congruence|exact IH]. }
  rewrite app_nil_r; unfold with_dish_updated.
  cbn [dish_ingredients set_recipes].
  clear - Hne; induction (dish_ingredients db) as [|d l IH]; [reflexivity|].
  cbn [filter]; destruct (menu_id d =? id) eqn:E1; cbn [negb filter];
    destruct (menu_id d =? other) eqn:E2; try rewrite IH; try reflexivity;
    apply Z.eqb_eq in E1, E2; congruence.
Qed.

(* ================================================================== *)
(** * The list functions: what they return and when they raise *)
(* ================================================================== *)

(** X11. [compute_low_stock_alerts] and a stock that is NULL.  For every
    stored database, the call ends by an uncaught [TypeError] exactly when
    some recipe row refers to an ingredient whose [quantity_in_stock] is NULL
    (the comparison [None < threshold] raises); otherwise it returns its list.
    In both cases the store is left as it is. *)
Theorem low_stock_alerts_raise_on_null (faults : option nat) (db : database) :
  (fst (run faults db compute_low_stock_alerts) = inl (Raised TypeError)
   <-> exists r, In r (recipe_join db) /\ j_quantity_in_stock r = None)
  /\ ((forall r, In r (recipe_join db) -> j_quantity_in_stock r <> None) ->
      exists alerts, fst (run faults db compute_low_stock_alerts) = inr alerts)
  /\ snd (run faults db compute_low_stock_alerts) = db.
Proof.
  assert (Hnull : (exists r, In r (recipe_join db) /\ j_quantity_in_stock r = None) ->
                  run faults db compute_low_stock_alerts
                  = (inl (Raised TypeError), db)).
  { intros H; unfold run, compute_low_stock_alerts, bind at 1, query.
    cbn [get_connection closed work]; unfold bind at 1.
    rewrite scan_alerts_null by exact H; reflexivity. }
  assert (Hsome : (forall r, In r (recipe_join db) -> j_quantity_in_stock r <> None) ->
                  exists alerts,
                    run faults db compute_low_stock_alerts = (inr alerts, db)).
  { intros H.
    destruct (@scan_alerts_spec (list alert) (recipe_join db) [] []
                (get_connection faults db) H) as (out & Hrun & _).
    { intros k; reflexivity. }
    { constructor. }
    exists out; apply run_compute_low_stock_alerts; exact Hrun. }
  assert (Hdec : (exists r, In r (recipe_join db) /\ j_quantity_in_stock r = None)
                 \/ (forall r, In r (recipe_join db) -> j_quantity_in_stock r <> None)).
  { clear; generalize (recipe_join db); intros rows.
    induction rows as [|r l IH]; [right; intros r []|].
    destruct (j_quantity_in_stock r) eqn:E.
    - destruct IH as [(r' & Hr' & E')|IH].
      + left; exists r'; split; [right; exact Hr'|exact E'].
      + right; intros r' [<-|Hr']; [congruence|auto].
    - left; exists r; split; [left; reflexivity|exact E]. }
  split; [split|split].
  - intros H; destruct Hdec as [Hd|Hd]; [exact Hd|].
    destruct (Hsome Hd) as (alerts & Ha); rewrite Ha in H; discriminate.
  - intros H; rewrite (Hnull H); reflexivity.
  - intros H; destruct (Hsome H) as (alerts & Ha); exists alerts.
    rewrite Ha; reflexivity.
  - destruct Hdec as [Hd|Hd]; [rewrite (Hnull Hd); reflexivity|].
    destruct (Hsome Hd) as (alerts & Ha); rewrite Ha; reflexivity.
Qed.

Section OrderFilters.

Variable sql_like : string -> string -> bool.
Variable sql_date : string -> option string.
Variable lower : string -> string.

Lemma collect_orders_filter {R} fn rows : forall results c,
  closed c = false ->
  collect_orders (R := R) lower fn rows results c
  = (Val (results
          ++ filter (fun e => name_matches lower fn (entry_items e))
                    (map (entry_of (work c)) rows)), c).
Proof.
  induction rows as [|r rest IH]; intros results c Hc;
    cbn [collect_orders map filter].
  - rewrite app_nil_r; reflexivity.
  - unfold bind, query; rewrite Hc.
    unfold name_matches at 1; cbn [entry_of entry_items].
    destruct (truthy fn && negb _); cbn [negb]; rewrite IH by exact Hc.
    + reflexivity.
    + rewrite <- app_assoc; reflexivity.
Qed.

Lemma run_fetch_orders faults db fn sd ed :
  run faults db (fetch_orders sql_date lower fn sd ed)
  = (inr (filter (fun e => name_matches lower fn (entry_items e))
                 (map (entry_of db)
                      (order_by_date_desc
                         (filter (date_in_range sql_date sd ed) (orders db))))),
     db).
Proof.
  unfold run, fetch_orders, bind at 1, query.
  cbn [get_connection closed work].
  unfold bind at 1; rewrite collect_orders_filter by reflexivity.
  reflexivity.
Qed.

Lemma fetched_orders_in faults db fn sd ed e :
  In e (fetched (run faults db (fetch_orders sql_date lower fn sd ed)))
  <-> exists r, In r (orders db) /\ e = entry_of db r
                /\ date_in_range sql_date sd ed r = true
                /\ name_matches lower fn (entry_items e) = true.
Proof.
  rewrite run_fetch_orders; unfold fetched; cbn [fst].
  rewrite filter_In, in_map_iff; split.
  - intros [(r & <- & Hr) Hn].
    apply (Permutation_in _ (order_by_date_desc_perm _)) in Hr.
    apply filter_In in Hr; destruct Hr as [Hr Hd].
    exists r; auto.
  - intros (r & Hr & -> & Hd & Hn); split; [|exact Hn].
    exists r; split; [reflexivity|].
    apply (Permutation_in _ (Permutation_sym (order_by_date_desc_perm _))).
    apply filter_In; auto.
Qed.

(** X12. The filters of [fetch_orders] only remove orders.  For every
    stored database and all filters:
    - the store is left as it is;
    - an entry is returned exactly when it is returned without filters, the
      date of its order passes the date filters that are set, and, when a
      dish name is given, the name of one of its dishes contains it, whatever
      the case of the letters; so every entry returned with filters is
      returned without them;
    - with a dish name given, an order without items is never returned;
    - an empty string is no filter. *)
Theorem fetch_orders_filters (faults : option nat) (db : database)
        (filter_name start_date end_date : option string) :
  let filtered := run faults db (fetch_orders sql_date lower filter_name
                                              start_date end_date) in
  let unfiltered := run faults db (fetch_orders sql_date lower None None None) in
  snd filtered = db
  /\ (forall e,
        In e (fetched filtered)
        <-> In e (fetched unfiltered)
            /\ date_in_range sql_date start_date end_date (entry_order e) = true
            /\ name_matches lower filter_name (entry_items e) = true)
  /\ incl (fetched filtered) (fetched unfiltered)
  /\ (truthy filter_name = true ->
      forall e, In e (fetched filtered) -> entry_items e <> [])
  /\ run faults db (fetch_orders sql_date lower (Some "") (Some "") (Some ""))
     = unfiltered.
Proof.
  cbv zeta.
  assert (Hiff : forall e,
             In e (fetched (run faults db
                              (fetch_orders sql_date lower filter_name
                                            start_date end_date)))
             <-> In e (fetched (run faults db
                                  (fetch_orders sql_date lower None None None)))
                 /\ date_in_range sql_date start_date end_date (entry_order e)
                    = true
                 /\ name_matches lower filter_name (entry_items e) = true).
  { intros e; rewrite !fetched_orders_in; split.
    - intros (r & Hr & -> & Hd & Hn); repeat split; auto.
      exists r; repeat split; auto.
    - intros ((r & Hr & -> & _ & _) & Hd & Hn); exists r; auto. }
  split; [rewrite run_fetch_orders; reflexivity|].
  split; [exact Hiff|].
  split; [intros e He; apply Hiff in He; tauto|].
  split; [|rewrite !run_fetch_orders; reflexivity].
  intros Ht e He; apply Hiff in He; destruct He as (_ & _ & Hn).
  intros Hnil; rewrite Hnil in Hn; unfold name_matches in Hn.
  rewrite Ht in Hn; discriminate.
Qed.

End OrderFilters.

(* ================================================================== *)
(** * [create_order]: the line that is refused *)
(* ================================================================== *)

Lemma validate_items_prefix good : forall dish_map sub c,
  closed c = false -> Forall (line_known (work c)) good ->
  exists dish_map' sub',
    forall rest,
      validate_items (good ++ rest) dish_map sub c
      = validate_items rest dish_map' sub' c.
Proof.
  induction good as [|[d q] good IH]; intros dish_map sub c Hc Hall.
  - exists dish_map, sub; reflexivity.
  - inversion Hall as [|? ? (Hq & Hd & Hr) Hrest]; subst; cbn [fst snd] in *.
    destruct (Sql.dish_by_id d (work c)) as [r|] eqn:Er; [|congruence].
    destruct (IH (dict_set d (mk_dish_info (dish_name r) (dish_price r)) dish_map)
                 (sub + dish_price r * PyFloat.to_float q)%float c Hc Hrest)
      as (dm' & sub' & H).
    exists dm', sub'; intros rest.
    cbn [app validate_items].
    destruct (q <=? 0) eqn:E; [apply Z.leb_le in E; lia|].
    unfold bind at 1, query_int; rewrite Hc, Hd, Er.
    unfold bind at 1; rewrite mul_int_small by lia.
    apply H.
Qed.

Lemma accumulate_needs_prefix good dish_map : forall needs c,
  closed c = false -> Forall (line_ok (work c)) good ->
  forall rest,
    accumulate_needs (good ++ rest) dish_map needs c
    = accumulate_needs rest dish_map
        (needs_after_items (work c) good needs) c.
Proof.
  induction good as [|[d q] good IH]; intros needs c Hc Hall rest; [reflexivity|].
  inversion Hall as [|? ? (Hq & Hd & _ & Hrec) Hrest]; subst; cbn [fst snd] in *.
  cbn [app accumulate_needs needs_after_items].
  unfold bind at 1, query_int; rewrite Hc, Hd.
  destruct (recipe_of d (work c)) as [|r0 rows] eqn:E; [congruence|].
  unfold bind at 1; rewrite add_needs_ok by lia.
  apply IH; assumption.
Qed.

Lemma line_ok_known db l : line_ok db l -> line_known db l.
Proof. intros (H1 & H2 & H3 & _); repeat split; auto; lia. Qed.

(** A [return] in the loops before the transaction is the outcome of the
    call, and the store is as before. *)
Lemma create_order_returns faults now items db m :
  create_order_try now items (get_connection faults db)
  = (Ret (false, m), get_connection faults db) ->
  call faults db (create_order now items) = (Returned false m, db).
Proof. intros H; rewrite create_order_call; cbv zeta; rewrite H; reflexivity. Qed.

(** X13. The first line [create_order] refuses decides the message.  When
    the lines before it are acceptable (quantity at least 1, dish on the
    menu with a recipe), wherever the storage fails:
    - a line with a quantity [<= 0] gives "Quantity must be >= 1";
    - a line whose dish id is not on the menu gives
      "Dish id <id> not found";
    - when every line of the basket passes these two checks, a line whose
      dish has no recipe row gives "Dish <name> has no ingredients defined"
      with the name the menu has for the dish;
    and in each case the store is left as it was. *)
Theorem create_order_refused_line
        (faults : option nat) (now : string) (db : database)
        (good : list line) (d q : Z) (rest : list line) :
  Forall (line_ok db) good ->
  let result := call faults db (create_order now (good ++ (d, q) :: rest)) in
  (q <= 0 -> result = (Returned false Quantity_must_be_ge_1, db))
  /\ (0 < q -> sql_int d = true -> Sql.dish_by_id d db = None ->
      result = (Returned false (Dish_id_not_found d), db))
  /\ (forall r,
        0 < q < 2 ^ 63 -> sql_int d = true -> Sql.dish_by_id d db = Some r ->
        recipe_of d db = [] -> Forall (line_known db) rest ->
        result = (Returned false (Dish_has_no_ingredients (dish_name r)), db)).
Proof.
  intros Hgood; cbv zeta.
  set (c := get_connection faults db).
  assert (Hknown : Forall (line_known (work c)) good).
  { eapply Forall_impl; [|exact Hgood]; intros l; apply line_ok_known. }
  destruct (@validate_items_prefix good [] 0%float c eq_refl Hknown)
    as (dm & sub & Hpre).
  split; [|split].
  - intros Hq; apply create_order_returns; fold c.
    unfold create_order_try, bind at 1; rewrite Hpre.
    cbn [validate_items].
    replace (q <=? 0) with true by (symmetry; apply Z.leb_le; exact Hq).
    reflexivity.
  - intros Hq Hi Hd; apply create_order_returns; fold c.
    unfold create_order_try, bind at 1; rewrite Hpre.
    cbn [validate_items].
    replace (q <=? 0) with false by (symmetry; apply Z.leb_gt; exact Hq).
    unfold bind at 1, query_int; cbn [c get_connection closed work].
    rewrite Hi, Hd; reflexivity.
  - intros r Hq Hi Hd Hnil Hrest; apply create_order_returns; fold c.
    assert (Hall : Forall (line_known (work c)) (good ++ (d, q) :: rest)).
    { apply Forall_app; split; [exact Hknown|].
      constructor; [|exact Hrest].
      repeat split; cbn [fst snd]; try lia; auto.
      cbn [c get_connection work]; congruence. }
    destruct (@validate_items_prefix _ [] 0%float c eq_refl Hall)
      as (dm2 & sub2 & Hv).
    specialize (Hv []); rewrite app_nil_r in Hv; cbn [validate_items] in Hv.
    unfold ret in Hv.
    pose proof (@validate_items_val _ [] 0%float c dm2 sub2 c Hv) as Hval.
    destruct Hval as (_ & _ & Hok & _ & Hlines); [intros k info; discriminate|].
    unfold create_order_try, bind at 1; rewrite Hv; cbn [fst snd].
    unfold bind at 1.
    rewrite accumulate_needs_prefix by (auto; reflexivity).
    cbn [accumulate_needs].
    unfold bind at 1, query_int; cbn [c get_connection closed work].
    rewrite Hi, Hnil.
    apply Forall_app in Hlines; destruct Hlines as [_ Hlines].
    inversion Hlines as [|? ? (_ & _ & _ & _ & Hg) _]; subst; cbn [fst] in Hg.
    destruct (dict_get d dm2) as [info|] eqn:Eg; [|congruence].
    destruct (Hok d info Eg) as (r' & Hr' & ->).
    cbn [c get_connection work] in Hr'.
    assert (r' = r) by congruence; subst r'; reflexivity.
Qed.

(* ================================================================== *)
(** * AUTOINCREMENT: an id is given once *)
(* ================================================================== *)

Lemma old_or_new_snoc {A} (key : A -> Z) seq0 rows0 rows x :
  old_or_new key seq0 rows0 rows -> seq0 < key x ->
  old_or_new key seq0 rows0 (rows ++ [x]).
Proof.
  intros H Hx r Hr; apply in_app_or in Hr; destruct Hr as [Hr|[<-|[]]]; auto.
Qed.

Lemma old_or_new_map {A} (key : A -> Z) seq0 rows0 rows
      (hit : A -> bool) (upd : A -> A) :
  (forall r, key (upd r) = key r) ->
  old_or_new key seq0 rows0 rows ->
  old_or_new key seq0 rows0 (map (fun r => if hit r then upd r else r) rows).
Proof.
  intros Hu H r Hr; apply in_map_iff in Hr; destruct Hr as (r0 & <- & Hr0).
  destruct (hit r0); [rewrite Hu|]; auto.
Qed.

Lemma old_or_new_filter {A} (key : A -> Z) seq0 rows0 rows (p : A -> bool) :
  old_or_new key seq0 rows0 rows -> old_or_new key seq0 rows0 (filter p rows).
Proof. intros H r Hr; apply filter_In in Hr; apply H; tauto. Qed.

Ltac issued_goal :=
  match goal with
  | |- _ <= _ => cbn; try lia;
                 match goal with
                 | |- _ <= next_id ?s ?l => pose proof (next_id_above s l); lia
                 end
  | |- old_or_new _ _ _ (_ ++ [_]) =>
      apply old_or_new_snoc; [assumption|cbn;
        match goal with
        | |- _ < next_id ?s ?l => pose proof (next_id_above s l); lia
        end]
  | |- old_or_new _ _ _ (map _ _) =>
      apply old_or_new_map; [reflexivity|assumption]
  | |- old_or_new _ _ _ (filter _ _) => apply old_or_new_filter; assumption
  | |- old_or_new _ _ _ _ => assumption
  end.

Lemma issued_statements db0 : statements_keep (issued_after db0).
Proof.
  constructor; intros; intros db a db' P H; stmt_succeeded H;
    destruct P as ((S1 & S2 & S3 & S4 & S5) & P1 & P2 & P3 & P4 & P5);
    unfold issued_after; cbv zeta; cbn [stock_inventory menu_inventory
      dish_ingredients orders order_items sqlite_sequence set_stock set_menu
      set_recipes set_orders set_items seq_stock seq_menu seq_recipe
      seq_orders seq_items];
    (split; [repeat apply conj|repeat apply conj]); issued_goal.
Qed.

Lemma issued_refl db : issued_after db db.
Proof.
  unfold issued_after; cbv zeta; repeat apply conj; try lia;
    intros r Hr; left; apply in_map; exact Hr.
Qed.

(** X14. An id is given once.  For every call that changes the store, with
    any arguments and wherever the storage fails, and for every sequence of
    such calls: no AUTOINCREMENT counter goes down, and every row of the
    store afterwards has an id that a row of its table had before, or an id
    above the counter the table had before.  On a store that satisfies the
    constraints of the schema, a new row therefore never gets the id of a
    stored row, nor of a row that was deleted. *)
Theorem ids_are_given_once :
  (forall faults op db, issued_after db (snd (call faults db (perform op))))
  /\ (forall ops db, issued_after db (perform_all ops db))
  /\ (forall ops db r,
        schema_ok db -> In r (stock_inventory (perform_all ops db)) ->
        In (stock_id r) (map stock_id (stock_inventory db))
        \/ forall r0, In r0 (stock_inventory db) -> stock_id r0 < stock_id r).
Proof.
  assert (Hstep : forall db0 faults op db,
             issued_after db0 db ->
             issued_after db0 (snd (call faults db (perform op)))).
  { intros db0 faults op db H.
    apply stable_call; [apply stable_perform, issued_statements|exact H]. }
  assert (Hall : forall db0 ops db,
             issued_after db0 db -> issued_after db0 (perform_all ops db)).
  { intros db0; induction ops as [|[f op] ops IH]; intros db H; [exact H|].
    unfold perform_all; cbn [fold_left fst snd]; apply IH, Hstep, H. }
  split; [intros; apply Hstep, issued_refl|].
  split; [intros; apply Hall, issued_refl|].
  intros ops db r W Hr.
  destruct (Hall db ops db (issued_refl db)) as (_ & P1 & _).
  destruct (P1 r Hr) as [H|H]; [left; exact H|right].
  intros r0 Hr0; pose proof (stock_seq W r0 Hr0); lia.
Qed.

(* ================================================================== *)
(** * The basket the [new_order] route passes to [create_order] *)
(* ================================================================== *)

Lemma raises_errors_return {R A} (r : R) : raises_errors (return_ (A := A) r).
Proof. intros c e c'; discriminate. Qed.

Lemma raises_errors_raised {R A} k :
  raises_errors (raise (R := R) (A := A) (Raised k)).
Proof. intros c e c' H; injection H as <- _; eauto. Qed.

Lemma raises_errors_query_int {R A} n (q : Z -> database -> A) :
  raises_errors (query_int (R := R) n q).
Proof.
  intros c e c'; unfold query_int.
  destruct (closed c); [intros H; injection H as <- _; eauto|].
  destruct (sql_int n); [discriminate|intros H; injection H as <- _; eauto].
Qed.

Lemma never_returns_bind m0 {A B} (m : M result A) (k : A -> M result B) :
  never_returns m0 m -> (forall a, never_returns m0 (k a)) ->
  never_returns m0 (bind m k).
Proof.
  intros Hm Hk c r c'; unfold bind.
  pose proof (Hm c) as Hmc.
  destruct (m c) as [[a|r0|e] c0]; [apply Hk| |discriminate].
  intros H; injection H as <- <-; eapply Hmc; reflexivity.
Qed.

Lemma never_returns_no_return m0 {A} (m : M result A) :
  no_return m -> never_returns m0 m.
Proof.
  intros H c r c' E; exfalso; apply (H c r); rewrite E; reflexivity.
Qed.

Lemma validate_items_results items : forall dish_map sub,
  Forall (fun l : line => 1 <= snd l) items ->
  never_returns Quantity_must_be_ge_1 (validate_items items dish_map sub)
  /\ raises_errors (validate_items items dish_map sub).
Proof.
  induction items as [|[d q] rest IH]; intros dish_map sub Hall.
  - split; [intros c r c'; discriminate|apply raises_errors_ret].
  - inversion Hall as [|? ? Hq Hrest]; subst; cbn [snd] in Hq.
    cbn [validate_items].
    destruct (q <=? 0) eqn:E; [apply Z.leb_le in E; lia|].
    split.
    + apply never_returns_bind;
        [apply never_returns_no_return, no_return_query_int|intros [r|]].
      * apply never_returns_bind;
          [apply never_returns_no_return, no_return_mul_int|intros p].
        apply IH; exact Hrest.
      * intros c r c' H; injection H as <- _; discriminate.
    + apply raises_errors_bind; [apply raises_errors_query_int|intros [r|]].
      * apply raises_errors_bind; [apply raises_errors_mul_int|intros p].
        apply IH; exact Hrest.
      * apply raises_errors_return.
Qed.

Lemma add_needs_results rows qty : forall needs,
  no_return (add_needs rows qty needs) /\ raises_errors (add_needs rows qty needs).
Proof.
  induction rows as [|r rest IH]; intros needs; cbn [add_needs].
  - split; [apply no_return_ret|apply raises_errors_ret].
  - split.
    + apply no_return_bind; [apply no_return_mul_int|intros t; apply IH].
    + apply raises_errors_bind; [apply raises_errors_mul_int|intros t; apply IH].
Qed.

Lemma accumulate_needs_results items dish_map : forall needs,
  never_returns Quantity_must_be_ge_1 (accumulate_needs items dish_map needs)
  /\ raises_errors (accumulate_needs items dish_map needs).
Proof.
  induction items as [|[d q] rest IH]; intros needs; cbn [accumulate_needs].
  - split; [intros c r c'; discriminate|apply raises_errors_ret].
  - split.
    + apply never_returns_bind;
        [apply never_returns_no_return, no_return_query_int|intros [|r0 rows]].
      * destruct (dict_get d dish_map); intros c r c' H; [|discriminate].
        injection H as <- _; discriminate.
      * apply never_returns_bind;
          [apply never_returns_no_return, add_needs_results|intros n; apply IH].
    + apply raises_errors_bind; [apply raises_errors_query_int|intros [|r0 rows]].
      * destruct (dict_get d dish_map);
          [apply raises_errors_return|apply raises_errors_raised].
      * apply raises_errors_bind; [apply add_needs_results|intros n; apply IH].
Qed.

Lemma check_stock_results needs :
  never_returns Quantity_must_be_ge_1 (check_stock needs)
  /\ raises_errors (check_stock needs).
Proof.
  induction needs as [|[iid info] rest [IH1 IH2]]; cbn [check_stock].
  - split; [intros c r c'; discriminate|apply raises_errors_ret].
  - destruct (need_stock info) as [stock|].
    + destruct (stock <? needed info)%float; [|split; assumption].
      split; [|apply raises_errors_return].
      intros c r c' H; injection H as <- _; discriminate.
    + split; [intros c r c'; discriminate|apply raises_errors_raised].
Qed.

Lemma create_order_try_results now items :
  Forall (fun l : line => 1 <= snd l) items ->
  never_returns Quantity_must_be_ge_1 (create_order_try now items)
  /\ raises_errors (create_order_try now items).
Proof.
  intros Hall; unfold create_order_try; split.
  - apply never_returns_bind; [apply validate_items_results, Hall|intros vs].
    apply never_returns_bind; [apply accumulate_needs_results|intros needs].
    apply never_returns_bind; [apply check_stock_results|intros _].
    apply never_returns_bind.
    + intros c r c' H.
      destruct (order_transaction_cases now (PyFloat.round2 (snd vs))
                  (PyFloat.round2 (snd vs * vatRate))
                  (PyFloat.round2 (snd vs + PyFloat.round2 (snd vs * vatRate)))
                  items (fst vs) needs c)
        as [(e & c4 & Hw & _)|(id & c4 & _ & _ & Hw)];
        rewrite Hw in H; discriminate.
    + intros id c r c' H; injection H as <- _; discriminate.
  - apply raises_errors_bind; [apply validate_items_results, Hall|intros vs].
    apply raises_errors_bind; [apply accumulate_needs_results|intros needs].
    apply raises_errors_bind; [apply check_stock_results|intros _].
    apply raises_errors_bind;
      [apply raises_errors_order_transaction|intros id; apply raises_errors_return].
Qed.

Lemma new_order_items_in py_int pairs did n :
  In (did, n) (new_order_items py_int pairs)
  <-> exists q, In (did, q) pairs /\ did <> "" /\ py_int q = Some n /\ 1 <= n.
Proof.
  induction pairs as [|[d0 q0] rest IH]; cbn [new_order_items].
  - split; [intros []|intros (q & [] & _)].
  - destruct (String.eqb_spec d0 "") as [->|Hne].
    + rewrite IH; split; intros (q & Hq & H); exists q; [split; [right|]; tauto|].
      destruct Hq as [Hq|Hq]; [injection Hq as <- _; tauto|tauto].
    + destruct (py_int q0) as [n0|] eqn:Ep; cbv zeta.
      * destruct (n0 <=? 0) eqn:E.
        -- apply Z.leb_le in E; rewrite IH; split; intros (q & Hq & H);
             exists q; [split; [right|]; tauto|].
           destruct Hq as [Hq|Hq]; [|tauto].
           injection Hq as <- <-; destruct H as (_ & H1 & H2).
           rewrite Ep in H1; injection H1 as <-; lia.
        -- apply Z.leb_gt in E; cbn [In]; rewrite IH; split.
           ++ intros [H|(q & Hq & H)].
              ** injection H as <- <-; exists q0.
                 split; [left; reflexivity|split; [exact Hne|split; [exact Ep|lia]]].
              ** exists q; split; [right|]; tauto.
           ++ intros (q & [Hq|Hq] & H).
              ** injection Hq as <- <-; left.
                 destruct H as (_ & H1 & _); rewrite Ep in H1.
                 injection H1 as <-; reflexivity.
              ** right; exists q; tauto.
      * cbn; rewrite IH; split; intros (q & Hq & H); exists q;
          [split; [right|]; tauto|].
        destruct Hq as [Hq|Hq]; [|tauto].
        injection Hq as <- <-; destruct H as (_ & H1 & _); congruence.
Qed.

(** X16. The basket of the [new_order] route.  For every list of dish ids
    and of quantities the form submits, with Python's [int] as a parameter:
    - a line is in the basket exactly when the form has a pair with that dish
      id, not empty, and a quantity that [int] reads as that number, at
      least 1; so every line of the basket has a quantity of at least 1, and
      the basket is empty exactly when the form has no such pair;
    - for every basket whose quantities are all at least 1, as these are,
      whatever the dish ids are, [create_order] never answers
      "Quantity must be >= 1". *)
Theorem new_order_basket
        (py_int : string -> option Z) (dish_ids qtys : list string) :
  let items := new_order_items py_int (combine dish_ids qtys) in
  (forall did n,
     In (did, n) items
     <-> exists q, In (did, q) (combine dish_ids qtys) /\ did <> ""
                   /\ py_int q = Some n /\ 1 <= n)
  /\ Forall (fun it => fst it <> "" /\ 1 <= snd it) items
  /\ (items = []
      <-> forall did q n, In (did, q) (combine dish_ids qtys) -> did <> "" ->
                          py_int q = Some n -> n <= 0)
  /\ (forall faults now db ids,
        let lines := combine ids (map snd items) in
        forall m, fst (call faults db (create_order now lines)) = Returned false m ->
                  m <> Quantity_must_be_ge_1).
Proof.
  cbv zeta; set (items := new_order_items py_int (combine dish_ids qtys)).
  assert (Hin := fun did n => new_order_items_in py_int (combine dish_ids qtys) did n).
  fold items in Hin.
  assert (Hall : Forall (fun it : string * Z => fst it <> "" /\ 1 <= snd it) items).
  { apply Forall_forall; intros [did n] H; apply Hin in H.
    destruct H as (q & _ & H1 & _ & H2); auto. }
  split; [exact Hin|split; [exact Hall|split]].
  - split.
    + intros Hnil did q n Hq Hd Hp.
      destruct (Z.le_gt_cases n 0) as [|Hn]; [assumption|exfalso].
      assert (H : In (did, n) items) by (apply Hin; exists q; repeat split; auto; lia).
      rewrite Hnil in H; destruct H.
    + intros H; destruct items as [|[did n] rest] eqn:E; [reflexivity|exfalso].
      destruct (proj1 (Hin did n) (or_introl eq_refl)) as (q & Hq & Hd & Hp & Hn).
      specialize (H did q n Hq Hd Hp); lia.
  - intros faults now db ids m.
    assert (Hq : Forall (fun l : line => 1 <= snd l) (combine ids (map snd items))).
    { apply Forall_forall; intros [d n] H; apply in_combine_r in H.
      apply in_map_iff in H; destruct H as (it & <- & Hit).
      apply (proj1 (Forall_forall _ _) Hall it Hit). }
    destruct (create_order_try_results now Hq) as [Hr He].
    rewrite create_order_call; cbv zeta.
    destruct (create_order_try now _ (get_connection faults db))
      as [[[ok m']|[ok m']|e] c'] eqn:Htry; cbn [fst]; intros H.
    + destruct (create_order_try_cases _ _ _ Htry) as [[id H']|[_ [[m0 H']|[e H']]]];
        discriminate H'.
    + injection H as _ <-; exact (Hr _ _ _ Htry).
    + injection H as <-; destruct (He _ _ _ Htry) as [k ->]; discriminate.
Qed.

(* ================================================================== *)
(** * The properties on stored examples *)
(* ================================================================== *)

Ltac example_rows H :=
  vm_compute in H; repeat (destruct H as [<-|H]); try (destruct H).

Ltac pick_row := (left + (right; pick_row)).

(** A stored row with the key asked for. *)
Ltac stored_row :=
  eexists; (split; [vm_compute; pick_row; reflexivity|]); reflexivity.

(** A basket line of an example that passes the checks. *)
Ltac line_example :=
  repeat split; cbn [fst snd]; try lia; vm_compute; (reflexivity || discriminate).

(** The constraints of the schema on a stored example, by computation. *)
Ltac schema_example :=
  constructor;
  match goal with
  | |- NoDup _ => vm_compute; repeat constructor; cbn; intuition discriminate
  | |- forall r, In r _ -> _ <= _ =>
      let H := fresh "H" in
      intros r H; example_rows H; vm_compute; discriminate
  | |- forall r, In r _ -> exists _, _ =>
      let H := fresh "H" in
      intros r H; example_rows H; stored_row
  end.

Lemma schema_is_invariant_witness :
  schema_ok (snd (call (Some 2%nat) bakery
                       (perform (Create_order "2024-05-02 09:00:00" [(1, 2)])))).
Proof. apply (proj1 schema_is_invariant); schema_example. Defined.

(** Salt is not in the pantry: it is added as the third row. *)
Lemma add_ingredient_adds_one_row_witness :
  let db' := after (add_ingredient "Salt" 5 "ml") pantry in
  exists row,
    stock_inventory db' = stock_inventory pantry ++ [row]
    /\ ingredient_name row = "Salt"
    /\ quantity_in_stock row = sql_real 5
    /\ validate_unit "ml" = Some (stock_unit row)
    /\ In (stock_unit row) allowed_units
    /\ seq_stock (sqlite_sequence pantry) < stock_id row
    /\ ~ In (stock_id row) (map stock_id (stock_inventory pantry))
    /\ Sql.stock_by_name "Salt" db' = Some row
    /\ call None db' (add_ingredient "Salt" 5 "ml")
       = (Returned false Ingredient_already_exists, db').
Proof.
  apply (proj1 (proj2 (add_ingredient_adds_one_row None pantry "Salt" 5 "ml"))).
  vm_compute; reflexivity.
Defined.

(** The sugar of the pantry, renamed and restocked. *)
Lemma update_ingredient_by_id_outcomes_witness :
  let result := call None pantry (update_ingredient_by_id 2 "Cane sugar" 250 "g") in
  fst result = Returned true Ingredient_updated
  /\ stock_inventory (snd result)
     = map (fun r => if stock_id r =? 2
                     then mk_stock 2 "Cane sugar" (sql_real 250) "g"
                     else r) (stock_inventory pantry).
Proof.
  assert (Hnd : NoDup (map stock_id (stock_inventory pantry))).
  { vm_compute; repeat constructor; cbn; intuition discriminate. }
  pose proof (update_ingredient_by_id_outcomes None pantry 2 "Cane sugar" 250 "g")
    as H.
  cbv zeta in H; destruct H as (_ & _ & H).
  destruct (H "g" eq_refl eq_refl eq_refl Hnd) as (_ & _ & _ & H4).
  apply H4.
  - reflexivity.
  - stored_row.
  - intros (r & Hin & Hne & Hname); example_rows Hin.
    + discriminate Hname.
    + apply Hne; reflexivity.
Defined.

(** In the bakery the bread uses the flour, and nothing uses the sugar. *)
Lemma delete_ingredient_by_id_outcomes_witness :
  call None bakery (delete_ingredient_by_id 1)
  = (Uncaught (Raised IntegrityError), bakery)
  /\ fst (call None bakery (delete_ingredient_by_id 2))
     = Returned true Ingredient_deleted
  /\ stock_inventory (snd (call None bakery (delete_ingredient_by_id 2)))
     = filter (fun r => negb (stock_id r =? 2)) (stock_inventory bakery).
Proof.
  pose proof (delete_ingredient_by_id_outcomes None bakery 1) as H1.
  pose proof (delete_ingredient_by_id_outcomes None bakery 2) as H2.
  cbv zeta in H1, H2.
  destruct H1 as (_ & H1); destruct (H1 eq_refl) as (_ & _ & H1' & _).
  destruct H2 as (_ & H2); destruct (H2 eq_refl) as (_ & _ & _ & H2').
  split.
  - apply H1'; [reflexivity|stored_row|stored_row].
  - apply H2'.
    + reflexivity.
    + stored_row.
    + intros (d & Hin & Hd); example_rows Hin; discriminate Hd.
Defined.

(** The bread of the bakery was ordered; the bread of the kitchen was
    not. *)
Lemma delete_dish_outcomes_witness :
  call None bakery (delete_dish 1) = (Uncaught (Raised IntegrityError), bakery)
  /\ fst (call None kitchen (delete_dish 1)) = Returned true Dish_deleted
  /\ menu_inventory (snd (call None kitchen (delete_dish 1)))
     = filter (fun r => negb (menu_row_id r =? 1)) (menu_inventory kitchen)
  /\ dish_ingredients (snd (call None kitchen (delete_dish 1)))
     = filter (fun d => negb (menu_id d =? 1)) (dish_ingredients kitchen)
  /\ recipe_of 1 (snd (call None kitchen (delete_dish 1))) = [].
Proof.
  pose proof (delete_dish_outcomes None bakery 1) as H1.
  pose proof (delete_dish_outcomes None kitchen 1) as H2.
  cbv zeta in H1, H2.
  destruct H1 as (_ & H1); destruct (H1 eq_refl) as (_ & _ & H1' & _).
  destruct H2 as (_ & H2); destruct (H2 eq_refl) as (_ & _ & _ & H2').
  split.
  - apply H1'; [reflexivity|stored_row|stored_row].
  - apply H2'.
    + reflexivity.
    + stored_row.
    + intros (d & Hin & Hd); example_rows Hin.
Defined.

(** The kitchen has no dish 7; its bread is dish 1. *)
Lemma update_dish_failures_are_exceptions_witness :
  call None kitchen (update_dish 7 "Pie" 3 [])
  = (Uncaught (Raised ProgrammingError), kitchen)
  /\ exists x,
       call None kitchen (update_dish 1 "Bread" 3 [mk_ingredient "Flour" 0 "g"])
       = (Uncaught x, kitchen).
Proof.
  pose proof (update_dish_failures_are_exceptions None kitchen 7 "Pie" 3 []) as H1.
  pose proof (update_dish_failures_are_exceptions None kitchen 1 "Bread" 3
                [mk_ingredient "Flour" 0 "g"]) as H2.
  cbv zeta in H1, H2.
  destruct H1 as (_ & H1); destruct (H1 eq_refl) as (_ & H1' & _).
  destruct H2 as (_ & H2); destruct (H2 eq_refl) as (_ & _ & H2').
  split.
  - apply H1'; reflexivity.
  - apply (H2' (mk_menu 1 "Bread" 2.5) (mk_ingredient "Flour" 0 "g") []);
      [reflexivity|reflexivity|reflexivity|right; reflexivity].
Defined.

(** The kitchen has a dish named Bread. *)
Lemma create_dish_all_or_nothing_witness :
  call None kitchen (create_dish "Bread" 9 [mk_ingredient "Rye" 300 "g"])
  = (Returned false Dish_already_exists, kitchen)
  /\ call None kitchen (create_dish "Pie" nan [mk_ingredient "Rye" 300 "g"])
     = (Returned false Dish_already_exists, kitchen).
Proof.
  pose proof (create_dish_all_or_nothing None kitchen "Bread" 9
                [mk_ingredient "Rye" 300 "g"]) as H1.
  pose proof (create_dish_all_or_nothing None kitchen "Pie" nan
                [mk_ingredient "Rye" 300 "g"]) as H2.
  cbv zeta in H1, H2.
  destruct H1 as (_ & _ & _ & H1 & _).
  destruct H2 as (_ & _ & _ & _ & H2).
  split.
  - apply H1; [reflexivity|reflexivity|vm_compute; discriminate].
  - apply H2; reflexivity.
Defined.

(** A dish of flour, which the pantry has, and of salt, which it has
    not. *)
Lemma create_dish_recipe_read_back_witness :
  let entries := [mk_ingredient "Flour" 200 "g"; mk_ingredient "Salt" 5 "g"] in
  let db' := snd (call None pantry (create_dish "Bread" 2.5 entries)) in
  In (mk_menu 1 "Bread" 2.5) (menu_inventory db')
  /\ schema_ok db'
  /\ exists views,
       run None db' (fetch_dish_ingredients 1) = (inr views, db')
       /\ map view_shows views = map entry_asks entries.
Proof.
  assert (W : schema_ok pantry) by schema_example.
  pose proof (@create_dish_recipe_read_back None pantry "Bread" 2.5
                [mk_ingredient "Flour" 200 "g"; mk_ingredient "Salt" 5 "g"]
                W eq_refl eq_refl) as H.
  cbv zeta in H; destruct H as (_ & H1 & H2 & H3).
  cbv zeta; split; [exact H1|split; [exact H2|exact H3]].
Defined.

(** The bread of the kitchen, renamed, with a recipe of sugar only. *)
Lemma update_dish_replaces_recipe_witness :
  let entries := [mk_ingredient "Sugar" 50 "g"] in
  let db' := snd (call None kitchen (update_dish 1 "Brioche" 3 entries)) in
  In (mk_menu 1 "Brioche" 3) (menu_inventory db')
  /\ schema_ok db'
  /\ (exists views,
        run None db' (fetch_dish_ingredients 1) = (inr views, db')
        /\ map view_shows views = map entry_asks entries)
  /\ filter (fun d => menu_id d =? 2) (dish_ingredients db')
     = filter (fun d => menu_id d =? 2) (dish_ingredients kitchen).
Proof.
  assert (W : schema_ok kitchen) by schema_example.
  pose proof (@update_dish_replaces_recipe None kitchen 1 "Brioche" 3
                [mk_ingredient "Sugar" 50 "g"] W eq_refl) as H.
  cbv zeta in H; destruct H as (H1 & H2 & H3 & H4).
  cbv zeta; split; [exact H1|split; [exact H2|split; [exact H3|]]].
  apply H4; discriminate.
Defined.

(** The soup of the larder needs salt, whose stock is NULL. *)
Lemma low_stock_alerts_raise_on_null_witness :
  fst (run None larder compute_low_stock_alerts) = inl (Raised TypeError)
  /\ exists alerts, fst (run None kitchen compute_low_stock_alerts) = inr alerts.
Proof.
  pose proof (low_stock_alerts_raise_on_null None larder) as H1.
  pose proof (low_stock_alerts_raise_on_null None kitchen) as H2.
  destruct H1 as (H1 & _); destruct H2 as (_ & H2 & _).
  split.
  - apply H1; eexists; split; [vm_compute; left; reflexivity|reflexivity].
  - apply H2; intros r Hin; example_rows Hin; discriminate.
Defined.

(** The two orders of the tea room are of cups. *)
Lemma fetch_orders_filters_witness :
  let found := fetched (run None tea_orders
                            (fetch_orders date_of_timestamp lower_ascii
                                          (Some "CUP") None None)) in
  Forall (fun e => entry_items e <> []) found /\ List.length found = 2%nat.
Proof.
  pose proof (fetch_orders_filters date_of_timestamp lower_ascii None tea_orders
                (Some "CUP") None None) as H.
  cbv zeta in H; destruct H as (_ & _ & _ & H & _).
  cbv zeta; split; [|vm_compute; reflexivity].
  apply Forall_forall; exact (H eq_refl).
Defined.

(** In the mill, dish 1 and dish 2 have a recipe and there is no dish 9; in
    the canteen, dish 3 has no recipe. *)
Lemma create_order_refused_line_witness :
  call None mill (create_order "2024-05-01 12:00:00" [(1, 1); (2, 0); (9, 1)])
  = (Returned false Quantity_must_be_ge_1, mill)
  /\ call None mill (create_order "2024-05-01 12:00:00" [(1, 1); (9, 1); (2, 0)])
     = (Returned false (Dish_id_not_found 9), mill)
  /\ call None canteen (create_order "2024-05-01 12:00:00" [(1, 1); (3, 2); (2, 1)])
     = (Returned false (Dish_has_no_ingredients "Water"), canteen).
Proof.
  assert (H1 : Forall (line_ok mill) [(1, 1)]).
  { constructor; [line_example|constructor]. }
  assert (H2 : Forall (line_ok canteen) [(1, 1)]).
  { constructor; [line_example|constructor]. }
  pose proof (@create_order_refused_line None "2024-05-01 12:00:00" mill
                [(1, 1)] 2 0 [(9, 1)] H1) as Ha.
  pose proof (@create_order_refused_line None "2024-05-01 12:00:00" mill
                [(1, 1)] 9 1 [(2, 0)] H1) as Hb.
  pose proof (@create_order_refused_line None "2024-05-01 12:00:00" canteen
                [(1, 1)] 3 2 [(2, 1)] H2) as Hc.
  cbv zeta in Ha, Hb, Hc.
  destruct Ha as (Ha & _); destruct Hb as (_ & Hb & _); destruct Hc as (_ & _ & Hc).
  split; [apply Ha; lia|split].
  - apply Hb; [lia|reflexivity|vm_compute; reflexivity].
  - apply (Hc (mk_menu 3 "Water" 1));
      [lia|reflexivity|vm_compute; reflexivity|vm_compute; reflexivity|].
    constructor; [line_example|constructor].
Defined.

(** The sugar of the pantry is deleted and salt is added: the salt gets the
    id 3, not the id 2 of the sugar. *)
Lemma ids_are_given_once_witness :
  let db := perform_all [(None, Delete_ingredient 2);
                         (None, Add_ingredient "Salt" 5 "g")] pantry in
  Forall (fun r => In (stock_id r) (map stock_id (stock_inventory pantry))
                   \/ forall r0, In r0 (stock_inventory pantry) ->
                                 stock_id r0 < stock_id r)
         (stock_inventory db)
  /\ map stock_id (stock_inventory db) = [1; 3].
Proof.
  assert (W : schema_ok pantry) by schema_example.
  cbv zeta; split; [|vm_compute; reflexivity].
  apply Forall_forall; intros r Hr.
  exact (proj2 (proj2 ids_are_given_once) _ pantry r W Hr).
Defined.

(** Salt is added to the pantry under the id 3 and deleted again. *)
Lemma add_then_delete_restores_stock_witness :
  let db1 := snd (call None pantry (add_ingredient "Salt" 5 "g")) in
  let db2 := snd (call None db1 (delete_ingredient_by_id 3)) in
  fst (call None db1 (delete_ingredient_by_id 3)) = Returned true Ingredient_deleted
  /\ stock_inventory db2 = stock_inventory pantry
  /\ seq_stock (sqlite_sequence db2) = 3.
Proof.
  assert (W : schema_ok pantry) by schema_example.
  pose proof (@add_then_delete_restores_stock pantry "Salt" 5 "g" W eq_refl eq_refl)
    as H.
  cbv zeta in H; destruct H as (H1 & H2 & H3 & _).
  cbv zeta; split; [exact H1|split; [exact H2|exact H3]].
Defined.
